(* ===== verification/_CoqProject ===== *)
-Q . S2P
Prelude.v
Mem.v
KString.v
Bytes.v
Spinlock.v
Layout.v
Kalloc.v
PageTable.v
Reclaim.v
KernelMap.v
Buf.v
Irq.v
Gic.v
Gicv2.v
Timer.v
Uart.v
Printk.v
Console.v
Virtio.v
Fs.v
Ext2.v
Ext2Alloc.v
Ext2File.v
Ext2Dir.v
Uaccess.v
File.v
Proc.v
ProcSpec.v
ProcRun.v
Fork.v
FirstProc.v
Syscall.v
Typing.v
Trap.v
Sched.v
ProcSteps.v
Wakeup.v
Boot.v
Structs.v
Dumps.v
Rpi4.v
Malloc.v
Shell.v
Ulib.v
Programs.v
Commands.v
ShellMain.v
