(* ===== verification/Prelude.v ===== *)
(** * aarch64-os: a verification library of the kernel and its user programs

    The program is a small Unix-like kernel for 64-bit Arm (src/kernel,
    src/include) with a shell and a few user programs (src/usr).  This library
    models its C code as Rocq functions and proves what the parts do.

    ** How the code is modelled

    - A C function is a [prog S A]: from a state it returns a value and the next
      state ([Ret]), stops the machine in [panic] ([Panic]), never returns
      ([Hang]: a spin on a lock that nobody releases, an endless loop), or
      accesses memory outside the object the code names ([Fault]).  The monad,
      its notations and equations, lenses from a component's state into its
      caller's ([zoom] runs an operation there) and machine words are below.
    - What an operation leaves alone is a class, [Keeps v m]: whenever [m] returns,
      [v] of the state is as before; its instances follow the syntax of programs,
      and [keeps_tac] does the rest.
    - A user program is an interaction tree whose events are system calls (file
      Ulib), since it need not end; it is run by interpreting the calls, with
      the kernel's routines (file Commands) or with a line of input (ShellMain).
    - An integer of C is a [Z] in the range of its type; where it can overflow the
      operation wraps it ([u8], [u16], [u32], [u64], [i32], [i64], [+u64]...).
    - Memory is a map from 64-bit addresses to bytes (file Mem), little-endian
      words are read and written with [ld] and [st].  A disk block or a C array of
      bytes is a list (file Bytes).
    - A loop that is not bounded by its text takes fuel and is [Hang] without it;
      every theorem about it says how much is enough, so that it states that the
      code returns.
    - What is not C code of the repository is a class or an argument: the disk
      ([BlockDev]), the serial port ([Pl011]), the interrupt controller ([Gic]),
      the registers of the virtio device, [cswitch], [psci_fn], the kernel's
      [sbrk] as user code sees it ([Sbrk]).  Laws, where the code relies on them,
      are a second class ([Pl011Ok], [GicOk], [SbrkOk]...), with an instance that
      obeys them.

    ** The parts, and how they use each other

    Locks and memory:
    - Spinlock: kernel/spinlock.c. Module [Spin] has [acquire], [release],
      [pushcli] and [popcli] as one CPU runs them; module [Multi] interleaves the
      instructions of several CPUs, load-exclusive and store-exclusive included,
      and relates the two. Theorems: mutual exclusion; the routines are runs of the
      steps.
    - Layout: include/memmap.h, include/mm.h. Kalloc: kernel/kalloc.c, the free
      list in the first words of the free pages; the invariant [kinv] says that
      the list in memory is a list of distinct pages. Theorems: what [kalloc] and
      [kfree] do; the lock that is kept when memory runs out.
    - PageTable and Reclaim: kernel/mm.c. A table of three levels is related
      to the finite map of its tables ([pt_ok], [mm_ok]); [hw_walk] is the
      hardware's translation. Theorems: mapping, copying an address space, giving
      everything back; lemmas for unmapping, allocation and for running out of
      memory in [pagemap], which writes through NULL.
    - KernelMap: [kpgt_init] between the two stages of the allocator. Theorem:
      the kernel's memory comes up exactly when 128 pages are free for its tables.
    - KString: kernel/string.c. Uaccess: copyin and copyout of kernel/proc.c with
      the data abort they survive.

    Disk and files:
    - Buf: kernel/buf.c over [BlockDev]. The class [BlockCache] is what the file
      system needs of it, [BlockCacheOk] its promises, discharged here: reading a
      block gives what was written last.
    - Virtio: kernel/driver/virtio.c, the descriptor table, the rings and the
      interrupt handler; with a device that serves requests it is a [BlockDev].
    - Fs, Ext2: kernel/fs.c and kernel/ext2.c as definitions. Ext2Alloc: bitmaps
      and inodes on disk. Ext2File: the bytes of a file, reading and writing them.
      Ext2Dir: directories as lists of entries, [ext2_dirlink], and the
      resolution of a path against the tree the disk denotes.
    - File: kernel/file.c and kernel/cdev.c, descriptors and the file table.
    - Structs: the C structures of the headers and the offsets that the ABI gives
      to their members; the offsets of the other files are these.

    Devices and messages:
    - Irq, Gic, Timer: the table of interrupt handlers, kernel/driver/gicv3.c,
      kernel/driver/timer.c. Gicv2: kernel/driver/gicv2.c, which is not linked.
    - Uart, Printk, Console: kernel/driver/virt/uart.c, kernel/printk.c,
      kernel/console.c. Theorems: what [printk] sends is the text of the format,
      a number read back is the number, [panic] reports on a held lock; a typed
      line reaches the reader edited.
    - Dumps: [dumpps], which Ctrl-P calls, [dump_tf] and the dumps of ext2.c, fs.c,
      elf.c and mm.c: what they print, and that they change nothing else.
    - Rpi4: kernel/font.c and kernel/driver/rpi4, the screen, the mailbox, the pins
      and the timer of another board.

    Processes:
    - Proc: kernel/proc.c and [load_prg] of kernel/mm.c as the
      process that runs sees them; [struct proc *] is an index of the table.
      ProcSpec: what the routines do, from a state with no lock held. ProcRun: new
      processes, exit, wait, kill. Fork: the whole of [fork]. FirstProc:
      [userproc_init] and the address space it makes.
    - Syscall: kernel/syscall.c, the dispatch against a table of signatures.
      Typing: the kernel's state is well-typed, pointers between its tables
      included, and every system call and turn of the scheduler keeps it so.
    - Trap: kernel/trap.c, faults of user and kernel code and the timer.
    - Sched: every critical section of [proctable.lk] is a step of a transition
      system over the whole table and all CPUs, built from the functions of Proc.
      Invariants by induction on reachability: no process on two CPUs, no dangling
      parent, no exit missed by a parent that waits. ProcSteps: the calls of Proc and
      the scheduler's loop, whole, are runs of these steps.
    - Wakeup: [sleep] on a lock, the wakeup from an interrupt handler and the
      scheduler's loops as one transition system: no wakeup is lost, and every
      request in the end returns.
    - Boot: kernel/main.c and kernel/driver/psci-if.c over the state of the whole
      machine. Theorem: from power on, [main] establishes what the theorems
      above assume.

    User code:
    - Malloc: usr/malloc.c. The ring of free blocks in memory is a sorted list
      without adjacent blocks; [free] refines the insertion into that list, and
      [malloc] never gives a byte of a block in use.
    - Shell: [parse] of usr/sh.c with [strtok] and [strchr] of usr/ulib.c;
      ShellMain: the loop of usr/sh.c, which runs the commands of its lines.
    - Ulib: usr/ulib.c over system calls. Programs: the programs of usr as trees.
      Commands: cat and ls run on the kernel's files print what the disk has.

    Calls go through the lenses: [of_kmem] (allocator and page tables),
    [of_files] (descriptors of a process) and the file system's state inside the
    kernel's [kst], whose block cache is any [BlockCache]; [of_console],
    [of_virtio] and the others inside the machine of Boot.

    ** What the theorems show

    A theorem numbered C<n> states a property of the code; the lemma of the same
    name with [_witness] applies it to concrete data. Safety and invariants:
    mutual exclusion, one CPU per process, no orphan, no missed exit, no lost
    wakeup, copyout survives any user pointer, malloc keeps blocks apart, boot
    establishes the invariants. Types: the kernel's state stays well-typed.
    Functional behaviour with every branch: exit, fork, wait, new processes,
    address spaces, files, directories, the console, printk, traps, the interrupt
    controller, the command line. Refinement and equivalence: buffers against the
    disk, the virtio driver as a disk, paths against the tree, system calls
    against their signatures, free against insertion, processes against the
    scheduler's steps, the shell against the session of its lines. Termination and
    liveness: cat ends on any file; a request to the disk returns. Round trips:
    inodes, file contents, numbers. Errors: each theorem of kind error shows what
    the code does where it goes wrong; the remaining defects found are lemmas of
    the files concerned.

    ** Bounds and fuel

    Fuel is an argument ([find_slot], [strtok], loops over strings and waits) or
    the size of the table the loop runs over ([NBUF], [NPROC], [NOFILE], 512
    entries of a page table, three levels for [free_table]). The number of times
    a process is woken in [wait] and of interrupts that arrive are arguments of
    the theorems. Boot needs one turn of fuel more than the 65536 pages of RAM and
    than the redistributor's time to wake. A line of the shell has at most
    128 characters, and less than 8 words where the theorems speak of its
    commands, since the arrays of usr/sh.c hold no more. Sizes and addresses are
    bounded where a theorem says so (descriptors and numbers of processes below
    2^31, pages inside the RAM the allocator manages).

    ** Not modelled

    - Assembly: boot.S, vectortable.S, cswitch.S, psci.S, and register accesses of
      include/aarch64.h other than those the models name. What boot.S leaves to
      [main] is a hypothesis ([powered]).
    - Of kernel/driver/rpi4: systimer1_init and its interrupt handler, which nothing
      calls, and gpio_pull, which is empty.
    - Messages of kinfo, which are empty unless the kernel is built with KDBG.
    - The programs of usr that try out a fault, sbrk, malloc and threads (bug, heap,
      malloctest, thread, thbench) and pwd, which is empty.
    - Weak memory: the interleaving of [Multi] is sequentially consistent apart
      from the exclusive monitor. The routines of Proc run alone between two
      critical sections; ProcSteps relates them to the steps of Sched, which are
      interleaved at the grain of [proctable.lk]. *)

From stdpp Require Export base tactics numbers list option strings gmap.
From Stdlib Require Export ZArith Lia.

#[export] Set Default Goal Selector "!".

(** ** Outcomes of kernel code

    A call returns with a value and the new state, stops the machine in
    [panic], never returns (a spin on a lock nobody releases, an endless
    loop), or accesses memory outside the object the C code names. *)

Inductive outcome (S A : Type) : Type :=
| Ret (a : A) (s : S)
| Panic (why : string)
| Hang
| Fault (why : string).

Arguments Ret {S A} a s.
Arguments Panic {S A} why.
Arguments Hang {S A}.
Arguments Fault {S A} why.

Definition prog (S A : Type) : Type := S → outcome S A.

Definition ret {S A} (a : A) : prog S A := λ s, Ret a s.
Definition panic {S A} (why : string) : prog S A := λ _, Panic why.
Definition fault {S A} (why : string) : prog S A := λ _, Fault why.
Definition get {S} : prog S S := λ s, Ret s s.
Definition put {S} (s' : S) : prog S unit := λ _, Ret tt s'.
Definition gets {S A} (f : S → A) : prog S A := λ s, Ret (f s) s.
Definition modify {S} (f : S → S) : prog S unit := λ s, Ret tt (f s).

Definition pbind {S A B} (m : prog S A) (f : A → prog S B) : prog S B :=
  λ s, match m s with
       | Ret a s' => f a s'
       | Panic w => Panic w
       | Hang => Hang
       | Fault w => Fault w
       end.

Declare Scope prog_scope.
Delimit Scope prog_scope with prog.
Notation "x <- m ;; k" := (pbind m (λ x, k))
  (at level 100, m at next level, k at level 200, right associativity) : prog_scope.
Notation "m ;; k" := (pbind m (λ _, k))
  (at level 100, k at level 200, right associativity) : prog_scope.

(** ** Equations of the monad *)

Section monad.
Context {S A B C : Type}.
Implicit Types (m : prog S A) (f : A → prog S B) (g : B → prog S C) (s : S).

Lemma pbind_ret_l a f s : pbind (ret a) f s = f a s.
Proof. done. Qed.

Lemma pbind_ret_r m s : pbind m ret s = m s.
Proof. unfold pbind, ret. by destruct (m s). Qed.

Lemma pbind_assoc m f g s :
  pbind (pbind m f) g s = pbind m (λ a, pbind (f a) g) s.
Proof. unfold pbind. by destruct (m s). Qed.

Lemma pbind_ok m f s a s' : m s = Ret a s' → pbind m f s = f a s'.
Proof. unfold pbind. by intros ->. Qed.

Lemma pbind_panic m f s w : m s = Panic w → pbind m f s = Panic w.
Proof. unfold pbind. by intros ->. Qed.

Lemma pbind_hang m f s : m s = Hang → pbind m f s = Hang.
Proof. unfold pbind. by intros ->. Qed.

Lemma pbind_fault m f s w : m s = Fault w → pbind m f s = Fault w.
Proof. unfold pbind. by intros ->. Qed.

Lemma pbind_gets (h : S → A) f s : pbind (gets h) f s = f (h s) s.
Proof. done. Qed.

Lemma pbind_get (k : S → prog S B) s : pbind get k s = k s s.
Proof. done. Qed.

Lemma pbind_modify (h : S → S) (k : unit → prog S B) s : pbind (modify h) k s = k tt (h s).
Proof. done. Qed.

Lemma pbind_put (k : unit → prog S B) s s' : pbind (put s') k s = k tt s'.
Proof. done. Qed.

Lemma pbind_panic_l w f s : pbind (panic w) f s = Panic w.
Proof. done. Qed.

Lemma pbind_fault_l w f s : pbind (fault w) f s = Fault w.
Proof. done. Qed.

Lemma pbind_inv m f s b s'' :
  pbind m f s = Ret b s'' → ∃ a s', m s = Ret a s' ∧ f a s' = Ret b s''.
Proof. unfold pbind. destruct (m s); naive_solver. Qed.
End monad.

(** Runs the primitives at the head of a program. *)
Ltac prog_step :=
  first [ rewrite pbind_ret_l | rewrite pbind_gets | rewrite pbind_get
        | rewrite pbind_modify | rewrite pbind_put | rewrite pbind_panic_l
        | rewrite pbind_fault_l | rewrite pbind_assoc ]; cbv beta.
Ltac prog_steps := repeat prog_step.

(** Runs the call at the head of a program, given the equation of its run. *)
Tactic Notation "prog_call" uconstr(E) := erewrite pbind_ok; [|eapply E]; cbv beta.

(** [wp m s Q]: from [s] the program returns, and in a state that satisfies
    [Q]: a total-correctness judgement, so panics, hangs and faults are all
    excluded. *)
Definition wp {S A} (m : prog S A) (s : S) (Q : A → S → Prop) : Prop :=
  match m s with Ret a s' => Q a s' | _ => False end.

Section wp.
Context {S A B : Type}.
Implicit Types (m : prog S A) (s : S).

Lemma wp_intro m s a s' (Q : A → S → Prop) : m s = Ret a s' → Q a s' → wp m s Q.
Proof. unfold wp. by intros ->. Qed.

Lemma wp_elim m s (Q : A → S → Prop) : wp m s Q → ∃ a s', m s = Ret a s' ∧ Q a s'.
Proof. unfold wp. destruct (m s); naive_solver. Qed.

Lemma wp_mono m s (Q Q' : A → S → Prop) :
  wp m s Q → (∀ a s', Q a s' → Q' a s') → wp m s Q'.
Proof. unfold wp. destruct (m s); naive_solver. Qed.

Lemma wp_bind m (f : A → prog S B) s (Q : B → S → Prop) :
  wp m s (λ a s', wp (f a) s' Q) → wp (pbind m f) s Q.
Proof. unfold wp, pbind. by destruct (m s). Qed.

Lemma wp_ret (a : A) s (Q : A → S → Prop) : Q a s → wp (ret a) s Q.
Proof. done. Qed.
End wp.

(** ** Components inside a larger state

    A component's operations are programs over its own state; a lens says
    where that state sits in the caller's, and [zoom] runs the operation there. *)

Record lens (S T : Type) := Lens { lget : S → T; lset : T → S → S }.
Arguments Lens {S T} _ _.
Arguments lget {S T} _ _.
Arguments lset {S T} _ _ _.

Class LensLaws {S T} (l : lens S T) : Prop := {
  lget_lset : ∀ t s, lget l (lset l t s) = t;
  lset_lget : ∀ s, lset l (lget l s) s = s;
  lset_lset : ∀ t t' s, lset l t (lset l t' s) = lset l t s;
}.

Definition zoom {S T A} (l : lens S T) (m : prog T A) : prog S A :=
  λ s, match m (lget l s) with
       | Ret a t => Ret a (lset l t s)
       | Panic w => Panic w
       | Hang => Hang
       | Fault w => Fault w
       end.

Lemma zoom_ok {S T A} (l : lens S T) (m : prog T A) s a t :
  m (lget l s) = Ret a t → zoom l m s = Ret a (lset l t s).
Proof. unfold zoom. by intros ->. Qed.

Lemma zoom_panic {S T A} (l : lens S T) (m : prog T A) s w :
  m (lget l s) = Panic w → zoom l m s = Panic w.
Proof. unfold zoom. by intros ->. Qed.

Lemma zoom_hang {S T A} (l : lens S T) (m : prog T A) s :
  m (lget l s) = Hang → zoom l m s = Hang.
Proof. unfold zoom. by intros ->. Qed.

Lemma zoom_bind {S T A B} (l : lens S T) `{!LensLaws l} (m : prog T A) (f : A → prog T B) s :
  zoom l (pbind m f) s = pbind (zoom l m) (λ a, zoom l (f a)) s.
Proof.
  unfold zoom, pbind. destruct (m (lget l s)); try done.
  rewrite lget_lset. destruct (f a s0); try done. by rewrite lset_lset.
Qed.

(** *** Programs that leave a part of the state alone

    [v] is what one looks at: a component, or several. *)

Class Keeps {S V A} (v : S → V) (m : prog S A) : Prop := keeps : ∀ s a s', m s = Ret a s' → v s' = v s.

Section keeps.
Context {S V : Type} (v : S → V).

#[export] Instance keeps_ret {A} (a : A) : Keeps v (ret a).
Proof. by intros s a' s' [= <- <-]. Qed.
#[export] Instance keeps_gets {A} (f : S → A) : Keeps v (gets f).
Proof. by intros s a' s' [= <- <-]. Qed.
#[export] Instance keeps_get : Keeps v get.
Proof. by intros s a' s' [= <- <-]. Qed.
#[export] Instance keeps_panic {A} w : Keeps v (panic (A := A) w).
Proof. by intros s a' s'. Qed.
#[export] Instance keeps_fault {A} w : Keeps v (fault (A := A) w).
Proof. by intros s a' s'. Qed.
#[export] Instance keeps_hang {A} : Keeps v (λ _, Hang (A := A)).
Proof. by intros s a' s'. Qed.
#[export] Instance keeps_bind {A B} (m : prog S A) (f : A → prog S B) : Keeps v m → (∀ a, Keeps v (f a)) → Keeps v (pbind m f).
Proof. intros Hm Hf s b s' (a & s1 & E1 & E2)%pbind_inv. by rewrite (Hf a _ _ _ E2), (Hm _ _ _ E1). Qed.

(** An operation of a component, and an assignment. *)
Lemma keeps_zoom {T A} (l : lens S T) (m : prog T A) : (∀ t s, v (lset l t s) = v s) → Keeps v (zoom l m).
Proof. intros Hl s a s'. unfold zoom. destruct (m (lget l s)); try done. intros [= _ <-]. apply Hl. Qed.
Lemma keeps_modify (f : S → S) : (∀ s, v (f s) = v s) → Keeps v (modify f).
Proof. intros Hf s a s' [= _ <-]. apply Hf. Qed.
End keeps.

(** Follows the text of a program. *)
Ltac keeps_tac :=
  repeat first
    [ apply keeps_bind; [|intros ?] | apply _ | apply keeps_modify; intros ?; reflexivity
    | match goal with |- Keeps _ (match ?x with _ => _ end) => destruct x end
    | progress cbv zeta ].

(** ** Machine words

    A C integer of width [w] is the integer it denotes; arithmetic that can
    overflow is wrapped by the function of its type. *)

Declare Scope word_scope.
Delimit Scope word_scope with word.
Open Scope Z_scope.

Coercion Z.of_nat : nat >-> Z.

Definition u8 (x : Z) : Z := x mod 2 ^ 8.
Definition u16 (x : Z) : Z := x mod 2 ^ 16.
Definition u32 (x : Z) : Z := x mod 2 ^ 32.
Definition u64 (x : Z) : Z := x mod 2 ^ 64.
Definition i32 (x : Z) : Z := (x + 2 ^ 31) mod 2 ^ 32 - 2 ^ 31.
Definition i64 (x : Z) : Z := (x + 2 ^ 63) mod 2 ^ 64 - 2 ^ 63.

Notation "x +u32 y" := (u32 (x + y)) (at level 50, left associativity) : word_scope.
Notation "x -u32 y" := (u32 (x - y)) (at level 50, left associativity) : word_scope.
Notation "x +u64 y" := (u64 (x + y)) (at level 50, left associativity) : word_scope.
Notation "x -u64 y" := (u64 (x - y)) (at level 50, left associativity) : word_scope.
Open Scope word_scope.

(** C's truth value of an integer. *)
Definition nz (x : Z) : bool := negb (x =? 0).

(** [lia] with division and remainder by constants. *)
Ltac zlia := Z.to_euclidean_division_equations; lia.

Section words.
Implicit Types x y n : Z.

Lemma u8_bound x : 0 <= u8 x < 256.
Proof. by apply Z.mod_pos_bound. Qed.
Lemma u16_bound x : 0 <= u16 x < 2 ^ 16.
Proof. by apply Z.mod_pos_bound. Qed.
Lemma u32_bound x : 0 <= u32 x < 2 ^ 32.
Proof. by apply Z.mod_pos_bound. Qed.
Lemma u64_bound x : 0 <= u64 x < 2 ^ 64.
Proof. by apply Z.mod_pos_bound. Qed.
Lemma i32_bound x : - 2 ^ 31 <= i32 x < 2 ^ 31.
Proof. unfold i32. pose proof (Z.mod_pos_bound (x + 2 ^ 31) (2 ^ 32)). lia. Qed.

Lemma i64_bound x : - 2 ^ 63 <= i64 x < 2 ^ 63.
Proof. unfold i64. pose proof (Z.mod_pos_bound (x + 2 ^ 63) (2 ^ 64)). lia. Qed.

Lemma u8_small x : 0 <= x < 256 → u8 x = x.
Proof. unfold u8. intros. by apply Z.mod_small. Qed.
Lemma u16_small x : 0 <= x < 2 ^ 16 → u16 x = x.
Proof. unfold u16. intros. by apply Z.mod_small. Qed.
Lemma u32_small x : 0 <= x < 2 ^ 32 → u32 x = x.
Proof. unfold u32. intros. by apply Z.mod_small. Qed.
Lemma u64_small x : 0 <= x < 2 ^ 64 → u64 x = x.
Proof. unfold u64. intros. by apply Z.mod_small. Qed.
Lemma i32_small x : - 2 ^ 31 <= x < 2 ^ 31 → i32 x = x.
Proof. unfold i32. intros. rewrite Z.mod_small; lia. Qed.

Lemma i64_small x : - 2 ^ 63 <= x < 2 ^ 63 → i64 x = x.
Proof. unfold i64. intros. rewrite Z.mod_small; lia. Qed.

Lemma nz_true x : nz x = true ↔ x ≠ 0.
Proof. unfold nz. rewrite negb_true_iff, Z.eqb_neq. done. Qed.
Lemma nz_false x : nz x = false ↔ x = 0.
Proof. unfold nz. rewrite negb_false_iff, Z.eqb_eq. done. Qed.

(** A mask of [2^n - 1] low bits is the remainder by [2^n]. *)
Lemma land_low x n : 0 <= n → Z.land x (2 ^ n - 1) = x mod 2 ^ n.
Proof. intros. rewrite <- Z.land_ones by done. by rewrite Z.ones_equiv. Qed.

(** Clearing the [n] low bits. *)
Lemma land_lnot_low x n : 0 <= n → Z.land x (Z.lnot (2 ^ n - 1)) = x - x mod 2 ^ n.
Proof.
  intros Hn. rewrite <- Z.ldiff_land.
  replace (2 ^ n - 1) with (Z.ones n) by (rewrite Z.ones_equiv; lia).
  rewrite Z.ldiff_ones_r, Z.shiftl_mul_pow2, Z.shiftr_div_pow2 by done.
  pose proof (Z_div_mod_eq_full x (2 ^ n)). lia.
Qed.

(** Two words with no bit in common: or is sum. *)
Lemma lor_disjoint_add x y : Z.land x y = 0 → Z.lor x y = x + y.
Proof. intros H. rewrite <- Z.lxor_lor, Z.add_nocarry_lxor by done. done. Qed.

(** The low bits of an aligned word are free. *)
Lemma land_aligned_low x y n : 0 <= n → x mod 2 ^ n = 0 → 0 <= y < 2 ^ n → Z.land x y = 0.
Proof.
  intros Hn Hx Hy. rewrite <- (Z.mod_small y (2 ^ n)), <- Z.land_ones by done.
  rewrite (Z.land_comm y), Z.land_assoc, Z.land_ones, Hx by done. apply Z.land_0_l.
Qed.

Lemma lor_aligned_low x y n : 0 <= n → x mod 2 ^ n = 0 → 0 <= y < 2 ^ n → Z.lor x y = x + y.
Proof. intros. by eapply lor_disjoint_add, land_aligned_low. Qed.

(** Or of two words of [n] bits is a word of [n] bits. *)
Lemma lor_bound x y n : 0 <= n → 0 <= x < 2 ^ n → 0 <= y < 2 ^ n → 0 <= Z.lor x y < 2 ^ n.
Proof.
  intros Hn Hx Hy. assert (E : Z.lor x y = Z.lor x y mod 2 ^ n).
  { rewrite <- Z.land_ones, Z.land_lor_distr_l, !Z.land_ones, !Z.mod_small by done. done. }
  rewrite E. apply Z.mod_pos_bound. lia.
Qed.

Lemma land_nonneg_bound x y : 0 <= x → 0 <= Z.land x y <= x.
Proof.
  intros Hx. split; [apply Z.land_nonneg; by left|].
  rewrite <- (Z.lor_ldiff_and x y) at 2.
  assert (0 <= Z.ldiff x y) by (apply Z.ldiff_nonneg; by left).
  assert (0 <= Z.land x y) by (apply Z.land_nonneg; by left).
  rewrite lor_disjoint_add; [lia|].
  apply Z.bits_inj'. intros i Hi. rewrite !Z.land_spec, Z.ldiff_spec, Z.bits_0.
  by destruct (Z.testbit x i), (Z.testbit y i).
Qed.
End words.

Create HintDb word.
Create Rewrite HintDb word.
#[export] Hint Resolve u8_bound u16_bound u32_bound u64_bound i32_bound i64_bound : word.
#[export] Hint Rewrite u8_small u16_small u32_small u64_small i32_small i64_small using lia : word.
