(* ===== verification/Mem.v ===== *)
(** * Byte-addressed memory

    The store that C pointers of the kernel point into: an address is the
    64-bit number the pointer holds, a byte is a number below 256, and words
    are little-endian.  Byte-wise equal memories are identified by a setoid. *)

From S2P Require Import Prelude.

Abbreviation mem := (gmap Z Z).

(** A byte nothing was stored to reads as zero (the kernel's RAM is cleared). *)
Definition rd8 (m : mem) (a : Z) : Z := u8 (default 0 (m !! a)).
Definition wr8 (m : mem) (a v : Z) : mem := <[a := u8 v]> m.

(** Little-endian load and store of [n] bytes. *)
Fixpoint ld (n : nat) (m : mem) (a : Z) : Z :=
  match n with
  | O => 0
  | S n => rd8 m a + 256 * ld n m (a + 1)
  end.

Fixpoint st (n : nat) (m : mem) (a v : Z) : mem :=
  match n with
  | O => m
  | S n => st n (wr8 m a v) (a + 1) (v / 256)
  end.

Abbreviation ld16 := (ld 2).
Abbreviation ld32 := (ld 4).
Abbreviation ld64 := (ld 8).
Abbreviation st16 := (st 2).
Abbreviation st32 := (st 4).
Abbreviation st64 := (st 8).

(** ** Byte-wise equality *)

#[export] Instance mem_equiv : Equiv mem := λ m1 m2, ∀ a, rd8 m1 a = rd8 m2 a.

#[export] Instance mem_equivalence : Equivalence (≡@{mem}).
Proof.
  split.
  - by intros m a.
  - intros m1 m2 H a. by rewrite (H a).
  - intros m1 m2 m3 H1 H2 a. by rewrite (H1 a), (H2 a).
Qed.

Section bytes.
Implicit Types (m : mem) (a b v : Z) (n : nat).

Lemma rd8_bound m a : 0 <= rd8 m a < 256.
Proof. apply u8_bound. Qed.

Lemma rd8_wr8 m a v b : rd8 (wr8 m a v) b = if decide (a = b) then u8 v else rd8 m b.
Proof.
  unfold rd8, wr8. case_decide as H.
  - subst. rewrite lookup_insert_eq. simpl. apply Zmod_mod.
  - by rewrite lookup_insert_ne.
Qed.

Lemma rd8_wr8_eq m a v : rd8 (wr8 m a v) a = u8 v.
Proof. rewrite rd8_wr8. by case_decide. Qed.

Lemma rd8_wr8_ne m a v b : a ≠ b → rd8 (wr8 m a v) b = rd8 m b.
Proof. intros. rewrite rd8_wr8. by case_decide. Qed.

#[export] Instance rd8_proper : Proper ((≡) ==> (=) ==> (=)) rd8.
Proof. intros m1 m2 H a ? <-. apply H. Qed.

#[export] Instance wr8_proper : Proper ((≡) ==> (=) ==> (=) ==> (≡)) wr8.
Proof. intros m1 m2 H a ? <- v ? <- b. rewrite !rd8_wr8. by case_decide. Qed.

Lemma wr8_comm m a v b w : a ≠ b → wr8 (wr8 m a v) b w ≡ wr8 (wr8 m b w) a v.
Proof.
  intros Hab c. rewrite !rd8_wr8. repeat case_decide; congruence.
Qed.

(** ** Words *)

Lemma ld_ext n m1 m2 a :
  (∀ i, a <= i < a + n → rd8 m1 i = rd8 m2 i) → ld n m1 a = ld n m2 a.
Proof.
  revert a. induction n as [|n IH]; intros a H; [done|]. simpl.
  rewrite (H a) by lia. rewrite (IH (a + 1)); [done|].
  intros i Hi. apply H. lia.
Qed.

#[export] Instance ld_proper n : Proper ((≡) ==> (=) ==> (=)) (ld n).
Proof. intros m1 m2 H a ? <-. apply ld_ext. intros. apply H. Qed.

Lemma ld_bound n m a : 0 <= ld n m a < 256 ^ n.
Proof.
  revert a. induction n as [|n IH]; intros a; simpl ld; [lia|].
  rewrite Nat2Z.inj_succ, Z.pow_succ_r by lia.
  pose proof (rd8_bound m a). pose proof (IH (a + 1)). lia.
Qed.

Lemma ld_zero n m a : (∀ i, a <= i < a + n → rd8 m i = 0) → ld n m a = 0.
Proof.
  revert a. induction n as [|n IH]; intros a H; simpl ld; [done|].
  rewrite (H a) by lia. rewrite IH; [done|]. intros i Hi. apply H. lia.
Qed.

Lemma rd8_st_other n m a v b : ¬ (a <= b < a + n) → rd8 (st n m a v) b = rd8 m b.
Proof.
  revert m a v. induction n as [|n IH]; intros m a v Hb; simpl; [done|].
  rewrite IH by lia. apply rd8_wr8_ne. lia.
Qed.

#[export] Instance st_proper n : Proper ((≡) ==> (=) ==> (=) ==> (≡)) (st n).
Proof.
  intros m1 m2 H a ? <- v ? <-. revert m1 m2 H a v.
  induction n as [|n IH]; intros m1 m2 H a v; simpl; [done|].
  apply IH. by rewrite H.
Qed.

Lemma ld_st_eq n m a v : ld n (st n m a v) a = v mod 256 ^ n.
Proof.
  revert m a v. induction n as [|n IH]; intros m a v; simpl ld; simpl st.
  - by rewrite Z.pow_0_r, Z.mod_1_r.
  - rewrite IH, rd8_st_other, rd8_wr8_eq by lia.
    rewrite Nat2Z.inj_succ, Z.pow_succ_r by lia.
    assert (0 < 256 ^ n) by (apply Z.pow_pos_nonneg; lia).
    rewrite (Z.rem_mul_r v 256 (256 ^ n)) by lia. done.
Qed.

Lemma ld_st_disj n n' m a v b :
  b + n <= a ∨ a + n' <= b → ld n (st n' m a v) b = ld n m b.
Proof. intros H. apply ld_ext. intros i Hi. apply rd8_st_other. lia. Qed.
End bytes.

Create Rewrite HintDb mem.
#[export] Hint Rewrite ld_st_eq : mem.
#[export] Hint Rewrite ld_st_disj using lia : mem.

Arguments ld : simpl never.
Arguments st : simpl never.
Arguments rd8 : simpl never.
Arguments wr8 : simpl never.
