(* ===== verification/KString.v ===== *)
(** * String routines (kernel/string.c)

    The routines run over the byte memory of [Mem]; plain [char] is unsigned
    on AArch64.  Loops over a NUL-terminated string take [fuel]: the program
    hangs when no NUL is met within it, and every theorem gives the fuel that
    is enough. *)

From S2P Require Import Prelude Mem.
Open Scope Z_scope.
Open Scope prog_scope.

(** ** Blocks of memory *)

(** [while(n-- > 0) *d++ = *s++;] *)
Fixpoint copy_fwd (n : nat) (m : mem) (d s : Z) : mem :=
  match n with
  | O => m
  | S n => copy_fwd n (wr8 m d (rd8 m s)) (d + 1) (s + 1)
  end.

(** [while(n-- > 0) *--d = *--s;] *)
Fixpoint copy_bwd (n : nat) (m : mem) (d s : Z) : mem :=
  match n with
  | O => m
  | S n => copy_bwd n (wr8 m (d - 1) (rd8 m (s - 1))) (d - 1) (s - 1)
  end.

Definition memmove (dst src n : Z) : prog mem Z := λ m,
  if src >? dst
  then Ret dst (copy_fwd (Z.to_nat n) m dst src)
  else Ret dst (copy_bwd (Z.to_nat n) m (dst + n) (src + n)).

Definition memcpy (dst src n : Z) : prog mem Z := memmove dst src n.

(** [while(n-- > 0) *d++ = c;] *)
Fixpoint fill (n : nat) (m : mem) (d c : Z) : mem :=
  match n with
  | O => m
  | S n => fill n (wr8 m d c) (d + 1) c
  end.

Definition memset (dst c n : Z) : prog mem Z := λ m,
  Ret dst (fill (Z.to_nat n) m dst c).

(** ** NUL-terminated strings *)

Fixpoint strcpy_loop (fuel : nat) (dst src : Z) (m : mem) : outcome mem unit :=
  match fuel with
  | O => Hang
  | S fuel =>
      let c := rd8 m src in
      let m' := wr8 m dst c in
      if nz c then strcpy_loop fuel (dst + 1) (src + 1) m' else Ret tt m'
  end.

Definition strcpy (fuel : nat) (dst src : Z) : prog mem Z :=
  strcpy_loop fuel dst src ;; ret dst.

Fixpoint strcmp (fuel : nat) (s1 s2 : Z) (m : mem) : outcome mem Z :=
  match fuel with
  | O => Hang
  | S fuel =>
      if nz (rd8 m s1) && (rd8 m s1 =? rd8 m s2)
      then strcmp fuel (s1 + 1) (s2 + 1) m
      else Ret (rd8 m s1 - rd8 m s2) m
  end.

Fixpoint strncmp (fuel : nat) (s1 s2 len : Z) (m : mem) : outcome mem Z :=
  match fuel with
  | O => Hang
  | S fuel =>
      if nz (rd8 m s1) && (rd8 m s1 =? rd8 m s2) && (len >? 0)
      then strncmp fuel (s1 + 1) (s2 + 1) (len - 1) m
      else if len =? 0 then Ret 0 m
      else Ret (rd8 m s1 - rd8 m s2) m
  end.

Fixpoint strlen_loop (fuel : nat) (s i : Z) (m : mem) : outcome mem Z :=
  match fuel with
  | O => Hang
  | S fuel => if nz (rd8 m s) then strlen_loop fuel (s + 1) (i +u64 1) m else Ret i m
  end.

Definition strlen (fuel : nat) (s : Z) : prog mem Z := strlen_loop fuel s 0.

(** ** What the strings denote *)

(** The bytes [l] followed by a NUL are stored at [a]. *)
Fixpoint cstr (m : mem) (a : Z) (l : list Z) : Prop :=
  match l with
  | [] => rd8 m a = 0
  | c :: l => rd8 m a = c ∧ c ≠ 0 ∧ cstr m (a + 1) l
  end.

#[export] Instance cstr_dec m a l : Decision (cstr m a l).
Proof. revert a. induction l; intros a'; simpl; apply _. Defined.

(** Three-way comparison of two strings, the terminating NUL counting as 0. *)
Fixpoint lcmp (l1 l2 : list Z) : Z :=
  match l1, l2 with
  | [], [] => 0
  | [], c :: _ => 0 - c
  | c :: _, [] => c - 0
  | c1 :: l1, c2 :: l2 => if c1 =? c2 then lcmp l1 l2 else c1 - c2
  end.

(** ** Blocks: specifications *)

Section blocks.
Implicit Types (m : mem) (a d s c : Z) (n : nat).

Lemma rd8_copy_fwd n m d s a :
  d < s →
  rd8 (copy_fwd n m d s) a =
    if decide (d <= a < d + n) then rd8 m (s + (a - d)) else rd8 m a.
Proof.
  revert m d s. induction n as [|n IH]; intros m d s Hds; simpl copy_fwd.
  - case_decide; [lia|done].
  - rewrite IH by lia.
    destruct (decide (a = d)) as [->|Had].
    + rewrite decide_False, decide_True by lia.
      rewrite rd8_wr8_eq, u8_small by apply rd8_bound. f_equal. lia.
    + repeat case_decide; try lia.
      * rewrite rd8_wr8_ne by lia. f_equal. lia.
      * by rewrite rd8_wr8_ne by lia.
Qed.

Lemma rd8_copy_bwd n m d s a :
  s <= d →
  rd8 (copy_bwd n m d s) a =
    if decide (d - n <= a < d) then rd8 m (s + (a - d)) else rd8 m a.
Proof.
  revert m d s. induction n as [|n IH]; intros m d s Hds; simpl copy_bwd.
  - case_decide; [lia|done].
  - rewrite IH by lia.
    destruct (decide (a = d - 1)) as [->|Had].
    + rewrite decide_False, decide_True by lia.
      rewrite rd8_wr8_eq, u8_small by apply rd8_bound. f_equal. lia.
    + repeat case_decide; try lia.
      * rewrite rd8_wr8_ne by lia. f_equal. lia.
      * by rewrite rd8_wr8_ne by lia.
Qed.

Lemma rd8_fill n m d c a :
  rd8 (fill n m d c) a = if decide (d <= a < d + n) then u8 c else rd8 m a.
Proof.
  revert m d. induction n as [|n IH]; intros m d; simpl fill.
  - case_decide; [lia|done].
  - rewrite IH. destruct (decide (a = d)) as [->|].
    + rewrite decide_False, decide_True by lia. apply rd8_wr8_eq.
    + repeat case_decide; try lia. by rewrite rd8_wr8_ne by lia.
Qed.

(** The memory [memmove] leaves, as a function of the one it found. *)
Lemma memmove_run dst src (n : Z) m :
  0 <= n →
  ∃ m', memmove dst src n m = Ret dst m' ∧
    ∀ a, rd8 m' a =
      if decide (dst <= a < dst + n) then rd8 m (src + (a - dst)) else rd8 m a.
Proof.
  intros Hn. unfold memmove. destruct (src >? dst) eqn:E; eexists; split; try done.
  - intros a. rewrite rd8_copy_fwd by lia. repeat case_decide; try lia; done.
  - intros a. rewrite rd8_copy_bwd by lia.
    repeat case_decide; try lia; try done; f_equal; lia.
Qed.

Lemma memset_run dst c (n : Z) m :
  0 <= n →
  ∃ m', memset dst c n m = Ret dst m' ∧
    ∀ a, rd8 m' a = if decide (dst <= a < dst + n) then u8 c else rd8 m a.
Proof.
  intros Hn. eexists; split; [done|]. intros a. rewrite rd8_fill.
  repeat case_decide; lia.
Qed.
End blocks.

(** ** Strings: specifications *)

Section strings.
Implicit Types (m : mem) (a : Z) (l : list Z) (fuel : nat).

Lemma cstr_ext m m' a l :
  (∀ i, a <= i <= a + length l → rd8 m' i = rd8 m i) → cstr m a l → cstr m' a l.
Proof.
  revert a. induction l as [|c l IH]; intros a H; simpl in *.
  - by rewrite (H a) by lia.
  - rewrite (H a) by lia. intros (? & ? & ?). split_and!; try done.
    apply IH; [|done]. intros i Hi. apply H. lia.
Qed.

Lemma cstr_inj m a l1 l2 : cstr m a l1 → cstr m a l2 → l1 = l2.
Proof.
  revert a l2. induction l1 as [|c l1 IH]; intros a [|c' l2]; simpl;
    intros; destruct_and?; try congruence.
  f_equal; [congruence|eauto].
Qed.

Lemma strlen_loop_run fuel m a i l :
  cstr m a l → (length l < fuel)%nat → 0 <= i → i + length l < 2 ^ 64 →
  strlen_loop fuel a i m = Ret (i + length l) m.
Proof.
  revert fuel a i. induction l as [|c l IH]; intros [|fuel] a i Hs Hf Hi Hb; simpl in *; try lia.
  - rewrite Hs. simpl. f_equal. lia.
  - destruct Hs as (<- & Hc & Hs). rewrite (proj2 (nz_true _) Hc).
    rewrite u64_small by lia. rewrite IH by (done || lia). f_equal. lia.
Qed.

Lemma strcmp_run fuel m a b l1 l2 :
  cstr m a l1 → cstr m b l2 → (length l1 < fuel)%nat →
  strcmp fuel a b m = Ret (lcmp l1 l2) m.
Proof.
  revert fuel a b l2.
  induction l1 as [|c1 l1 IH]; intros [|fuel] a b l2 H1 H2 Hf; simpl in Hf; try lia.
  - simpl in H1. simpl. rewrite H1. simpl. destruct l2; simpl in *.
    + by rewrite H2.
    + by destruct H2 as (-> & _).
  - destruct H1 as (E1 & Hc & H1). simpl. rewrite E1, (proj2 (nz_true _) Hc). simpl.
    destruct l2 as [|c2 l2].
    + simpl in H2. rewrite H2. destruct (c1 =? 0) eqn:E; [lia|]. done.
    + destruct H2 as (E2 & ? & H2). rewrite E2. simpl.
      destruct (c1 =? c2) eqn:E; [|done]. apply IH; (done || lia).
Qed.

Lemma lcmp_take_0 l1 l2 : lcmp (take 0 l1) (take 0 l2) = 0.
Proof. done. Qed.

Lemma strncmp_run fuel m a b l1 l2 (n : nat) :
  cstr m a l1 → cstr m b l2 → (length l1 < fuel)%nat →
  strncmp fuel a b n m = Ret (lcmp (take n l1) (take n l2)) m.
Proof.
  revert fuel a b l2 n.
  induction l1 as [|c1 l1 IH]; intros [|fuel] a b l2 n H1 H2 Hf; simpl in Hf; try lia.
  - simpl in H1. cbn [strncmp]. rewrite H1. simpl.
    destruct n; [by destruct l2|]. simpl. destruct l2; simpl in *.
    + by rewrite H2.
    + by destruct H2 as (-> & _).
  - destruct H1 as (E1 & Hc & H1). cbn [strncmp]. rewrite E1, (proj2 (nz_true _) Hc).
    destruct n as [|n].
    { rewrite andb_false_r. done. }
    replace (Z.of_nat (S n) >? 0) with true by done. rewrite andb_true_r, andb_true_l.
    destruct l2 as [|c2 l2].
    + simpl in H2. rewrite H2. destruct (c1 =? 0) eqn:E; [lia|]. done.
    + destruct H2 as (E2 & ? & H2). rewrite E2. cbn [take lcmp].
      destruct (c1 =? c2) eqn:E; [|done].
      replace (Z.of_nat (S n) - 1) with (Z.of_nat n) by lia. apply IH; (done || lia).
Qed.

(** [lcmp] is zero exactly on equal strings. *)
Lemma lcmp_0 l1 l2 :
  Forall (λ c, c ≠ 0) l1 → Forall (λ c, c ≠ 0) l2 → lcmp l1 l2 = 0 ↔ l1 = l2.
Proof.
  intros H1. revert l2. induction H1 as [|c1 l1 Hc H1 IH]; intros l2 H2.
  - destruct H2; simpl; [done|]. split; [lia|done].
  - destruct H2 as [|c2 l2 Hc2 H2]; simpl; [split; [lia|done]|].
    destruct (c1 =? c2) eqn:E.
    + rewrite IH by done. split; [intros ->; f_equal; lia|congruence].
    + split; [lia|]. intros [= -> ->]. lia.
Qed.

Lemma cstr_nonzero m a l : cstr m a l → Forall (λ c, c ≠ 0) l.
Proof. revert a. induction l; intros ?; simpl; [by constructor|]. intros (? & ? & ?). eauto. Qed.

Lemma cstr_bytes m a l : cstr m a l → Forall (λ c, 0 <= c < 256) l.
Proof.
  revert a. induction l; intros a'; simpl; [by constructor|]. intros (<- & ? & ?).
  constructor; [apply rd8_bound|eauto].
Qed.

Lemma strcpy_loop_run fuel m d s l :
  cstr m s l → (length l < fuel)%nat →
  (d + length l < s ∨ s + length l < d) →
  ∃ m', strcpy_loop fuel d s m = Ret tt m' ∧ cstr m' d l ∧
    ∀ a, ¬ (d <= a <= d + length l) → rd8 m' a = rd8 m a.
Proof.
  revert fuel m d s. induction l as [|c l IH]; intros [|fuel] m d s Hs Hf Hd; simpl in Hf; try lia.
  - simpl in *. rewrite Hs. simpl. eexists; split_and!; [done| |].
    + by rewrite rd8_wr8_eq.
    + intros a Ha. apply rd8_wr8_ne. lia.
  - destruct Hs as (Ec & Hc & Hs). cbn [strcpy_loop]. rewrite Ec, (proj2 (nz_true _) Hc).
    simpl length in Hd.
    destruct (IH fuel (wr8 m d c) (d + 1) (s + 1)) as (m' & Hm & Hl & Hfr); [|lia|lia|].
    { eapply cstr_ext; [|exact Hs]. intros i Hi. apply rd8_wr8_ne. lia. }
    exists m'. split_and!; [done| |].
    + simpl. split_and!; [|done|done].
      rewrite Hfr, rd8_wr8_eq by lia. rewrite <- Ec. apply u8_small, rd8_bound.
    + intros a Ha. simpl in Ha. rewrite Hfr by lia. apply rd8_wr8_ne. lia.
Qed.
End strings.

Module StringProps.

Implicit Types (m : mem) (dst src a b n : Z) (l : list Z) (fuel : nat).

(** [memmove] copies also where the blocks overlap. Whatever the two
    addresses and the length, it returns [dst]; each byte of the destination is
    then the byte the source held before the call, and every other byte is
    unchanged. *)
Theorem memmove_correct dst src (n : nat) m :
  ∃ m', memmove dst src n m = Ret dst m' ∧
    (∀ i, 0 <= i < n → rd8 m' (dst + i) = rd8 m (src + i)) ∧
    ∀ a, ¬ (dst <= a < dst + n) → rd8 m' a = rd8 m a.
Proof.
  destruct (memmove_run dst src n m ltac:(lia)) as (m' & E & R). exists m'. split_and!; [done| |].
  - intros i Hi. rewrite R, decide_True by lia. f_equal. lia.
  - intros a Ha. by rewrite R, decide_False.
Qed.

(** String comparison. On strings that end within the fuel both routines
    return, leave memory alone, and give the three-way comparison of the
    strings ([strncmp]: of their first [n] characters), which is 0 exactly when
    these are equal. *)
Theorem strcmp_correct fuel (n : nat) m a b l1 l2 :
  cstr m a l1 → cstr m b l2 → (length l1 < fuel)%nat →
  strcmp fuel a b m = Ret (lcmp l1 l2) m ∧ (lcmp l1 l2 = 0 ↔ l1 = l2) ∧
  strncmp fuel a b n m = Ret (lcmp (take n l1) (take n l2)) m ∧
  (lcmp (take n l1) (take n l2) = 0 ↔ take n l1 = take n l2).
Proof.
  intros H1 H2 Hf. split_and!.
  - by apply strcmp_run.
  - by eapply lcmp_0; eapply cstr_nonzero.
  - by apply strncmp_run.
  - apply lcmp_0; apply Forall_take; by eapply cstr_nonzero.
Qed.

(** "sh" at 16, "sleep" at 32. *)
Definition two_strings : mem :=
  list_to_map [(16, 115); (17, 104); (32, 115); (33, 108); (34, 101); (35, 101); (36, 112)].

Lemma strcmp_correct_witness :
  strcmp 3 16 32 two_strings = Ret (-4) two_strings ∧ strncmp 3 16 32 1%nat two_strings = Ret 0 two_strings.
Proof.
  destruct (strcmp_correct 3 1 two_strings 16 32 [115; 104] [115; 108; 101; 101; 112])
    as (H1 & _ & H2 & _).
  - apply (bool_decide_unpack _). vm_compute. exact I.
  - apply (bool_decide_unpack _). vm_compute. exact I.
  - simpl. lia.
  - exact (conj H1 H2).
Defined.

(** [strcpy] copies a string that does not overlap its destination, NUL
    included: both places then hold it, [strlen] of the copy is its length,
    [strcmp] finds no difference, and no other byte has changed. *)
Theorem strcpy_correct fuel m dst src l :
  cstr m src l → (length l < fuel)%nat → length l < 2 ^ 64 →
  (dst + length l < src ∨ src + length l < dst) →
  ∃ m', strcpy fuel dst src m = Ret dst m' ∧ cstr m' dst l ∧ cstr m' src l ∧
    strlen fuel dst m' = Ret (Z.of_nat (length l)) m' ∧ strcmp fuel dst src m' = Ret 0 m' ∧
    ∀ a, ¬ (dst <= a <= dst + length l) → rd8 m' a = rd8 m a.
Proof.
  intros Hs Hf Hl Hd. destruct (strcpy_loop_run fuel m dst src l Hs Hf Hd) as (m' & E & Hc & R).
  assert (Hs' : cstr m' src l) by (eapply cstr_ext; [|exact Hs]; intros i Hi; apply R; lia).
  exists m'. split_and!; try done.
  - unfold strcpy. by rewrite (pbind_ok _ _ _ _ _ E).
  - unfold strlen. rewrite (strlen_loop_run fuel m' dst 0 l) by (done || lia). done.
  - rewrite (strcmp_run fuel m' dst src l l) by done. f_equal.
    apply lcmp_0; [by eapply cstr_nonzero..|done].
Qed.

Lemma strcpy_correct_witness :
  ∃ m', strcpy 6 48 32 two_strings = Ret 48 m' ∧ strlen 6 48 m' = Ret 5 m'.
Proof.
  destruct (strcpy_correct 6 two_strings 48 32 [115; 108; 101; 101; 112]) as (m' & E & _ & _ & L & _).
  - apply (bool_decide_unpack _). vm_compute. exact I.
  - simpl. lia.
  - simpl. lia.
  - simpl. lia.
  - exists m'. exact (conj E L).
Defined.

End StringProps.
