(* ===== verification/Bytes.v ===== *)
(** * Blocks of bytes

    The contents of a disk block or of a C array of bytes, as a list: slices
    of it, little-endian fields at an offset, and moving bytes between a block
    and memory. *)

From S2P Require Import Prelude Mem.
Open Scope Z_scope.

Abbreviation bytes := (list Z).

Definition is_byte (c : Z) : Prop := 0 <= c < 256.

#[export] Instance is_byte_dec c : Decision (is_byte c).
Proof. unfold is_byte. apply _. Defined.

(** The [n] bytes from offset [off] on. *)
Definition slice (l : bytes) (off n : nat) : bytes := take n (drop off l).

(** [l] with the bytes from [off] on replaced by [b]. *)
Definition splice (l : bytes) (off : nat) (b : bytes) : bytes :=
  take off l ++ b ++ drop (off + length b) l.

Definition byte_at (l : bytes) (i : nat) : Z := default 0 (l !! i).

(** ** Little-endian fields *)

Fixpoint le_val (l : bytes) : Z :=
  match l with
  | [] => 0
  | c :: l => c + 256 * le_val l
  end.

Fixpoint le_bytes (n : nat) (v : Z) : bytes :=
  match n with
  | O => []
  | S n => v mod 256 :: le_bytes n (v / 256)
  end.

(** The field of [n] bytes at [off]. *)
Definition fld (n : nat) (l : bytes) (off : nat) : Z := le_val (slice l off n).
Definition set_fld (n : nat) (l : bytes) (off : nat) (v : Z) : bytes := splice l off (le_bytes n v).

(** ** Memory *)

Fixpoint mread (m : mem) (a : Z) (n : nat) : bytes :=
  match n with
  | O => []
  | S n => rd8 m a :: mread m (a + 1) n
  end.

Fixpoint mwrite (m : mem) (a : Z) (l : bytes) : mem :=
  match l with
  | [] => m
  | c :: l => mwrite (wr8 m a c) (a + 1) l
  end.

Section slices.
Implicit Types (l b : bytes) (off n i : nat).

Lemma length_slice l off n : (off + n <= length l)%nat → length (slice l off n) = n.
Proof. intros. unfold slice. rewrite length_take, length_drop. lia. Qed.

Lemma length_splice l off b : (off + length b <= length l)%nat → length (splice l off b) = length l.
Proof.
  intros. unfold splice. rewrite !length_app, length_take, length_drop. lia.
Qed.

Lemma lookup_slice l off n i :
  (i < n)%nat → slice l off n !! i = l !! (off + i)%nat.
Proof. intros. unfold slice. by rewrite lookup_take_lt, lookup_drop. Qed.

Lemma lookup_splice l off b i :
  (off + length b <= length l)%nat →
  splice l off b !! i =
    if decide (off <= i < off + length b)%nat then b !! (i - off)%nat else l !! i.
Proof.
  intros Hl. unfold splice.
  destruct (decide (i < off)%nat) as [H|H].
  - rewrite decide_False by lia. rewrite lookup_app_l by (rewrite length_take; lia).
    by rewrite lookup_take_lt.
  - rewrite lookup_app_r, length_take by (rewrite length_take; lia).
    replace (off `min` length l)%nat with off by lia.
    case_decide as H'.
    + by rewrite lookup_app_l by lia.
    + rewrite lookup_app_r, lookup_drop by lia. f_equal. lia.
Qed.

Lemma slice_splice l off b : (off + length b <= length l)%nat → slice (splice l off b) off (length b) = b.
Proof.
  intros H. apply list_eq_same_length with (n := length b); [done|..].
  - apply length_slice. rewrite length_splice; lia.
  - intros i x y Hi. rewrite lookup_slice, lookup_splice by done.
    rewrite decide_True by lia. replace (off + i - off)%nat with i by lia. congruence.
Qed.

Lemma slice_splice_other l off b off' n :
  (off + length b <= length l)%nat → (off' + n <= off ∨ off + length b <= off')%nat →
  slice (splice l off b) off' n = slice l off' n.
Proof.
  intros H Hd. unfold slice, splice. destruct Hd as [Hd|Hd].
  - rewrite drop_app_le by (rewrite length_take; lia).
    rewrite take_app_le by (rewrite length_drop, length_take; lia).
    rewrite <- (take_drop off (l)) at 2.
    rewrite (drop_app_le (take off l)) by (rewrite length_take; lia).
    by rewrite take_app_le by (rewrite length_drop, length_take; lia).
  - rewrite drop_app_ge, length_take by (rewrite length_take; lia).
    replace (off `min` length l)%nat with off by lia.
    rewrite drop_app_ge, drop_drop by lia. do 2 f_equal. lia.
Qed.

Lemma slice_splice_in l off b i n :
  (off + length b <= length l)%nat → (i + n <= length b)%nat →
  slice (splice l off b) (off + i) n = slice b i n.
Proof.
  intros H Hi. apply list_eq_same_length with (n := n).
  - apply length_slice. lia.
  - apply length_slice. rewrite length_splice; lia.
  - intros j x y Hj. rewrite !lookup_slice, lookup_splice, decide_True by lia.
    replace (off + i + j - off)%nat with (i + j)%nat by lia. congruence.
Qed.

Lemma slice_all l : slice l 0 (length l) = l.
Proof. unfold slice. by rewrite drop_0, firstn_all. Qed.

Lemma slice_app l off n1 n2 : slice l off (n1 + n2) = slice l off n1 ++ slice l (off + n1) n2.
Proof. unfold slice. by rewrite <- drop_drop, take_take_drop. Qed.

Lemma drop_slice l off n : drop off l = slice l off n ++ drop (off + n) l.
Proof. unfold slice. by rewrite <- drop_drop, take_drop. Qed.

Lemma Forall_slice (P : Z → Prop) l off n : Forall P l → Forall P (slice l off n).
Proof. intros. by apply Forall_take, Forall_drop. Qed.

Lemma Forall_splice (P : Z → Prop) l off b : Forall P l → Forall P b → Forall P (splice l off b).
Proof.
  intros. apply Forall_app; split; [by apply Forall_take|].
  apply Forall_app; split; [done|by apply Forall_drop].
Qed.

Lemma splice_nil l off : splice l off [] = l.
Proof. unfold splice. simpl. rewrite Nat.add_0_r. apply take_drop. Qed.
End slices.

Section fields.
Implicit Types (l b : bytes) (off n i : nat) (v : Z).

Lemma length_le_bytes n v : length (le_bytes n v) = n.
Proof. revert v. induction n; intros; simpl; auto. Qed.

Lemma le_bytes_ok n v : Forall is_byte (le_bytes n v).
Proof.
  revert v. induction n; intros v; simpl; constructor; [|done]. by apply Z.mod_pos_bound.
Qed.

Lemma le_val_bytes n v : le_val (le_bytes n v) = v mod 256 ^ n.
Proof.
  revert v. induction n as [|n IH]; intros v; cbn [le_bytes le_val].
  - by rewrite Z.mod_1_r.
  - rewrite IH, Nat2Z.inj_succ, Z.pow_succ_r by lia.
    rewrite (Z.rem_mul_r v 256 (256 ^ n)) by lia. lia.
Qed.

Lemma le_val_bound l : Forall is_byte l → 0 <= le_val l < 256 ^ length l.
Proof.
  induction 1 as [|c l Hc Hl IH]; cbn [le_val length]; [lia|].
  rewrite Nat2Z.inj_succ, Z.pow_succ_r by lia. unfold is_byte in Hc. lia.
Qed.

Lemma le_bytes_val l : Forall is_byte l → le_bytes (length l) (le_val l) = l.
Proof.
  induction 1 as [|c l Hc Hl IH]; cbn [le_bytes le_val length]; [done|].
  unfold is_byte in Hc. replace ((c + 256 * le_val l) / 256) with (le_val l) by zlia.
  rewrite IH. f_equal. zlia.
Qed.

Lemma length_set_fld n l off v : (off + n <= length l)%nat → length (set_fld n l off v) = length l.
Proof. intros. apply length_splice. by rewrite length_le_bytes. Qed.

(** A field of bytes that were put one after the other. *)
Lemma fld_app_l n v l : fld n (le_bytes n v ++ l) 0 = v mod 256 ^ n.
Proof.
  unfold fld, slice. rewrite drop_0. by rewrite (take_app_length' _ _ n (eq_sym (length_le_bytes n v))), le_val_bytes.
Qed.

Lemma fld_app_r n m v l off : (m <= off)%nat → fld n (le_bytes m v ++ l) off = fld n l (off - m).
Proof.
  intros H. unfold fld, slice. replace off with (m + (off - m))%nat at 1 by lia.
  by rewrite (drop_app_add' _ _ m _ (eq_sym (length_le_bytes m v))).
Qed.

Lemma fld_set_fld n l off v : (off + n <= length l)%nat → fld n (set_fld n l off v) off = v mod 256 ^ n.
Proof.
  intros. unfold fld, set_fld. rewrite <- le_val_bytes. f_equal.
  rewrite <- (length_le_bytes n v) at 2. apply slice_splice. by rewrite length_le_bytes.
Qed.

Lemma fld_set_fld_other n l off v n' off' :
  (off + n <= length l)%nat → (off' + n' <= off ∨ off + n <= off')%nat →
  fld n' (set_fld n l off v) off' = fld n' l off'.
Proof.
  intros. unfold fld, set_fld. f_equal. apply slice_splice_other; by rewrite length_le_bytes.
Qed.

Lemma slice_set_fld_other n l off v n' off' :
  (off + n <= length l)%nat → (off' + n' <= off ∨ off + n <= off')%nat →
  slice (set_fld n l off v) off' n' = slice l off' n'.
Proof. intros. unfold set_fld. apply slice_splice_other; by rewrite length_le_bytes. Qed.

Lemma fld_splice_other n l off b off' :
  (off + length b <= length l)%nat → (off' + n <= off ∨ off + length b <= off')%nat →
  fld n (splice l off b) off' = fld n l off'.
Proof. intros. unfold fld. f_equal. by apply slice_splice_other. Qed.

Lemma fld_bound n l off : Forall is_byte l → 0 <= fld n l off < 256 ^ n.
Proof.
  intros H. unfold fld. pose proof (le_val_bound _ (Forall_slice _ l off n H)) as B.
  assert (length (slice l off n) <= n)%nat by (unfold slice; rewrite length_take; lia).
  pose proof (Z.pow_le_mono_r 256 (length (slice l off n)) n). lia.
Qed.

Lemma set_fld_ok n l off v : Forall is_byte l → Forall is_byte (set_fld n l off v).
Proof. intros. apply Forall_splice; [done|apply le_bytes_ok]. Qed.
End fields.

Section memory.
Implicit Types (m : mem) (a : Z) (l : bytes) (n : nat).

Lemma length_mread m a n : length (mread m a n) = n.
Proof. revert a. induction n; intros; simpl; auto. Qed.

Lemma mread_ok m a n : Forall is_byte (mread m a n).
Proof. revert a. induction n; intros; simpl; constructor; [apply rd8_bound|done]. Qed.

Lemma lookup_mread m a n i : (i < n)%nat → mread m a n !! i = Some (rd8 m (a + i)).
Proof.
  revert a i. induction n as [|n IH]; intros a i Hi; [lia|]. destruct i as [|i]; simpl.
  - do 2 f_equal. lia.
  - rewrite IH by lia. do 2 f_equal. lia.
Qed.

Lemma mread_ext m m' a n : (∀ i, a <= i < a + n → rd8 m' i = rd8 m i) → mread m' a n = mread m a n.
Proof.
  revert a. induction n as [|n IH]; intros a H; simpl; [done|].
  f_equal; [apply H; lia|]. apply IH. intros i Hi. apply H. lia.
Qed.

Lemma rd8_mwrite m a l i :
  rd8 (mwrite m a l) i =
    if decide (a <= i < a + length l) then u8 (byte_at l (Z.to_nat (i - a))) else rd8 m i.
Proof.
  revert m a. induction l as [|c l IH]; intros m a.
  - rewrite decide_False by (simpl; lia). done.
  - cbn [mwrite]. rewrite IH. simpl length. destruct (decide (i = a)) as [->|Hne].
    + rewrite decide_False, decide_True, rd8_wr8_eq by lia.
      by replace (a - a) with 0 by lia.
    + destruct (decide (a + 1 <= i < a + 1 + length l)).
      * rewrite decide_True by lia. unfold byte_at.
        replace (Z.to_nat (i - a)) with (S (Z.to_nat (i - (a + 1)))) by lia. done.
      * rewrite decide_False by lia. by apply rd8_wr8_ne.
Qed.

Lemma mread_mwrite m a l : Forall is_byte l → mread (mwrite m a l) a (length l) = l.
Proof.
  intros Hl. apply list_eq_same_length with (n := length l); [done|apply length_mread|].
  intros i x y Hi. rewrite lookup_mread by done. intros [= <-] Hy.
  rewrite rd8_mwrite, decide_True by lia. unfold byte_at.
  replace (Z.to_nat (a + i - a)) with i by lia. rewrite Hy. simpl.
  apply u8_small. by eapply (Forall_lookup_1 is_byte) in Hy.
Qed.

Lemma mwrite_app m a l1 l2 : mwrite m a (l1 ++ l2) = mwrite (mwrite m a l1) (a + length l1) l2.
Proof.
  revert m a. induction l1 as [|c l IH]; intros m a; simpl.
  - by rewrite Z.add_0_r.
  - rewrite IH. f_equal. lia.
Qed.

Lemma rd8_mwrite_other m a l i : ¬ (a <= i < a + length l) → rd8 (mwrite m a l) i = rd8 m i.
Proof. intros. by rewrite rd8_mwrite, decide_False. Qed.

Lemma mread_app m a n1 n2 : mread m a (n1 + n2) = mread m a n1 ++ mread m (a + n1) n2.
Proof.
  revert a. induction n1 as [|n IH]; intros a; simpl.
  - by rewrite Z.add_0_r.
  - rewrite IH. do 3 f_equal. lia.
Qed.
End memory.

Section words.
Implicit Types (l : bytes) (ws : list Z) (off k n : nat).

(** An array of 4-byte words. *)
Lemma length_words ws : length (concat (le_bytes 4 <$> ws)) = (4 * length ws)%nat.
Proof.
  induction ws as [|w ws IH]; [done|].
  rewrite fmap_cons, concat_cons, length_app, length_le_bytes, IH. simpl. lia.
Qed.

Lemma words_ok ws : Forall is_byte (concat (le_bytes 4 <$> ws)).
Proof.
  induction ws as [|w ws IH]; [constructor|].
  rewrite fmap_cons, concat_cons. apply Forall_app. split; [apply le_bytes_ok|done].
Qed.

Lemma slice_words ws k w : ws !! k = Some w → slice (concat (le_bytes 4 <$> ws)) (4 * k) 4 = le_bytes 4 w.
Proof.
  revert k. induction ws as [|w' ws IH]; intros k Hk; [done|].
  rewrite fmap_cons, concat_cons. unfold slice. destruct k as [|k].
  - injection Hk as ->. rewrite Nat.mul_0_r, drop_0.
    by rewrite take_app_le, take_ge by (rewrite length_le_bytes; lia).
  - rewrite drop_app_ge, length_le_bytes by (rewrite length_le_bytes; lia).
    rewrite <- (IH k Hk). unfold slice. do 2 f_equal. lia.
Qed.

(** What one store does to the fields of a block. *)
Lemma set_fld_facts n l off v :
  (off + n <= length l)%nat →
  length (set_fld n l off v) = length l ∧
  fld n (set_fld n l off v) off = v mod 256 ^ n ∧
  ∀ n' o, (o + n' <= off ∨ off + n <= o)%nat → slice (set_fld n l off v) o n' = slice l o n'.
Proof.
  intros H. split_and!; [by apply length_set_fld|by apply fld_set_fld|].
  intros. by apply slice_set_fld_other.
Qed.

Lemma fld_eq n l o : fld n l o = le_val (slice l o n).
Proof. done. Qed.

Lemma fld_slice n l l' o : slice l' o n = slice l o n → fld n l' o = fld n l o.
Proof. intros H. unfold fld. by rewrite H. Qed.
End words.

#[global] Opaque slice splice fld set_fld.
