(* ===== verification/Spinlock.v ===== *)
(** * Spinlocks and interrupt masking (kernel/spinlock.c)

    Module [Spin] holds the routines as one CPU runs them; module [Multi] is
    the instruction-level interleaving of several CPUs on one lock, and ties
    the two together. *)

From S2P Require Import Prelude.
From stdpp Require Import functions relations.
Open Scope Z_scope.
Open Scope prog_scope.

(** ** One CPU's view *)

Module Spin.

(** The fields of [struct cpu] the lock code uses, with the CPU's number and
    whether its IRQ mask bit (PSTATE.I) is clear. *)
Record hart := Hart {
  cpuid : Z;
  cli_depth : Z;
  intr_enabled : bool;
  irq_on : bool;
}.

Record spinlock := Lock { lk_lock : Z; lk_cpuid : Z }.

#[export] Instance hart_eq_dec : EqDecision hart.
Proof. solve_decision. Defined.
#[export] Instance spinlock_eq_dec : EqDecision spinlock.
Proof. solve_decision. Defined.

Definition lock_init : spinlock := {| lk_lock := 0; lk_cpuid := -1 |}.

Definition holding (h : hart) (lk : spinlock) : bool :=
  nz (lk_lock lk) && (lk_cpuid lk =? cpuid h).

Definition pushcli : prog hart unit := λ h,
  let h' := Hart (cpuid h) (i32 (cli_depth h + 1)) (intr_enabled h) (irq_on h) in
  if cli_depth h =? 0
  then Ret tt (Hart (cpuid h') (cli_depth h') (irq_on h') false)
  else Ret tt h'.

Definition popcli : prog hart unit := λ h,
  if cli_depth h =? 0 then Panic "popcli" else
  let h' := Hart (cpuid h) (i32 (cli_depth h - 1)) (intr_enabled h) (irq_on h) in
  if (cli_depth h' =? 0) && intr_enabled h'
  then Ret tt (Hart (cpuid h') (cli_depth h') (intr_enabled h') true)
  else Ret tt h'.

(** The state of one lock operation: this CPU and the lock. *)
Abbreviation lockst := (hart * spinlock)%type.

Definition hart_of : lens lockst hart := Lens fst (λ h s, (h, snd s)).

(** [wfe]/[ldaxrb]/[stxrb]: with the other CPUs stopped, the loop takes a
    free lock at once and spins for ever on a taken one. *)
Definition take_lock : prog lockst unit := λ s,
  if nz (lk_lock (snd s)) then Hang
  else Ret tt (fst s, Lock 1 (lk_cpuid (snd s))).

Definition acquire : prog lockst unit :=
  zoom hart_of pushcli ;;
  s <- get ;;
  (if holding (fst s) (snd s) then panic "already held" else ret tt) ;;
  take_lock ;;
  modify (λ s, (fst s, Lock (lk_lock (snd s)) (cpuid (fst s)))).

Definition release : prog lockst unit :=
  s <- get ;;
  (if holding (fst s) (snd s) then ret tt else panic "invalid release") ;;
  modify (λ s, (fst s, Lock (lk_lock (snd s)) (-1))) ;;
  modify (λ s, (fst s, Lock 0 (lk_cpuid (snd s)))) ;;
  zoom hart_of popcli.

(** *** Facts about the routines *)

(** The lock is free, as [lock_init] and [release] leave it. *)
Definition free_lock (lk : spinlock) : Prop := lk = lock_init.

#[export] Instance free_lock_dec lk : Decision (free_lock lk).
Proof. apply _. Defined.

(** Nesting depth of [pushcli] within the range of an [int], and interrupts
    masked whenever it is positive. *)
Definition hart_ok (h : hart) : Prop :=
  0 <= cli_depth h < 2 ^ 31 - 64 ∧ 0 <= cpuid h < 256 ∧ (cli_depth h ≠ 0 → irq_on h = false).

#[export] Instance hart_ok_dec h : Decision (hart_ok h).
Proof. apply _. Defined.

(** This CPU inside one more critical section. *)
Definition entered (h : hart) : hart :=
  Hart (cpuid h) (cli_depth h + 1)
    (if cli_depth h =? 0 then irq_on h else intr_enabled h) false.

(** This CPU after a critical section: only the saved mask can differ. *)
Definition touched (h : hart) : hart :=
  Hart (cpuid h) (cli_depth h)
    (if cli_depth h =? 0 then irq_on h else intr_enabled h) (irq_on h).

Section facts.
Implicit Types (h : hart) (lk : spinlock).

Lemma pushcli_run h : hart_ok h → pushcli h = Ret tt (entered h).
Proof.
  intros (? & ? & Hoff). unfold pushcli, entered. simpl.
  rewrite i32_small by lia. destruct (cli_depth h =? 0) eqn:E; [done|].
  rewrite Hoff by lia. done.
Qed.

Lemma popcli_entered h : hart_ok h → popcli (entered h) = Ret tt (touched h).
Proof.
  intros (? & ? & Hoff). unfold popcli, entered, touched. simpl.
  destruct (cli_depth h + 1 =? 0) eqn:E; [lia|].
  replace (cli_depth h + 1 - 1) with (cli_depth h) by lia.
  rewrite i32_small by lia. destruct (cli_depth h =? 0) eqn:E0; simpl.
  - by destruct (irq_on h).
  - by rewrite Hoff by lia.
Qed.

Lemma touched_ok h : hart_ok h → hart_ok (touched h).
Proof. done. Qed.

Lemma touched_idem h : touched (touched h) = touched h.
Proof. unfold touched; simpl. by destruct (cli_depth h =? 0). Qed.

Lemma acquire_free h lk :
  hart_ok h → free_lock lk → acquire (h, lk) = Ret tt (entered h, Lock 1 (cpuid h)).
Proof.
  intros Hh ->. unfold acquire, pbind, zoom. simpl. by rewrite pushcli_run.
Qed.

Lemma release_held h :
  hart_ok h → release (entered h, Lock 1 (cpuid h)) = Ret tt (touched h, lock_init).
Proof.
  intros Hh. unfold release, pbind, zoom, get, ret, modify, holding. simpl.
  rewrite Z.eqb_refl. simpl. by rewrite popcli_entered.
Qed.

Lemma pushcli_total h : ∃ h', pushcli h = Ret tt h' ∧ cpuid h' = cpuid h.
Proof. unfold pushcli. destruct (cli_depth h =? 0); by eexists. Qed.

Lemma acquire_held h : acquire (h, Lock 1 (cpuid h)) = Panic "already held".
Proof.
  destruct (pushcli_total h) as (h' & E & Hid).
  unfold acquire, pbind, zoom. simpl. rewrite E. unfold get, holding. simpl.
  by rewrite Hid, Z.eqb_refl.
Qed.

Lemma acquire_other h c : c ≠ cpuid h → acquire (h, Lock 1 c) = Hang.
Proof.
  intros Hc. destruct (pushcli_total h) as (h' & E & Hid).
  unfold acquire, pbind, zoom. simpl. rewrite E. unfold get, holding. simpl.
  by rewrite Hid, (proj2 (Z.eqb_neq c (cpuid h))).
Qed.

Lemma release_not_holding h lk :
  holding h lk = false → release (h, lk) = Panic "invalid release".
Proof. intros H. unfold release, pbind, get. simpl. by rewrite H. Qed.
End facts.

End Spin.

(** ** Several CPUs on one lock *)

Module Multi.
Import Spin.

(** Where a CPU is in the instructions of [acquire] and [release]. *)
Inductive pc :=
| Idle          (* outside: neither routine is running *)
| AcqTest       (* in holding(): about to load lk->lock *)
| AcqTestId     (* in holding(): about to load lk->cpuid *)
| AcqLdaxr      (* about to ldaxrb *)
| AcqStxr       (* ldaxrb read 0: about to stxrb 1 *)
| AcqSetId      (* about to store lk->cpuid = cpuid() *)
| Crit          (* acquire has returned *)
| RelTest       (* in holding(): about to load lk->lock *)
| RelTestId     (* in holding(): about to load lk->cpuid *)
| RelClearId    (* about to store lk->cpuid = -1 *)
| RelStlr       (* about to stlrb 0 *)
| PanicHeld     (* panic("already held") *)
| PanicRelease. (* panic("invalid release") *)

#[export] Instance pc_eq_dec : EqDecision pc.
Proof. solve_decision. Defined.

(** The lock, each CPU's position, and its exclusive monitor. *)
Record sys := Sys { s_lock : spinlock; s_pc : Z → pc; s_mon : Z → bool }.

Definition goto (c : Z) (p : pc) (s : sys) : sys :=
  Sys (s_lock s) (<[c := p]> (s_pc s)) (s_mon s).
Definition set_lock (v : Z) (s : sys) : sys :=
  (* any store to lk->lock clears every exclusive monitor on it *)
  Sys (Lock v (lk_cpuid (s_lock s))) (s_pc s) (λ _, false).
Definition set_id (v : Z) (s : sys) : sys :=
  Sys (Lock (lk_lock (s_lock s)) v) (s_pc s) (s_mon s).
Definition set_mon (c : Z) (b : bool) (s : sys) : sys :=
  Sys (s_lock s) (s_pc s) (<[c := b]> (s_mon s)).

(** The next instruction of CPU [c], when the store-exclusive of a CPU whose
    monitor is set succeeds ([stx = true]) or fails spuriously. *)
Definition cpu_step (stx : bool) (c : Z) (s : sys) : sys :=
  let l := s_lock s in
  match s_pc s c with
  | Idle => goto c AcqTest s
  | AcqTest => goto c (if nz (lk_lock l) then AcqTestId else AcqLdaxr) s
  | AcqTestId => goto c (if lk_cpuid l =? c then PanicHeld else AcqLdaxr) s
  | AcqLdaxr => if nz (lk_lock l) then s else set_mon c true (goto c AcqStxr s)
  | AcqStxr => if s_mon s c && stx then set_lock 1 (goto c AcqSetId s)
               else set_mon c false (goto c AcqLdaxr s)
  | AcqSetId => set_id c (goto c Crit s)
  | Crit => goto c RelTest s
  | RelTest => goto c (if nz (lk_lock l) then RelTestId else PanicRelease) s
  | RelTestId => goto c (if lk_cpuid l =? c then RelClearId else PanicRelease) s
  | RelClearId => set_id (-1) (goto c RelStlr s)
  | RelStlr => set_lock 0 (goto c Idle s)
  | PanicHeld | PanicRelease => s
  end.

Definition init : sys := Sys lock_init (λ _, Idle) (λ _, false).

(** Any CPU runs its next instruction. *)
Inductive step : sys → sys → Prop :=
| step_cpu stx c s : 0 <= c → step s (cpu_step stx c s).

Definition reachable (s : sys) : Prop := rtc step init s.

(** From the successful [stxrb] to the [stlrb]. *)
Definition owns (p : pc) : bool :=
  match p with
  | AcqSetId | Crit | RelTest | RelTestId | RelClearId | RelStlr => true
  | _ => false
  end.

(** The part of it where lk->cpuid names the owner. *)
Definition named (p : pc) : bool :=
  match p with Crit | RelTest | RelTestId | RelClearId => true | _ => false end.

Record inv (s : sys) : Prop := {
  inv_one : ∀ c d, owns (s_pc s c) = true → owns (s_pc s d) = true → c = d;
  inv_taken : nz (lk_lock (s_lock s)) = true ↔ ∃ c, owns (s_pc s c) = true;
  inv_mon : ∀ c, s_mon s c = true → nz (lk_lock (s_lock s)) = false;
  inv_id : ∀ c, 0 <= c → lk_cpuid (s_lock s) = c ↔ named (s_pc s c) = true;
  inv_neg : ∀ c, c < 0 → s_pc s c = Idle;
  inv_calm : ∀ c, s_pc s c ≠ PanicHeld ∧ s_pc s c ≠ PanicRelease;
}.

Lemma insert_pc (c d : Z) (p : pc) (f : Z → pc) :
  <[c := p]> f d = if decide (c = d) then p else f d.
Proof. unfold insert, fn_insert. by repeat case_decide. Qed.

Lemma insert_mon (c d : Z) (b : bool) (f : Z → bool) :
  <[c := b]> f d = if decide (c = d) then b else f d.
Proof. unfold insert, fn_insert. by repeat case_decide. Qed.

Lemma init_inv : inv init.
Proof.
  split; simpl; try done.
  - split; [done|]. by intros [].
  - intros c Hc. split; [lia|done].
Qed.

(** A step that moves [c] between positions of the same standing and leaves
    the lock alone keeps the invariant. *)
Lemma inv_goto c p s :
  inv s → 0 <= c → owns p = owns (s_pc s c) → named p = named (s_pc s c) →
  p ≠ PanicHeld → p ≠ PanicRelease → inv (goto c p s).
Proof.
  intros [I1 I2 I3 I4 I5 I6] Hc Ho Hn Hp1 Hp2.
  assert (Hown : ∀ d, owns (s_pc (goto c p s) d) = owns (s_pc s d)).
  { intros d. simpl. rewrite insert_pc. by case_decide; subst. }
  split; simpl.
  - intros d e. rewrite !insert_pc in *.
    intros Hd He. apply I1; [rewrite <- Hown|rewrite <- Hown]; simpl; by rewrite insert_pc.
  - rewrite I2. split; intros [d Hd]; exists d; by rewrite <- Hd, <- (Hown d).
  - done.
  - intros d Hd. rewrite (I4 d Hd), insert_pc. by case_decide; subst; rewrite ?Hn.
  - intros d Hd. rewrite insert_pc. case_decide; [lia|auto].
  - intros d. rewrite insert_pc. case_decide; auto.
Qed.

Lemma inv_set_mon c b s :
  inv s → (b = true → nz (lk_lock (s_lock s)) = false) → inv (set_mon c b s).
Proof.
  intros [I1 I2 I3 I4 I5 I6] Hb. split; simpl; try done.
  intros d. rewrite insert_mon. case_decide; [|apply I3]. exact Hb.
Qed.

(** The four instructions that change the lock. *)

Lemma inv_take c s :
  inv s → 0 <= c → s_pc s c = AcqStxr → s_mon s c = true → inv (set_lock 1 (goto c AcqSetId s)).
Proof.
  intros [I1 I2 I3 I4 I5 I6] Hc Hp Hm.
  assert (Hno : ∀ d, owns (s_pc s d) = false).
  { intros d. destruct (owns (s_pc s d)) eqn:E; [|done].
    apply I3 in Hm. rewrite (proj2 I2) in Hm by eauto. done. }
  split; simpl.
  - intros d e. rewrite !insert_pc. repeat case_decide; subst; rewrite ?Hno; done.
  - split; [|done]. intros _. exists c. by rewrite insert_pc, decide_True.
  - done.
  - intros d Hd. rewrite (I4 d Hd), insert_pc. case_decide; subst; [|done]. by rewrite Hp.
  - intros d Hd. rewrite insert_pc. case_decide; [lia|auto].
  - intros d. rewrite insert_pc. case_decide; auto.
Qed.

Lemma inv_name c s :
  inv s → 0 <= c → s_pc s c = AcqSetId → inv (set_id c (goto c Crit s)).
Proof.
  intros [I1 I2 I3 I4 I5 I6] Hc Hp.
  assert (Hown : ∀ d, owns (<[c := Crit]> (s_pc s) d) = owns (s_pc s d)).
  { intros d. rewrite insert_pc. case_decide; subst; by rewrite ?Hp. }
  split; simpl.
  - intros d e. rewrite !Hown. apply I1.
  - rewrite I2. split; intros [d Hd]; exists d; [by rewrite Hown|by rewrite <- Hown].
  - done.
  - intros d Hd. rewrite insert_pc. case_decide as E; subst; [done|].
    split; [done|]. intros Hn. exfalso. apply E.
    apply I1; [by rewrite Hp|]. by destruct (s_pc s d).
  - intros d Hd. rewrite insert_pc. case_decide; [lia|auto].
  - intros d. rewrite insert_pc. case_decide; auto.
Qed.

Lemma inv_unname c s :
  inv s → 0 <= c → s_pc s c = RelClearId → inv (set_id (-1) (goto c RelStlr s)).
Proof.
  intros [I1 I2 I3 I4 I5 I6] Hc Hp.
  assert (Hown : ∀ d, owns (<[c := RelStlr]> (s_pc s) d) = owns (s_pc s d)).
  { intros d. rewrite insert_pc. case_decide; subst; by rewrite ?Hp. }
  split; simpl.
  - intros d e. rewrite !Hown. apply I1.
  - rewrite I2. split; intros [d Hd]; exists d; [by rewrite Hown|by rewrite <- Hown].
  - done.
  - intros d Hd. rewrite insert_pc. case_decide as E; subst; [split; [lia|done]|].
    split; [lia|]. intros Hn. exfalso. apply E.
    apply I1; [by rewrite Hp|]. by destruct (s_pc s d).
  - intros d Hd. rewrite insert_pc. case_decide; [lia|auto].
  - intros d. rewrite insert_pc. case_decide; auto.
Qed.

Lemma inv_drop c s :
  inv s → 0 <= c → s_pc s c = RelStlr → inv (set_lock 0 (goto c Idle s)).
Proof.
  intros [I1 I2 I3 I4 I5 I6] Hc Hp.
  assert (Hno : ∀ d, owns (<[c := Idle]> (s_pc s) d) = false).
  { intros d. rewrite insert_pc. case_decide as E; [done|].
    destruct (owns (s_pc s d)) eqn:Ho; [|done]. exfalso. apply E, I1; by rewrite ?Hp. }
  split; simpl.
  - intros d e. by rewrite !Hno.
  - split; [done|]. intros [d Hd]. by rewrite Hno in Hd.
  - done.
  - intros d Hd. rewrite (I4 d Hd), insert_pc. case_decide; subst; [|done]. by rewrite Hp.
  - intros d Hd. rewrite insert_pc. case_decide; [done|auto].
  - intros d. rewrite insert_pc. case_decide; auto.
Qed.

Lemma step_inv s s' : step s s' → inv s → inv s'.
Proof.
  intros [stx c s0 Hc] I. unfold cpu_step. pose proof (inv_id _ I c Hc) as Hid.
  pose proof (inv_taken _ I) as Ht.
  destruct (s_pc s0 c) eqn:Hp; try exact I;
    try (apply inv_goto; rewrite ?Hp; done).
  - by apply inv_goto; rewrite ?Hp; try done; destruct (nz _).
  - destruct (lk_cpuid (s_lock s0) =? c) eqn:E.
    + exfalso. assert (named AcqTestId = true) by (apply Hid; lia). done.
    + by apply inv_goto; rewrite ?Hp.
  - destruct (nz _) eqn:E; [exact I|]. apply inv_set_mon; [|done].
    by apply inv_goto; rewrite ?Hp.
  - destruct (s_mon s0 c && stx) eqn:E.
    + apply andb_true_iff in E as [E _]. by apply inv_take.
    + apply inv_set_mon; [|done]. by apply inv_goto; rewrite ?Hp.
  - by apply inv_name.
  - assert (nz (lk_lock (s_lock s0)) = true) as -> by (apply Ht; exists c; by rewrite Hp).
    by apply inv_goto; rewrite ?Hp.
  - assert (lk_cpuid (s_lock s0) = c) as E by (by apply Hid).
    rewrite (proj2 (Z.eqb_eq _ _) E). by apply inv_goto; rewrite ?Hp.
  - by apply inv_unname.
  - by apply inv_drop.
Qed.

Lemma reachable_inv s : reachable s → inv s.
Proof.
  intros Hr. pose proof init_inv as I. revert I. unfold reachable in Hr.
  induction Hr; eauto using step_inv.
Qed.

(** *** One CPU running alone *)

Definition solo (c : Z) (n : nat) (s : sys) : sys := Nat.iter n (cpu_step true c) s.

Lemma solo_steps c n s : 0 <= c → rtc step s (solo c n s).
Proof.
  intros Hc. unfold solo. induction n as [|n IH]; [done|].
  eapply rtc_r; [exact IH|]. simpl. by constructor.
Qed.

Lemma solo_S c n s : solo c (S n) s = solo c n (cpu_step true c s).
Proof. apply Nat.iter_succ_r. Qed.

Lemma solo_0 c s : solo c 0 s = s.
Proof. done. Qed.

Arguments solo : simpl never.

(** Runs the next instruction of the CPU, whose position is known. *)
Ltac run1 :=
  rewrite solo_S; unfold cpu_step at 1; simpl;
  rewrite ?insert_pc, ?insert_mon, ?decide_True by done; simpl.

Lemma solo_acquire c s :
  s_pc s c = Idle → lk_lock (s_lock s) = 0 →
  ∃ s', solo c 5 s = s' ∧ s_lock s' = Lock 1 c ∧ s_pc s' c = Crit.
Proof.
  intros Hp Hl. eexists; split.
  - rewrite solo_S. unfold cpu_step. rewrite Hp. run1.
    rewrite Hl. simpl. run1. rewrite Hl. simpl. run1. run1. reflexivity.
  - simpl. by rewrite insert_pc, decide_True.
Qed.

Lemma solo_release c s :
  s_pc s c = Crit → nz (lk_lock (s_lock s)) = true → lk_cpuid (s_lock s) = c →
  ∃ s', solo c 5 s = s' ∧ s_lock s' = lock_init ∧ s_pc s' c = Idle.
Proof.
  intros Hp Hl Hi. eexists; split.
  - rewrite solo_S. unfold cpu_step. rewrite Hp. run1.
    rewrite Hl. simpl. run1. rewrite Hi, Z.eqb_refl. simpl. run1. run1. reflexivity.
  - simpl. by rewrite insert_pc, decide_True.
Qed.

Lemma solo_spinning c s :
  s_pc s c = AcqLdaxr → lk_lock (s_lock s) = 0 →
  ∃ s', solo c 3 s = s' ∧ s_lock s' = Lock 1 c ∧ s_pc s' c = Crit.
Proof.
  intros Hp Hl. eexists; split.
  - rewrite solo_S. unfold cpu_step. rewrite Hp, Hl. simpl. run1. run1. reflexivity.
  - simpl. by rewrite insert_pc, decide_True.
Qed.

(** ** Properties *)

(** C1: mutual exclusion. In every interleaving of [acquire] and [release] by
    any number of CPUs, instruction by instruction and with store-exclusives
    that may fail, two CPUs are never both between the successful [stxrb] and
    the [stlrb] that frees the lock. *)
Theorem mutual_exclusion s c d :
  reachable s → owns (s_pc s c) = true → owns (s_pc s d) = true → c = d.
Proof. intros H. apply (inv_one _ (reachable_inv _ H)). Qed.

Lemma mutual_exclusion_witness :
  reachable (solo 1 5 (solo 0 2 init)) ∧
  owns (s_pc (solo 1 5 (solo 0 2 init)) 1) = true ∧ 1 = 1.
Proof.
  assert (H : reachable (solo 1 5 (solo 0 2 init))).
  { unfold reachable. etrans; apply solo_steps; lia. }
  split; [exact H|]. split; [vm_compute; reflexivity|].
  apply (mutual_exclusion _ 1 1 H); vm_compute; reflexivity.
Defined.

(** The tests of [holding] never misfire. When every CPU alternates
    [acquire] and [release], no interleaving reaches the panic "already held"
    of [acquire] or "invalid release" of [release], although the two fields
    of the lock are read and written one at a time. *)
Theorem no_false_panic s c :
  reachable s → s_pc s c ≠ PanicHeld ∧ s_pc s c ≠ PanicRelease.
Proof. intros H. apply (inv_calm _ (reachable_inv _ H)). Qed.

Lemma no_false_panic_witness :
  reachable (solo 0 3 init) ∧ s_pc (solo 0 3 init) 0 ≠ PanicHeld.
Proof.
  assert (H : reachable (solo 0 3 init)) by (apply solo_steps; lia).
  split; [exact H|]. apply (no_false_panic _ 0 H).
Defined.

(** C40: the one-CPU routines are runs of the interleaving model. Whenever
    [acquire] returns, the CPU alone goes from outside to inside the critical
    section in five instructions with the same effect on the lock; whenever
    [release] returns, it goes back outside in five. *)
Theorem routines_refine_steps h lk h' lk' s :
  s_lock s = lk →
  (acquire (h, lk) = Ret tt (h', lk') → s_pc s (cpuid h) = Idle →
     s_lock (solo (cpuid h) 5 s) = lk' ∧ s_pc (solo (cpuid h) 5 s) (cpuid h) = Crit) ∧
  (release (h, lk) = Ret tt (h', lk') → s_pc s (cpuid h) = Crit →
     s_lock (solo (cpuid h) 5 s) = lk' ∧ s_pc (solo (cpuid h) 5 s) (cpuid h) = Idle).
Proof.
  intros <-. split.
  - intros Ha Hp. apply pbind_inv in Ha as ([] & [h1 l1] & Hz & Ha).
    unfold zoom, hart_of, pushcli in Hz. simpl in Hz.
    assert (l1 = s_lock s ∧ cpuid h1 = cpuid h) as [-> Hid].
    { destruct (cli_depth h =? 0); by injection Hz as <- <-. }
    unfold pbind, get, take_lock, modify, ret, panic in Ha. simpl in Ha.
    destruct (holding h1 (s_lock s)); [done|]. simpl in Ha.
    destruct (nz (lk_lock (s_lock s))) eqn:E; [done|]. injection Ha as <- <-.
    rewrite Hid. destruct (solo_acquire (cpuid h) s Hp) as (s' & <- & ?); [by apply nz_false|done].
  - intros Hr Hp. unfold release, pbind, get, modify, ret, panic in Hr. simpl in Hr.
    destruct (holding h (s_lock s)) eqn:E; [|done]. unfold holding in E.
    apply andb_true_iff in E as [El Ei]. simpl in Hr. unfold zoom in Hr. simpl in Hr.
    destruct (popcli h) as [[] hp| | |] eqn:Ep; try done. injection Hr as <- <-.
    destruct (solo_release (cpuid h) s Hp) as (s' & <- & ?); [done|lia|done].
Qed.

Lemma routines_refine_steps_witness :
  s_lock (solo 2 5 init) = Lock 1 2 ∧ s_pc (solo 2 5 init) 2 = Crit.
Proof.
  apply (routines_refine_steps (Hart 2 0 false true) lock_init
           (Hart 2 1 true false) (Lock 1 2) init); vm_compute; reflexivity.
Defined.

(** The lock is obtained as soon as it is free. From any reachable state
    in which the lock is free, a CPU spinning in [acquire] that runs next is
    in its critical section after three instructions. *)
Theorem free_lock_obtained s c :
  reachable s → 0 <= c → lk_lock (s_lock s) = 0 → s_pc s c = AcqLdaxr →
  s_pc (solo c 3 s) c = Crit ∧ reachable (solo c 3 s) ∧ s_lock (solo c 3 s) = Lock 1 c.
Proof.
  intros Hr Hc Hl Hp.
  destruct (solo_spinning c s Hp Hl) as (s' & <- & Hs & Hc').
  split_and!; try done. unfold reachable. etrans; [exact Hr|]. by apply solo_steps.
Qed.

Lemma free_lock_obtained_witness :
  s_pc (solo 3 3 (solo 3 2 init)) 3 = Crit.
Proof.
  apply (free_lock_obtained (solo 3 2 init) 3);
    [apply solo_steps; lia|lia|vm_compute; reflexivity|vm_compute; reflexivity].
Defined.

End Multi.

(** ** Properties of one CPU *)

Module SpinProps.
Import Spin.

(** A critical section leaves interrupts as it found them. [acquire] of a
    free lock returns with interrupts masked; the matching [release] frees the
    lock, and the nesting depth and the mask bit are those before [acquire];
    interrupts are unmasked by it only at depth 0. *)
Theorem critical_section h :
  hart_ok h →
  ∃ h1, acquire (h, lock_init) = Ret tt (h1, Lock 1 (cpuid h)) ∧
    irq_on h1 = false ∧ cli_depth h1 = cli_depth h + 1 ∧
    ∃ h2, release (h1, Lock 1 (cpuid h)) = Ret tt (h2, lock_init) ∧
      irq_on h2 = irq_on h ∧ cli_depth h2 = cli_depth h ∧
      (irq_on h2 = true → cli_depth h2 = 0).
Proof.
  intros Hh. exists (entered h). split_and!; [by apply acquire_free|done|done|].
  exists (touched h). split_and!; [by apply release_held|done|done|].
  simpl. intros Hon. destruct Hh as (_ & _ & Hoff).
  destruct (decide (cli_depth h = 0)); [done|]. by rewrite Hoff in Hon.
Qed.

Lemma critical_section_witness :
  hart_ok (Hart 1 0 false true) ∧
  ∃ h1, acquire (Hart 1 0 false true, lock_init) = Ret tt (h1, Lock 1 1) ∧ irq_on h1 = false.
Proof.
  assert (H : hart_ok (Hart 1 0 false true)) by (apply (bool_decide_unpack _); vm_compute; done).
  split; [exact H|].
  destruct (critical_section (Hart 1 0 false true) H) as (h1 & Ha & Hi & _).
  exists h1. by split.
Defined.

(** Misuse is caught. Taking a lock the CPU holds, releasing one it does
    not hold, and an unmatched [popcli] all panic; a lock another CPU holds is
    waited for. *)
Theorem misuse_panics h c :
  acquire (h, Lock 1 (cpuid h)) = Panic "already held" ∧
  (c ≠ cpuid h → acquire (h, Lock 1 c) = Hang ∧
                 release (h, Lock 1 c) = Panic "invalid release") ∧
  release (h, lock_init) = Panic "invalid release" ∧
  (cli_depth h = 0 → popcli h = Panic "popcli").
Proof.
  split_and!.
  - by apply acquire_held.
  - intros Hc. split; [by apply acquire_other|]. apply release_not_holding.
    unfold holding. simpl. by apply Z.eqb_neq.
  - by apply release_not_holding.
  - intros Hd. unfold popcli. by rewrite Hd.
Qed.

Lemma misuse_panics_witness :
  acquire (Hart 1 0 false true, Lock 1 2) = Hang ∧ popcli (Hart 1 0 false true) = Panic "popcli".
Proof.
  split.
  - apply (misuse_panics (Hart 1 0 false true) 2). done.
  - apply (misuse_panics (Hart 1 0 false true) 2). done.
Defined.

End SpinProps.
