(* ===== verification/Layout.v ===== *)
(** * Memory layout and page-table entries (include/memmap.h, include/mm.h)

    The constants and macros of the two headers, with the arithmetic facts
    about them the memory components share. *)

From S2P Require Import Prelude.

(** ** include/memmap.h *)

Definition VA_START : Z := 0xffffff8000000000.
Definition V2P (v : Z) : Z := v -u64 VA_START.
Definition P2V (p : Z) : Z := p +u64 VA_START.
Definition PKERNBASE : Z := 0x40000000.
Definition KERNBASE : Z := PKERNBASE + VA_START.
Definition PHYMEMEND : Z := KERNBASE + 256 * 1024 * 1024.

(** ** include/mm.h *)

Definition PAGESIZE : Z := 4096.
Definition SECTIONSIZE : Z := 2 * 1024 * 1024.
Definition USTACKTOP : Z := 0x7ffffff000.
Definition USTACKBOTTOM : Z := USTACKTOP - PAGESIZE.

Definition PIDX (level va : Z) : Z := Z.land (Z.shiftr va (39 - level * 9)) 0x1ff.
Definition OFFSET (va : Z) : Z := Z.land va 0xfff.
Definition PTE_PA (pte : Z) : Z := Z.land pte 0xfffffffff000.

Definition PTE_VALID : Z := 1.
Definition PTE_TABLE : Z := 2.
Definition PTE_V : Z := 3.
Definition PTE_INDX (idx : Z) : Z := Z.shiftl (Z.land idx 7) 2.
Definition AI_NORMAL_NC_IDX : Z := 1.
Definition PTE_NORMAL : Z := PTE_INDX AI_NORMAL_NC_IDX.
Definition PTE_AP (ap : Z) : Z := Z.shiftl (Z.land ap 3) 6.
Definition PTE_U : Z := PTE_AP 1.
Definition PTE_AF : Z := Z.shiftl 1 10.
Definition PTE_PXN : Z := Z.shiftl 1 53.
Definition PTE_UXN : Z := Z.shiftl 1 54.

Definition PAGEROUNDUP (p : Z) : Z := Z.land (p +u64 (PAGESIZE - 1)) (Z.lnot (PAGESIZE - 1)).

(** ** Facts *)

(** A page of the kernel's RAM, by its kernel virtual address. *)
Definition page_ok (p : Z) : Prop := KERNBASE <= p < PHYMEMEND ∧ p mod PAGESIZE = 0.

#[export] Instance page_ok_dec p : Decision (page_ok p).
Proof. apply _. Defined.

(** [a] is a byte of the page at [p]. *)
Definition in_page (p a : Z) : Prop := p <= a < p + PAGESIZE.

#[export] Instance in_page_dec p a : Decision (in_page p a).
Proof. apply _. Defined.

Ltac unfold_layout :=
  unfold page_ok, in_page, PHYMEMEND, KERNBASE, PKERNBASE, VA_START, PAGESIZE in *.

Section pages.
Implicit Types p q a va pa : Z.

Lemma page_disjoint p q a :
  page_ok p → page_ok q → in_page p a → in_page q a → p = q.
Proof. unfold_layout. intros. zlia. Qed.

Lemma page_nonzero p : page_ok p → p ≠ 0.
Proof. unfold_layout. lia. Qed.

Lemma V2P_page p : page_ok p → V2P p = p - VA_START.
Proof. unfold V2P. unfold_layout. intros. rewrite u64_small; lia. Qed.

Lemma P2V_V2P p : page_ok p → P2V (V2P p) = p.
Proof. intros Hp. rewrite V2P_page by done. unfold P2V. unfold_layout. rewrite u64_small; lia. Qed.

(** The frame address masked out of an entry: its bits 12 to 47. *)
Lemma PTE_PA_eq x : PTE_PA x = (x / 2 ^ 12 * 2 ^ 12) mod 2 ^ 48.
Proof.
  unfold PTE_PA. rewrite <- Z.land_ones by lia.
  rewrite <- Z.shiftl_mul_pow2, <- Z.shiftr_div_pow2 by lia.
  apply Z.bits_inj'. intros i Hi.
  change 0xfffffffff000 with (Z.shiftl (Z.ones 36) 12).
  rewrite !Z.land_spec, !Z.shiftl_spec by lia.
  destruct (decide (i < 12)).
  - by rewrite !(Z.testbit_neg_r _ (i - 12)), andb_false_r by lia.
  - rewrite Z.shiftr_spec, !Z.testbit_ones_nonneg by lia.
    replace (i - 12 + 12) with i by lia. f_equal. lia.
Qed.

Lemma PTE_PA_aligned x : PTE_PA x mod PAGESIZE = 0.
Proof. rewrite PTE_PA_eq. unfold PAGESIZE. zlia. Qed.

Lemma PTE_PA_id pa : 0 <= pa < 2 ^ 48 → pa mod PAGESIZE = 0 → PTE_PA pa = pa.
Proof. rewrite PTE_PA_eq. unfold PAGESIZE. intros. zlia. Qed.

(** Attribute bits are below bit 12 or above bit 47, so they do not disturb
    the frame address. *)
Lemma PTE_PA_lor pa attr :
  PTE_PA attr = 0 → PTE_PA (Z.lor pa attr) = PTE_PA pa.
Proof. unfold PTE_PA. intros H. by rewrite Z.land_lor_distr_l, H, Z.lor_0_r. Qed.

Lemma V2P_frame p : page_ok p → PTE_PA (V2P p) = V2P p.
Proof.
  intros Hp. pose proof (V2P_page p Hp) as E. apply PTE_PA_id.
  - rewrite E. unfold_layout. lia.
  - rewrite E. unfold_layout. zlia.
Qed.

Lemma PIDX_bound level va : 0 <= PIDX level va < 512.
Proof. unfold PIDX. change 0x1ff with (2 ^ 9 - 1). rewrite land_low by lia. by apply Z.mod_pos_bound. Qed.

Lemma PIDX_eq level va :
  1 <= level <= 3 → PIDX level va = (va / 2 ^ (39 - level * 9)) mod 512.
Proof.
  intros. unfold PIDX. change 0x1ff with (2 ^ 9 - 1).
  by rewrite land_low, Z.shiftr_div_pow2 by lia.
Qed.

Lemma OFFSET_eq va : OFFSET va = va mod PAGESIZE.
Proof. unfold OFFSET. change 0xfff with (2 ^ 12 - 1). by rewrite land_low. Qed.

(** The three indices and the offset rebuild a 39-bit address. *)
Lemma PIDX_decompose va :
  0 <= va < 2 ^ 39 →
  va = PIDX 1 va * 2 ^ 30 + PIDX 2 va * 2 ^ 21 + PIDX 3 va * 2 ^ 12 + OFFSET va.
Proof. intros. rewrite !PIDX_eq, OFFSET_eq by lia. simpl. unfold PAGESIZE. zlia. Qed.

Lemma PAGEROUNDUP_eq x :
  0 <= x < 2 ^ 64 - PAGESIZE → PAGEROUNDUP x = (x + 4095) / 4096 * 4096.
Proof.
  unfold PAGEROUNDUP, PAGESIZE. intros. change (4096 - 1) with (2 ^ 12 - 1).
  rewrite land_lnot_low, u64_small by lia. zlia.
Qed.
End pages.

Create HintDb pages.
#[export] Hint Resolve page_nonzero PTE_PA_aligned PIDX_bound V2P_frame : pages.
