(* ===== verification/Kalloc.v ===== *)
(** * Physical page allocator (kernel/kalloc.c)

    The free pages form a list threaded through their first eight bytes, with
    its head in [kallocator.freelist].  The state is the memory, the allocator
    and the CPU that runs. *)

From S2P Require Import Prelude Mem KString Spinlock Layout.
Import Spin.
Open Scope Z_scope.
Open Scope prog_scope.

Record kmem := KMem {
  km_hart : hart;
  kallocator_lk : spinlock;
  freelist : Z;
  km_mem : mem;
}.

Definition kalloc_lock : lens kmem lockst :=
  Lens (λ s, (km_hart s, kallocator_lk s))
       (λ t s, KMem (fst t) (snd t) (freelist s) (km_mem s)).

Definition kmem_mem : lens kmem mem :=
  Lens km_mem (λ m s, KMem (km_hart s) (kallocator_lk s) (freelist s) m).

Definition set_freelist (p : Z) : prog kmem unit :=
  modify (λ s, KMem (km_hart s) (kallocator_lk s) p (km_mem s)).

(** Pointer-sized loads and stores of kernel memory. *)
Definition load64 (a : Z) : prog kmem Z := gets (λ s, ld64 (km_mem s) a).
Definition store64 (a v : Z) : prog kmem unit :=
  modify (λ s, KMem (km_hart s) (kallocator_lk s) (freelist s) (st64 (km_mem s) a v)).

(** ** The routines *)

(** The list's nodes: [struct header { struct header *next; }]. *)
Definition header_next (h : Z) : Z := h.

Definition kalloc : prog kmem Z :=
  zoom kalloc_lock acquire ;;
  new <- gets freelist ;;
  if negb (nz new) then (* printk("kalloc return NULL\n") *) ret 0 else
  next <- load64 (header_next new) ;;
  set_freelist next ;;
  zoom kalloc_lock release ;;
  zoom kmem_mem (memset new 0 PAGESIZE) ;;
  ret new.

Definition kfree (va : Z) : prog kmem unit :=
  if va =? 0 then ret tt else
  (if nz (va mod PAGESIZE) then panic "bad va" else ret tt) ;;
  zoom kmem_mem (memset va 0 PAGESIZE) ;;
  zoom kalloc_lock acquire ;;
  old <- gets freelist ;;
  store64 (header_next va) old ;;
  set_freelist va ;;
  zoom kalloc_lock release.

(** [for(; h; h = h->next) c++;] *)
Fixpoint count_free (fuel : nat) (h c : Z) : prog kmem Z :=
  match fuel with
  | O => λ _, Hang
  | S fuel =>
      if nz h then (next <- load64 (header_next h) ;; count_free fuel next (i32 (c + 1)))
      else ret c
  end.

Definition freed_mem_kb (fuel : nat) : prog kmem Z :=
  zoom kalloc_lock acquire ;;
  h <- gets freelist ;;
  c <- count_free fuel h 0 ;;
  zoom kalloc_lock release ;;
  ret (u64 (Z.quot (i32 (c * PAGESIZE)) 1024)).

(** [for(char *p = start; p + PAGESIZE <= end; p += PAGESIZE) kfree(p);] *)
Fixpoint kfree_range (fuel : nat) (p e : Z) : prog kmem unit :=
  match fuel with
  | O => λ _, Hang
  | S fuel =>
      if p + PAGESIZE <=? e
      then kfree p ;; kfree_range fuel (p + PAGESIZE) e
      else ret tt
  end.

Section init.
(** The end of the kernel image, set by the linker script. *)
Variable kend : Z.

Definition ksecend : Z :=
  Z.land (kend +u64 (SECTIONSIZE - 1)) (Z.lnot (SECTIONSIZE - 1)).

Definition kalloc_init1 (fuel : nat) : prog kmem unit :=
  modify (λ s, KMem (km_hart s) lock_init (freelist s) (km_mem s)) ;;
  set_freelist 0 ;;
  kfree_range fuel kend ksecend.

Definition kalloc_init2 (fuel : nat) : prog kmem unit :=
  kfree_range fuel ksecend PHYMEMEND.
End init.

(** ** The free list *)

(** The nodes of the list that starts at [p], in order. *)
Fixpoint chain (m : mem) (p : Z) (l : list Z) : Prop :=
  match l with
  | [] => p = 0
  | q :: l => p = q ∧ chain m (ld64 m q) l
  end.

Record kinv (fl : list Z) (s : kmem) : Prop := {
  kinv_hart : hart_ok (km_hart s);
  kinv_lock : free_lock (kallocator_lk s);
  kinv_chain : chain (km_mem s) (freelist s) fl;
  kinv_nodup : NoDup fl;
  kinv_pages : Forall page_ok fl;
}.

Section chain.
Implicit Types (m : mem) (p q a : Z) (l : list Z).

Lemma chain_ext m m' p l :
  (∀ q a, q ∈ l → in_page q a → rd8 m' a = rd8 m a) → chain m p l → chain m' p l.
Proof.
  revert p. induction l as [|q l IH]; intros p H; simpl; [done|].
  intros [-> Hc]. split; [done|].
  replace (ld64 m' q) with (ld64 m q).
  - apply IH; [|done]. intros q' a Hq' Ha. apply (H q'); [by constructor|done].
  - apply ld_ext. intros i Hi. symmetry. apply (H q); [by constructor|].
    unfold in_page, PAGESIZE. lia.
Qed.

Lemma chain_inj m p l1 l2 :
  Forall page_ok l1 → Forall page_ok l2 → chain m p l1 → chain m p l2 → l1 = l2.
Proof.
  intros H1. revert p l2. induction H1 as [|q l1 Hq H1 IH]; intros p l2 H2.
  - destruct H2 as [|q2 l2 Hq2]; [done|]. simpl. intros -> [E _].
    by apply page_nonzero in Hq2.
  - destruct H2 as [|q2 l2 Hq2 H2]; simpl.
    + intros [-> _] E. apply page_nonzero in Hq. congruence.
    + intros [-> Hc1] [E Hc2]. subst q2. f_equal. eauto.
Qed.

(** A page not in the list and one in it share no byte. *)
Lemma fresh_page_disj p l q a :
  page_ok p → Forall page_ok l → p ∉ l → q ∈ l → in_page q a → ¬ in_page p a.
Proof.
  intros Hp Hl Hn Hq Ha Hpa. apply Hn.
  assert (page_ok q) by (by eapply Forall_forall in Hl).
  by rewrite (page_disjoint p q a).
Qed.
End chain.

(** ** Specifications of the routines *)

(** The state after a critical section of the allocator. *)
Definition km_touched (s : kmem) : kmem :=
  KMem (touched (km_hart s)) (kallocator_lk s) (freelist s) (km_mem s).

Section specs.
Implicit Types (s : kmem) (p : Z) (fl : list Z).

Lemma acquire_kalloc s :
  hart_ok (km_hart s) → free_lock (kallocator_lk s) →
  zoom kalloc_lock acquire s =
    Ret tt (KMem (entered (km_hart s)) (Lock 1 (cpuid (km_hart s))) (freelist s) (km_mem s)).
Proof. intros Hh Hl. unfold zoom. simpl. by rewrite acquire_free. Qed.

Lemma release_kalloc h f m :
  hart_ok h →
  zoom kalloc_lock release (KMem (entered h) (Lock 1 (cpuid h)) f m) =
    Ret tt (KMem (touched h) lock_init f m).
Proof. intros Hh. unfold zoom. simpl. by rewrite release_held. Qed.

(** [kalloc] takes the first free page and clears it. *)
Lemma kalloc_run p fl s :
  kinv (p :: fl) s →
  kalloc s = Ret p (KMem (touched (km_hart s)) lock_init (ld64 (km_mem s) p)
                      (fill (Z.to_nat PAGESIZE) (km_mem s) p 0)).
Proof.
  intros [Hh Hl [Hf Hc] Hn Hp]. apply Forall_cons in Hp as [Hp _].
  unfold kalloc, load64, set_freelist. rewrite (pbind_ok _ _ _ _ _ (acquire_kalloc s Hh Hl)).
  prog_step. cbn [freelist]. rewrite Hf.
  assert (nz p = true) as -> by (apply nz_true; by apply page_nonzero).
  cbn [negb]. prog_steps. cbn [km_hart kallocator_lk km_mem].
  by rewrite (pbind_ok _ _ _ _ _ (release_kalloc _ _ _ Hh)).
Qed.

Lemma rd8_clear m p a :
  rd8 (fill (Z.to_nat PAGESIZE) m p 0) a = if decide (in_page p a) then 0 else rd8 m a.
Proof. rewrite rd8_fill. unfold in_page, PAGESIZE. repeat case_decide; try done; lia. Qed.

Lemma kalloc_spec p fl s :
  kinv (p :: fl) s →
  ∃ s', kalloc s = Ret p s' ∧ kinv fl s' ∧ (p ∉ fl) ∧ page_ok p ∧
    km_hart s' = touched (km_hart s) ∧
    (∀ a, rd8 (km_mem s') a = if decide (in_page p a) then 0 else rd8 (km_mem s) a).
Proof.
  intros I. pose proof (kalloc_run p fl s I) as E. pose proof (rd8_clear (km_mem s) p) as Hm.
  revert Hm E. generalize (fill (Z.to_nat PAGESIZE) (km_mem s) p 0) as m'. intros m' Hm E.
  destruct I as [Hh Hl [Hf Hc] Hn Hp].
  apply Forall_cons in Hp as [Hp Hfl]. apply NoDup_cons in Hn as [Hnp Hn].
  eexists. split_and!; [exact E| |exact Hnp|exact Hp|done|exact Hm].
  split; [done|done| |done|done].
  simpl. eapply chain_ext; [|exact Hc].
  intros q a Hq Ha. rewrite Hm, decide_False; [done|].
  eapply fresh_page_disj; [exact Hp|exact Hfl|exact Hnp|exact Hq|exact Ha].
Qed.

(** With no free page it returns NULL, and does not release the lock. *)
Lemma kalloc_empty_run s :
  kinv [] s →
  kalloc s = Ret 0 (KMem (entered (km_hart s)) (Lock 1 (cpuid (km_hart s))) 0 (km_mem s)).
Proof.
  intros [Hh Hl Hc Hn Hp]. simpl in Hc.
  unfold kalloc. rewrite (pbind_ok _ _ _ _ _ (acquire_kalloc s Hh Hl)).
  prog_step. cbn [freelist]. by rewrite Hc.
Qed.

Lemma kfree_run p fl s :
  kinv fl s → page_ok p →
  kfree p s = Ret tt (KMem (touched (km_hart s)) lock_init p
    (st64 (fill (Z.to_nat PAGESIZE) (km_mem s) p 0) p (freelist s))).
Proof.
  intros [Hh Hl Hc Hn Hp] Hpg. unfold kfree.
  pose proof (page_nonzero p Hpg). destruct (p =? 0) eqn:E; [lia|].
  destruct Hpg as [_ Ha]. rewrite Ha. change (nz 0) with false. cbv iota. prog_step.
  erewrite pbind_ok; [|by apply zoom_ok; unfold memset]. cbn.
  rewrite (pbind_ok _ _ _ _ _ (acquire_kalloc (KMem _ _ _ _) Hh Hl)).
  unfold store64, set_freelist. prog_steps. cbn. by apply release_kalloc.
Qed.

Lemma kfree_spec p fl s :
  kinv fl s → page_ok p → p ∉ fl →
  ∃ s', kfree p s = Ret tt s' ∧ kinv (p :: fl) s' ∧
    km_hart s' = touched (km_hart s) ∧
    (∀ a, ¬ in_page p a → rd8 (km_mem s') a = rd8 (km_mem s) a).
Proof.
  intros I Hpg Hn. pose proof (kfree_run p fl s I Hpg) as E.
  assert (Hfr : ∀ a, ¬ in_page p a →
    rd8 (st64 (fill (Z.to_nat PAGESIZE) (km_mem s) p 0) p (freelist s)) a = rd8 (km_mem s) a).
  { intros a Ha. rewrite rd8_st_other.
    - by rewrite rd8_clear, decide_False.
    - unfold in_page, PAGESIZE in Ha. lia. }
  pose proof (ld_st_eq 8 (fill (Z.to_nat PAGESIZE) (km_mem s) p 0) p (freelist s)) as Hld.
  revert Hfr Hld E. generalize (st64 (fill (Z.to_nat PAGESIZE) (km_mem s) p 0) p (freelist s)).
  intros m' Hfr Hld E. destruct I as [Hh Hl Hc Hnd Hp].
  eexists. split_and!; [exact E| |done|exact Hfr].
  split; [done|done| |by constructor|by constructor].
  simpl. split; [done|]. rewrite Hld.
  assert (freelist s mod 256 ^ 8%nat = freelist s) as ->.
  { apply Z.mod_small. destruct fl as [|q fl]; simpl in Hc.
    - by rewrite Hc.
    - destruct Hc as [-> _]. apply Forall_cons in Hp as [[Hq _] _].
      revert Hq. unfold_layout. lia. }
  eapply chain_ext; [|exact Hc]. intros q a Hq Ha. apply Hfr.
  eapply fresh_page_disj; [exact Hpg|exact Hp|exact Hn|exact Hq|exact Ha].
Qed.
End specs.

(** ** Loops over pages *)

(** The [n] pages from [p] up. *)
Fixpoint pages (p : Z) (n : nat) : list Z :=
  match n with
  | O => []
  | S n => p :: pages (p + PAGESIZE) n
  end.

Section loops.
Implicit Types (s : kmem) (p e : Z) (fl : list Z) (n fuel : nat).

Lemma elem_of_pages p n q :
  q ∈ pages p n ↔ ∃ i, 0 <= i < n ∧ q = p + PAGESIZE * i.
Proof.
  revert p. induction n as [|n IH]; intros p; simpl.
  - split; [by intros ?%not_elem_of_nil|]. intros (i & ? & _). lia.
  - rewrite elem_of_cons, IH. split.
    + intros [->|(i & ? & ->)]; [exists 0; lia|exists (i + 1); lia].
    + intros (i & ? & ->). destruct (decide (i = 0)) as [->|]; [left; lia|].
      right. exists (i - 1). lia.
Qed.

Lemma length_pages p n : length (pages p n) = n.
Proof. revert p. induction n; intros p; simpl; [done|]. by f_equal. Qed.

Lemma pages_app p n n' : pages p (n + n') = pages p n ++ pages (p + PAGESIZE * n) n'.
Proof.
  revert p. induction n as [|n IH]; intros p; simpl.
  - f_equal. lia.
  - f_equal. rewrite IH. do 2 f_equal. lia.
Qed.

(** Freeing a range of pages puts them on the list, the last one first, and
    touches nothing else. *)
Lemma kfree_range_spec n fuel p e fl s :
  kinv fl s → page_ok p ∨ n = 0%nat → p + PAGESIZE * n <= e → e < p + PAGESIZE * n + PAGESIZE →
  p + PAGESIZE * n <= PHYMEMEND → (∀ q, q ∈ fl → ¬ (p <= q < e)) → (n < fuel)%nat →
  ∃ s', kfree_range fuel p e s = Ret tt s' ∧ kinv (reverse (pages p n) ++ fl) s' ∧
    ∀ a, ¬ (p <= a < e) → rd8 (km_mem s') a = rd8 (km_mem s) a.
Proof.
  revert fuel p fl s. induction n as [|n IH]; intros [|fuel] p fl s I Hp Hlo Hhi He Hlt Hf;
    try lia; simpl kfree_range.
  - destruct (p + PAGESIZE <=? e) eqn:E; [lia|]. exists s. by simpl.
  - destruct (p + PAGESIZE <=? e) eqn:E; [|unfold PAGESIZE in *; lia].
    destruct Hp as [Hp|]; [|lia].
    destruct (kfree_spec p fl s I Hp) as (s1 & Hk & I1 & _ & F1).
    { intros ?%Hlt. unfold PAGESIZE in *. lia. }
    destruct (IH fuel (p + PAGESIZE) (p :: fl) s1 I1) as (s2 & Hr & I2 & F2);
      try (unfold PAGESIZE in *; lia).
    { destruct n; [by right|left]. revert Hp. unfold_layout. intros [? ?].
      split; [lia|zlia]. }
    { intros q [->|Hq]%elem_of_cons; [unfold PAGESIZE; lia|]. apply Hlt in Hq.
      unfold PAGESIZE. lia. }
    exists s2. rewrite (pbind_ok _ _ _ _ _ Hk). split_and!; [exact Hr| |].
    + simpl. by rewrite reverse_cons, <- app_assoc.
    + intros a Ha. rewrite F2, F1; [done|..]; unfold in_page, PAGESIZE in *; lia.
Qed.

Lemma count_free_run fuel fl h c s :
  chain (km_mem s) h fl → Forall page_ok fl → (length fl < fuel)%nat →
  0 <= c → c + length fl < 2 ^ 31 →
  count_free fuel h c s = Ret (c + length fl) s.
Proof.
  revert fuel h c. induction fl as [|q fl IH]; intros [|fuel] h c Hc Hp Hf H0 Hb;
    simpl in Hf, Hb; try lia; simpl count_free.
  - simpl in Hc. rewrite Hc. simpl. unfold ret. f_equal. lia.
  - destruct Hc as [-> Hc]. apply Forall_cons in Hp as [Hq Hp].
    assert (nz q = true) as -> by (apply nz_true; by apply page_nonzero).
    unfold load64. prog_step. unfold header_next.
    rewrite i32_small by lia. rewrite IH by (done || lia). f_equal. simpl. lia.
Qed.
End loops.

(** ** Initialisation *)

Section initspec.
Variable kend : Z.
(** What the linker script fixes: [. = ALIGN(4096); kend = .;] after the
    sections loaded at [KERNBASE]. *)
Hypothesis kend_aligned : kend mod PAGESIZE = 0.
Hypothesis kend_range : KERNBASE <= kend <= PHYMEMEND.

Lemma ksecend_eq : ksecend kend = (kend + 0x1fffff) / 0x200000 * 0x200000.
Proof.
  unfold ksecend, SECTIONSIZE. change (2 * 1024 * 1024 - 1) with (2 ^ 21 - 1).
  revert kend_range. unfold_layout. intros. rewrite land_lnot_low, u64_small by lia. zlia.
Qed.

Lemma ksecend_range : kend <= ksecend kend <= PHYMEMEND ∧ ksecend kend mod PAGESIZE = 0.
Proof. rewrite ksecend_eq. revert kend_aligned kend_range. unfold_layout. intros. zlia. Qed.

(** Pages below and above the section boundary. *)
Definition npages1 : nat := Z.to_nat ((ksecend kend - kend) / PAGESIZE).
Definition npages2 : nat := Z.to_nat ((PHYMEMEND - ksecend kend) / PAGESIZE).

Lemma npages1_eq : kend + PAGESIZE * npages1 = ksecend kend.
Proof.
  unfold npages1. pose proof ksecend_range as [? ?]. revert H H0 kend_aligned.
  unfold PAGESIZE. intros. rewrite Z2Nat.id; zlia.
Qed.

Lemma npages2_eq : ksecend kend + PAGESIZE * npages2 = PHYMEMEND.
Proof.
  unfold npages2. pose proof ksecend_range as [? ?]. revert H H0.
  unfold_layout. intros. rewrite Z2Nat.id; zlia.
Qed.

Lemma kalloc_init_run fuel s :
  hart_ok (km_hart s) → (Z.to_nat 65536 < fuel)%nat →
  ∃ s', (kalloc_init1 kend fuel ;; kalloc_init2 kend fuel) s = Ret tt s' ∧
    kinv (reverse (pages kend (Z.to_nat ((PHYMEMEND - kend) / PAGESIZE)))) s'.
Proof.
  intros Hh Hf. pose proof npages1_eq as E1. pose proof npages2_eq as E2.
  pose proof ksecend_range as [[R1 R2] R3].
  assert (Hbound : (npages1 <= Z.to_nat 65536)%nat ∧ (npages2 <= Z.to_nat 65536)%nat).
  { revert kend_range E1 E2 R1 R2. unfold_layout. lia. }
  unfold kalloc_init1, kalloc_init2, set_freelist. rewrite pbind_assoc. prog_steps. cbn.
  set (s0 := KMem _ _ _ _).
  assert (I0 : kinv [] s0) by (split; try done; constructor).
  destruct (kfree_range_spec npages1 fuel kend (ksecend kend) [] s0 I0)
    as (s1 & Hr1 & I1 & _); try (unfold PAGESIZE in *; lia).
  { destruct (decide (npages1 = 0%nat)); [by right|left]. split; [|done].
    unfold PAGESIZE in *. lia. }
  { by intros q ?%not_elem_of_nil. }
  destruct (kfree_range_spec npages2 fuel (ksecend kend) PHYMEMEND
    (reverse (pages kend npages1) ++ []) s1 I1) as (s2 & Hr2 & I2 & _); try (unfold PAGESIZE in *; lia).
  { destruct (decide (npages2 = 0%nat)); [by right|left]. split; [|done].
    unfold PAGESIZE in *. lia. }
  { intros q. rewrite app_nil_r, elem_of_reverse, elem_of_pages. intros (i & Hi & ->).
    rewrite <- E1. unfold PAGESIZE. lia. }
  exists s2. rewrite (pbind_ok _ _ _ _ _ Hr1). split; [exact Hr2|].
  replace (Z.to_nat ((PHYMEMEND - kend) / PAGESIZE)) with (npages1 + npages2)%nat.
  - rewrite pages_app, reverse_app, E1. by rewrite app_nil_r in I2.
  - rewrite <- E2, <- E1. unfold PAGESIZE.
    replace (_ - kend) with ((npages1 + npages2) * 4096) by lia. rewrite Z.div_mul by lia. lia.
Qed.
End initspec.

(** ** Properties *)

Module KallocProps.

(** C24: the allocator is a stack of cleared pages. While the list of free
    pages is not empty, [kalloc] takes its first page off, returns it filled
    with zeroes and touches no other byte; [kfree] of that page then restores
    the list, again without touching any other page; both leave the lock free
    and the interrupt mask as it was. *)
Theorem kalloc_kfree_correct p fl s :
  kinv (p :: fl) s →
  ∃ s1, kalloc s = Ret p s1 ∧ kinv fl s1 ∧ ¬ (p ∈ fl) ∧ page_ok p ∧
    (∀ a, rd8 (km_mem s1) a = if decide (in_page p a) then 0 else rd8 (km_mem s) a) ∧
    irq_on (km_hart s1) = irq_on (km_hart s) ∧
    ∃ s2, kfree p s1 = Ret tt s2 ∧ kinv (p :: fl) s2 ∧
      (∀ a, ¬ in_page p a → rd8 (km_mem s2) a = rd8 (km_mem s) a) ∧
      irq_on (km_hart s2) = irq_on (km_hart s).
Proof.
  intros I. destruct (kalloc_spec p fl s I) as (s1 & Ha & I1 & Hn & Hp & Hh & Hm).
  destruct (kfree_spec p fl s1 I1 Hp Hn) as (s2 & Hf & I2 & Hh2 & Hm2).
  exists s1. split_and!; try done; [by rewrite Hh|]. exists s2. split_and!; try done.
  - intros a Ha'. by rewrite Hm2, Hm, decide_False.
  - by rewrite Hh2, Hh.
Qed.

(** One free page at the start of RAM. *)
Definition one_page : kmem := KMem (Hart 0 0 false true) lock_init KERNBASE ∅.

Lemma one_page_inv : kinv [KERNBASE] one_page.
Proof.
  split; [|done|done| |].
  - apply (bool_decide_unpack _). vm_compute. done.
  - apply (bool_decide_unpack _). vm_compute. done.
  - apply (bool_decide_unpack _). vm_compute. done.
Qed.

Lemma kalloc_kfree_correct_witness :
  ∃ s1, kalloc one_page = Ret KERNBASE s1 ∧ kinv [] s1.
Proof.
  destruct (kalloc_kfree_correct KERNBASE [] one_page one_page_inv) as (s1 & Ha & I1 & _).
  exists s1. exact (conj Ha I1).
Defined.

(** Running out of memory blocks the allocator. With no free page
    [kalloc] returns NULL but keeps [kallocator.lk]: the next [kalloc] or
    [kfree] on this CPU panics, and on any other CPU never returns. *)
Theorem kalloc_exhausted s :
  kinv [] s →
  ∃ s', kalloc s = Ret 0 s' ∧ kallocator_lk s' = Lock 1 (cpuid (km_hart s)) ∧
    kalloc s' = Panic "already held" ∧
    (∀ p, page_ok p → kfree p s' = Panic "already held") ∧
    ∀ h, cpuid h ≠ cpuid (km_hart s) →
      kalloc (KMem h (kallocator_lk s') (freelist s') (km_mem s')) = Hang.
Proof.
  intros I. eexists. split; [by apply kalloc_empty_run|]. split_and!; [done| | |].
  - unfold kalloc. apply pbind_panic, zoom_panic. apply (acquire_held (entered (km_hart s))).
  - intros p Hp. unfold kfree. pose proof (page_nonzero p Hp). destruct (p =? 0) eqn:E; [lia|].
    destruct Hp as [_ ->]. change (nz 0) with false. cbv iota. prog_step.
    erewrite pbind_ok; [|by apply zoom_ok; unfold memset]. cbn.
    apply pbind_panic, zoom_panic. apply (acquire_held (entered (km_hart s))).
  - intros h Hh. unfold kalloc. apply pbind_hang, zoom_hang.
    apply (acquire_other h). simpl. congruence.
Qed.

Definition no_page : kmem := KMem (Hart 3 0 false true) lock_init 0 ∅.

Lemma no_page_inv : kinv [] no_page.
Proof.
  split; [|done|done| |]; try constructor.
  - vm_compute. done.
  - apply (bool_decide_unpack _). vm_compute. done.
Qed.

Lemma kalloc_exhausted_witness :
  ∃ s', kalloc no_page = Ret 0 s' ∧ kalloc s' = Panic "already held".
Proof.
  destruct (kalloc_exhausted no_page no_page_inv) as (s' & H1 & _ & H2 & _).
  exists s'. exact (conj H1 H2).
Defined.

(** After boot every page of RAM above the kernel image is free, once.
    [kalloc_init1] and [kalloc_init2] return, and the free list they build
    holds exactly the pages from [kend] to [PHYMEMEND]; [freed_mem_kb] then
    reports their size. 65537 turns of each loop are enough for 256 MB. *)
Theorem kalloc_init_correct kend fuel s :
  kend mod PAGESIZE = 0 → KERNBASE <= kend <= PHYMEMEND →
  hart_ok (km_hart s) → (Z.to_nat 65536 < fuel)%nat →
  ∃ s1 fl, (kalloc_init1 kend fuel ;; kalloc_init2 kend fuel) s = Ret tt s1 ∧ kinv fl s1 ∧
    (∀ p, p ∈ fl ↔ kend <= p < PHYMEMEND ∧ p mod PAGESIZE = 0) ∧
    ∃ s2, freed_mem_kb fuel s1 = Ret ((PHYMEMEND - kend) / 1024) s2 ∧ kinv fl s2.
Proof.
  intros Ha Hr Hh Hf. destruct (kalloc_init_run kend Ha Hr fuel s Hh Hf) as (s1 & Hs & I).
  set (n := Z.to_nat ((PHYMEMEND - kend) / PAGESIZE)) in *.
  assert (Hn : kend + PAGESIZE * n = PHYMEMEND ∧ n <= 65536).
  { subst n. revert Ha Hr. unfold_layout. intros. rewrite Z2Nat.id; zlia. }
  exists s1, (reverse (pages kend n)). split_and!; try done.
  - intros p. rewrite elem_of_reverse, elem_of_pages. unfold PAGESIZE in *. split.
    + intros (i & Hi & ->). zlia.
    + intros [? ?]. exists ((p - kend) / 4096). zlia.
  - destruct I as [Hh1 Hl1 Hc1 Hd1 Hp1]. unfold freed_mem_kb.
    rewrite (pbind_ok _ _ _ _ _ (acquire_kalloc s1 Hh1 Hl1)). prog_step. cbn [freelist].
    assert (Hlen : Z.of_nat (length (reverse (pages kend n))) = n)
      by (by rewrite length_reverse, length_pages).
    erewrite pbind_ok; [|apply (count_free_run fuel (reverse (pages kend n)));
      [exact Hc1|exact Hp1|lia|lia|lia]].
    rewrite (pbind_ok _ _ _ _ _ (release_kalloc _ _ _ Hh1)).
    rewrite Hlen. eexists. split.
    + unfold ret. do 2 f_equal. rewrite i32_small by (unfold PAGESIZE in *; lia).
      rewrite Z.quot_div_nonneg by (unfold PAGESIZE in *; lia).
      destruct Hn as [<- Hn]. unfold PAGESIZE. rewrite u64_small by zlia. zlia.
    + by split.
Qed.

Lemma kalloc_init_correct_witness :
  ∃ s1 fl, (kalloc_init1 0xffffff8040080000 (Z.to_nat 65537) ;;
            kalloc_init2 0xffffff8040080000 (Z.to_nat 65537)) no_page = Ret tt s1 ∧ kinv fl s1.
Proof.
  destruct (kalloc_init_correct 0xffffff8040080000 (Z.to_nat 65537) no_page)
    as (s1 & fl & H & I & _).
  - vm_compute. reflexivity.
  - vm_compute. split; discriminate.
  - apply (bool_decide_unpack _). vm_compute. done.
  - lia.
  - exists s1, fl. exact (conj H I).
Defined.

End KallocProps.
