(* ===== verification/PageTable.v ===== *)
(** * Address spaces (kernel/mm.c)

    Three-level page tables built in kernel memory out of [kalloc]'s pages.
    The definitions follow mm.c; the second part relates a table to the finite
    map of its entries, and proves the operations correct against that map. *)

From S2P Require Import Prelude Mem KString Spinlock Layout Kalloc.
Import Spin.
Open Scope Z_scope.
Open Scope prog_scope.

(** ** The routines *)

(** [(pte & PTE_VALID) && (pte & PTE_TABLE)] *)
Definition is_table (pte : Z) : bool :=
  nz (Z.land pte PTE_VALID) && nz (Z.land pte PTE_TABLE).

(** The entry [pagewalk] stores for the table at [pgt]. *)
Definition table_pte (pgt : Z) : Z := Z.lor (Z.lor (PTE_PA (V2P pgt)) PTE_TABLE) PTE_VALID.

(** One turn of the loop of [pagewalk]: the table below [pgt], allocated when
    it is missing; [None] when there is no memory for it. *)
Definition walk_level (level pgt va : Z) : prog kmem (option Z) :=
  let pte := pgt + 8 * PIDX level va in
  v <- load64 pte ;;
  if is_table v then ret (Some (P2V (PTE_PA v))) else
  new <- kalloc ;;
  if new =? 0 then (* printk("null pgt\n") *) ret None else
  store64 pte (table_pte new) ;;
  ret (Some new).

(** The address of the level-3 entry of [va], 0 for NULL. *)
Definition pagewalk (pgt va : Z) : prog kmem Z :=
  p2 <- walk_level 1 pgt va ;;
  match p2 with
  | None => ret 0
  | Some p2 =>
      p3 <- walk_level 2 p2 va ;;
      match p3 with
      | None => ret 0
      | Some p3 => ret (p3 + 8 * PIDX 3 va)
      end
  end.

(** [*pte] for a pointer that may be NULL. *)
Definition deref (pte : Z) : prog kmem Z :=
  if pte =? 0 then fault "NULL pte" else load64 pte.

Definition uva2pa (pgt va : Z) : prog kmem Z :=
  pte <- pagewalk pgt va ;;
  if pte =? 0 then ret 0 else
  v <- load64 pte ;;
  ret (PTE_PA v +u64 OFFSET va).

(** [kpgtpa] is what TTBR1_EL1 holds. *)
Definition va2pa (kpgtpa va : Z) : prog kmem Z := uva2pa (P2V kpgtpa) va.

Definition uva2ka (pgt va : Z) : prog kmem Z :=
  pa <- uva2pa pgt va ;;
  if pa =? 0 then ret 0 else ret (P2V pa).

Definition leaf_pte (pa attr : Z) : Z :=
  Z.lor (Z.lor (Z.lor (PTE_PA pa) PTE_AF) attr) PTE_V.

(** The loop of [pagemap], [n] pages left. *)
Fixpoint pagemap_loop (n : nat) (pgt va pa attr : Z) : prog kmem unit :=
  match n with
  | O => ret tt
  | S n =>
      pte <- pagewalk pgt va ;;
      v <- deref pte ;;
      (if nz (Z.land v PTE_AF) then panic "this entry has been used" else ret tt) ;;
      store64 pte (leaf_pte pa attr) ;;
      pagemap_loop n pgt (va +u64 PAGESIZE) (pa +u64 PAGESIZE) attr
  end.

Definition pagemap (pgt va pa size attr : Z) : prog kmem unit :=
  if nz (va mod PAGESIZE) || nz (pa mod PAGESIZE) || nz (size mod PAGESIZE)
  then panic "invalid pagemap"
  else pagemap_loop (Z.to_nat (size / PAGESIZE)) pgt va pa attr.

Fixpoint pageunmap_loop (n : nat) (pgt va : Z) : prog kmem unit :=
  match n with
  | O => ret tt
  | S n =>
      pte <- pagewalk pgt va ;;
      v <- deref pte ;;
      (if v =? 0 then panic "bad unmap va" else ret tt) ;;
      kfree (P2V (PTE_PA v)) ;;
      store64 pte 0 ;;
      pageunmap_loop n pgt (va +u64 PAGESIZE)
  end.

Definition pageunmap (pgt va size : Z) : prog kmem unit :=
  if nz (va mod PAGESIZE) || nz (size mod PAGESIZE)
  then panic "invalid pageunmap"
  else pageunmap_loop (Z.to_nat (size / PAGESIZE)) pgt va.

(** The loop of [free_table] over the entries [i], [i+1], ... of [pgt]. *)
Fixpoint free_entries (rec : Z → prog kmem unit) (n : nat) (i pgt : Z) : prog kmem unit :=
  match n with
  | O => ret tt
  | S n =>
      let pte := pgt + 8 * i in
      v <- load64 pte ;;
      (if is_table v && negb (nz (Z.land v PTE_AF))
       then rec (P2V (PTE_PA v)) ;; store64 pte 0
       else ret tt) ;;
      free_entries rec n (i + 1) pgt
  end.

(** [fuel] bounds the depth of the recursion; three levels exist. *)
Fixpoint free_table (fuel : nat) (pgt : Z) : prog kmem unit :=
  match fuel with
  | O => λ _, Hang
  | S fuel => free_entries (free_table fuel) 512 0 pgt ;; kfree pgt
  end.

(** Number of turns of [for(p = from; p < upto; p += PAGESIZE)], as long as [p]
    does not wrap, that is [upto <= 2 ^ 64 - PAGESIZE]. *)
Definition page_turns (from upto : Z) : nat := Z.to_nat ((upto - from + (PAGESIZE - 1)) / PAGESIZE).

Definition PTE_USER : Z := Z.lor PTE_NORMAL PTE_U.
Definition PTE_USER_XN : Z := Z.lor (Z.lor PTE_USER PTE_UXN) PTE_PXN.

Fixpoint init_userspace_loop (n : nat) (pgt va code size : Z) : prog kmem unit :=
  match n with
  | O => ret tt
  | S n =>
      upage <- kalloc ;;
      (if upage =? 0 then panic "init_userspace" else ret tt) ;;
      zoom kmem_mem (memcpy upage code size) ;;
      pagemap pgt va (V2P upage) PAGESIZE PTE_USER ;;
      init_userspace_loop n pgt (va +u64 PAGESIZE) code size
  end.

Definition init_userspace (pgt va code size : Z) : prog kmem unit :=
  init_userspace_loop (page_turns 0 size) pgt va code size.

(** The loops of [alloc_userspace] and [grow_userspace]: false when [kalloc]
    returns NULL. *)
Fixpoint alloc_loop (attr : Z) (n : nat) (pgt va : Z) : prog kmem bool :=
  match n with
  | O => ret true
  | S n =>
      upage <- kalloc ;;
      if upage =? 0 then ret false else
      pagemap pgt va (V2P upage) PAGESIZE attr ;;
      alloc_loop attr n pgt (va +u64 PAGESIZE)
  end.

Definition alloc_userspace (pgt va memsz : Z) : prog kmem Z :=
  ok <- alloc_loop PTE_USER (page_turns 0 memsz) pgt va ;;
  ret (if ok then i32 memsz else -1).

Definition grow_userspace (pgt va oldsz newsz : Z) : prog kmem Z :=
  let start := va +u64 oldsz in
  let oldsz := PAGEROUNDUP oldsz in
  let va := va +u64 oldsz in
  ok <- alloc_loop PTE_USER_XN (page_turns oldsz newsz) pgt va ;;
  ret (if ok then start else 0).

Definition shrink_userspace (pgt va oldsz newsz : Z) : prog kmem Z := ret 0.

Definition map_ustack (pgt : Z) : prog kmem Z :=
  ustack <- kalloc ;;
  if ustack =? 0 then ret 0 else
  pagemap pgt USTACKBOTTOM (V2P ustack) PAGESIZE PTE_USER_XN ;;
  ret ustack.

(** Copies the page mapped at [va] in [oldpgt] to a new page of [newpgt]. *)
Definition cp_page (newpgt oldpgt va attr : Z) : prog kmem bool :=
  pte <- pagewalk oldpgt va ;;
  v <- deref pte ;;
  let pa := PTE_PA v in
  page <- kalloc ;;
  if page =? 0 then ret false else
  zoom kmem_mem (memcpy page (P2V pa) PAGESIZE) ;;
  pagemap newpgt va (V2P page) PAGESIZE attr ;;
  ret true.

Fixpoint cp_loop (n : nat) (newpgt oldpgt va : Z) : prog kmem bool :=
  match n with
  | O => ret true
  | S n =>
      ok <- cp_page newpgt oldpgt va PTE_USER ;;
      if ok : bool then cp_loop n newpgt oldpgt (va +u64 PAGESIZE) else ret false
  end.

Definition cp_userspace (newpgt oldpgt va size : Z) : prog kmem Z :=
  ok <- cp_loop (page_turns 0 size) newpgt oldpgt va ;;
  if negb ok then ret (-1) else
  ok <- cp_page newpgt oldpgt USTACKBOTTOM PTE_USER_XN ;;
  ret (if ok : bool then 0 else -1).

Definition free_userspace (pgt size : Z) : prog kmem unit :=
  pageunmap pgt 0x1000 (PAGEROUNDUP size) ;;
  pageunmap pgt USTACKBOTTOM PAGESIZE ;;
  free_table 3 pgt.

(** *** The translation registers *)

Record mmuregs := Mmu { ttbr0_el1 : Z; ttbr1_el1 : Z }.

Definition set_ttbr0_el1 (t : Z) : prog mmuregs unit := modify (λ r, Mmu t (ttbr1_el1 r)).
Definition set_ttbr1_el1 (t : Z) : prog mmuregs unit := modify (λ r, Mmu (ttbr0_el1 r) t).

(** [flush_tlb] has no effect on the state modelled: translation is read from
    the tables. *)
Definition load_userspace (pgt : Z) : prog mmuregs unit :=
  (if pgt =? 0 then panic "no pagetable" else ret tt) ;;
  set_ttbr0_el1 (V2P pgt).

Definition forget_userspace : prog mmuregs unit := set_ttbr0_el1 0.

Definition pgt_init (l1kpgt : Z) : prog mmuregs unit :=
  set_ttbr1_el1 (V2P l1kpgt) ;;
  set_ttbr0_el1 0.

(** [l1kpgt] is the table boot.S prepares, [kend] the end of the image. *)
Definition kpgt_init (l1kpgt kend : Z) : prog kmem unit :=
  pagemap l1kpgt KERNBASE PKERNBASE (kend -u64 KERNBASE) PTE_NORMAL ;;
  pagemap l1kpgt kend (V2P kend) (PHYMEMEND -u64 kend) (Z.lor (Z.lor PTE_NORMAL PTE_PXN) PTE_UXN).

(** ** The table as a finite map

    [T] maps a path of indices from the root to the page that holds the table
    there: [[]] is the root, one index a level-2 table, two a level-3 table. *)

Abbreviation tree := (gmap (list Z) Z).

Record pt_ok (m : mem) (root : Z) (T : tree) : Prop := {
  pt_root : T !! [] = Some root;
  pt_page : ∀ π p, T !! π = Some p → page_ok p ∧ (length π <= 2)%nat;
  pt_inj : ∀ π π' p, T !! π = Some p → T !! π' = Some p → π = π';
  pt_closed : ∀ π i q, T !! (π ++ [i]) = Some q → is_Some (T !! π) ∧ 0 <= i < 512;
  pt_entry : ∀ π p i, T !! π = Some p → (length π < 2)%nat → 0 <= i < 512 →
    match T !! (π ++ [i]) with
    | Some q => ld64 m (p + 8 * i) = table_pte q
    | None => is_table (ld64 m (p + 8 * i)) = false
    end;
}.

(** No table of [T] is a free page. *)
Definition pt_disj (T : tree) (fl : list Z) : Prop := ∀ π p, T !! π = Some p → ¬ (p ∈ fl).

(** [a] is a byte of one of the tables. *)
Definition in_tree (T : tree) (a : Z) : Prop := ∃ π p, T !! π = Some p ∧ in_page p a.

(** The level-3 entry of [va], 0 where a table is missing. *)
Definition leaf (m : mem) (T : tree) (va : Z) : Z :=
  match T !! [PIDX 1 va; PIDX 2 va] with
  | Some p => ld64 m (p + 8 * PIDX 3 va)
  | None => 0
  end.

(** What the translation hardware reads for [va] from the root on, allocating
    nothing: the level-3 entry, 0 where a table descriptor is missing. *)
Definition hw_walk (m : mem) (root va : Z) : Z :=
  let e1 := ld64 m (root + 8 * PIDX 1 va) in
  if is_table e1 then
    let e2 := ld64 m (P2V (PTE_PA e1) + 8 * PIDX 2 va) in
    if is_table e2 then ld64 m (P2V (PTE_PA e2) + 8 * PIDX 3 va) else 0
  else 0.

Section entries.
Implicit Types (m : mem) (T : tree) (p q va pa attr : Z).

Lemma table_pte_eq q : page_ok q → table_pte q = V2P q + 3.
Proof.
  intros Hq. unfold table_pte, PTE_TABLE, PTE_VALID. rewrite V2P_frame by done.
  rewrite <- Z.lor_assoc. change (Z.lor 2 1) with 3.
  apply (lor_aligned_low _ _ 12); [lia| |lia].
  rewrite V2P_page by done. destruct Hq as [_ Hq]. revert Hq. unfold_layout. intros. zlia.
Qed.

Lemma is_table_pte q : page_ok q → is_table (table_pte q) = true.
Proof.
  intros Hq. unfold is_table, table_pte, PTE_VALID, PTE_TABLE.
  rewrite !Z.land_lor_distr_l. change (Z.land 1 1) with 1. change (Z.land 2 2) with 2.
  apply andb_true_iff. split; apply nz_true; rewrite ?Z.lor_eq_0_iff; lia.
Qed.

Lemma table_pte_addr q : page_ok q → P2V (PTE_PA (table_pte q)) = q.
Proof.
  intros Hq. unfold table_pte. rewrite !PTE_PA_lor by done.
  by rewrite V2P_frame, V2P_frame, P2V_V2P.
Qed.

Lemma table_pte_bound q : page_ok q → 0 <= table_pte q < 2 ^ 64.
Proof.
  intros Hq. rewrite table_pte_eq, V2P_page by done. revert Hq. unfold_layout. lia.
Qed.

Lemma slot_in_page p i : 0 <= i < 512 → ∀ a, p + 8 * i <= a < p + 8 * i + 8%nat → in_page p a.
Proof. unfold in_page, PAGESIZE. lia. Qed.

Lemma is_table_0 : is_table 0 = false.
Proof. done. Qed.

(** The map says what the hardware reads. *)
Lemma hw_walk_leaf m root T va : pt_ok m root T → hw_walk m root va = leaf m T va.
Proof.
  intros H. unfold hw_walk, leaf. pose proof (pt_root _ _ _ H) as Hr.
  pose proof (pt_entry _ _ _ H [] root (PIDX 1 va) Hr) as E1. simpl in E1.
  specialize (E1 ltac:(lia) (PIDX_bound 1 va)).
  destruct (T !! [PIDX 1 va]) as [p2|] eqn:T1.
  - rewrite E1. destruct (pt_page _ _ _ H _ _ T1) as [P2 _].
    rewrite is_table_pte, table_pte_addr by done.
    pose proof (pt_entry _ _ _ H _ p2 (PIDX 2 va) T1) as E2. simpl in E2.
    specialize (E2 ltac:(lia) (PIDX_bound 2 va)).
    destruct (T !! [PIDX 1 va; PIDX 2 va]) as [p3|] eqn:T2.
    + rewrite E2. destruct (pt_page _ _ _ H _ _ T2) as [P3 _].
      by rewrite is_table_pte, table_pte_addr.
    + by rewrite E2.
  - rewrite E1. destruct (T !! [PIDX 1 va; PIDX 2 va]) eqn:T2; [|done].
    destruct (pt_closed _ _ _ H [PIDX 1 va] _ _ T2) as [[? ?] _]. congruence.
Qed.

(** Bytes outside the tables do not matter. *)
Lemma pt_ok_ext m m' root T :
  (∀ a, in_tree T a → rd8 m' a = rd8 m a) → pt_ok m root T → pt_ok m' root T.
Proof.
  intros Hm [H1 H2 H3 H4 H5]. split; try done. intros π p i Hp Hl Hi.
  specialize (H5 π p i Hp Hl Hi).
  replace (ld64 m' (p + 8 * i)) with (ld64 m (p + 8 * i)); [done|].
  apply ld_ext. intros a Ha. symmetry. apply Hm. exists π, p. split; [done|].
  by eapply slot_in_page.
Qed.

Lemma leaf_ext m m' T va :
  (∀ a, in_tree T a → rd8 m' a = rd8 m a) → leaf m' T va = leaf m T va.
Proof.
  intros Hm. unfold leaf. destruct (T !! _) as [p|] eqn:E; [|done].
  apply ld_ext. intros a Ha. apply Hm. exists [PIDX 1 va; PIDX 2 va], p. split; [done|].
  eapply slot_in_page; [|exact Ha]. apply PIDX_bound.
Qed.

Lemma in_tree_free T fl p a :
  (∀ π q, T !! π = Some q → page_ok q) → Forall page_ok fl → pt_disj T fl →
  p ∈ fl → in_tree T a → ¬ in_page p a.
Proof.
  intros HT Hfl Hd Hp (π & q & Hq & Ha) Hpa. apply (Hd π q Hq).
  assert (page_ok p) by (by eapply Forall_forall in Hfl).
  by rewrite (page_disjoint q p a) by eauto.
Qed.
End entries.

(** ** Growing the tables *)

(** A process's tables, the allocator and the memory they live in. *)
Record mm_ok (root : Z) (T : tree) (fl : list Z) (s : kmem) : Prop := {
  mm_alloc : kinv fl s;
  mm_table : pt_ok (km_mem s) root T;
  mm_disj : pt_disj T fl;
}.

(** Nothing but the tables of [T'] differs, which are those of [T] and pages
    of [fl], and no translation does. *)
Record mm_same (T T' : tree) (fl : list Z) (m m' : mem) : Prop := {
  same_leaf : ∀ va, leaf m' T' va = leaf m T va;
  same_rest : ∀ a, ¬ in_tree T' a → rd8 m' a = rd8 m a;
  same_grow : T ⊆ T';
  same_from : ∀ π p, T' !! π = Some p → T !! π = Some p ∨ p ∈ fl
}.

Lemma mm_same_refl T fl m : mm_same T T fl m m.
Proof. split; auto. Qed.

Lemma suffix_in (x : Z) (l l' : list Z) : suffix l' l → x ∈ l' → x ∈ l.
Proof. intros [k ->] H. apply elem_of_app. by right. Qed.

Lemma in_tree_mono T T' a : T ⊆ T' → in_tree T a → in_tree T' a.
Proof. intros Hs (π & p & Hp & Ha). exists π, p. split; [|done]. by eapply lookup_weaken. Qed.

Lemma mm_same_trans T1 T2 T3 fl fl' m1 m2 m3 :
  suffix fl' fl → mm_same T1 T2 fl m1 m2 → mm_same T2 T3 fl' m2 m3 → mm_same T1 T3 fl m1 m3.
Proof.
  intros Hs [L1 R1 G1 F1] [L2 R2 G2 F2]. split.
  - intros va. by rewrite L2.
  - intros a Ha. rewrite R2 by done. apply R1. intros ?. by eapply Ha, in_tree_mono.
  - by etrans.
  - intros π p [H|H]%F2; [by apply F1|]. right. by eapply suffix_in.
Qed.

Section grow.
Context (m m2 : mem) (root : Z) (T : tree) (π : list Z) (p q i : Z) (fl : list Z).
Hypothesis Hok : pt_ok m root T.
Hypothesis Hp : T !! π = Some p.
Hypothesis Hlen : (length π < 2)%nat.
Hypothesis Hi : 0 <= i < 512.
Hypothesis Hnone : T !! (π ++ [i]) = None.
Hypothesis Hq : page_ok q.
Hypothesis Hfresh : ∀ π' p', T !! π' = Some p' → p' ≠ q.
(** The page [q] is cleared and the entry [i] of [p] points to it. *)
Hypothesis Hslot : ld64 m2 (p + 8 * i) = table_pte q.
Hypothesis Hzero : ∀ a, in_page q a → rd8 m2 a = 0.
Hypothesis Hrest :
  ∀ a, ¬ in_page q a → ¬ (p + 8 * i <= a < p + 8 * i + 8%nat) → rd8 m2 a = rd8 m a.

Let T' : tree := <[π ++ [i] := q]> T.

Lemma grow_lookup_old π' p' : T !! π' = Some p' → T' !! π' = Some p'.
Proof.
  intros H. unfold T'. rewrite lookup_insert_ne; [done|]. intros <-. congruence.
Qed.

Lemma grow_lookup_inv π' p' :
  T' !! π' = Some p' → (π' = π ++ [i] ∧ p' = q) ∨ (π' ≠ π ++ [i] ∧ T !! π' = Some p').
Proof.
  unfold T'. rewrite lookup_insert. case_decide; [intros [= <-]; by left|].
  intros ?. right. by split; [congruence|].
Qed.

(** Entries other than the new one are as they were. *)
Lemma grow_entry π' p' j :
  T !! π' = Some p' → 0 <= j < 512 → (π' ≠ π ∨ j ≠ i) →
  ld64 m2 (p' + 8 * j) = ld64 m (p' + 8 * j).
Proof.
  intros H Hj Hne. apply ld_ext. intros a Ha.
  pose proof (slot_in_page p' j Hj a Ha).
  destruct (pt_page _ _ _ Hok _ _ H) as [Hp' _].
  destruct (pt_page _ _ _ Hok _ _ Hp) as [Hpp _].
  apply Hrest.
  - intros Haq. apply (Hfresh _ _ H). by eapply page_disjoint.
  - intros Ha'. pose proof (slot_in_page p i Hi a Ha').
    assert (p' = p) as -> by (by eapply page_disjoint).
    destruct Hne as [Hne|Hne]; [|lia]. apply Hne. by eapply (pt_inj _ _ _ Hok).
Qed.

Lemma grow_new_entry j : 0 <= j < 512 → ld64 m2 (q + 8 * j) = 0.
Proof. intros Hj. apply ld_zero. intros a Ha. apply Hzero. by eapply slot_in_page. Qed.

Lemma grow_pt_ok : pt_ok m2 root T'.
Proof.
  split.
  - apply grow_lookup_old, Hok.
  - intros π' p' [[-> ->]|[_ H]]%grow_lookup_inv; [|by eapply pt_page].
    split; [done|]. rewrite length_app. simpl. lia.
  - intros π1 π2 p' H1%grow_lookup_inv H2%grow_lookup_inv.
    destruct H1 as [[-> ->]|[_ H1]], H2 as [[-> E]|[_ H2]]; try done.
    + by apply Hfresh in H2.
    + subst. by apply Hfresh in H1.
    + by eapply (pt_inj _ _ _ Hok).
  - intros π' j p' [[E ->]|[_ H]]%grow_lookup_inv.
    + apply app_inj_tail in E as [-> ->]. split; [|done].
      exists p. by apply grow_lookup_old.
    + apply (pt_closed _ _ _ Hok) in H as [[x Hx] ?]. split; [|done].
      exists x. by apply grow_lookup_old.
  - intros π' p' j [[-> ->]|[Hne H]]%grow_lookup_inv Hl Hj.
    + replace (T' !! ((π ++ [i]) ++ [j])) with (@None Z); [by rewrite grow_new_entry|].
      symmetry. destruct (T' !! _) as [x|] eqn:E; [|done]. exfalso.
      apply grow_lookup_inv in E as [[E _]|[_ E]].
      * apply (f_equal length) in E. rewrite !length_app in E. simpl in E. lia.
      * apply (pt_closed _ _ _ Hok) in E as [[? ?] _]. congruence.
    + destruct (decide (π' ++ [j] = π ++ [i])) as [E|E].
      * apply app_inj_tail in E as [-> ->]. unfold T'. rewrite lookup_insert_eq.
        by replace p' with p by congruence.
      * unfold T'. rewrite lookup_insert_ne by done. rewrite (grow_entry π' p' j H Hj).
        -- by apply (pt_entry _ _ _ Hok).
        -- destruct (decide (π' = π)) as [->|]; [|by left]. right. intros ->. done.
Qed.

Lemma grow_same : q ∈ fl → mm_same T T' fl m m2.
Proof.
  intros Hqf. split.
  - intros va. unfold leaf.
    destruct (T' !! _) as [p'|] eqn:E.
    + apply grow_lookup_inv in E as [[E ->]|[_ E]].
      * rewrite E, Hnone. apply grow_new_entry, PIDX_bound.
      * rewrite E. apply (grow_entry _ _ _ E (PIDX_bound 3 va)).
        left. intros <-. simpl in Hlen. lia.
    + destruct (T !! [PIDX 1 va; PIDX 2 va]) as [p'|] eqn:E'; [|done].
      apply grow_lookup_old in E'. by rewrite E' in E.
  - intros a Ha. apply Hrest; intros Ha'; apply Ha.
    + exists (π ++ [i]), q. split; [|done]. unfold T'. by rewrite lookup_insert_eq.
    + exists π, p. split; [by apply grow_lookup_old|]. exact (slot_in_page p i Hi a Ha').
  - unfold T'. by apply insert_subseteq.
  - intros π' p' [[_ ->]|[_ H]]%grow_lookup_inv; [by right|by left].
Qed.
End grow.

Section walk.
Implicit Types (s : kmem) (root p va : Z) (T : tree) (fl : list Z).

(** The allocator does not care about bytes outside the free pages. *)
Lemma kinv_mem fl s m' :
  kinv fl s → (∀ q a, q ∈ fl → in_page q a → rd8 m' a = rd8 (km_mem s) a) →
  kinv fl (KMem (km_hart s) (kallocator_lk s) (freelist s) m').
Proof. intros [? ? ? ? ?] Hm. split; try done. simpl. by eapply chain_ext. Qed.

Lemma mm_page root T fl s : mm_ok root T fl s → ∀ π q, T !! π = Some q → page_ok q.
Proof. intros [_ H _] π q Hq. by apply (pt_page _ _ _ H) in Hq as [? _]. Qed.

Lemma walk_level_found level π p va q root T fl s :
  mm_ok root T fl s → T !! π = Some p → (length π < 2)%nat →
  T !! (π ++ [PIDX level va]) = Some q → walk_level level p va s = Ret (Some q) s.
Proof.
  intros M Hp Hl Hq. unfold walk_level, load64. prog_step.
  pose proof (pt_entry _ _ _ (mm_table _ _ _ _ M) π p _ Hp Hl (PIDX_bound level va)) as E.
  rewrite Hq in E. rewrite E.
  assert (page_ok q) by (by eapply mm_page).
  by rewrite is_table_pte, table_pte_addr.
Qed.

Lemma walk_level_new level π p va q root T fl s :
  mm_ok root T (q :: fl) s → T !! π = Some p → (length π < 2)%nat →
  T !! (π ++ [PIDX level va]) = None →
  ∃ s', walk_level level p va s = Ret (Some q) s' ∧
    mm_ok root (<[π ++ [PIDX level va] := q]> T) fl s' ∧
    mm_same T (<[π ++ [PIDX level va] := q]> T) (q :: fl) (km_mem s) (km_mem s').
Proof.
  intros M Hp Hl Hn. set (i := PIDX level va) in *.
  assert (Hi : 0 <= i < 512) by apply PIDX_bound.
  pose proof M as [I Hok Hd].
  pose proof (pt_entry _ _ _ Hok π p i Hp Hl Hi) as E. rewrite Hn in E.
  destruct (kalloc_spec q fl s I) as (s1 & Ha & I1 & Hqn & Hqp & _ & Hm1).
  pose proof (mm_page _ _ _ _ M _ _ Hp) as Hpp.
  assert (Hfresh : ∀ π' p', T !! π' = Some p' → p' ≠ q).
  { intros π' p' H ->. apply (Hd _ _ H). by constructor. }
  assert (Hpq : ∀ a, p + 8 * i <= a < p + 8 * i + 8%nat → ¬ in_page q a).
  { intros a Ha' Hq. apply (Hfresh _ _ Hp).
    exact (page_disjoint p q a Hpp Hqp (slot_in_page p i Hi a Ha') Hq). }
  set (m2 := st64 (km_mem s1) (p + 8 * i) (table_pte q)).
  assert (G1 : ld64 m2 (p + 8 * i) = table_pte q).
  { unfold m2. rewrite ld_st_eq. apply Z.mod_small. by apply table_pte_bound. }
  assert (G2 : ∀ a, in_page q a → rd8 m2 a = 0).
  { intros a Ha'. unfold m2. rewrite rd8_st_other.
    - by rewrite Hm1, decide_True.
    - intros ?. by eapply Hpq. }
  assert (G3 : ∀ a, ¬ in_page q a → ¬ (p + 8 * i <= a < p + 8 * i + 8%nat) →
    rd8 m2 a = rd8 (km_mem s) a).
  { intros a H1 H2. unfold m2. by rewrite rd8_st_other, Hm1, decide_False. }
  exists (KMem (km_hart s1) (kallocator_lk s1) (freelist s1) m2). split_and!.
  - unfold walk_level, load64, store64. fold i. prog_step. rewrite E.
    rewrite (pbind_ok _ _ _ _ _ Ha). pose proof (page_nonzero q Hqp).
    destruct (q =? 0) eqn:E0; [lia|]. by prog_steps.
  - split.
    + apply kinv_mem; [done|]. intros q' a Hq' Ha'. unfold m2. apply rd8_st_other.
      intros Hs. apply (Hd _ _ Hp). constructor.
      assert (page_ok q') by (by eapply Forall_forall; [apply (kinv_pages _ _ I1)|]).
      by rewrite (page_disjoint p q' a Hpp H (slot_in_page p i Hi a Hs) Ha').
    + eapply grow_pt_ok; eauto.
    + intros π' p'. rewrite lookup_insert. case_decide; [by intros [= <-]|].
      intros H' Hin. apply (Hd _ _ H'). by constructor.
  - eapply grow_same; eauto. constructor.
Qed.

(** The table below the one at [π], found or allocated. *)
Lemma walk_level_spec level π p va root T fl s :
  mm_ok root T fl s → T !! π = Some p → (length π < 2)%nat → (1 <= length fl)%nat →
  ∃ q T' fl' s', walk_level level p va s = Ret (Some q) s' ∧
    T' !! (π ++ [PIDX level va]) = Some q ∧ mm_ok root T' fl' s' ∧
    mm_same T T' fl (km_mem s) (km_mem s') ∧ suffix fl' fl ∧ (length fl <= length fl' + 1)%nat.
Proof.
  intros M Hp Hl Hf. destruct (T !! (π ++ [PIDX level va])) as [q|] eqn:E.
  - exists q, T, fl, s. split_and!;
      [by eapply walk_level_found|done|done|apply mm_same_refl|done|lia].
  - destruct fl as [|q fl]; [simpl in Hf; lia|].
    destruct (walk_level_new level π p va q root T fl s M Hp Hl E) as (s' & H1 & H2 & H3).
    exists q, (<[π ++ [PIDX level va] := q]> T), fl, s'.
    split_and!;
      [done|apply lookup_insert_eq|done|done|by apply suffix_cons_r|simpl; lia].
Qed.

Lemma pagewalk_spec va root T fl s :
  mm_ok root T fl s → (2 <= length fl)%nat →
  ∃ p3 T' fl' s', pagewalk root va s = Ret (p3 + 8 * PIDX 3 va) s' ∧
    T' !! [PIDX 1 va; PIDX 2 va] = Some p3 ∧ mm_ok root T' fl' s' ∧
    mm_same T T' fl (km_mem s) (km_mem s') ∧ suffix fl' fl ∧ (length fl <= length fl' + 2)%nat.
Proof.
  intros M Hf.
  destruct (walk_level_spec 1 [] root va root T fl s M) as (p2 & T1 & fl1 & s1 & W1 & L1 & M1 & S1 & F1 & N1);
    [apply M|simpl; lia|lia|].
  destruct (walk_level_spec 2 [PIDX 1 va] p2 va root T1 fl1 s1 M1)
    as (p3 & T2 & fl2 & s2 & W2 & L2 & M2 & S2 & F2 & N2); [done|simpl; lia|lia|].
  exists p3, T2, fl2, s2. split_and!; try done.
  - unfold pagewalk. rewrite (pbind_ok _ _ _ _ _ W1). by rewrite (pbind_ok _ _ _ _ _ W2).
  - by eapply (mm_same_trans _ _ _ fl fl1).
  - by etrans.
  - lia.
Qed.

(** A walk of an address whose tables exist changes nothing. *)
Lemma pagewalk_found va p3 root T fl s :
  mm_ok root T fl s → T !! [PIDX 1 va; PIDX 2 va] = Some p3 →
  pagewalk root va s = Ret (p3 + 8 * PIDX 3 va) s.
Proof.
  intros M H3. pose proof (mm_table _ _ _ _ M) as Hok.
  destruct (pt_closed _ _ _ Hok [PIDX 1 va] _ _ H3) as [[p2 H2] _].
  unfold pagewalk.
  rewrite (pbind_ok _ _ _ _ _ (walk_level_found 1 [] root va p2 _ _ _ _ M
             (pt_root _ _ _ Hok) ltac:(simpl; lia) H2)).
  by rewrite (pbind_ok _ _ _ _ _ (walk_level_found 2 [PIDX 1 va] p2 va p3 _ _ _ _ M
             H2 ltac:(simpl; lia) H3)).
Qed.
End walk.

(** ** Mapping and unmapping *)

(** The 27-bit number of the page of [va], which the three indices spell. *)
Definition NPAGE : Z := 2 ^ 27.
Definition vpage (va : Z) : Z := (va / PAGESIZE) mod NPAGE.

(** How many pages [va'] is above [va], around the 39-bit space. *)
Definition vdist (va va' : Z) : Z := (vpage va' - vpage va) mod NPAGE.

Section vpages.
Implicit Types va : Z.

Lemma vpage_indices va :
  0 <= va → vpage va = PIDX 1 va * 2 ^ 18 + PIDX 2 va * 2 ^ 9 + PIDX 3 va.
Proof. intros. rewrite !PIDX_eq by lia. unfold vpage, NPAGE, PAGESIZE. simpl. zlia. Qed.

Lemma same_vpage va va' :
  0 <= va → 0 <= va' → vpage va' = vpage va ↔
  [PIDX 1 va'; PIDX 2 va'] = [PIDX 1 va; PIDX 2 va] ∧ PIDX 3 va' = PIDX 3 va.
Proof.
  intros. rewrite !vpage_indices by done.
  pose proof (PIDX_bound 1 va). pose proof (PIDX_bound 2 va). pose proof (PIDX_bound 3 va).
  pose proof (PIDX_bound 1 va'). pose proof (PIDX_bound 2 va'). pose proof (PIDX_bound 3 va').
  split.
  - intros. split; [|lia]. f_equal; [lia|]. f_equal. lia.
  - by intros [[= -> ->] ->].
Qed.

Lemma vpage_bound va : 0 <= vpage va < NPAGE.
Proof. by apply Z.mod_pos_bound. Qed.

Lemma vdist_bound va va' : 0 <= vdist va va' < NPAGE.
Proof. by apply Z.mod_pos_bound. Qed.

Lemma vdist_0 va va' : vdist va va' = 0 ↔ vpage va' = vpage va.
Proof.
  pose proof (vpage_bound va). pose proof (vpage_bound va'). unfold vdist, NPAGE in *.
  split; intros; zlia.
Qed.

Lemma vpage_next va : 0 <= va → vpage (va +u64 PAGESIZE) = (vpage va + 1) mod NPAGE.
Proof. intros. unfold vpage, u64, NPAGE, PAGESIZE. zlia. Qed.

Lemma vdist_next va va' :
  0 <= va → vdist va va' ≠ 0 → vdist (va +u64 PAGESIZE) va' = vdist va va' - 1.
Proof.
  intros H. pose proof (vpage_bound va). pose proof (vpage_bound va').
  unfold vdist. rewrite vpage_next by done. unfold NPAGE in *. intros. zlia.
Qed.

Lemma vdist_next_0 va va' :
  0 <= va → vdist va va' = 0 → vdist (va +u64 PAGESIZE) va' = NPAGE - 1.
Proof.
  intros H. pose proof (vpage_bound va). pose proof (vpage_bound va').
  unfold vdist. rewrite vpage_next by done. unfold NPAGE in *. intros. zlia.
Qed.

(** Pages of a range that does not wrap. *)
Lemma vdist_add va k :
  0 <= va → 0 <= k < NPAGE → vdist va (va + PAGESIZE * k) = k.
Proof. unfold vdist, vpage, NPAGE, PAGESIZE. intros. zlia. Qed.
End vpages.

(** Only the tables of [T'] differ; they are those of [T] and pages of [fl]. *)
Record mm_frame (T T' : tree) (fl : list Z) (m m' : mem) : Prop := {
  frame_rest : ∀ a, ¬ in_tree T' a → rd8 m' a = rd8 m a;
  frame_grow : T ⊆ T';
  frame_from : ∀ π p, T' !! π = Some p → T !! π = Some p ∨ p ∈ fl
}.

Lemma mm_same_frame T T' fl m m' : mm_same T T' fl m m' → mm_frame T T' fl m m'.
Proof. by intros [_ ? ? ?]. Qed.

Lemma mm_frame_refl T fl m : mm_frame T T fl m m.
Proof. split; auto. Qed.

Lemma mm_frame_trans T1 T2 T3 fl fl' m1 m2 m3 :
  suffix fl' fl → mm_frame T1 T2 fl m1 m2 → mm_frame T2 T3 fl' m2 m3 → mm_frame T1 T3 fl m1 m3.
Proof.
  intros Hs [R1 G1 F1] [R2 G2 F2]. split; [|by etrans|].
  - intros a Ha. rewrite R2 by done. apply R1. intros ?. by eapply Ha, in_tree_mono.
  - intros π p [H|H]%F2; [by apply F1|]. right. by eapply suffix_in.
Qed.

(** Bytes of neither the tables nor the free pages are as they were. *)
Lemma mm_frame_outside T T' fl m m' a :
  mm_frame T T' fl m m' → ¬ in_tree T a → (∀ p, p ∈ fl → ¬ in_page p a) → rd8 m' a = rd8 m a.
Proof.
  intros [R _ F] Ht Hf. apply R. intros (π & p & Hp & Ha).
  destruct (F _ _ Hp) as [H|H]; [|by eapply Hf]. apply Ht. by exists π, p.
Qed.

Section store_leaf.
Implicit Types (s : kmem) (root va v : Z) (T : tree) (fl : list Z).

(** Writing the level-3 entry of [va]. *)
Lemma store_leaf va v p3 root T fl s :
  mm_ok root T fl s → T !! [PIDX 1 va; PIDX 2 va] = Some p3 → 0 <= va → 0 <= v < 2 ^ 64 →
  ∃ s', store64 (p3 + 8 * PIDX 3 va) v s = Ret tt s' ∧ km_hart s' = km_hart s ∧
    mm_ok root T fl s' ∧ mm_frame T T fl (km_mem s) (km_mem s') ∧
    ∀ va', 0 <= va' → leaf (km_mem s') T va' =
      if decide (vpage va' = vpage va) then v else leaf (km_mem s) T va'.
Proof.
  intros M H3 Hva Hv. pose proof M as [I Hok Hd]. pose proof (PIDX_bound 3 va) as Hi.
  pose proof (mm_page _ _ _ _ M _ _ H3) as Hp3.
  assert (Hsl : ∀ a, p3 + 8 * PIDX 3 va <= a < p3 + 8 * PIDX 3 va + 8%nat → in_page p3 a)
    by (by apply slot_in_page).
  set (m2 := st64 (km_mem s) (p3 + 8 * PIDX 3 va) v).
  (* an entry of another table, or another entry of this one *)
  assert (Hot : ∀ π p j, T !! π = Some p → 0 <= j < 512 → π ≠ [PIDX 1 va; PIDX 2 va] ∨ j ≠ PIDX 3 va →
    ld64 m2 (p + 8 * j) = ld64 (km_mem s) (p + 8 * j)).
  { intros π p j Hp Hj Hne. apply ld_ext. intros a Ha. apply rd8_st_other. intros Ha'.
    pose proof (slot_in_page p j Hj a Ha) as Hap.
    assert (p = p3) as -> by
      (exact (page_disjoint p p3 a (mm_page _ _ _ _ M _ _ Hp) Hp3 Hap (Hsl a Ha'))).
    destruct Hne as [Hne|Hne]; [|lia]. apply Hne. by eapply (pt_inj _ _ _ Hok). }
  assert (Hfr : mm_frame T T fl (km_mem s) m2).
  { split; [|done|by left]. intros a Ha. apply rd8_st_other. intros ?. apply Ha.
    exists [PIDX 1 va; PIDX 2 va], p3. split; [done|]. by apply Hsl. }
  exists (KMem (km_hart s) (kallocator_lk s) (freelist s) m2). split_and!; try done.
  - split.
    + apply kinv_mem; [done|]. intros q a Hq Ha. apply Hfr.
      intros Ht. eapply (in_tree_free T fl q a); try done; [by eapply mm_page|apply I].
    + destruct Hok as [O1 O2 O3 O4 O5]. split; try done.
      intros π p i Hp Hl Hi'. cbn [km_mem]. rewrite (Hot π p i Hp Hi'); [by apply O5|].
      left. intros ->. simpl in Hl. lia.
    + done.
  - intros va' Hva'. cbn [km_mem]. unfold leaf at 1.
    case_decide as E.
    + apply same_vpage in E as [-> ->]; [|done..]. rewrite H3. unfold m2.
      rewrite ld_st_eq. by apply Z.mod_small.
    + unfold leaf. destruct (T !! [PIDX 1 va'; PIDX 2 va']) as [p|] eqn:Ep; [|done].
      apply (Hot _ _ _ Ep (PIDX_bound 3 va')).
      destruct (decide ([PIDX 1 va'; PIDX 2 va'] = [PIDX 1 va; PIDX 2 va])) as [E'|]; [|by left].
      right. intros E3. apply E. by apply same_vpage.
Qed.

(** The address [pagewalk] returns is not NULL and holds the entry. *)
Lemma deref_leaf va p3 root T fl s :
  mm_ok root T fl s → T !! [PIDX 1 va; PIDX 2 va] = Some p3 →
  deref (p3 + 8 * PIDX 3 va) s = Ret (leaf (km_mem s) T va) s.
Proof.
  intros M H3. pose proof (mm_page _ _ _ _ M _ _ H3) as Hp. pose proof (PIDX_bound 3 va).
  unfold deref, leaf. rewrite H3.
  destruct (p3 + 8 * PIDX 3 va =? 0) eqn:E; [|done].
  revert Hp. unfold_layout. lia.
Qed.
End store_leaf.

Section map.
Implicit Types (s : kmem) (root va pa attr : Z) (T : tree) (fl : list Z) (n : nat).

Lemma leaf_pte_bound pa attr :
  0 <= attr < 2 ^ 64 → 0 <= leaf_pte pa attr < 2 ^ 64.
Proof.
  intros Ha. unfold leaf_pte, PTE_AF, PTE_V.
  assert (0 <= PTE_PA pa < 2 ^ 64) by (rewrite PTE_PA_eq; pose proof (Z.mod_pos_bound (pa / 2 ^ 12 * 2 ^ 12) (2 ^ 48)); lia).
  change (1 ≪ 10) with 1024. repeat apply lor_bound; lia.
Qed.

(** One turn of the loop of [pagemap] on an unused entry, after the walk. *)
Lemma pagemap_walked n root va pa attr p3 T T1 fl fl1 s s1 :
  pagewalk root va s = Ret (p3 + 8 * PIDX 3 va) s1 → T1 !! [PIDX 1 va; PIDX 2 va] = Some p3 →
  mm_ok root T1 fl1 s1 → mm_same T T1 fl (km_mem s) (km_mem s1) → 0 <= va → 0 <= attr < 2 ^ 64 →
  Z.land (leaf (km_mem s) T va) PTE_AF = 0 →
  ∃ s', pagemap_loop (S n) root va pa attr s =
      pagemap_loop n root (va +u64 PAGESIZE) (pa +u64 PAGESIZE) attr s' ∧
    mm_ok root T1 fl1 s' ∧ mm_frame T T1 fl (km_mem s) (km_mem s') ∧
    ∀ va', 0 <= va' → leaf (km_mem s') T1 va' =
      if decide (vpage va' = vpage va) then leaf_pte pa attr else leaf (km_mem s) T va'.
Proof.
  intros W H3 M1 S1 Hva Hattr Haf.
  destruct (store_leaf va (leaf_pte pa attr) p3 root T1 fl1 s1 M1 H3 Hva (leaf_pte_bound _ _ Hattr))
    as (s2 & St & _ & M2 & Fr & L2).
  exists s2. split_and!; try done.
  - cbn [pagemap_loop]. rewrite (pbind_ok _ _ _ _ _ W).
    rewrite (pbind_ok _ _ _ _ _ (deref_leaf va p3 root T1 fl1 s1 M1 H3)).
    rewrite (same_leaf _ _ _ _ _ S1), Haf. change (nz 0) with false. cbv iota. prog_step.
    by rewrite (pbind_ok _ _ _ _ _ St).
  - destruct Fr as [R2 _ _], S1 as [_ R1 G1' F1']. split; [|done|done].
    intros a Ha. rewrite R2 by done. by apply R1.
  - intros va' Hva'. rewrite L2 by done. case_decide; [done|]. apply S1.
Qed.

Lemma pagemap_step n root va pa attr T fl s :
  mm_ok root T fl s → (2 <= length fl)%nat → 0 <= va → 0 <= attr < 2 ^ 64 →
  Z.land (leaf (km_mem s) T va) PTE_AF = 0 →
  ∃ T' fl' s', pagemap_loop (S n) root va pa attr s =
      pagemap_loop n root (va +u64 PAGESIZE) (pa +u64 PAGESIZE) attr s' ∧
    mm_ok root T' fl' s' ∧ mm_frame T T' fl (km_mem s) (km_mem s') ∧
    suffix fl' fl ∧ (length fl <= length fl' + 2)%nat ∧
    ∀ va', 0 <= va' → leaf (km_mem s') T' va' =
      if decide (vpage va' = vpage va) then leaf_pte pa attr else leaf (km_mem s) T va'.
Proof.
  intros M Hf Hva Hattr Haf.
  destruct (pagewalk_spec va root T fl s M Hf) as (p3 & T1 & fl1 & s1 & W & H3 & M1 & S1 & F1 & N1).
  destruct (pagemap_walked n root va pa attr p3 T T1 fl fl1 s s1 W H3 M1 S1 Hva Hattr Haf) as (s2 & ? & ? & ? & ?).
  exists T1, fl1, s2. by split_and!.
Qed.

(** The first used entry stops the loop. *)
Lemma pagemap_step_used n root va pa attr T fl s :
  mm_ok root T fl s → (2 <= length fl)%nat →
  Z.land (leaf (km_mem s) T va) PTE_AF ≠ 0 →
  pagemap_loop (S n) root va pa attr s = Panic "this entry has been used".
Proof.
  intros M Hf Haf.
  destruct (pagewalk_spec va root T fl s M Hf) as (p3 & T1 & fl1 & s1 & W & H3 & M1 & S1 & F1 & N1).
  cbn [pagemap_loop]. rewrite (pbind_ok _ _ _ _ _ W).
  rewrite (pbind_ok _ _ _ _ _ (deref_leaf va p3 root T1 fl1 s1 M1 H3)).
  rewrite (same_leaf _ _ _ _ _ S1). by rewrite (proj2 (nz_true _) Haf).
Qed.

Lemma pagemap_loop_spec n root va pa attr T fl s :
  mm_ok root T fl s → (2 * n <= length fl)%nat → n <= NPAGE →
  0 <= va → 0 <= pa → pa + PAGESIZE * n < 2 ^ 64 → 0 <= attr < 2 ^ 64 →
  (∀ va', 0 <= va' → vdist va va' < n → Z.land (leaf (km_mem s) T va') PTE_AF = 0) →
  ∃ T' fl' s', pagemap_loop n root va pa attr s = Ret tt s' ∧
    mm_ok root T' fl' s' ∧ mm_frame T T' fl (km_mem s) (km_mem s') ∧
    suffix fl' fl ∧ (length fl <= length fl' + 2 * n)%nat ∧
    ∀ va', 0 <= va' → leaf (km_mem s') T' va' =
      if decide (vdist va va' < n) then leaf_pte (pa + PAGESIZE * vdist va va') attr
      else leaf (km_mem s) T va'.
Proof.
  revert va pa T fl s. induction n as [|n IH]; intros va pa T fl s M Hf Hn Hva Hpa Hpb Hattr Hfree.
  - exists T, fl, s. split_and!; [done..|apply mm_frame_refl|done|lia|]. intros va' _.
    rewrite decide_False; [done|]. pose proof (vdist_bound va va'). lia.
  - assert (Hp : 0 < PAGESIZE ∧ pa + PAGESIZE < 2 ^ 64 ∧ pa + PAGESIZE + PAGESIZE * n < 2 ^ 64)
      by (unfold PAGESIZE in *; lia).
    destruct (pagemap_step n root va pa attr T fl s M ltac:(lia) Hva Hattr)
      as (T1 & fl1 & s1 & E & M1 & Fr1 & F1 & N1 & L1).
    { apply Hfree; [done|]. rewrite (proj2 (vdist_0 va va) eq_refl). lia. }
    rewrite E. destruct (IH (va +u64 PAGESIZE) (pa +u64 PAGESIZE) T1 fl1 s1)
      as (T2 & fl2 & s2 & E2 & M2 & Fr2 & F2 & N2 & L2);
      try done; rewrite ?u64_small by lia; try lia.
    { apply u64_bound. }
    { intros va' Hva' Hd. rewrite L1 by done.
      destruct (decide (vdist va va' = 0)) as [E0|E0].
      { rewrite vdist_next_0 in Hd by done. lia. }
      rewrite decide_False by (by rewrite <- vdist_0).
      apply Hfree; [done|]. rewrite vdist_next in Hd by done. lia. }
    exists T2, fl2, s2. split_and!; try done; [by eapply (mm_frame_trans _ _ _ fl fl1)|by etrans|lia|].
    intros va' Hva'. rewrite L2, L1 by done.
    destruct (decide (vdist va va' = 0)) as [E0|E0].
    + rewrite vdist_next_0, E0 by done. rewrite decide_False by lia.
      rewrite !decide_True; [|lia|by apply vdist_0]. by rewrite Z.mul_0_r, Z.add_0_r.
    + rewrite vdist_next by done. rewrite (decide_False (P := vpage va' = _)) by (by rewrite <- vdist_0).
      rewrite (u64_small (pa + PAGESIZE)) by lia.
      destruct (decide (vdist va va' < S n)).
      * rewrite decide_True by lia. f_equal. unfold PAGESIZE. lia.
      * by rewrite decide_False by lia.
Qed.

(** A range that meets a used page before running out of memory panics. *)
Lemma pagemap_loop_used n root va pa attr T fl s va' :
  mm_ok root T fl s → (2 * n <= length fl)%nat → n <= NPAGE →
  0 <= va → 0 <= va' → 0 <= attr < 2 ^ 64 →
  vdist va va' < n → Z.land (leaf (km_mem s) T va') PTE_AF ≠ 0 →
  pagemap_loop n root va pa attr s = Panic "this entry has been used".
Proof.
  revert va pa T fl s. induction n as [|n IH]; intros va pa T fl s M Hf Hn Hva Hva' Hattr Hd Hused.
  { pose proof (vdist_bound va va'). lia. }
  destruct (decide (Z.land (leaf (km_mem s) T va) PTE_AF = 0)) as [E|E];
    [|by eapply pagemap_step_used; [done|lia|]].
  destruct (pagemap_step n root va pa attr T fl s M ltac:(lia) Hva Hattr E)
    as (T1 & fl1 & s1 & -> & M1 & Fr1 & F1 & N1 & L1).
  assert (Hne : vpage va' ≠ vpage va).
  { intros Hv. apply Hused. rewrite <- E. unfold leaf.
    apply same_vpage in Hv as [-> ->]; done. }
  assert (H0 : vdist va va' ≠ 0) by (by rewrite vdist_0).
  eapply IH; [exact M1|lia|lia|apply u64_bound|done|done| |].
  - rewrite vdist_next by done. lia.
  - rewrite L1 by done. by rewrite decide_False.
Qed.
End map.

(** ** Unmapping, allocating and copying *)

Section pages.
Implicit Types (s : kmem) (root va p : Z) (T : tree) (fl ps : list Z) (n k : nat).

(** A page that is neither free nor a table. *)
Definition user_page T fl p : Prop :=
  page_ok p ∧ ¬ (p ∈ fl) ∧ ∀ π, T !! π ≠ Some p.

Lemma user_page_tree root T fl s p a :
  mm_ok root T fl s → user_page T fl p → in_tree T a → ¬ in_page p a.
Proof.
  intros M (Hp & _ & Ht) (π & q & Hq & Ha) Hpa. apply (Ht π). rewrite Hq. f_equal.
  exact (page_disjoint q p a (mm_page _ _ _ _ M _ _ Hq) Hp Ha Hpa).
Qed.

Lemma user_page_free root T fl s p q a :
  mm_ok root T fl s → user_page T fl p → q ∈ fl → in_page p a → ¬ in_page q a.
Proof.
  intros M (Hp & Hf & _) Hq Ha Hqa. apply Hf.
  assert (page_ok q) by (eapply Forall_forall; [apply (kinv_pages _ _ (mm_alloc _ _ _ _ M))|done]).
  by rewrite (page_disjoint p q a).
Qed.

Lemma user_page_next T T' fl fl' p m m' :
  suffix fl' fl → mm_frame T T' fl m m' → user_page T fl p → user_page T' fl' p.
Proof.
  intros Hs [_ _ F] (Hp & Hf & Ht). split_and!; [done| |].
  - intros ?. by eapply Hf, suffix_in.
  - intros π [H|H]%F; [by eapply Ht|done].
Qed.

(** Writing to pages that are not tables keeps the tables. *)
Lemma mm_ok_mem root T fl fl' s s' :
  mm_ok root T fl s → kinv fl' s' → pt_disj T fl' →
  (∀ a, in_tree T a → rd8 (km_mem s') a = rd8 (km_mem s) a) →
  mm_ok root T fl' s' ∧ ∀ va, leaf (km_mem s') T va = leaf (km_mem s) T va.
Proof.
  intros [_ Hok _] I Hd Hm. split; [|intros; by apply leaf_ext].
  split; [done| |done]. by eapply pt_ok_ext.
Qed.

(** [kfree] of a user page. *)
Lemma kfree_user root T fl s p :
  mm_ok root T fl s → user_page T fl p →
  ∃ s', kfree p s = Ret tt s' ∧ mm_ok root T (p :: fl) s' ∧
    (∀ va, leaf (km_mem s') T va = leaf (km_mem s) T va) ∧
    (∀ a, ¬ in_page p a → rd8 (km_mem s') a = rd8 (km_mem s) a).
Proof.
  intros M U. pose proof U as (Hp & Hf & Ht).
  destruct (kfree_spec p fl s (mm_alloc _ _ _ _ M) Hp Hf) as (s' & E & I & _ & Hm).
  destruct (mm_ok_mem root T fl (p :: fl) s s' M I) as [M' L].
  - intros π q Hq [->|H]%elem_of_cons; [by eapply Ht|]. by eapply (mm_disj _ _ _ _ M).
  - intros a Ha. apply Hm. by eapply user_page_tree.
  - exists s'. by split_and!.
Qed.

(** [kalloc] of a user page. *)
Lemma kalloc_user root T fl s p :
  mm_ok root T (p :: fl) s →
  ∃ s', kalloc s = Ret p s' ∧ mm_ok root T fl s' ∧ user_page T fl p ∧
    (∀ va, leaf (km_mem s') T va = leaf (km_mem s) T va) ∧
    (∀ a, rd8 (km_mem s') a = if decide (in_page p a) then 0 else rd8 (km_mem s) a).
Proof.
  intros M. destruct (kalloc_spec p fl s (mm_alloc _ _ _ _ M)) as (s' & E & I & Hn & Hp & _ & Hm).
  assert (Hd : pt_disj T fl).
  { intros π q Hq H. eapply (mm_disj _ _ _ _ M); [exact Hq|by constructor]. }
  destruct (mm_ok_mem root T (p :: fl) fl s s' M I Hd) as [M' L].
  - intros a Ha. rewrite Hm, decide_False; [done|].
    eapply (in_tree_free T (p :: fl) p a); [by eapply mm_page|apply M|apply M|by constructor|done].
  - exists s'. split_and!; try done. split_and!; [done|done|].
    intros π H. eapply (mm_disj _ _ _ _ M); [exact H|by constructor].
Qed.
End pages.

Section unmap.
Implicit Types (s : kmem) (root va p : Z) (T : tree) (fl ps : list Z).

(** [ps] are the pages mapped from [va] on. *)
Fixpoint mapped (m : mem) (T : tree) (va : Z) (ps : list Z) : Prop :=
  match ps with
  | [] => True
  | p :: ps => leaf m T va ≠ 0 ∧ P2V (PTE_PA (leaf m T va)) = p ∧ mapped m T (va +u64 PAGESIZE) ps
  end.

Lemma mapped_ext m m' T va ps :
  0 <= va → (∀ va', 0 <= va' → vdist va va' < length ps → leaf m' T va' = leaf m T va') →
  length ps <= NPAGE → mapped m T va ps → mapped m' T va ps.
Proof.
  revert va. induction ps as [|p ps IH]; intros va Hva Hm Hl; [done|].
  simpl in *. intros (H1 & H2 & H3). rewrite Hm; [|done|].
  - split_and!; [done|done|]. apply IH; [apply u64_bound| |lia|done].
    intros va' Hva' Hd. apply Hm; [done|].
    destruct (decide (vdist va va' = 0)) as [->|Hne]; [lia|].
    rewrite vdist_next in Hd by done. lia.
  - rewrite (proj2 (vdist_0 va va) eq_refl). lia.
Qed.

Lemma leaf_some m T va : leaf m T va ≠ 0 → ∃ p3, T !! [PIDX 1 va; PIDX 2 va] = Some p3.
Proof. unfold leaf. destruct (T !! _) as [p3|]; [by eauto|done]. Qed.

Lemma pageunmap_loop_spec ps root va T fl s :
  mm_ok root T fl s → length ps <= NPAGE → 0 <= va → mapped (km_mem s) T va ps →
  NoDup ps → Forall (user_page T fl) ps →
  ∃ s', pageunmap_loop (length ps) root va s = Ret tt s' ∧
    mm_ok root T (reverse ps ++ fl) s' ∧
    (∀ va', 0 <= va' → leaf (km_mem s') T va' =
      if decide (vdist va va' < length ps) then 0 else leaf (km_mem s) T va') ∧
    (∀ a, ¬ in_tree T a → (∀ p, p ∈ ps → ¬ in_page p a) → rd8 (km_mem s') a = rd8 (km_mem s) a).
Proof.
  revert va fl s. induction ps as [|p ps IH]; intros va fl s M Hl Hva Hmp Hnd Hus.
  { exists s. split_and!; try done. intros va' _. rewrite decide_False; [done|].
    pose proof (vdist_bound va va'). simpl. lia. }
  destruct Hmp as (H1 & H2 & H3). apply NoDup_cons in Hnd as [Hnp Hnd].
  apply Forall_cons in Hus as [Hu Hus]. simpl in Hl.
  destruct (leaf_some _ _ _ H1) as [p3 Hp3].
  destruct (kfree_user root T fl s p M Hu) as (s1 & K & M1 & L1 & R1).
  destruct (store_leaf va 0 p3 root T (p :: fl) s1 M1 Hp3 Hva ltac:(lia)) as (s2 & St & _ & M2 & [R2 _ _] & L2).
  assert (L12 : ∀ va', 0 <= va' → leaf (km_mem s2) T va' =
    if decide (vdist va va' = 0) then 0 else leaf (km_mem s) T va').
  { intros va' Hva'. rewrite L2, L1 by done.
    destruct (decide (vpage va' = vpage va)) as [E|E].
    - by rewrite decide_True by by rewrite vdist_0.
    - by rewrite decide_False by by rewrite vdist_0. }
  destruct (IH (va +u64 PAGESIZE) (p :: fl) s2 M2) as (s3 & E3 & M3 & L3 & R3).
  - lia.
  - apply u64_bound.
  - eapply mapped_ext; [apply u64_bound| |lia|exact H3].
    intros va' Hva' Hd. rewrite L12 by done. apply decide_False. intros E0.
    rewrite vdist_next_0 in Hd by done. lia.
  - done.
  - apply Forall_forall. intros q Hq. pose proof (proj1 (Forall_forall _ _) Hus q Hq) as (A & B & C).
    split_and!; [done| |done]. intros [->|H]%elem_of_cons; done.
  - exists s3. split_and!.
    + cbn [length pageunmap_loop]. rewrite (pbind_ok _ _ _ _ _ (pagewalk_found va p3 root T fl s M Hp3)).
      rewrite (pbind_ok _ _ _ _ _ (deref_leaf va p3 root T fl s M Hp3)).
      destruct (leaf (km_mem s) T va =? 0) eqn:E; [lia|]. prog_step. rewrite H2.
      rewrite (pbind_ok _ _ _ _ _ K). by rewrite (pbind_ok _ _ _ _ _ St).
    + by rewrite reverse_cons, <- app_assoc.
    + intros va' Hva'. rewrite L3, L12 by done. pose proof (vdist_bound va va').
      destruct (decide (vdist va va' = 0)) as [E0|E0].
      * rewrite vdist_next_0 by done. rewrite decide_False by (simpl in *; lia).
        by rewrite decide_True by (simpl; lia).
      * rewrite vdist_next by done.
        destruct (decide (vdist va va' < length (p :: ps))); simpl in *;
          [by rewrite decide_True by lia|by rewrite decide_False by lia].
    + intros a Ht Hp. rewrite R3, R2; [|done..|].
      * apply R1, Hp. constructor.
      * intros q Hq. apply Hp. by constructor.
Qed.
End unmap.

(** ** New pages *)

(** Bytes of neither the tables nor the free pages are as they were. *)
Record mm_ext (T T' : tree) (fl : list Z) (m m' : mem) : Prop := {
  ext_rest : ∀ a, ¬ in_tree T a → (∀ p, p ∈ fl → ¬ in_page p a) → rd8 m' a = rd8 m a;
  ext_grow : T ⊆ T';
  ext_from : ∀ π p, T' !! π = Some p → T !! π = Some p ∨ p ∈ fl
}.

Lemma mm_ext_refl T fl m : mm_ext T T fl m m.
Proof. split; auto. Qed.

Lemma mm_frame_ext T T' fl m m' : mm_frame T T' fl m m' → mm_ext T T' fl m m'.
Proof.
  intros F. split; [|apply F|apply F]. intros a Ht Hf. by eapply mm_frame_outside.
Qed.

Lemma mm_ext_trans T1 T2 T3 fl fl' m1 m2 m3 :
  suffix fl' fl → mm_ext T1 T2 fl m1 m2 → mm_ext T2 T3 fl' m2 m3 → mm_ext T1 T3 fl m1 m3.
Proof.
  intros Hs [R1 G1 F1] [R2 G2 F2]. split; [|by etrans|].
  - intros a Ht Hf. rewrite R2; [by apply R1| |].
    + intros (π & p & Hp & Ha). destruct (F1 _ _ Hp) as [H|H]; [|by eapply Hf].
      apply Ht. by exists π, p.
    + intros p Hp. apply Hf. by eapply suffix_in.
  - intros π p [H|H]%F2; [by apply F1|]. right. by eapply suffix_in.
Qed.

(** No page belongs to both. *)
Definition tdisj (T T' : tree) : Prop := ∀ π π' p, T !! π = Some p → T' !! π' ≠ Some p.

Section fresh.
Implicit Types (s : kmem) (root va p : Z) (T : tree) (fl ps qs : list Z).

Lemma user_page_ext T T' fl fl' p m m' :
  suffix fl' fl → mm_ext T T' fl m m' → user_page T fl p → user_page T' fl' p.
Proof.
  intros Hs [_ _ F] (Hp & Hf & Ht). split_and!; [done| |].
  - intros ?. by eapply Hf, suffix_in.
  - intros π [H|H]%F; [by eapply Ht|done].
Qed.

(** The bytes of a user page. *)
Lemma user_page_rest root T T' fl s m' p a :
  mm_ok root T fl s → mm_ext T T' fl (km_mem s) m' → user_page T fl p → in_page p a →
  rd8 m' a = rd8 (km_mem s) a.
Proof.
  intros M [R _ _] U Ha. apply R.
  - intros Ht. by eapply user_page_tree.
  - intros q Hq. by eapply user_page_free.
Qed.

(** Another address space is not affected. *)
Lemma mm_ok_other root T T' fl fl' s s' root2 T2 :
  mm_ok root2 T2 fl s → tdisj T T2 → mm_ok root T fl s → mm_ext T T' fl (km_mem s) (km_mem s') →
  suffix fl' fl → kinv fl' s' →
  mm_ok root2 T2 fl' s' ∧ (∀ va, leaf (km_mem s') T2 va = leaf (km_mem s) T2 va) ∧ tdisj T' T2.
Proof.
  intros M2 D M E Hs I. destruct (mm_ok_mem root2 T2 fl fl' s s' M2 I) as [M2' L].
  - intros π q Hq H. by eapply (mm_disj _ _ _ _ M2), suffix_in.
  - intros a (π & q & Hq & Ha). pose proof (mm_page _ _ _ _ M2 _ _ Hq) as Pq. apply E.
    + intros (π' & q' & Hq' & Ha').
      apply (D _ π _ Hq').
      rewrite Hq. f_equal. exact (page_disjoint q q' a Pq (mm_page _ _ _ _ M _ _ Hq') Ha Ha').
    + intros p Hp Ha'. assert (page_ok p)
        by (eapply Forall_forall; [apply (kinv_pages _ _ (mm_alloc _ _ _ _ M))|done]).
      apply (mm_disj _ _ _ _ M2 _ _ Hq). by rewrite (page_disjoint q p a).
  - split_and!; [done|done|]. intros π π' p Hp Hp'.
    destruct (ext_from _ _ _ _ _ E _ _ Hp) as [H|H]; [by eapply D|].
    by eapply (mm_disj _ _ _ _ M2).
Qed.

Lemma V2P_aligned p : page_ok p → V2P p mod PAGESIZE = 0.
Proof. intros Hp. rewrite V2P_page by done. revert Hp. unfold_layout. intros [? ?]. zlia. Qed.

(** [pagemap] of one page at an unused address. *)
Lemma pagemap_one root va p attr T fl s :
  mm_ok root T fl s → page_ok p → (2 <= length fl)%nat →
  0 <= va → va mod PAGESIZE = 0 → 0 <= attr < 2 ^ 64 →
  Z.land (leaf (km_mem s) T va) PTE_AF = 0 →
  ∃ T' fl' s', pagemap root va (V2P p) PAGESIZE attr s = Ret tt s' ∧
    mm_ok root T' fl' s' ∧ mm_frame T T' fl (km_mem s) (km_mem s') ∧
    suffix fl' fl ∧ (length fl <= length fl' + 2)%nat ∧
    ∀ va', 0 <= va' → leaf (km_mem s') T' va' =
      if decide (vpage va' = vpage va) then leaf_pte (V2P p) attr else leaf (km_mem s) T va'.
Proof.
  intros M Hp Hf Hva Hal Hattr Hn.
  destruct (pagemap_step 0 root va (V2P p) attr T fl s M Hf Hva Hattr Hn)
    as (T' & fl' & s' & E & H).
  exists T', fl', s'. split; [|done]. unfold pagemap.
  rewrite Hal, (V2P_aligned p Hp). exact E.
Qed.

(** [kalloc] and [pagemap] at an unused address, with the new page written to
    in between. *)
Lemma map_fresh root va attr T fl p s :
  mm_ok root T (p :: fl) s → (2 <= length fl)%nat →
  0 <= va → va mod PAGESIZE = 0 → 0 <= attr < 2 ^ 64 →
  Z.land (leaf (km_mem s) T va) PTE_AF = 0 →
  ∃ s1, kalloc s = Ret p s1 ∧ p ≠ 0 ∧ page_ok p ∧
    (∀ a, rd8 (km_mem s1) a = if decide (in_page p a) then 0 else rd8 (km_mem s) a) ∧
    ∀ m2, (∀ a, ¬ in_page p a → rd8 m2 a = rd8 (km_mem s1) a) →
    ∃ T' fl' s3,
      pagemap root va (V2P p) PAGESIZE attr
        (KMem (km_hart s1) (kallocator_lk s1) (freelist s1) m2) = Ret tt s3 ∧
      mm_ok root T' fl' s3 ∧ mm_ext T T' (p :: fl) (km_mem s) (km_mem s3) ∧
      suffix fl' fl ∧ (length fl <= length fl' + 2)%nat ∧ user_page T' fl' p ∧
      (∀ a, in_page p a → rd8 (km_mem s3) a = rd8 m2 a) ∧
      ∀ va', 0 <= va' → leaf (km_mem s3) T' va' =
        if decide (vpage va' = vpage va) then leaf_pte (V2P p) attr else leaf (km_mem s) T va'.
Proof.
  intros M Hf Hva Hal Hattr Hn.
  destruct (kalloc_user root T fl s p M) as (s1 & K & M1 & U & L1 & R1). pose proof U as (Hp & Hpf & Hpt).
  exists s1. split_and!; [done|by apply page_nonzero|done|done|]. intros m2 Hm2.
  set (s2 := KMem (km_hart s1) (kallocator_lk s1) (freelist s1) m2).
  destruct (mm_ok_mem root T fl fl s1 s2 M1) as [M2 L2].
  { apply kinv_mem; [apply M1|]. intros q a Hq Ha. apply Hm2.
    intros Ha'. by eapply (user_page_free root T fl s1 p). }
  { apply M1. }
  { intros a Ha. apply Hm2. by eapply user_page_tree. }
  destruct (pagemap_one root va p attr T fl s2 M2 Hp Hf Hva Hal Hattr) as (T' & fl' & s3 & E & M3 & F3 & S3 & N3 & L3).
  { by rewrite L2, L1. }
  exists T', fl', s3. split_and!; try done.
  - destruct F3 as [R3 G3 F3]. split; [|done|].
    + intros a Ht Hfr. rewrite R3.
      * simpl. rewrite Hm2, R1, decide_False; [done|..]; apply Hfr; constructor.
      * intros (π & q & Hq & Ha). destruct (F3 _ _ Hq) as [H|H]; [apply Ht; by exists π, q|].
        eapply Hfr; [|exact Ha]. by constructor.
    + intros π q [H|H]%F3; [by left|right]. by constructor.
  - eapply user_page_next; [exact S3|exact F3|exact U].
  - intros a Ha. rewrite (user_page_rest root T T' fl s2 (km_mem s3) p a M2 (mm_frame_ext _ _ _ _ _ F3) U Ha). done.
  - intros va' Hva'. rewrite L3, L2, L1 by done. done.
Qed.
End fresh.

(** The entry of [va'] once [ps] are mapped from [va] on. *)
Definition mapped_leaf (ps : list Z) (attr va va' : Z) (old : Z) : Z :=
  match ps !! Z.to_nat (vdist va va') with
  | Some p => leaf_pte (V2P p) attr
  | None => old
  end.

Lemma mapped_leaf_cons p ps attr va va' old :
  0 <= va → 0 <= va' → length ps < NPAGE - 1 →
  mapped_leaf ps attr (va +u64 PAGESIZE) va'
    (if decide (vpage va' = vpage va) then leaf_pte (V2P p) attr else old) =
  mapped_leaf (p :: ps) attr va va' old.
Proof.
  intros Hva Hva' Hl. unfold mapped_leaf. pose proof (vdist_bound va va').
  destruct (decide (vpage va' = vpage va)) as [E|E].
  - apply vdist_0 in E. rewrite vdist_next_0 by done. rewrite E.
    rewrite lookup_ge_None_2; [done|]. unfold NPAGE in *. lia.
  - rewrite <- vdist_0 in E. rewrite vdist_next by done.
    replace (Z.to_nat (vdist va va')) with (S (Z.to_nat (vdist va va' - 1))) by lia. done.
Qed.

Lemma next_aligned va : va mod PAGESIZE = 0 → (va +u64 PAGESIZE) mod PAGESIZE = 0.
Proof. unfold u64, PAGESIZE. intros. zlia. Qed.

(** An address that is unused stays so while the page below it is mapped. *)
Lemma unused_next (old new : Z → Z) va n pte :
  0 <= va → S n <= NPAGE →
  (∀ va', 0 <= va' → vdist va va' < S n → Z.land (old va') PTE_AF = 0) →
  (∀ va', 0 <= va' → new va' = if decide (vpage va' = vpage va) then pte else old va') →
  ∀ va', 0 <= va' → vdist (va +u64 PAGESIZE) va' < n → Z.land (new va') PTE_AF = 0.
Proof.
  intros Hva Hn Ho Hnew va' Hva' Hd. rewrite Hnew by done.
  destruct (decide (vdist va va' = 0)) as [E|E].
  { rewrite vdist_next_0 in Hd by done. lia. }
  rewrite decide_False by (by rewrite <- vdist_0). apply Ho; [done|].
  rewrite vdist_next in Hd by done. lia.
Qed.

Section alloc.
Implicit Types (s : kmem) (root va p : Z) (T : tree) (fl ps : list Z) (n : nat).

Lemma alloc_loop_spec attr n root va T fl s :
  mm_ok root T fl s → (3 * n <= length fl)%nat → n < NPAGE →
  0 <= va → va mod PAGESIZE = 0 → 0 <= attr < 2 ^ 64 →
  (∀ va', 0 <= va' → vdist va va' < n → Z.land (leaf (km_mem s) T va') PTE_AF = 0) →
  ∃ ps T' fl' s', alloc_loop attr n root va s = Ret true s' ∧ length ps = n ∧
    mm_ok root T' fl' s' ∧ mm_ext T T' fl (km_mem s) (km_mem s') ∧
    suffix fl' fl ∧ (length fl <= length fl' + 3 * n)%nat ∧
    NoDup ps ∧ Forall (user_page T' fl') ps ∧ Forall (λ p, p ∈ fl) ps ∧
    (∀ p a, p ∈ ps → in_page p a → rd8 (km_mem s') a = 0) ∧
    ∀ va', 0 <= va' → leaf (km_mem s') T' va' = mapped_leaf ps attr va va' (leaf (km_mem s) T va').
Proof.
  revert va T fl s. induction n as [|n IH]; intros va T fl s M Hf Hn Hva Hal Hattr Hun.
  { exists [], T, fl, s. split_and!; try done;
      try constructor; [auto|done|auto|lia|by intros ? ? ?%elem_of_nil]. }
  destruct fl as [|p fl]; [simpl in Hf; lia|]. simpl in Hf.
  destruct (map_fresh root va attr T fl p s M ltac:(lia) Hva Hal Hattr)
    as (s1 & K & Hp0 & Hp & R1 & Hmap).
  { apply Hun; [done|]. rewrite (proj2 (vdist_0 va va) eq_refl). lia. }
  destruct (Hmap (km_mem s1) ltac:(done)) as (T2 & fl2 & s2 & E2 & M2 & X2 & S2 & N2 & U2 & B2 & L2).
  destruct (IH (va +u64 PAGESIZE) T2 fl2 s2) as
    (ps & T3 & fl3 & s3 & E3 & Hlen & M3 & X3 & S3 & N3 & D3 & U3 & F3 & B3 & L3);
    [done|lia|lia|apply u64_bound|by apply next_aligned|done| |].
  { eapply (unused_next (leaf (km_mem s) T)); [done| |exact Hun|exact L2]. lia. }
  assert (Hpp : ∀ q, q ∈ ps → q ∈ fl2) by (by apply Forall_forall).
  exists (p :: ps), T3, fl3, s3. split_and!.
  - cbn [alloc_loop]. rewrite (pbind_ok _ _ _ _ _ K). destruct (p =? 0) eqn:E0; [lia|].
    destruct s1. cbn in E2. by rewrite (pbind_ok _ _ _ _ _ E2).
  - simpl. lia.
  - done.
  - eapply (mm_ext_trans _ _ _ _ fl2); [by apply suffix_cons_r|exact X2|exact X3].
  - apply suffix_cons_r. by etrans.
  - simpl. lia.
  - constructor; [|done]. intros Hin%Hpp. by apply (proj1 (proj2 U2)).
  - constructor; [|done]. by eapply user_page_ext.
  - constructor; [constructor|]. apply Forall_forall. intros q Hq%Hpp.
    constructor. by eapply suffix_in.
  - intros q a [->|Hq]%elem_of_cons Ha; [|by eapply B3].
    rewrite (user_page_rest root T2 T3 fl2 s2 (km_mem s3) p a) by done.
    by rewrite B2, R1, decide_True.
  - intros va' Hva'. rewrite L3, L2 by done. apply mapped_leaf_cons; [done..|lia].
Qed.
End alloc.

(** ** Copying an address space *)

Section copy.
Implicit Types (s : kmem) (va p q : Z) (fl ps qs : list Z) (n : nat).
Context (rnew rold : Z).

(** Two address spaces that share nothing. *)
Record two_ok (Tn To : tree) (fl : list Z) (s : kmem) : Prop := {
  two_new : mm_ok rnew Tn fl s;
  two_old : mm_ok rold To fl s;
  two_disj : tdisj Tn To
}.

(** [q] is a page of the old one: not free, and no table. *)
Definition old_page (Tn To : tree) fl q : Prop := user_page Tn fl q ∧ user_page To fl q.

(** The page [p] of [m'] holds what the page [q] of [m] does. *)
Definition same_page (m' m : mem) p q : Prop :=
  ∀ i, 0 <= i < PAGESIZE → rd8 m' (p + i) = rd8 m (q + i).

(** One page: [p] is its copy. *)
Lemma cp_page_spec va q attr Tn To fl p s :
  two_ok Tn To (p :: fl) s → (2 <= length fl)%nat →
  0 <= va → va mod PAGESIZE = 0 → 0 <= attr < 2 ^ 64 →
  leaf (km_mem s) To va ≠ 0 → P2V (PTE_PA (leaf (km_mem s) To va)) = q →
  old_page Tn To (p :: fl) q → Z.land (leaf (km_mem s) Tn va) PTE_AF = 0 →
  ∃ Tn' fl' s', cp_page rnew rold va attr s = Ret true s' ∧
    two_ok Tn' To fl' s' ∧ mm_ext Tn Tn' (p :: fl) (km_mem s) (km_mem s') ∧
    suffix fl' fl ∧ (length fl <= length fl' + 2)%nat ∧
    user_page Tn' fl' p ∧ same_page (km_mem s') (km_mem s) p q ∧
    (∀ va', leaf (km_mem s') To va' = leaf (km_mem s) To va') ∧
    ∀ va', 0 <= va' → leaf (km_mem s') Tn' va' =
      if decide (vpage va' = vpage va) then leaf_pte (V2P p) attr else leaf (km_mem s) Tn va'.
Proof.
  intros [M Mo D] Hf Hva Hal Hattr Hl Hq [Uq Uqo] Hun.
  destruct (map_fresh rnew va attr Tn fl p s M Hf Hva Hal Hattr Hun)
    as (s1 & K & Hp0 & Hp & R1 & Hmap).
  destruct (memmove_run p q PAGESIZE (km_mem s1) ltac:(done)) as (m2 & Cp & R2).
  destruct (Hmap m2) as (T2 & fl2 & s2 & E2 & M2 & X2 & S2 & N2 & U2 & B2 & L2).
  { intros a Ha. rewrite R2. by rewrite decide_False. }
  destruct (mm_ok_other rnew Tn T2 (p :: fl) fl2 s s2 rold To Mo D M X2) as (Mo2 & Lo & D2);
    [by apply suffix_cons_r|apply M2|].
  destruct (leaf_some _ _ _ Hl) as [p3 Hp3].
  exists T2, fl2, s2. split_and!; try done.
  - unfold cp_page. rewrite (pbind_ok _ _ _ _ _ (pagewalk_found va p3 rold To (p :: fl) s Mo Hp3)).
    rewrite (pbind_ok _ _ _ _ _ (deref_leaf va p3 rold To (p :: fl) s Mo Hp3)).
    rewrite (pbind_ok _ _ _ _ _ K). destruct (p =? 0) eqn:E0; [lia|]. rewrite Hq.
    erewrite pbind_ok; [|apply zoom_ok; exact Cp]. by rewrite (pbind_ok _ _ _ _ _ E2).
  - intros i Hi. assert (Hpi : in_page p (p + i)) by (unfold in_page; lia).
    rewrite B2, R2 by done. rewrite decide_True by done.
    replace (q + (p + i - p)) with (q + i) by lia. rewrite R1. apply decide_False.
    intros Ha. destruct Uq as (Pq & Nq & _). apply Nq.
    rewrite (page_disjoint q p (q + i)); [constructor|done|done|unfold in_page; lia|done].
Qed.

Lemma old_page_next Tn Tn' To fl fl' m m' q :
  suffix fl' fl → mm_ext Tn Tn' fl m m' → old_page Tn To fl q → old_page Tn' To fl' q.
Proof.
  intros Hs X [U Uo]. split; [by eapply user_page_ext|].
  destruct Uo as (? & Hn & ?). split_and!; [done| |done]. intros ?. by eapply Hn, suffix_in.
Qed.

Lemma page_byte p i : 0 <= i < PAGESIZE → in_page p (p + i).
Proof. unfold in_page. lia. Qed.

(** The pages [qs] mapped from [va] on; [ps] are their copies. *)
Lemma cp_loop_spec qs va Tn To fl s :
  two_ok Tn To fl s → (3 * length qs <= length fl)%nat → length qs < NPAGE →
  0 <= va → va mod PAGESIZE = 0 → mapped (km_mem s) To va qs → Forall (old_page Tn To fl) qs →
  (∀ va', 0 <= va' → vdist va va' < length qs → Z.land (leaf (km_mem s) Tn va') PTE_AF = 0) →
  ∃ ps Tn' fl' s', cp_loop (length qs) rnew rold va s = Ret true s' ∧
    two_ok Tn' To fl' s' ∧ mm_ext Tn Tn' fl (km_mem s) (km_mem s') ∧
    suffix fl' fl ∧ (length fl <= length fl' + 3 * length qs)%nat ∧
    NoDup ps ∧ Forall (λ p, p ∈ fl ∧ user_page Tn' fl' p) ps ∧
    Forall2 (same_page (km_mem s') (km_mem s)) ps qs ∧
    (∀ va', leaf (km_mem s') To va' = leaf (km_mem s) To va') ∧
    ∀ va', 0 <= va' → leaf (km_mem s') Tn' va' =
      mapped_leaf ps PTE_USER va va' (leaf (km_mem s) Tn va').
Proof.
  revert va Tn fl s. induction qs as [|q qs IH]; intros va Tn fl s W Hf Hn Hva Hal Hmp Hold Hun.
  { exists [], Tn, fl, s.
    split_and!; [done|done|apply mm_ext_refl|done|simpl; lia|constructor|constructor|constructor|done|done]. }
  destruct fl as [|p fl]; [simpl in Hf; lia|]. simpl in Hf, Hn.
  destruct Hmp as (Hl & Hq & Hmp). apply Forall_cons in Hold as [Hold Holds].
  destruct (cp_page_spec va q PTE_USER Tn To fl p s W ltac:(lia) Hva Hal ltac:(done) Hl Hq Hold)
    as (T2 & fl2 & s2 & E2 & W2 & X2 & S2 & N2 & U2 & B2 & Lo2 & L2).
  { apply Hun; [done|]. rewrite (proj2 (vdist_0 va va) eq_refl). simpl. lia. }
  assert (S2' : suffix fl2 (p :: fl)) by (by apply suffix_cons_r).
  assert (Holds2 : Forall (old_page T2 To fl2) qs)
    by (eapply Forall_impl; [exact Holds|]; intros; by eapply old_page_next).
  destruct (IH (va +u64 PAGESIZE) T2 fl2 s2) as
    (ps & T3 & fl3 & s3 & E3 & W3 & X3 & S3 & N3 & D3 & U3 & B3 & Lo3 & L3);
    [done|lia|lia|apply u64_bound|by apply next_aligned| |done| |].
  { eapply mapped_ext; [apply u64_bound|intros; apply Lo2|lia|done]. }
  { eapply (unused_next (leaf (km_mem s) Tn)); [done| |exact Hun|exact L2]. simpl. lia. }
  assert (Hpp : ∀ x, x ∈ ps → x ∈ fl2) by (intros x Hx; by apply (proj1 (Forall_forall _ _) U3)).
  exists (p :: ps), T3, fl3, s3. split_and!.
  - cbn [length cp_loop]. rewrite (pbind_ok _ _ _ _ _ E2). done.
  - done.
  - eapply (mm_ext_trans _ _ _ _ fl2); [exact S2'|exact X2|exact X3].
  - by etrans.
  - simpl. lia.
  - constructor; [|done]. intros Hin%Hpp. by apply (proj1 (proj2 U2)).
  - constructor; [split; [constructor|by eapply user_page_ext]|].
    eapply Forall_impl; [exact U3|]. intros x [Hx ?]. split; [|done]. by eapply suffix_in.
  - constructor.
    + intros i Hi. rewrite (user_page_rest rnew T2 T3 fl2 s2 _ p (p + i) (two_new _ _ _ _ W2) X3 U2)
        by by apply page_byte.
      by apply B2.
    + apply Forall2_same_length_lookup_2; [by eapply Forall2_length|].
      intros j x y Hx Hy i Hi. rewrite (Forall2_lookup_lr _ _ _ _ _ _ B3 Hx Hy i Hi).
      apply list_elem_of_lookup_2 in Hy.
      apply (user_page_rest rnew Tn T2 (p :: fl) s _ y (y + i) (two_new _ _ _ _ W) X2);
        [by apply (proj1 (Forall_forall _ _) Holds)|by apply page_byte].
  - intros va'. by rewrite Lo3, Lo2.
  - intros va' Hva'. rewrite L3, L2 by done. apply mapped_leaf_cons; [done..|].
    apply Forall2_length in B3. lia.
Qed.
End copy.

(** The byte user code reads at [va] through the table at [root]. *)
Definition ubyte (m : mem) (root va : Z) : Z :=
  rd8 m (P2V (PTE_PA (hw_walk m root va)) + OFFSET va).

Section users.
Implicit Types (m : mem) (root va p q : Z) (T : tree) (ps qs : list Z).

Lemma leaf_pte_page p attr :
  page_ok p → PTE_PA attr = 0 → P2V (PTE_PA (leaf_pte (V2P p) attr)) = p.
Proof.
  intros Hp Ha. unfold leaf_pte. rewrite !PTE_PA_lor by done.
  by rewrite V2P_frame, V2P_frame, P2V_V2P.
Qed.

Lemma leaf_pte_nonzero pa attr : leaf_pte pa attr ≠ 0.
Proof. unfold leaf_pte. rewrite Z.lor_eq_0_iff. by intros [_ ?]. Qed.

Lemma leaf_pte_used pa attr : Z.land (leaf_pte pa attr) PTE_AF ≠ 0.
Proof.
  unfold leaf_pte. rewrite !Z.land_lor_distr_l, !Z.lor_eq_0_iff. intros [[[_ ?] _] _]. done.
Qed.

(** What the entries say of the bytes. *)
Lemma ubyte_leaf root T fl (s : kmem) va :
  mm_ok root T fl s →
  ubyte (km_mem s) root va = rd8 (km_mem s) (P2V (PTE_PA (leaf (km_mem s) T va)) + OFFSET va).
Proof. intros M. unfold ubyte. by rewrite (hw_walk_leaf _ _ _ va (mm_table _ _ _ _ M)). Qed.

Lemma OFFSET_bound va : 0 <= OFFSET va < PAGESIZE.
Proof. rewrite OFFSET_eq. by apply Z.mod_pos_bound. Qed.

Lemma mapped_lookup m T va va' qs (k : nat) q :
  0 <= va → 0 <= va' → vdist va va' = k → qs !! k = Some q → mapped m T va qs →
  leaf m T va' ≠ 0 ∧ P2V (PTE_PA (leaf m T va')) = q.
Proof.
  revert va k. induction qs as [|q' qs IH]; intros va k Hva Hva' Hd Hk; [done|].
  intros (H1 & H2 & H3). destruct k as [|k]; simpl in Hk.
  - simplify_eq. assert (leaf m T va' = leaf m T va) as ->; [|done].
    apply vdist_0, same_vpage in Hd as [E1 E2]; [|done..]. unfold leaf. by rewrite E1, E2.
  - apply (IH (va +u64 PAGESIZE) k); [apply u64_bound|done| |done|done].
    rewrite vdist_next by (done || lia). lia.
Qed.
End users.

(** *** What a copied page holds *)

Section copied.
Context (rnew rold : Z) (To : tree).
Implicit Types (s : kmem) (m : mem) (va p q : Z) (Tn : tree) (fl ps qs : list Z).

(** The entry [pte] of the child at [va], whose page was free, holds in [m']
    what the parent's page there held in [m]. *)
Record copied m m' Tn fl Tn' fl' (pte va : Z) : Prop := {
  copied_free : P2V (PTE_PA pte) ∈ fl;
  copied_user : user_page Tn' fl' (P2V (PTE_PA pte));
  copied_from : old_page Tn To fl (P2V (PTE_PA (leaf m To va)));
  copied_same : same_page m' m (P2V (PTE_PA pte)) (P2V (PTE_PA (leaf m To va)))
}.

Lemma copied_range m m1 Tn fl T1 fl1 va va' ps qs old :
  0 <= va → 0 <= va' → vdist va va' < length qs → mapped m To va qs →
  Forall (old_page Tn To fl) qs → Forall (λ p, p ∈ fl ∧ user_page T1 fl1 p) ps →
  Forall2 (same_page m1 m) ps qs →
  copied m m1 Tn fl T1 fl1 (mapped_leaf ps PTE_USER va va' old) va'.
Proof.
  intros Hva Hva' Hd Hmp Hold Hps B. pose proof (Forall2_length _ _ _ B). pose proof (vdist_bound va va').
  destruct (lookup_lt_is_Some_2 qs (Z.to_nat (vdist va va')) ltac:(lia)) as [q Eq].
  destruct (lookup_lt_is_Some_2 ps (Z.to_nat (vdist va va')) ltac:(lia)) as [p Ep].
  destruct (mapped_lookup m To va va' qs (Z.to_nat (vdist va va')) q) as [_ Hq]; [done|done|lia|done|done|].
  destruct (Forall_lookup_1 _ _ _ _ Hps Ep) as [Hpf Hpu].
  unfold mapped_leaf. rewrite Ep. split; rewrite ?leaf_pte_page by (done || apply Hpu); try done.
  - rewrite Hq. by eapply Forall_lookup_1 in Eq.
  - rewrite Hq. by eapply Forall2_lookup_lr.
Qed.

(** What is mapped later does not disturb it. *)
Lemma copied_next m Tn fl T1 T2 fl1 fl2 s1 s2 pte va :
  suffix fl2 fl1 → two_ok rnew rold T1 To fl1 s1 → mm_ext T1 T2 fl1 (km_mem s1) (km_mem s2) →
  copied m (km_mem s1) Tn fl T1 fl1 pte va → copied m (km_mem s2) Tn fl T2 fl2 pte va.
Proof.
  intros Hs W X [C1 C2 C3 C4]. split; [done|by eapply user_page_ext|done|].
  intros i Hi. rewrite <- C4 by done.
  eapply user_page_rest; [apply W|exact X|exact C2|by apply page_byte].
Qed.

(** The page copied last. *)
Lemma copied_page va q Tn T1 T2 fl fl1 fl2 p s s1 s2 :
  two_ok rnew rold Tn To fl s → mm_ext Tn T1 fl (km_mem s) (km_mem s1) → suffix (p :: fl1) fl →
  user_page T2 fl2 p → old_page Tn To fl q → same_page (km_mem s2) (km_mem s1) p q →
  leaf (km_mem s) To va ≠ 0 ∧ P2V (PTE_PA (leaf (km_mem s) To va)) = q →
  copied (km_mem s) (km_mem s2) Tn fl T2 fl2 (leaf_pte (V2P p) PTE_USER_XN) va.
Proof.
  intros W X Hs U Hq B [_ Eq]. split; rewrite ?leaf_pte_page by (done || apply U); try done.
  - eapply suffix_in; [exact Hs|constructor].
  - by rewrite Eq.
  - rewrite Eq. intros i Hi. rewrite B by done.
    eapply user_page_rest; [apply W|exact X|apply Hq|by apply page_byte].
Qed.

(** The parent's page is as it was, through two steps. *)
Lemma copied_old m' Tn T1 T2 T' fl fl1 fl' s s1 m2 pte va :
  suffix fl1 fl → two_ok rnew rold Tn To fl s → two_ok rnew rold T1 To fl1 s1 →
  mm_ext Tn T1 fl (km_mem s) (km_mem s1) → mm_ext T1 T2 fl1 (km_mem s1) m2 →
  copied (km_mem s) m' Tn fl T' fl' pte va →
  rd8 m2 (P2V (PTE_PA (leaf (km_mem s) To va)) + OFFSET va) =
  rd8 (km_mem s) (P2V (PTE_PA (leaf (km_mem s) To va)) + OFFSET va).
Proof.
  intros Hs W W1 X1 X2 [_ _ C _]. etrans.
  - eapply user_page_rest; [apply W1|exact X2| |apply page_byte, OFFSET_bound].
    eapply user_page_ext; [exact Hs|exact X1|apply C].
  - eapply user_page_rest; [apply W|exact X1|apply C|apply page_byte, OFFSET_bound].
Qed.
End copied.

(** *** Address spaces to try the operations on *)

Section start.
(** The free list [l] laid out in an empty memory. *)
Fixpoint chain_mem (l : list Z) : mem :=
  match l with
  | [] => ∅
  | p :: l => st64 (chain_mem l) p (hd 0 l)
  end.

Lemma chain_mem_other l a : (∀ p, p ∈ l → ¬ in_page p a) → rd8 (chain_mem l) a = 0.
Proof.
  induction l as [|p l IH]; intros H; [done|]. simpl. rewrite rd8_st_other.
  - apply IH. intros q Hq. apply H. by constructor.
  - intros Ha. apply (H p); [constructor|]. unfold in_page, PAGESIZE. lia.
Qed.

Lemma chain_mem_ok l : NoDup l → Forall page_ok l → chain (chain_mem l) (hd 0 l) l.
Proof.
  induction l as [|p l IH]; intros Hn Hp; [done|].
  apply NoDup_cons in Hn as [Hn Hn']. apply Forall_cons in Hp as [Hp Hp'].
  simpl. split; [done|]. rewrite ld_st_eq, Z.mod_small.
  - eapply chain_ext; [|by apply IH]. intros q a Hq Ha. apply rd8_st_other. intros Ha'.
    apply Hn. rewrite (page_disjoint p q a); [done|done|by eapply Forall_forall in Hp'| |done].
    unfold in_page, PAGESIZE. lia.
  - destruct l as [|q l]; [done|]. simpl. apply Forall_cons in Hp' as [Hq _].
    revert Hq. unfold_layout. lia.
Qed.

Definition start (l : list Z) : kmem := KMem (Hart 0 0 false true) lock_init (hd 0 l) (chain_mem l).

(** A cleared page is an empty table. *)
Lemma start_ok root l :
  NoDup l → Forall page_ok l → page_ok root → ¬ (root ∈ l) → mm_ok root {[ [] := root ]} l (start l).
Proof.
  intros Hn Hp Hr Hrl. split.
  - split; [by vm_compute|by vm_compute|by apply chain_mem_ok|done|done].
  - split.
    + apply lookup_singleton_eq.
    + intros π p [<- <-]%lookup_singleton_Some. split; [done|]. simpl. lia.
    + by intros π π' p [<- <-]%lookup_singleton_Some [<- _]%lookup_singleton_Some.
    + intros π i q [E _]%lookup_singleton_Some. by destruct π.
    + intros π p i [<- <-]%lookup_singleton_Some _ Hi.
      rewrite lookup_singleton_ne by done. rewrite ld_zero; [done|].
      intros a Ha. apply chain_mem_other. intros p Hpl Hpa.
      apply Hrl. rewrite (page_disjoint root p a); [done|done|by eapply Forall_forall in Hp| |done].
      by apply (slot_in_page root i).
  - by intros π p [<- <-]%lookup_singleton_Some.
Qed.

Lemma start_leaf root l va : leaf (km_mem (start l)) {[ [] := root ]} va = 0.
Proof. unfold leaf. by rewrite lookup_singleton_ne. Qed.

Definition root1 : Z := KERNBASE.
Definition root2 : Z := KERNBASE + PAGESIZE.
Definition free16 : list Z := pages (KERNBASE + 2 * PAGESIZE) 16.

Lemma start_ok1 root : root = root1 ∨ root = root2 → mm_ok root {[ [] := root ]} free16 (start free16).
Proof.
  intros H. apply start_ok.
  - apply (bool_decide_unpack _). vm_compute. done.
  - apply (bool_decide_unpack _). vm_compute. done.
  - apply (bool_decide_unpack _). destruct H as [-> | ->]; vm_compute; done.
  - apply (bool_decide_unpack (¬ (root ∈ free16))). destruct H as [-> | ->]; vm_compute; done.
Qed.
End start.

(** A parent with one page at 0x1000 and a stack page, and an empty child. *)
Lemma two_start :
  ∃ To fl s q r, two_ok root1 root2 {[ [] := root1 ]} To fl s ∧
    mapped (km_mem s) To 0x1000 [q] ∧ mapped (km_mem s) To USTACKBOTTOM [r] ∧
    old_page {[ [] := root1 ]} To fl q ∧ old_page {[ [] := root1 ]} To fl r ∧
    (8 <= length fl)%nat ∧ Z.land (leaf (km_mem s) To 0x1000) PTE_AF ≠ 0 ∧
    (∀ va, leaf (km_mem s) {[ [] := root1 ]} va = 0) ∧ q ≠ r ∧
    ∀ va, 0 <= va → leaf (km_mem s) To va = mapped_leaf [r] PTE_USER_XN USTACKBOTTOM va (mapped_leaf [q] PTE_USER 0x1000 va 0).
Proof.
  pose proof (start_ok1 root2 (or_intror eq_refl)) as M2.
  pose proof (start_ok1 root1 (or_introl eq_refl)) as M1.
  assert (D : tdisj {[ [] := root2 ]} {[ [] := root1 ]}).
  { intros π π' p [_ <-]%lookup_singleton_Some [_ E]%lookup_singleton_Some. done. }
  destruct (alloc_loop_spec PTE_USER 1 root2 0x1000 {[ [] := root2 ]} free16 (start free16) M2)
    as (ps & T1 & fl1 & s1 & _ & N1 & P1 & X1 & S1 & K1 & _ & U1 & F1 & _ & L1);
    [change (length free16) with 16%nat; lia|done|done|done|done|intros; by rewrite start_leaf|].
  destruct (mm_ok_other root2 _ T1 free16 fl1 _ s1 root1 _ M1 D M2 X1 S1) as (O1 & Lo1 & D1); [apply P1|].
  assert (Hv : ∀ va, 0 <= va → leaf (km_mem s1) T1 va = mapped_leaf ps PTE_USER 0x1000 va 0).
  { intros va Hva. rewrite L1 by done. by rewrite start_leaf. }
  destruct (alloc_loop_spec PTE_USER_XN 1 root2 USTACKBOTTOM T1 fl1 s1 P1)
    as (qs & T2 & fl2 & s2 & _ & N2 & P2 & X2 & S2 & K2 & _ & U2 & F2 & _ & L2);
    [change (length free16) with 16%nat in K1; lia|done|done|done|done| |].
  { intros va Hva Hd. rewrite Hv by done. unfold mapped_leaf. rewrite lookup_ge_None_2; [done|].
    assert (E : vpage va = vpage USTACKBOTTOM) by (apply vdist_0; pose proof (vdist_bound USTACKBOTTOM va); lia).
    rewrite N1. unfold vdist. rewrite E.
    assert (1 <= (vpage USTACKBOTTOM - vpage 0x1000) mod NPAGE) by (by vm_compute). lia. }
  destruct (mm_ok_other root2 T1 T2 fl1 fl2 s1 s2 root1 _ O1 D1 P1 X2 S2) as (O2 & Lo2 & D2); [apply P2|].
  destruct ps as [|q [|]], qs as [|r [|]]; try done.
  apply Forall_cons in U1 as [U1 _], F1 as [F1 _], U2 as [U2 _], F2 as [F2 _].
  exists T2, fl2, s2, q, r.
  assert (Hroot : ∀ p, p ∈ free16 → ∀ π, ({[ [] := root1 ]} : tree) !! π ≠ Some p).
  { intros p Hp π E. by apply (mm_disj _ _ _ _ M1 _ _ E). }
  assert (Uq : user_page T2 fl2 q) by (eapply user_page_ext; [exact S2|exact X2|exact U1]).
  split_and!.
  - split; [done|done|]. intros π π' p E1 E2. by apply (D2 _ _ _ E2 E1).
  - simpl. rewrite L2, Hv by done. change (mapped_leaf [r] _ _ _ _) with (leaf_pte (V2P q) PTE_USER).
    split_and!; [apply leaf_pte_nonzero|apply leaf_pte_page; [apply Uq|done]|done].
  - simpl. rewrite L2 by done. change (mapped_leaf [r] _ _ _ _) with (leaf_pte (V2P r) PTE_USER_XN).
    split_and!; [apply leaf_pte_nonzero|apply leaf_pte_page; [apply U2|done]|done].
  - split; [|done]. split_and!; [apply Uq|apply Uq|by apply Hroot].
  - split; [|done]. split_and!; [apply U2|apply U2|]. apply Hroot. by eapply suffix_in.
  - revert K1 K2. change (length free16) with 16%nat. lia.
  - rewrite L2, Hv by done. apply leaf_pte_used.
  - intros va. rewrite Lo2, Lo1. apply start_leaf.
  - intros ->. by apply U1.
  - intros va Hva. by rewrite L2, Hv.
Qed.

Module PageProps.

Implicit Types (s : kmem) (root va pa attr size : Z) (T : tree) (fl : list Z) (n : nat).



(** A page in use is never remapped: if an entry of the range has its
    access flag set, [pagemap] panics. *)
Theorem pagemap_used n root va pa size attr T fl s va' :
  mm_ok root T fl s → (2 * n <= length fl)%nat → n <= NPAGE → size = PAGESIZE * n →
  0 <= va → va mod PAGESIZE = 0 → pa mod PAGESIZE = 0 → 0 <= attr < 2 ^ 64 →
  0 <= va' → vdist va va' < n → Z.land (hw_walk (km_mem s) root va') PTE_AF ≠ 0 →
  pagemap root va pa size attr s = Panic "this entry has been used".
Proof.
  intros M Hf Hn -> Hva Hal Hpal Hattr Hva' Hd Hus. unfold pagemap. rewrite Hal, Hpal.
  replace (PAGESIZE * n) with (n * PAGESIZE) by lia.
  rewrite Z.mod_mul, Z.div_mul, Nat2Z.id by done. change (nz 0) with false. cbv iota.
  eapply pagemap_loop_used; try done. by rewrite <- (hw_walk_leaf _ root) by apply M.
Qed.

Lemma pagemap_used_witness :
  ∃ To fl s, mm_ok root2 To fl s ∧
    pagemap root2 0 0x40000000 0x3000 PTE_NORMAL s = Panic "this entry has been used".
Proof.
  destruct two_start as (To & fl & s & q & r & W & Hm & _ & _ & _ & Hf & Haf & _).
  exists To, fl, s. split; [exact (two_old _ _ _ _ _ _ W)|]. assert (H6 : (6 <= length fl)%nat) by lia.
  apply (pagemap_used 3 root2 0 0x40000000 0x3000 PTE_NORMAL To fl s 0x1000); try done.
  - exact (two_old _ _ _ _ _ _ W).
  - rewrite (hw_walk_leaf _ root2 To) by apply W. exact Haf.
Defined.

(** Running out of memory in [pagewalk] is not handled: with no free page
    and the level-2 table of [va] missing, [pagewalk] returns NULL, and
    [pagemap] reads and writes through it. *)
Theorem pagemap_no_memory n root va pa size attr T s :
  mm_ok root T [] s → T !! [PIDX 1 va] = None → size = PAGESIZE * S n →
  va mod PAGESIZE = 0 → pa mod PAGESIZE = 0 →
  (∃ s', pagewalk root va s = Ret 0 s') ∧ pagemap root va pa size attr s = Fault "NULL pte".
Proof.
  intros M H1 -> Hal Hpal. pose proof (mm_table _ _ _ _ M) as Hok.
  assert (W : ∃ s', pagewalk root va s = Ret 0 s').
  { pose proof (pt_entry _ _ _ Hok [] root _ (pt_root _ _ _ Hok) ltac:(simpl; lia) (PIDX_bound 1 va)) as E.
    simpl in E. rewrite H1 in E. eexists. unfold pagewalk, walk_level at 1, load64.
    rewrite pbind_assoc. prog_step. rewrite E, pbind_assoc.
    by rewrite (pbind_ok _ _ _ _ _ (kalloc_empty_run s (mm_alloc _ _ _ _ M))). }
  split; [done|]. destruct W as [s' W]. unfold pagemap. rewrite Hal, Hpal.
  replace (PAGESIZE * S n) with (S n * PAGESIZE) by lia.
  rewrite Z.mod_mul, Z.div_mul, Nat2Z.id by done. change (nz 0) with false. cbv iota.
  cbn [orb pagemap_loop]. by rewrite (pbind_ok _ _ _ _ _ W).
Qed.

Lemma pagemap_no_memory_witness :
  pagemap root1 0x1000 0x40000000 0x1000 PTE_NORMAL (start []) = Fault "NULL pte".
Proof.
  assert (M : mm_ok root1 {[ [] := root1 ]} [] (start [])).
  { apply start_ok; [constructor|constructor| |by intros ?%elem_of_nil].
    apply (bool_decide_unpack _). by vm_compute. }
  exact (proj2 (pagemap_no_memory 0 root1 0x1000 0x40000000 0x1000 PTE_NORMAL _ _ M eq_refl eq_refl eq_refl eq_refl)).
Defined.

(** [pageunmap] gives the pages of the range back and nothing else. Where
    each address of the range is mapped to a page of its own, neither free nor
    a table, it returns; the pages are then on the free list, the addresses are
    not mapped any more, any other translation and every byte outside these
    pages and the tables is as before. *)
Theorem pageunmap_correct ps root va size T fl s :
  mm_ok root T fl s → size = PAGESIZE * length ps → length ps <= NPAGE →
  0 <= va → va mod PAGESIZE = 0 → mapped (km_mem s) T va ps →
  NoDup ps → Forall (user_page T fl) ps →
  ∃ s', pageunmap root va size s = Ret tt s' ∧ mm_ok root T (reverse ps ++ fl) s' ∧
    (∀ va', 0 <= va' → hw_walk (km_mem s') root va' =
      if decide (vdist va va' < length ps) then 0 else hw_walk (km_mem s) root va') ∧
    ∀ a, ¬ in_tree T a → (∀ p, p ∈ ps → ¬ in_page p a) → rd8 (km_mem s') a = rd8 (km_mem s) a.
Proof.
  intros M -> Hn Hva Hal Hmp Hnd Hus.
  destruct (pageunmap_loop_spec ps root va T fl s M Hn Hva Hmp Hnd Hus) as (s' & E & M' & L & R).
  exists s'. split_and!; [|done| |done].
  - unfold pageunmap. rewrite Hal. replace (PAGESIZE * length ps) with (length ps * PAGESIZE) by lia.
    rewrite Z.mod_mul, Z.div_mul, Nat2Z.id by done. exact E.
  - intros va' Hva'. rewrite (hw_walk_leaf _ _ T va') by apply M'. rewrite L by done.
    by rewrite (hw_walk_leaf _ _ T va') by apply M.
Qed.

Lemma pageunmap_correct_witness :
  ∃ To fl s s' q, mm_ok root2 To fl s ∧ hw_walk (km_mem s) root2 0x1000 ≠ 0 ∧
    pageunmap root2 0x1000 0x1000 s = Ret tt s' ∧ mm_ok root2 To (q :: fl) s' ∧
    hw_walk (km_mem s') root2 0x1000 = 0.
Proof.
  destruct two_start as (To & fl & s & q & r & W & Hm & _ & Hq & _ & _ & _ & _).
  destruct (pageunmap_correct [q] root2 0x1000 0x1000 To fl s (two_old _ _ _ _ _ _ W))
    as (s' & E & M' & L & _); try done.
  - by apply NoDup_singleton.
  - by apply Forall_singleton, Hq.
  - exists To, fl, s, s', q. split; [exact (two_old _ _ _ _ _ _ W)|].
    rewrite (hw_walk_leaf _ root2 To) by apply W. split; [exact (proj1 Hm)|].
    split; [exact E|]. split; [exact M'|]. by rewrite L.
Defined.

(** [alloc_userspace] backs a range of user addresses with new, cleared
    pages. With memory for it, on a range that is not in use, it returns the
    size asked for; every byte of the range then reads as 0, through pages
    that were free, that no longer are, and no two of which are equal; other
    translations are unchanged. [memsz] must fit the [int] it is
    returned as. *)
Theorem alloc_userspace_correct root va memsz T fl s :
  mm_ok root T fl s → 0 <= memsz < 2 ^ 31 - PAGESIZE →
  (3 * page_turns 0 memsz <= length fl)%nat →
  0 <= va → va mod PAGESIZE = 0 →
  (∀ va', 0 <= va' → vdist va va' < page_turns 0 memsz →
    Z.land (hw_walk (km_mem s) root va') PTE_AF = 0) →
  ∃ ps T' fl' s', alloc_userspace root va memsz s = Ret memsz s' ∧
    mm_ok root T' fl' s' ∧ mm_ext T T' fl (km_mem s) (km_mem s') ∧
    length ps = page_turns 0 memsz ∧ NoDup ps ∧
    Forall (λ p, p ∈ fl ∧ user_page T' fl' p) ps ∧
    (∀ va', 0 <= va' → hw_walk (km_mem s') root va' =
      mapped_leaf ps PTE_USER va va' (hw_walk (km_mem s) root va')) ∧
    ∀ va', 0 <= va' → vdist va va' < page_turns 0 memsz → ubyte (km_mem s') root va' = 0.
Proof.
  intros M Hsz Hf Hva Hal Hun. pose proof (mm_table _ _ _ _ M) as Hok.
  assert (Hlt : page_turns 0 memsz < NPAGE).
  { unfold page_turns, NPAGE, PAGESIZE in *. rewrite Z2Nat.id; zlia. }
  destruct (alloc_loop_spec PTE_USER (page_turns 0 memsz) root va T fl s M Hf Hlt Hva Hal ltac:(done))
    as (ps & T' & fl' & s' & E & Hlen & M' & X & Sf & _ & D & U & F & B & L).
  { intros va' Hva' Hd. rewrite <- (hw_walk_leaf _ root) by done. by apply Hun. }
  exists ps, T', fl', s'. split_and!; try done.
  - unfold alloc_userspace. rewrite (pbind_ok _ _ _ _ _ E). rewrite i32_small; [done|].
    unfold PAGESIZE in Hsz. lia.
  - by apply Forall_and.
  - intros va' Hva'. rewrite (hw_walk_leaf _ _ T' va') by apply M'. rewrite L by done.
    by rewrite (hw_walk_leaf _ _ T va').
  - intros va' Hva' Hd. rewrite (ubyte_leaf _ _ _ _ _ M'), L by done. unfold mapped_leaf.
    pose proof (vdist_bound va va').
    destruct (ps !! Z.to_nat (vdist va va')) as [p|] eqn:Ep;
      [|apply lookup_ge_None in Ep; lia].
    apply list_elem_of_lookup_2 in Ep. pose proof (proj1 (Forall_forall _ _) U p Ep) as (Hp & _).
    rewrite leaf_pte_page by done. apply (B p); [done|]. apply page_byte, OFFSET_bound.
Qed.

Lemma alloc_userspace_correct_witness :
  ∃ s', alloc_userspace root1 0x1000 0x1234 (start free16) = Ret 0x1234 s' ∧
    ubyte (km_mem s') root1 0x2fff = 0.
Proof.
  pose proof (start_ok1 root1 (or_introl eq_refl)) as M.
  destruct (alloc_userspace_correct root1 0x1000 0x1234 _ _ _ M)
    as (ps & T' & fl' & s' & E & _ & _ & _ & _ & _ & _ & Z);
    [done|change (length free16) with 16%nat; change (page_turns 0 0x1234) with 2%nat; lia|done|done| |].
  - intros va' _ _. rewrite (hw_walk_leaf _ _ _ va' (mm_table _ _ _ _ M)). by rewrite start_leaf.
  - exists s'. split; [exact E|]. by apply Z.
Defined.

(** C7: [cp_userspace] makes an independent copy of an address space. Given a
    parent with pages [qs] from [va] on and a stack page, a child table with
    nothing mapped there, and memory for it, it returns 0; the child then reads
    at each of these addresses the byte the parent reads there, from a page
    that was free; the parent's translations are what they were, and so are
    the bytes it reads. *)
Theorem cp_userspace_correct rnew rold va size qs q Tn To fl s :
  two_ok rnew rold Tn To fl s → page_turns 0 size = length qs →
  (3 * (length qs + 1) <= length fl)%nat → length qs < NPAGE →
  0 <= va → va mod PAGESIZE = 0 → length qs <= vdist va USTACKBOTTOM →
  mapped (km_mem s) To va qs → mapped (km_mem s) To USTACKBOTTOM [q] →
  Forall (old_page Tn To fl) (q :: qs) →
  (∀ va', 0 <= va' → vdist va va' < length qs ∨ vdist USTACKBOTTOM va' = 0 →
    Z.land (hw_walk (km_mem s) rnew va') PTE_AF = 0) →
  ∃ Tn' fl' s', cp_userspace rnew rold va size s = Ret 0 s' ∧
    two_ok rnew rold Tn' To fl' s' ∧
    (∀ va', 0 <= va' → vdist va va' < length qs ∨ vdist USTACKBOTTOM va' = 0 →
      ubyte (km_mem s') rnew va' = ubyte (km_mem s) rold va' ∧
      ubyte (km_mem s') rold va' = ubyte (km_mem s) rold va' ∧
      P2V (PTE_PA (hw_walk (km_mem s') rnew va')) ∈ fl) ∧
    ∀ va', hw_walk (km_mem s') rold va' = hw_walk (km_mem s) rold va'.
Proof.
  intros W Hsz Hf Hn Hva Hal Hst Hmp [Hl [Hq _]] Hold Hun.
  apply Forall_cons in Hold as [Hq0 Hold].
  assert (Hun' : ∀ va', 0 <= va' → vdist va va' < length qs ∨ vdist USTACKBOTTOM va' = 0 →
    Z.land (leaf (km_mem s) Tn va') PTE_AF = 0).
  { intros va' Hva' Hd. rewrite <- (hw_walk_leaf _ rnew) by apply W. by apply Hun. }
  destruct (cp_loop_spec rnew rold qs va Tn To fl s W ltac:(lia) Hn Hva Hal Hmp Hold)
    as (ps & T1 & fl1 & s1 & E1 & W1 & X1 & S1 & N1 & D1 & U1 & B1 & Lo1 & L1).
  { intros. apply Hun'; auto. }
  destruct fl1 as [|p fl1]; [simpl in N1; lia|]. simpl in N1.
  assert (Hus : 0 <= USTACKBOTTOM ∧ USTACKBOTTOM mod PAGESIZE = 0) by done.
  assert (Hq1 : old_page T1 To (p :: fl1) q) by (by eapply old_page_next).
  assert (Hf2 : (2 <= length fl1)%nat) by lia.
  pose proof (Forall2_length _ _ _ B1) as Hlen.
  destruct (cp_page_spec rnew rold USTACKBOTTOM q PTE_USER_XN T1 To fl1 p s1 W1 Hf2)
    as (T2 & fl2 & s2 & E2 & W2 & X2 & S2 & N2 & U2 & B2 & Lo2 & L2);
    [apply Hus|apply Hus|done|by rewrite Lo1|by rewrite Lo1|done| |].
  { rewrite L1 by apply Hus. unfold mapped_leaf. rewrite lookup_ge_None_2 by lia.
    apply Hun'; [apply Hus|]. right. by apply vdist_0. }
  assert (S2' : suffix fl2 (p :: fl1)) by by apply suffix_cons_r.
  exists T2, fl2, s2. split_and!; [|done| |].
  - unfold cp_userspace. rewrite Hsz, (pbind_ok _ _ _ _ _ E1). cbn [negb].
    by rewrite (pbind_ok _ _ _ _ _ E2).
  - intros va' Hva' Hd.
    rewrite (hw_walk_leaf _ rnew T2) by apply W2. rewrite !(ubyte_leaf _ _ _ s2) by apply W2.
    rewrite (ubyte_leaf rold To fl s va') by apply W. rewrite L2, Lo2, Lo1, L1 by done.
    assert (C : copied To (km_mem s) (km_mem s2) Tn fl T2 fl2
        (if decide (vpage va' = vpage USTACKBOTTOM) then leaf_pte (V2P p) PTE_USER_XN
         else mapped_leaf ps PTE_USER va va' (leaf (km_mem s) Tn va')) va').
    { destruct (decide (vpage va' = vpage USTACKBOTTOM)) as [E|E].
      - eapply (copied_page rnew rold To va' q Tn T1 T2 fl fl1 fl2 p s s1 s2); try done.
        apply (mapped_lookup _ _ USTACKBOTTOM va' [q] 0 q); [apply Hus|done|by apply vdist_0|done|done].
      - destruct Hd as [Hd|Hd]; [|by apply vdist_0 in Hd].
        eapply copied_next; [exact S2'|exact W1|exact X2|].
        by eapply copied_range. }
    split_and!; [apply C, OFFSET_bound| |by apply C].
    eapply copied_old; [exact S1|exact W|exact W1|exact X1|exact X2|exact C].
  - intros va'. rewrite (hw_walk_leaf _ rold To) by apply W2.
    by rewrite (hw_walk_leaf _ rold To), Lo2, Lo1 by apply W.
Qed.

Lemma cp_userspace_correct_witness :
  ∃ To Tn' fl s s' fl', two_ok root1 root2 {[ [] := root1 ]} To fl s ∧
    cp_userspace root1 root2 0x1000 0x1000 s = Ret 0 s' ∧ two_ok root1 root2 Tn' To fl' s'.
Proof.
  destruct two_start as (To & fl & s & q & r & W & Hm & Hs & Hq & Hr & Hf & _ & H0 & _).
  assert (H6 : (6 <= length fl)%nat) by lia.
  destruct (cp_userspace_correct root1 root2 0x1000 0x1000 [q] r _ To fl s W)
    as (Tn' & fl' & s' & E & W' & _); try done.
  - repeat (apply Forall_cons; split); [done|done|constructor].
  - intros va' _ _. rewrite (hw_walk_leaf _ root1 {[ [] := root1 ]}) by apply W. by rewrite H0.
  - exists To, Tn', fl, s, s', fl'. split; [exact W|]. split; [exact E|exact W'].
Defined.

End PageProps.
