(* ===== verification/Reclaim.v ===== *)
(** * Address spaces given back (free_table and free_userspace of kernel/mm.c)

    The tables of an address space are a tree in memory; [free_table] visits
    it depth first and frees each table after its entries.  The definitions are
    in PageTable; here is what they do. *)

From S2P Require Import Prelude Mem KString Spinlock Layout Kalloc PageTable.
Import Spin.
Open Scope Z_scope.
Open Scope prog_scope.

Section reclaim.
Context (T : tree).
Implicit Types (s : kmem) (m : mem) (fl l : list Z) (π : list Z) (p q i j : Z).

Context (Tpage : ∀ π p, T !! π = Some p → page_ok p ∧ (length π <= 2)%nat).
Context (Tinj : ∀ π π' p, T !! π = Some p → T !! π' = Some p → π = π').
Context (Tclosed : ∀ π i q, T !! (π ++ [i]) = Some q → is_Some (T !! π) ∧ 0 <= i < 512).

(** The pages of the tree from the table at [π] down. *)
Definition below π p : Prop := ∃ π', T !! (π ++ π') = Some p.

(** [free_table] passes over the entry [v]. *)
Definition passed (v : Z) : Prop := is_table v && negb (nz (Z.land v PTE_AF)) = false.

Definition entry_ok m π p i : Prop :=
  match T !! (π ++ [i]) with
  | Some q => ld64 m (p + 8 * i) = table_pte q
  | None => passed (ld64 m (p + 8 * i))
  end.
Definition sub_ok m π : Prop := ∀ π' p i, T !! (π ++ π') = Some p → 0 <= i < 512 → entry_ok m (π ++ π') p i.

Lemma table_pte_visited q : page_ok q → is_table (table_pte q) && negb (nz (Z.land (table_pte q) PTE_AF)) = true.
Proof.
  intros Hq. rewrite is_table_pte by done. rewrite table_pte_eq, V2P_page by done.
  assert (E : Z.land (q - VA_START + 3) PTE_AF = 0); [|by rewrite E].
  apply Z.bits_inj'. intros k Hk. rewrite Z.land_spec, Z.bits_0. unfold PTE_AF.
  rewrite Z.shiftl_spec by done. destruct (decide (k = 10)) as [->|].
  - rewrite andb_false_iff. left. rewrite Z.testbit_false by done. destruct Hq as [_ Hq]. revert Hq.
    unfold_layout. intros. change (2 ^ 10) with 1024. zlia.
  - rewrite andb_false_iff. right. destruct (decide (k < 10)); [by rewrite Z.testbit_neg_r by lia|].
    apply Z.bits_above_log2; [done|]. change (Z.log2 1) with 0. lia.
Qed.

Lemma entry_ok_ext m m' π p i :
  (∀ a, p + 8 * i <= a < p + 8 * i + 8%nat → rd8 m' a = rd8 m a) → entry_ok m π p i → entry_ok m' π p i.
Proof.
  intros Hm. unfold entry_ok. replace (ld64 m' (p + 8 * i)) with (ld64 m (p + 8 * i)); [done|].
  apply ld_ext. intros a Ha. symmetry. by apply Hm.
Qed.

Lemma sub_ok_ext m m' π :
  (∀ a p, below π p → in_page p a → rd8 m' a = rd8 m a) → sub_ok m π → sub_ok m' π.
Proof.
  intros Hm H π' p i Hp Hi. eapply entry_ok_ext; [|by apply H].
  intros a Ha. apply (Hm a p); [by exists π'|]. by eapply slot_in_page.
Qed.

Lemma sub_ok_child m π i : sub_ok m π → sub_ok m (π ++ [i]).
Proof. intros H π' p j Hp Hj. rewrite <- app_assoc in *. by apply H. Qed.

Lemma below_page π p : below π p → page_ok p.
Proof. intros [π' H]. by apply Tpage in H as [? _]. Qed.

(** Two pages of the tree that are not the same share no byte. *)
Lemma below_disj π π' p q a : T !! π = Some p → T !! π' = Some q → π ≠ π' → in_page p a → ¬ in_page q a.
Proof.
  intros Hp Hq Hne Ha Hb. apply Hne. apply (Tinj _ _ q); [|done].
  by rewrite <- (page_disjoint p q a) by (done || apply (Tpage _ _ Hp) || apply (Tpage _ _ Hq)).
Qed.

(** What a call that frees the pages [l] leaves. *)
Record freed l fl s s' : Prop := {
  fr_inv : kinv (l ++ fl) s';
  fr_rest : ∀ a, (∀ p, p ∈ l → ¬ in_page p a) → rd8 (km_mem s') a = rd8 (km_mem s) a
}.

Definition frees (m : prog kmem unit) (P : Z → Prop) s fl : Prop :=
  ∃ l s', m s = Ret tt s' ∧ freed l fl s s' ∧ ∀ p, p ∈ l ↔ P p.

(** A word stored in a page that is not free. *)
Lemma store_table p i v fl s :
  kinv fl s → page_ok p → ¬ (p ∈ fl) → 0 <= i < 512 →
  ∃ s', store64 (p + 8 * i) v s = Ret tt s' ∧ kinv fl s' ∧ km_hart s' = km_hart s ∧
    ∀ a, ¬ (p + 8 * i <= a < p + 8 * i + 8%nat) → rd8 (km_mem s') a = rd8 (km_mem s) a.
Proof.
  intros I Hp Hn Hi. eexists. split; [done|].
  assert (Hm : ∀ a, ¬ (p + 8 * i <= a < p + 8 * i + 8%nat) → rd8 (st64 (km_mem s) (p + 8 * i) v) a = rd8 (km_mem s) a).
  { intros a Ha. by apply rd8_st_other. }
  split_and!; [|done|exact Hm]. apply (kinv_mem fl s _ I). intros q a Hq Ha. apply Hm. intros Hb%slot_in_page; [|done].
  revert Hb. eapply fresh_page_disj; [exact Hp|apply I|exact Hn|exact Hq|exact Ha].
Qed.

Lemma below_some π p : below π p → is_Some (T !! π).
Proof.
  intros [π' H]. revert p H. induction π' as [|i π' IH] using rev_ind; intros p H.
  - rewrite app_nil_r in H. by eexists.
  - rewrite app_assoc in H. apply Tclosed in H as [[q Hq] _]. by apply (IH q).
Qed.

Lemma below_table π i p : T !! (π ++ [i]) = Some p → below (π ++ [i]) p.
Proof. intros H. exists []. by rewrite app_nil_r. Qed.

(** The loop over the entries [i], [i+1], ... of the table [p] at [π]. *)
Lemma free_entries_spec rec (n : nat) i p π fl s :
  (∀ j q fl s, T !! (π ++ [j]) = Some q → sub_ok (km_mem s) (π ++ [j]) → kinv fl s →
     (∀ r, below (π ++ [j]) r → ¬ (r ∈ fl)) → frees (rec q) (below (π ++ [j])) s fl) →
  T !! π = Some p → i + n = 512 → 0 <= i → kinv fl s → ¬ (p ∈ fl) →
  (∀ j, i <= j < 512 → entry_ok (km_mem s) π p j ∧ sub_ok (km_mem s) (π ++ [j]) ∧
     ∀ r, below (π ++ [j]) r → ¬ (r ∈ fl)) →
  ∃ l s', free_entries rec n i p s = Ret tt s' ∧ kinv (l ++ fl) s' ∧
    (∀ q, q ∈ l ↔ ∃ j, i <= j < 512 ∧ below (π ++ [j]) q) ∧
    ∀ a, ¬ in_page p a → (∀ q, q ∈ l → ¬ in_page q a) → rd8 (km_mem s') a = rd8 (km_mem s) a.
Proof.
  intros Hrec HT. pose proof (proj1 (Tpage _ _ HT)) as Hp.
  revert i fl s. induction n as [|n IH]; intros i fl s Hin Hi I Hn Hok.
  { exists [], s. split_and!; [done|done| |done]. intros q. split; [by intros ?%elem_of_nil|]. intros (j & ? & _). lia. }
  destruct (Hok i ltac:(lia)) as (He & Hsub & Hdis). unfold entry_ok in He.
  assert (Hother : ∀ j r a, i < j → below (π ++ [j]) r → in_page r a →
    ¬ in_page p a ∧ ∀ q, below (π ++ [i]) q → ¬ in_page q a).
  { intros j r a Hj [π1 Hr] Ha. rewrite <- app_assoc in Hr. simpl in Hr. split.
    - intros Hb. apply (below_disj _ _ _ _ a HT Hr); [|done|done].
      intros E. apply (f_equal length) in E. rewrite length_app in E. simpl in E. lia.
    - intros q [π2 Hq] Hb. rewrite <- app_assoc in Hq. simpl in Hq.
      apply (below_disj _ _ _ _ a Hr Hq); [|done|done]. intros E. apply app_inv_head in E. injection E. lia. }
  destruct (T !! (π ++ [i])) as [q|] eqn:Eq.
  - pose proof (proj1 (Tpage _ _ Eq)) as Hq.
    destruct (Hrec i q fl s Eq Hsub I Hdis) as (l1 & s1 & E1 & [I1 R1] & M1).
    assert (Hn1 : ¬ (p ∈ l1 ++ fl)).
    { intros [[π1 Hx]%M1|Hx]%elem_of_app; [|done]. pose proof (Tinj _ _ _ HT Hx) as E.
      apply (f_equal length) in E. rewrite !length_app in E. simpl in E. lia. }
    destruct (store_table p i 0 (l1 ++ fl) s1 I1 Hp Hn1 ltac:(lia)) as (s2 & E2 & I2 & _ & R2).
    assert (Hp2 : ∀ a, in_page p a → ¬ (p + 8 * i <= a < p + 8 * i + 8%nat) → rd8 (km_mem s2) a = rd8 (km_mem s) a).
    { intros a Ha Hb. rewrite R2 by done. apply R1. intros x [π1 Hx]%M1.
      apply (below_disj _ _ _ _ a HT Hx); [|done]. intros E. apply (f_equal length) in E.
      rewrite !length_app in E. simpl in E. lia. }
    destruct (IH (i + 1) (l1 ++ fl) s2) as (l & s3 & E3 & I3 & M3 & R3); [lia|lia|done|done| |].
    { intros j Hj. destruct (Hok j ltac:(lia)) as (He' & Hs' & Hd'). split_and!.
      - eapply entry_ok_ext; [|exact He']. intros a Ha. apply Hp2; [by apply (slot_in_page p j); [lia|]|lia].
      - eapply sub_ok_ext; [|exact Hs']. intros a r Hr Ha. destruct (Hother j r a ltac:(lia) Hr Ha) as [A B].
        rewrite R2; [|intros Hb%slot_in_page; [done|lia]]. apply R1. intros x Hx%M1. by apply B.
      - intros r Hr [Hx%M1|Hx]%elem_of_app; [|by eapply Hd'].
        pose proof (below_page _ _ Hr) as Hpr. destruct (Hother j r r ltac:(lia) Hr) as [_ B].
        + unfold in_page, PAGESIZE. lia.
        + apply (B r Hx). unfold in_page, PAGESIZE. lia. }
    exists (l ++ l1), s3. split_and!.
    + cbn [free_entries]. unfold load64 at 1. prog_step. rewrite He, (table_pte_visited q Hq), table_pte_addr by done.
      prog_step. rewrite (pbind_ok _ _ _ _ _ E1). by rewrite (pbind_ok _ _ _ _ _ E2).
    + by rewrite <- app_assoc.
    + intros r. rewrite elem_of_app, M3, M1. split.
      * intros [(j & ? & ?)|?]; [exists j; split; [lia|done]|exists i; split; [lia|done]].
      * intros (j & ? & Hr). destruct (decide (j = i)) as [->|]; [by right|left; exists j; split; [lia|done]].
    + intros a Ha Hl. rewrite R3, R2, R1; [done|intros..]; try done.
      * apply Hl, elem_of_app. by right.
      * intros Hb%slot_in_page; [done|lia].
      * apply Hl, elem_of_app. by left.
  - destruct (IH (i + 1) fl s) as (l & s3 & E3 & I3 & M3 & R3); [lia|lia|done|done|intros; apply Hok; lia|].
    exists l, s3. split_and!; [|done| |done].
    + cbn [free_entries]. unfold load64 at 1. prog_step. unfold passed in He. by rewrite He.
    + intros r. rewrite M3. split; intros (j & ? & Hr); exists j; split; try done; [lia|].
      destruct (decide (j = i)) as [->|]; [|lia]. apply below_some in Hr as [x Hx]. congruence.
Qed.

(** [free_table] of the table at [π] frees the tables from there down. *)
Lemma free_table_spec fuel π p fl s :
  T !! π = Some p → (length π + fuel = 3)%nat → sub_ok (km_mem s) π → kinv fl s →
  (∀ r, below π r → ¬ (r ∈ fl)) → frees (free_table fuel p) (below π) s fl.
Proof.
  revert π p fl s. induction fuel as [|fuel IH]; intros π p fl s HT Hl Hsub I Hd.
  { pose proof (Tpage _ _ HT). lia. }
  pose proof (proj1 (Tpage _ _ HT)) as Hp.
  assert (Hself : below π p) by (exists []; by rewrite app_nil_r).
  assert (Hc : ∀ j r, below (π ++ [j]) r → below π r) by (intros j r [π1 H]; rewrite <- app_assoc in H; by eexists).
  destruct (free_entries_spec (free_table fuel) 512 0 p π fl s) as (l & s1 & E1 & I1 & M1 & R1); try done.
  - intros j q fl' s' Hq Hs' I' Hd'. apply IH; [done| |done|done|done]. rewrite length_app. simpl. lia.
  - by apply Hd.
  - intros j Hj. split_and!; [|by apply sub_ok_child|intros r Hr; by eapply Hd, Hc].
    specialize (Hsub [] p j). rewrite app_nil_r in Hsub. by apply Hsub.
  - assert (Hnp : ¬ (p ∈ l ++ fl)).
    { intros [(j & _ & π1 & Hx)%M1|Hx]%elem_of_app; [|by apply (Hd p)]. pose proof (Tinj _ _ _ HT Hx) as E.
      apply (f_equal length) in E. rewrite !length_app in E. simpl in E. lia. }
    destruct (kfree_spec p (l ++ fl) s1 I1 Hp Hnp) as (s2 & E2 & I2 & _ & R2).
    exists (p :: l), s2. split_and!.
    + cbn [free_table]. by rewrite (pbind_ok _ _ _ _ _ E1).
    + split; [done|]. intros a Ha. rewrite R2, R1; [done|apply Ha; by constructor|..].
      * intros q Hq. apply Ha. by constructor.
      * apply Ha. by constructor.
    + intros q. rewrite elem_of_cons, M1. split.
      * intros [->|(j & _ & Hj)]; [done|by eapply Hc].
      * intros [π1 Hq]. destruct π1 as [|j π1].
        -- rewrite app_nil_r in Hq. left. congruence.
        -- right. exists j. assert (Hb : below (π ++ [j]) q) by (exists π1; by rewrite <- app_assoc).
           split; [|done]. apply below_some in Hb as [x Hx]. by apply Tclosed in Hx as [_ ?].
Qed.
End reclaim.

Lemma address_of i1 i2 i3 :
  0 <= i1 < 512 → 0 <= i2 < 512 → 0 <= i3 < 512 →
  ∃ va, 0 <= va ∧ PIDX 1 va = i1 ∧ PIDX 2 va = i2 ∧ PIDX 3 va = i3.
Proof.
  intros. exists (i1 * 2 ^ 30 + i2 * 2 ^ 21 + i3 * 2 ^ 12). rewrite !PIDX_eq by lia.
  change (39 - 1 * 9) with 30. change (39 - 2 * 9) with 21. change (39 - 3 * 9) with 12.
  split_and!; zlia.
Qed.

(** Tables without mappings are entries that [free_table] follows or passes over. *)
Lemma unmapped_sub_ok root T m :
  pt_ok m root T → (∀ va, 0 <= va → leaf m T va = 0) → sub_ok T m [].
Proof.
  intros Hok Hz π p i Hp Hi. simpl in *. unfold entry_ok, passed. pose proof (pt_page _ _ _ Hok _ _ Hp) as [_ Hl].
  destruct (decide (length π < 2)%nat) as [Hlt|Hge].
  - pose proof (pt_entry _ _ _ Hok π p i Hp Hlt Hi) as E. destruct (T !! (π ++ [i])); [done|]. by rewrite E.
  - destruct (T !! (π ++ [i])) as [q|] eqn:Eq.
    { pose proof (proj2 (pt_page _ _ _ Hok _ _ Eq)) as X. rewrite length_app in X. simpl in X. lia. }
    destruct π as [|i1 [|i2 [|]]]; simpl in *; try lia.
    pose proof (pt_closed _ _ _ Hok [i1] i2 p Hp) as [[q Hq] H2]. pose proof (pt_closed _ _ _ Hok [] i1 q Hq) as [_ H1].
    destruct (address_of i1 i2 i H1 H2 Hi) as (va & Hva & P1 & P2 & P3).
    specialize (Hz va Hva). unfold leaf in Hz. rewrite P1, P2, P3, Hp in Hz. by rewrite Hz.
Qed.

(** The whole of an address space. *)
Record space (root : Z) (T : tree) (fl : list Z) (qs : list Z) (q : Z) (m : mem) : Prop := {
  sp_prog : mapped m T 0x1000 qs;
  sp_stack : mapped m T USTACKBOTTOM [q];
  sp_pages : Forall (user_page T fl) (q :: qs);
  sp_nodup : NoDup (q :: qs);
  sp_fits : length qs <= vdist 0x1000 USTACKBOTTOM;
  sp_only : ∀ va, 0 <= va → ¬ (vdist 0x1000 va < length qs) → vdist USTACKBOTTOM va ≠ 0 → hw_walk m root va = 0
}.

Lemma free_userspace_spec root T fl qs q size s :
  mm_ok root T fl s → space root T fl qs q (km_mem s) → PAGEROUNDUP size = PAGESIZE * length qs →
  ∃ fl' s', free_userspace root size s = Ret tt s' ∧ kinv fl' s' ∧
    (∀ p, p ∈ fl' ↔ p ∈ fl ∨ p ∈ q :: qs ∨ ∃ π, T !! π = Some p) ∧
    ∀ a, (∀ p, p ∈ q :: qs ∨ (∃ π, T !! π = Some p) → ¬ in_page p a) → rd8 (km_mem s') a = rd8 (km_mem s) a.
Proof.
  intros M [Hmp Hst Hus Hnd Hfit Honly] Hsz.
  apply Forall_cons in Hus as [Hq Hqs]. apply NoDup_cons in Hnd as [Hnq Hnd].
  assert (Hn : length qs <= NPAGE) by (pose proof (vdist_bound 0x1000 USTACKBOTTOM); lia).
  destruct (pageunmap_loop_spec qs root 0x1000 T fl s M Hn ltac:(lia) Hmp Hnd Hqs) as (s1 & E1 & M1 & L1 & R1).
  assert (Hst1 : mapped (km_mem s1) T USTACKBOTTOM [q]).
  { eapply (mapped_ext (km_mem s)); [done| |by vm_compute|exact Hst].
    intros va Hva Hd. rewrite L1 by done. apply decide_False. simpl in Hd.
    assert (Ev : vpage va = vpage USTACKBOTTOM) by (apply vdist_0; pose proof (vdist_bound USTACKBOTTOM va); lia).
    unfold vdist in *. rewrite Ev. lia. }
  assert (Hq1 : Forall (user_page T (reverse qs ++ fl)) [q]).
  { apply Forall_singleton. destruct Hq as (A & B & D). split_and!; [done| |done].
    rewrite elem_of_app, elem_of_reverse. by intros [?|?]. }
  destruct (pageunmap_loop_spec [q] root USTACKBOTTOM T (reverse qs ++ fl) s1 M1) as (s2 & E2 & M2 & L2 & R2);
    [by vm_compute|done|done|by apply NoDup_singleton|done|].
  change (reverse [q] ++ reverse qs ++ fl) with (q :: reverse qs ++ fl) in M2.
  assert (Hz : ∀ va, 0 <= va → leaf (km_mem s2) T va = 0).
  { intros va Hva. rewrite L2 by done. case_decide as Hd2; [done|]. rewrite L1 by done. case_decide as Hd1; [done|].
    rewrite <- (hw_walk_leaf _ root) by apply M. apply Honly; [done|done|].
    intros E. apply Hd2. rewrite E. simpl. lia. }
  destruct M2 as [I2 P2 D2].
  destruct (free_table_spec T (pt_page _ _ _ P2) (pt_inj _ _ _ P2) (pt_closed _ _ _ P2) 3 [] root
    (q :: reverse qs ++ fl) s2 (pt_root _ _ _ P2) eq_refl (unmapped_sub_ok root T _ P2 Hz) I2) as (l & s3 & E3 & [I3 R3] & M3).
  { intros r [π Hr] Hin. by apply (D2 π r). }
  exists (l ++ q :: reverse qs ++ fl), s3. split_and!.
  - unfold free_userspace, pageunmap. rewrite Hsz.
    replace (PAGESIZE * length qs) with (length qs * PAGESIZE) by lia.
    rewrite Z.mod_mul, Z.div_mul, Nat2Z.id by done. change (nz (0x1000 mod PAGESIZE) || nz 0) with false. cbv iota.
    rewrite (pbind_ok _ _ _ _ _ E1). change (Z.to_nat (PAGESIZE / PAGESIZE)) with 1%nat. change (length [q]) with 1%nat in E2.
    change (nz (USTACKBOTTOM mod PAGESIZE) || nz (PAGESIZE mod PAGESIZE)) with false. cbv iota.
    by rewrite (pbind_ok _ _ _ _ _ E2).
  - done.
  - intros p. rewrite elem_of_app, M3, elem_of_cons, elem_of_app, elem_of_reverse, elem_of_cons. unfold below. simpl.
    tauto.
  - intros a Ha. rewrite R3, R2, R1; [done|..].
    + intros (π & p & Hp & Hin). apply (Ha p); [right; by exists π|done].
    + intros p Hp. apply Ha. left. by constructor.
    + intros (π & p & Hp & Hin). apply (Ha p); [right; by exists π|done].
    + intros p ->%list_elem_of_singleton. apply Ha. left. by constructor.
    + intros p Hp. apply Ha. right. by apply M3.
Qed.

(** An address space of one page and a stack, beside the page [root1]. *)
Lemma two_space_beside : ∃ T fl s q r, mm_ok root2 T fl s ∧ space root2 T fl [q] r (km_mem s) ∧
  (8 <= length fl)%nat ∧ user_page T fl root1.
Proof.
  destruct two_start as (To & fl & s & q & r & W & Hm & Hs & Hq & Hr & H8 & _ & _ & Hqr & Hl).
  pose proof (two_old _ _ _ _ _ _ W) as M. exists To, fl, s, q, r. split; [done|]. split; [split; [done|done| | |by vm_compute|]|split; [done|]].
  - apply Forall_cons; split; [apply Hr|]. apply Forall_singleton, Hq.
  - apply NoDup_cons; split; [|apply NoDup_singleton]. by intros ->%list_elem_of_singleton.
  - intros va Hva H1 H2. rewrite (hw_walk_leaf _ root2 To) by apply M. rewrite Hl by done.
    pose proof (vdist_bound USTACKBOTTOM va). pose proof (vdist_bound 0x1000 va). simpl in H1.
    unfold mapped_leaf. rewrite !lookup_ge_None_2; [done|simpl; lia|simpl; lia].
  - pose proof (two_new _ _ _ _ _ _ W) as N. split_and!; [by vm_compute| |].
    + intros Hf. by apply (mm_disj _ _ _ _ N [] root1 (lookup_singleton_eq _ _)).
    + intros π Hπ. exact (two_disj _ _ _ _ _ _ W [] π root1 (lookup_singleton_eq _ _) Hπ).
Qed.

Lemma two_space : ∃ T fl s q r, mm_ok root2 T fl s ∧ space root2 T fl [q] r (km_mem s).
Proof. destruct two_space_beside as (T & fl & s & q & r & M & Sp & _). by exists T, fl, s, q, r. Qed.

Module ReclaimProps.

(** C25: [free_userspace] leaks nothing: for an address space whose only
    mappings are the program's pages and the stack page it returns, and the free
    list then holds, each page once, exactly what it held before together with
    the mapped pages and the pages of all the tables, the root included; no byte
    of any other page has changed. *)
Theorem free_userspace_correct root T fl qs q size s :
  mm_ok root T fl s → space root T fl qs q (km_mem s) → PAGEROUNDUP size = PAGESIZE * length qs →
  ∃ fl' s', free_userspace root size s = Ret tt s' ∧ kinv fl' s' ∧
    (∀ p, p ∈ fl' ↔ p ∈ fl ∨ p ∈ q :: qs ∨ ∃ π, T !! π = Some p) ∧
    ∀ a, (∀ p, p ∈ q :: qs ∨ (∃ π, T !! π = Some p) → ¬ in_page p a) → rd8 (km_mem s') a = rd8 (km_mem s) a.
Proof. apply free_userspace_spec. Qed.

Lemma free_userspace_correct_witness :
  ∃ T fl qs q s, mm_ok root2 T fl s ∧ space root2 T fl qs q (km_mem s) ∧
    ∃ fl' s', free_userspace root2 0x800 s = Ret tt s' ∧ kinv fl' s' ∧ root2 ∈ fl'.
Proof.
  destruct two_space as (To & fl & s & q & r & M & Hsp).
  destruct (free_userspace_correct root2 To fl [q] r 0x800 s M Hsp) as (fl' & s' & E & I & Hfl & _); [by vm_compute|].
  exists To, fl, [q], r, s. split; [exact M|]. split; [exact Hsp|]. exists fl', s'. split; [exact E|]. split; [exact I|].
  apply Hfl. right; right. exists []. apply (pt_root _ _ _ (mm_table _ _ _ _ M)).
Defined.

End ReclaimProps.
