(* ===== verification/KernelMap.v ===== *)
(** * The kernel's own address space at boot (kernel/main.c, [kpgt_init] of kernel/mm.c)

    boot.S leaves a root table, two level-2 tables and no level-3 table.
    [kalloc_init1] frees the pages between the image and the next 2 MB boundary,
    [kpgt_init] maps all of RAM page by page and takes its level-3 tables from
    these pages, and [kalloc_init2] frees the rest.  One level-3 table serves
    2 MB, so that 128 pages are needed: this file shows that they are enough,
    and what happens otherwise. *)

From S2P Require Import Prelude Mem KString Spinlock Layout Kalloc PageTable.
Import Spin.
Open Scope Z_scope.
Open Scope prog_scope.

(** The number of level-3 tables that the addresses from [KERNBASE] up to [va] need. *)
Definition l3_upto (va : Z) : Z := (va - KERNBASE + (SECTIONSIZE - 1)) / SECTIONSIZE.

(** The level-2 table of RAM is there, and the first [q] of its level-3 tables. *)
Definition l3_made (T : tree) (q : Z) : Prop :=
  is_Some (T !! [1]) ∧ ∀ k, 0 <= k < 512 → (is_Some (T !! [1; k]) ↔ k < q).

Section ram.
Implicit Types (s : kmem) (va pa attr : Z) (T : tree) (fl : list Z) (n : nat).

Lemma ram_index va : KERNBASE <= va < PHYMEMEND →
  PIDX 1 va = 1 ∧ PIDX 2 va = (va - KERNBASE) / SECTIONSIZE ∧ 0 <= PIDX 2 va < 128.
Proof.
  intros Hva. rewrite !PIDX_eq by lia. change (39 - 1 * 9) with 30. change (39 - 2 * 9) with 21.
  unfold SECTIONSIZE. revert Hva. unfold_layout. intros. zlia.
Qed.

Lemma l3_upto_bound va : KERNBASE <= va <= PHYMEMEND → 0 <= l3_upto va <= 128.
Proof. unfold l3_upto, SECTIONSIZE. unfold_layout. intros. zlia. Qed.

(** The table of [va] is the last one made, or the next one. *)
Lemma l3_upto_next va : KERNBASE <= va < PHYMEMEND → va mod PAGESIZE = 0 →
  l3_upto (va + PAGESIZE) = PIDX 2 va + 1 ∧ PIDX 2 va <= l3_upto va <= PIDX 2 va + 1.
Proof.
  intros Hva Ha. destruct (ram_index va Hva) as (_ & -> & _). unfold l3_upto, SECTIONSIZE.
  revert Hva Ha. unfold_layout. intros. zlia.
Qed.

Lemma l3_upto_mono va va' : va <= va' → l3_upto va <= l3_upto va'.
Proof. unfold l3_upto, SECTIONSIZE. intros. apply Z.div_le_mono; lia. Qed.

(** The walk to the next page takes a table when one begins, and only then. *)
Lemma ram_walk va root T fl s :
  mm_ok root T fl s → KERNBASE <= va < PHYMEMEND → va mod PAGESIZE = 0 → l3_made T (l3_upto va) →
  l3_upto (va + PAGESIZE) - l3_upto va <= length fl →
  ∃ p3 T' fl' s', pagewalk root va s = Ret (p3 + 8 * PIDX 3 va) s' ∧
    T' !! [PIDX 1 va; PIDX 2 va] = Some p3 ∧ mm_ok root T' fl' s' ∧
    mm_same T T' fl (km_mem s) (km_mem s') ∧ suffix fl' fl ∧
    Z.of_nat (length fl) = length fl' + (l3_upto (va + PAGESIZE) - l3_upto va) ∧ l3_made T' (l3_upto (va + PAGESIZE)).
Proof.
  intros M Hva Ha Hmade Hf. pose proof Hmade as [[l2 H2] H3]. destruct (ram_index va Hva) as (E1 & _ & Hk).
  destruct (l3_upto_next va Hva Ha) as [En Hq]. pose proof (H3 (PIDX 2 va) ltac:(lia)) as Hx.
  destruct (T !! [1; PIDX 2 va]) as [p3|] eqn:E3.
  - assert (l3_upto va = PIDX 2 va + 1) as Eq by (apply proj1 in Hx; specialize (Hx (mk_is_Some _ _ eq_refl)); lia).
    rewrite En, <- Eq. exists p3, T, fl, s. rewrite E1. split_and!; try done.
    + rewrite <- E1 in E3. by eapply pagewalk_found.
    + apply mm_same_refl.
    + lia.
  - assert (l3_upto va = PIDX 2 va) as Eq by (destruct (decide (PIDX 2 va < l3_upto va)) as [Hlt|]; [apply Hx in Hlt as [? ?]; done|lia]).
    rewrite En, Eq in *. destruct fl as [|q fl]; [cbn in Hf; lia|].
    pose proof (mm_table _ _ _ _ M) as Hok. rewrite <- E1 in H2, E3.
    destruct (walk_level_new 2 [PIDX 1 va] l2 va q root T fl s M H2 ltac:(simpl; lia) E3) as (s' & W & M' & S').
    exists q, (<[[PIDX 1 va; PIDX 2 va] := q]> T), fl, s'. split_and!; try done.
    + unfold pagewalk.
      rewrite (pbind_ok _ _ _ _ _ (walk_level_found 1 [] root va l2 _ _ _ _ M (pt_root _ _ _ Hok) ltac:(simpl; lia) H2)).
      by rewrite (pbind_ok _ _ _ _ _ W).
    + apply lookup_insert_eq.
    + by apply suffix_cons_r.
    + cbn [length]. lia.
    + rewrite E1. split.
      * rewrite lookup_insert_ne by done. rewrite <- E1. by exists l2.
      * intros k Hk'. rewrite lookup_insert. case_decide as Ek.
        -- injection Ek as <-. split; [lia|done].
        -- rewrite H3 by done. assert (k ≠ PIDX 2 va) by congruence. lia.
Qed.

(** Without a free page for the table the walk returns NULL. *)
Lemma ram_walk_short va root T s :
  mm_ok root T [] s → KERNBASE <= va < PHYMEMEND → va mod PAGESIZE = 0 → l3_made T (l3_upto va) →
  l3_upto va < l3_upto (va + PAGESIZE) → ∃ s', pagewalk root va s = Ret 0 s'.
Proof.
  intros M Hva Ha [[l2 H2] H3] Hlt. destruct (ram_index va Hva) as (E1 & _ & Hk).
  destruct (l3_upto_next va Hva Ha) as [En Hq]. pose proof (mm_table _ _ _ _ M) as Hok.
  assert (E3 : T !! [1; PIDX 2 va] = None).
  { apply eq_None_not_Some. intros H%H3; lia. }
  rewrite <- E1 in H2, E3.
  pose proof (pt_entry _ _ _ Hok [PIDX 1 va] l2 _ H2 ltac:(simpl; lia) (PIDX_bound 2 va)) as E. cbn [app] in E. rewrite E3 in E.
  eexists. unfold pagewalk.
  rewrite (pbind_ok _ _ _ _ _ (walk_level_found 1 [] root va l2 _ _ _ _ M (pt_root _ _ _ Hok) ltac:(simpl; lia) H2)).
  unfold walk_level, load64. rewrite pbind_assoc. prog_step. rewrite E, pbind_assoc.
  by rewrite (pbind_ok _ _ _ _ _ (kalloc_empty_run s (mm_alloc _ _ _ _ M))).
Qed.

(** The loop of [pagemap] over pages of RAM: it needs one free page for each
    level-3 table that is missing, and faults when one is not there. *)
Lemma ram_map n root va pa attr T fl s :
  mm_ok root T fl s → l3_made T (l3_upto va) → KERNBASE <= va → va mod PAGESIZE = 0 →
  va + PAGESIZE * n <= PHYMEMEND → 0 <= pa → pa + PAGESIZE * n < 2 ^ 64 → 0 <= attr < 2 ^ 64 →
  (∀ va', 0 <= va' → vdist va va' < n → Z.land (leaf (km_mem s) T va') PTE_AF = 0) →
  let need := l3_upto (va + PAGESIZE * n) - l3_upto va in
  (need <= length fl → ∃ T' fl' s', pagemap_loop n root va pa attr s = Ret tt s' ∧
    mm_ok root T' fl' s' ∧ l3_made T' (l3_upto (va + PAGESIZE * n)) ∧ mm_frame T T' fl (km_mem s) (km_mem s') ∧
    suffix fl' fl ∧ Z.of_nat (length fl) = length fl' + need ∧
    ∀ va', 0 <= va' → leaf (km_mem s') T' va' =
      if decide (vdist va va' < n) then leaf_pte (pa + PAGESIZE * vdist va va') attr
      else leaf (km_mem s) T va') ∧
  (length fl < need → pagemap_loop n root va pa attr s = Fault "NULL pte").
Proof.
  cbv zeta. revert va pa T fl s. induction n as [|n IH]; intros va pa T fl s M Hm Hlo Hal Hhi Hpa Hpb Hattr Hfree.
  - rewrite Z.mul_0_r, Z.add_0_r, Z.sub_diag. split; [|lia]. intros _. exists T, fl, s.
    split_and!; [done..|apply mm_frame_refl|done|lia|]. intros va' _. rewrite decide_False; [done|].
    pose proof (vdist_bound va va'). lia.
  - assert (Hp : 0 < PAGESIZE) by (unfold PAGESIZE; lia).
    assert (Hva : KERNBASE <= va < PHYMEMEND) by lia. assert (Hva0 : 0 <= va) by (revert Hlo; unfold_layout; lia).
    assert (Hva2 : va + PAGESIZE < 2 ^ 64) by (revert Hhi; unfold_layout; lia).
    replace (va + PAGESIZE * S n) with (va + PAGESIZE + PAGESIZE * n) in * by lia.
    replace (pa + PAGESIZE * S n) with (pa + PAGESIZE + PAGESIZE * n) in * by lia.
    pose proof (l3_upto_mono va (va + PAGESIZE) ltac:(lia)) as Ho1.
    pose proof (l3_upto_mono (va + PAGESIZE) (va + PAGESIZE + PAGESIZE * n) ltac:(lia)) as Ho2.
    pose proof (l3_upto_next va Hva Hal) as [En Eq].
    assert (Haf : Z.land (leaf (km_mem s) T va) PTE_AF = 0).
    { apply Hfree; [done|]. rewrite (proj2 (vdist_0 va va) eq_refl). lia. }
    destruct (decide (l3_upto (va + PAGESIZE) - l3_upto va <= length fl)) as [Hf|Hf].
    + destruct (ram_walk va root T fl s M Hva Hal Hm Hf) as (p3 & T1 & fl1 & s1 & W & H3 & M1 & S1 & F1 & N1 & Hm1).
      destruct (pagemap_walked n root va pa attr p3 T T1 fl fl1 s s1 W H3 M1 S1 Hva0 Hattr Haf) as (s2 & -> & M2 & Fr2 & L2).
      rewrite !u64_small by lia.
      destruct (IH (va + PAGESIZE) (pa + PAGESIZE) T1 fl1 s2 M2 Hm1) as [IH1 IH2]; try done; try lia.
      { revert Hal. unfold PAGESIZE. intros. zlia. }
      { intros va' Hva' Hd. rewrite L2 by done.
        assert (E0 : vdist va va' ≠ 0).
        { intros E0. pose proof (vdist_next_0 va va' Hva0 E0) as E1. rewrite u64_small in E1 by lia. unfold NPAGE in E1.
          revert Hd Hhi. unfold_layout. lia. }
        rewrite decide_False by (by rewrite <- vdist_0). apply Hfree; [done|].
        pose proof (vdist_next va va' Hva0 E0) as E1. rewrite u64_small in E1 by lia. lia. }
      split.
      * intros Hn. destruct IH1 as (T3 & fl3 & s3 & E3 & M3 & Hm3 & Fr3 & F3 & N3 & L3); [lia|].
        exists T3, fl3, s3. split_and!; try done; [by eapply (mm_frame_trans _ _ _ fl fl1)|by etrans|lia|].
        intros va' Hva'. rewrite L3, L2 by done. destruct (decide (vdist va va' = 0)) as [E0|E0].
        -- pose proof (vdist_next_0 va va' Hva0 E0) as E1. rewrite u64_small in E1 by lia. rewrite E1, E0.
           rewrite decide_False by (unfold NPAGE; revert Hhi; unfold_layout; lia).
           rewrite !decide_True; [|lia|by apply vdist_0]. by rewrite Z.mul_0_r, Z.add_0_r.
        -- pose proof (vdist_next va va' Hva0 E0) as E1. rewrite u64_small in E1 by lia. rewrite E1.
           rewrite (decide_False (P := vpage va' = _)) by (by rewrite <- vdist_0).
           destruct (decide (vdist va va' < S n)).
           ++ rewrite decide_True by lia. f_equal. lia.
           ++ by rewrite decide_False by lia.
      * intros Hn. apply IH2. lia.
    + split; [lia|]. intros _. assert (fl = []) as -> by (destruct fl; [done|cbn in Hf; lia]).
      destruct (ram_walk_short va root T s M Hva Hal Hm ltac:(simpl in Hf; lia)) as (s' & W).
      cbn [pagemap_loop]. by rewrite (pbind_ok _ _ _ _ _ W).
Qed.

Lemma l3_upto_ends : l3_upto KERNBASE = 0 ∧ l3_upto PHYMEMEND = 128.
Proof. by vm_compute. Qed.
End ram.

(** ** What boot.S and the linker script leave *)

(** [l1kpgt], [l2kpgt0] for the devices and [l2kpgt1] for RAM. *)
Definition boot_tree (l1 l20 l21 : Z) : tree := <[[] := l1]> (<[[0] := l20]> {[ [1] := l21 ]}).

Record image (kend l1 l20 l21 : Z) (m : mem) : Prop := {
  im_aligned : kend mod PAGESIZE = 0;
  im_range : KERNBASE <= kend <= PHYMEMEND;
  im_tables : pt_ok m l1 (boot_tree l1 l20 l21);
  im_below : l1 + PAGESIZE <= kend ∧ l20 + PAGESIZE <= kend ∧ l21 + PAGESIZE <= kend
}.

(** What [kpgt_init] maps the page of [va] with. *)
Definition kernel_attr (kend va : Z) : Z :=
  if decide (va < kend) then PTE_NORMAL else Z.lor (Z.lor PTE_NORMAL PTE_PXN) PTE_UXN.

Section boot.
Context (kend l1 l20 l21 : Z).
Implicit Types (s : kmem) (T : tree) (fl : list Z) (va p a : Z).

Abbreviation T0 := (boot_tree l1 l20 l21).

Lemma boot_tree_lookup π p : T0 !! π = Some p → (π = [] ∧ p = l1) ∨ (π = [0] ∧ p = l20) ∨ (π = [1] ∧ p = l21).
Proof.
  unfold boot_tree. rewrite !lookup_insert. repeat case_decide; [intros [= <-]; auto..|].
  intros (<- & <-)%lookup_singleton_Some. auto.
Qed.

Lemma boot_l3 : l3_made T0 (l3_upto KERNBASE).
Proof.
  rewrite (proj1 l3_upto_ends). split; [by exists l21|]. intros k Hk. split; [|lia].
  intros [p H]. apply boot_tree_lookup in H as [[? _]|[[? _]|[? _]]]; done.
Qed.

Lemma boot_leaf m va : leaf m T0 va = 0.
Proof.
  unfold leaf. destruct (T0 !! _) eqn:E; [|done]. apply boot_tree_lookup in E as [[? _]|[[? _]|[? _]]]; done.
Qed.

(** The pages of the image and of the first stage. *)
Abbreviation fl1 := (reverse (pages kend (npages1 kend))).

Lemma in_fl1 p : kend mod PAGESIZE = 0 → KERNBASE <= kend <= PHYMEMEND → p ∈ fl1 → kend <= p /\ p + PAGESIZE <= ksecend kend.
Proof.
  intros Ha Hr. rewrite elem_of_reverse, elem_of_pages. intros (i & Hi & ->).
  rewrite <- (npages1_eq kend Ha Hr). unfold PAGESIZE. lia.
Qed.

Lemma kalloc_init1_run fuel s :
  image kend l1 l20 l21 (km_mem s) → hart_ok (km_hart s) → (npages1 kend < fuel)%nat →
  ∃ s', kalloc_init1 kend fuel s = Ret tt s' ∧ mm_ok l1 T0 fl1 s' ∧
    ∀ a, a < kend → rd8 (km_mem s') a = rd8 (km_mem s) a.
Proof.
  intros [Ha Hr Ht Hb] Hh Hf. pose proof (ksecend_range kend Ha Hr) as [[R1 R2] R3]. pose proof (npages1_eq kend Ha Hr) as E1.
  unfold kalloc_init1, set_freelist. prog_steps. cbn [km_hart kallocator_lk km_mem freelist].
  set (s0 := KMem _ _ _ _). assert (I0 : kinv [] s0) by (split; try done; constructor).
  destruct (kfree_range_spec (npages1 kend) fuel kend (ksecend kend) [] s0 I0)
    as (s1 & E & I1 & F); try (unfold PAGESIZE in *; lia).
  { destruct (decide (npages1 kend = 0%nat)); [by right|left]. split; [|done]. unfold PAGESIZE in *. lia. }
  { by intros q ?%not_elem_of_nil. }
  rewrite app_nil_r in I1. exists s1. split_and!; [exact E| |intros a Hlt; by rewrite F by lia].
  split; [done| |].
  - eapply pt_ok_ext; [|exact Ht]. intros a (π & p & Hp & Hin). apply F. unfold in_page in Hin.
    apply boot_tree_lookup in Hp as [[_ ->]|[[_ ->]|[_ ->]]]; lia.
  - intros π p Hp Hin. apply (in_fl1 _ Ha Hr) in Hin. unfold PAGESIZE in *.
    apply boot_tree_lookup in Hp as [[_ ->]|[[_ ->]|[_ ->]]]; lia.
Qed.

(** Distances from the end of the image and from the start of RAM. *)
Lemma vdist_kend va n : kend mod PAGESIZE = 0 → KERNBASE <= kend <= PHYMEMEND → PAGESIZE * n = kend - KERNBASE →
  0 <= n <= 65536 ∧ 
  (vdist kend va < 65536 - n ↔ n <= vdist KERNBASE va < 65536) ∧
  (n <= vdist KERNBASE va → vdist kend va = vdist KERNBASE va - n).
Proof.
  intros Ha Hr Hn. pose proof (vpage_bound va) as Hb.
  assert (E1 : vpage KERNBASE = 2 ^ 18) by by vm_compute.
  assert (Hn2 : 0 <= n <= 65536) by (revert Hr Hn; unfold_layout; lia).
  assert (E2 : vpage kend = 2 ^ 18 + n).
  { replace kend with (KERNBASE + n * PAGESIZE) by lia. unfold vpage. rewrite Z.div_add by done.
    unfold KERNBASE, PKERNBASE, VA_START, PAGESIZE, NPAGE. zlia. }
  unfold vdist. rewrite E1, E2. unfold NPAGE in *. split; [done|]. split; [split|]; intros; zlia.
Qed.

Lemma kernel_attr_bound va : 0 <= kernel_attr kend va < 2 ^ 64.
Proof. unfold kernel_attr. case_decide; by vm_compute. Qed.

(** What every address translates to afterwards. *)
Definition kernel_leaf va : Z :=
  if decide (vdist KERNBASE va < 65536)
  then leaf_pte (PKERNBASE + PAGESIZE * vdist KERNBASE va) (kernel_attr kend (KERNBASE + PAGESIZE * vdist KERNBASE va))
  else 0.

Lemma kernel_leaf_ram va : kend mod PAGESIZE = 0 → KERNBASE <= va < PHYMEMEND →
  kernel_leaf va = leaf_pte (V2P va) (kernel_attr kend va).
Proof.
  intros Ha Hva.
  assert (E : vdist KERNBASE va = (va - KERNBASE) / PAGESIZE).
  { unfold vdist, vpage, NPAGE. revert Hva. unfold_layout. intros. zlia. }
  unfold kernel_leaf, kernel_attr, leaf_pte, V2P. rewrite E, decide_True by (revert Hva; unfold_layout; intros; zlia).
  rewrite (u64_small (va - VA_START)) by (revert Hva; unfold_layout; lia). f_equal. f_equal; [f_equal|].
  - rewrite !PTE_PA_eq. f_equal. revert Hva. unfold_layout. intros. zlia.
  - assert (Hi : KERNBASE + PAGESIZE * ((va - KERNBASE) / PAGESIZE) < kend ↔ va < kend)
      by (revert Ha Hva; unfold_layout; intros; zlia).
    repeat case_decide; tauto.
Qed.

Lemma kpgt_init_run fl s :
  kend mod PAGESIZE = 0 → KERNBASE <= kend <= PHYMEMEND → mm_ok l1 T0 fl s →
  (128 <= length fl → ∃ T' fl' s', kpgt_init l1 kend s = Ret tt s' ∧ mm_ok l1 T' fl' s' ∧
    mm_frame T0 T' fl (km_mem s) (km_mem s') ∧ suffix fl' fl ∧ Z.of_nat (length fl) = length fl' + 128 ∧
    ∀ va, 0 <= va → leaf (km_mem s') T' va = kernel_leaf va) ∧
  (length fl < 128 → kpgt_init l1 kend s = Fault "NULL pte").
Proof.
  intros Ha Hr M. set (n1 := Z.to_nat ((kend - KERNBASE) / PAGESIZE)). set (n2 := Z.to_nat ((PHYMEMEND - kend) / PAGESIZE)).
  assert (N1 : PAGESIZE * n1 = kend - KERNBASE) by (unfold n1; revert Ha Hr; unfold_layout; intros; rewrite Z2Nat.id; zlia).
  assert (N2 : PAGESIZE * n2 = PHYMEMEND - kend) by (unfold n2; revert Ha Hr; unfold_layout; intros; rewrite Z2Nat.id; zlia).
  pose proof (λ va, vdist_kend va n1 Ha Hr N1) as Hd. destruct l3_upto_ends as [U1 U2].
  assert (Hn2 : Z.of_nat n2 = 65536 - n1) by (revert N1 N2 Hr; unfold_layout; lia).
  assert (Hv : V2P kend = PKERNBASE + PAGESIZE * n1).
  { rewrite N1. unfold V2P. rewrite u64_small; revert Hr; unfold_layout; lia. }
  assert (Hsm : PKERNBASE + PAGESIZE * n1 + PAGESIZE * n2 < 2 ^ 64) by (revert N1 N2 Hr; unfold_layout; lia).
  clearbody n1 n2.
  assert (E : kpgt_init l1 kend s = (pagemap_loop n1 l1 KERNBASE PKERNBASE PTE_NORMAL ;;
     pagemap_loop n2 l1 kend (PKERNBASE + PAGESIZE * n1) (Z.lor (Z.lor PTE_NORMAL PTE_PXN) PTE_UXN)) s).
  { unfold kpgt_init, pagemap. rewrite Hv.
    rewrite (u64_small (kend - KERNBASE)), (u64_small (PHYMEMEND - kend)) by (revert Hr; unfold_layout; lia).
    rewrite Ha, <- N1, <- N2, !(Z.mul_comm PAGESIZE), !Z.mod_mul, Z.mod_add, !Z.div_mul, !Nat2Z.id by done. done. }
  rewrite E. clear E.
  destruct (ram_map n1 l1 KERNBASE PKERNBASE PTE_NORMAL T0 fl s M boot_l3) as [P1 Q1]; try done; try lia.
  { intros va _ _. by rewrite boot_leaf. }
  rewrite N1 in P1, Q1. replace (KERNBASE + (kend - KERNBASE)) with kend in * by lia. rewrite U1, Z.sub_0_r in *.
  pose proof (l3_upto_bound kend Hr) as Hb.
  destruct (decide (l3_upto kend <= length fl)) as [Hf|Hf].
  2:{ split; [lia|]. intros _. by rewrite (pbind_fault _ _ _ _ (Q1 ltac:(lia))). }
  destruct (P1 Hf) as (T1 & fl2 & s1 & E1 & M1 & Hm1 & Fr1 & S1 & L1 & Lf1). rewrite (pbind_ok _ _ _ _ _ E1).
  destruct (ram_map n2 l1 kend (PKERNBASE + PAGESIZE * n1) (Z.lor (Z.lor PTE_NORMAL PTE_PXN) PTE_UXN) T1 fl2 s1 M1 Hm1)
    as [P2 Q2]; try done; try lia.
  { unfold PKERNBASE, PAGESIZE. lia. }
  { intros va Hva Hlt. destruct (Hd va) as (_ & Hdv & _). rewrite Hn2, Hdv in Hlt.
    rewrite Lf1, decide_False by lia. by rewrite boot_leaf. }
  rewrite N2 in P2, Q2. replace (kend + (PHYMEMEND - kend)) with PHYMEMEND in * by lia. rewrite U2 in *.
  split; [|intros; apply Q2; lia]. intros Hl. destruct P2 as (T2 & fl3 & s2 & E2 & M2 & _ & Fr2 & S2 & L2 & Lf2); [lia|].
  exists T2, fl3, s2. split_and!; try done; [by eapply (mm_frame_trans _ _ _ fl fl2)|by etrans|lia|].
  intros va Hva. rewrite Lf2, Lf1, boot_leaf, Hn2 by done. destruct (Hd va) as (_ & Hdv & Hde). pose proof (vdist_bound KERNBASE va).
  unfold kernel_leaf, kernel_attr. destruct (decide (vdist kend va < 65536 - n1)) as [H2|H2].
  - apply Hdv in H2. rewrite decide_True by lia. rewrite (decide_False (P := _ < kend)) by (revert N1 H2; unfold PAGESIZE; lia).
    rewrite Hde by lia. f_equal. lia.
  - rewrite Hdv in H2. destruct (decide (vdist KERNBASE va < n1)) as [H1|H1].
    + rewrite !decide_True; [done| |lia]. revert N1 H1. unfold PAGESIZE. lia.
    + by rewrite decide_False by lia.
Qed.

Lemma kalloc_init2_run fuel T fl s :
  kend mod PAGESIZE = 0 → KERNBASE <= kend <= PHYMEMEND → mm_ok l1 T fl s → (npages2 kend < fuel)%nat →
  (∀ q, q ∈ fl → q < ksecend kend) → (∀ π p, T !! π = Some p → p + PAGESIZE <= ksecend kend) →
  ∃ s', kalloc_init2 kend fuel s = Ret tt s' ∧ mm_ok l1 T (reverse (pages (ksecend kend) (npages2 kend)) ++ fl) s' ∧
    (∀ va, leaf (km_mem s') T va = leaf (km_mem s) T va) ∧
    ∀ a, a < ksecend kend → rd8 (km_mem s') a = rd8 (km_mem s) a.
Proof.
  intros Ha Hr M Hf Hfl HT. pose proof (ksecend_range kend Ha Hr) as [[R1 R2] R3]. pose proof (npages2_eq kend Ha Hr) as E2.
  destruct (kfree_range_spec (npages2 kend) fuel (ksecend kend) PHYMEMEND fl s (mm_alloc _ _ _ _ M))
    as (s' & E & I & F); try (unfold PAGESIZE in *; lia).
  { destruct (decide (npages2 kend = 0%nat)); [by right|left]. split; [|done]. unfold PAGESIZE in *. lia. }
  { intros q Hq%Hfl. lia. }
  assert (Fr : ∀ a, a < ksecend kend → rd8 (km_mem s') a = rd8 (km_mem s) a) by (intros a Hlt; apply F; lia).
  destruct (mm_ok_mem l1 T fl _ s s' M I) as [M' L].
  - intros π p Hp. rewrite elem_of_app, elem_of_reverse, elem_of_pages. intros [(i & Hi & ->)|Hin].
    + pose proof (HT _ _ Hp). unfold PAGESIZE in *. lia.
    + by eapply (mm_disj _ _ _ _ M).
  - intros a (π & p & Hp & Hin). apply Fr. pose proof (HT _ _ Hp). unfold in_page in Hin. lia.
  - exists s'. by split_and!.
Qed.
End boot.

(** ** Translation while [kpgt_init] runs *)

(** Whether the tables translate [va], by a page or by a 2 MB block. *)
Definition hw_maps (m : mem) (root va : Z) : bool :=
  let e1 := ld64 m (root + 8 * PIDX 1 va) in
  if is_table e1 then
    let e2 := ld64 m (P2V (PTE_PA e1) + 8 * PIDX 2 va) in
    if is_table e2 then Z.land (ld64 m (P2V (PTE_PA e2) + 8 * PIDX 3 va)) PTE_V =? PTE_V
    else nz (Z.land e2 PTE_VALID)
  else false.

Lemma hw_maps_leaf m root T va p : pt_ok m root T → T !! [PIDX 1 va; PIDX 2 va] = Some p →
  hw_maps m root va = (Z.land (leaf m T va) PTE_V =? PTE_V).
Proof.
  intros Hok H2. destruct (pt_closed _ _ _ Hok [PIDX 1 va] _ _ H2) as [[q H1] _].
  pose proof (pt_entry _ _ _ Hok [] root (PIDX 1 va) (pt_root _ _ _ Hok) ltac:(simpl; lia) (PIDX_bound 1 va)) as E1.
  pose proof (pt_entry _ _ _ Hok [PIDX 1 va] q (PIDX 2 va) H1 ltac:(simpl; lia) (PIDX_bound 2 va)) as E2.
  cbn [app] in E1, E2. rewrite H1 in E1. rewrite H2 in E2.
  destruct (pt_page _ _ _ Hok _ _ H1) as [Hq _]. destruct (pt_page _ _ _ Hok _ _ H2) as [Hp _].
  unfold hw_maps, leaf. by rewrite E1, is_table_pte, table_pte_addr, E2, is_table_pte, table_pte_addr, H2.
Qed.

(** The kernel's address space as it stays: RAM and nothing else. *)
Record kernel_map (kend l1 : Z) (T : tree) (fl : list Z) (s : kmem) : Prop := {
  kp_mm : mm_ok l1 T fl s;
  kp_ram : ∀ va, KERNBASE <= va < PHYMEMEND → hw_walk (km_mem s) l1 va = leaf_pte (V2P va) (kernel_attr kend va);
  kp_other : ∀ va, 0 <= va → 65536 <= vdist KERNBASE va → hw_walk (km_mem s) l1 va = 0
}.

(** It stays so while pages leave the free list and are written to. *)
Lemma kernel_map_kept kend l1 T fl fl' (s s' : kmem) :
  kernel_map kend l1 T fl s → kinv fl' s' → (∀ p, p ∈ fl' → p ∈ fl) →
  (∀ a, (∀ p, p ∈ fl → ¬ in_page p a) → rd8 (km_mem s') a = rd8 (km_mem s) a) → kernel_map kend l1 T fl' s'.
Proof.
  intros [M R O] I Hfl Hm. destruct (mm_ok_mem l1 T fl fl' s s' M I) as [M' L].
  - intros π p Hp Hin%Hfl. by eapply (mm_disj _ _ _ _ M).
  - intros a Ha. apply Hm. intros p Hp. eapply in_tree_free; [by eapply mm_page|apply M|apply M|done|done].
  - assert (W : ∀ va, hw_walk (km_mem s') l1 va = hw_walk (km_mem s) l1 va).
    { intros va. by rewrite (hw_walk_leaf _ _ T va (mm_table _ _ _ _ M')), L, (hw_walk_leaf _ _ T va (mm_table _ _ _ _ M)). }
    split; [done|..]; intros va; rewrite W; [apply R|apply O].
Qed.

(** The three steps, one by one. *)
Lemma memory_run kend l1 l20 l21 fuel (s : kmem) :
  image kend l1 l20 l21 (km_mem s) → hart_ok (km_hart s) → (Z.to_nat 65536 < fuel)%nat → ∃ s1, kalloc_init1 kend fuel s = Ret tt s1 ∧
  (128 * PAGESIZE <= ksecend kend - kend → ∃ T fl s2 s3, kpgt_init l1 kend s1 = Ret tt s2 ∧ kalloc_init2 kend fuel s2 = Ret tt s3 ∧
    kernel_map kend l1 T fl s3 ∧
    Z.of_nat (length fl) = (PHYMEMEND - kend) / PAGESIZE - 128 ∧ (∀ p, p ∈ fl → kend <= p) ∧
    ∀ a, a < kend → ¬ in_tree (boot_tree l1 l20 l21) a → rd8 (km_mem s3) a = rd8 (km_mem s) a) ∧
  (ksecend kend - kend < 128 * PAGESIZE → kpgt_init l1 kend s1 = Fault "NULL pte").
Proof.
  intros Im Hh Hf. pose proof Im as [Ha Hr _ Hb]. pose proof (ksecend_range kend Ha Hr) as [[R1 R2] R3].
  pose proof (npages1_eq kend Ha Hr) as N1. pose proof (npages2_eq kend Ha Hr) as N2.
  assert (Hbound : (npages1 kend <= Z.to_nat 65536)%nat ∧ (npages2 kend <= Z.to_nat 65536)%nat).
  { revert Hr N1 N2 R1 R2. unfold_layout. lia. }
  destruct (kalloc_init1_run kend l1 l20 l21 fuel s Im Hh ltac:(lia)) as (s1 & E1 & M1 & F1).
  destruct (kpgt_init_run kend l1 l20 l21 _ s1 Ha Hr M1) as [P Q]. rewrite length_reverse, length_pages in P, Q.
  exists s1. split; [done|]. split.
  2:{ intros Hs. apply Q. unfold PAGESIZE in *. lia. }
  intros Hs. destruct P as (T & fl & s2 & E2 & M2 & Fr & Sf & Ll & L); [unfold PAGESIZE in *; lia|].
  assert (Hin : ∀ p, p ∈ fl → kend <= p ∧ p + PAGESIZE <= ksecend kend).
  { intros p Hp. apply in_fl1; [done|done|]. by eapply suffix_in. }
  assert (Htab : ∀ π p, T !! π = Some p → p + PAGESIZE <= ksecend kend).
  { intros π p [Hp|Hp]%(frame_from _ _ _ _ _ Fr).
    - apply boot_tree_lookup in Hp as [[_ ->]|[[_ ->]|[_ ->]]]; lia.
    - by apply (in_fl1 _ _ Ha Hr) in Hp as [_ ?]. }
  destruct (kalloc_init2_run kend l1 fuel T fl s2 Ha Hr M2 ltac:(lia)) as (s3 & E3 & M3 & L3 & F3); [|done|].
  { intros q Hq%Hin. unfold PAGESIZE in *. lia. }
  exists T, (reverse (pages (ksecend kend) (npages2 kend)) ++ fl), s2, s3.
  assert (Lf : ∀ va, 0 <= va → hw_walk (km_mem s3) l1 va = kernel_leaf kend va).
  { intros va Hva. rewrite (hw_walk_leaf _ _ T) by apply M3. by rewrite L3, L. }
  split_and!; [done|done|split; [done|..]|..].
  - intros va Hva. rewrite Lf by (revert Hva; unfold_layout; lia). by apply kernel_leaf_ram.
  - intros va Hva Hd. rewrite Lf by done. unfold kernel_leaf. by rewrite decide_False by lia.
  - rewrite length_app, length_reverse, length_pages. unfold PAGESIZE in *. zlia.
  - intros p. rewrite elem_of_app, elem_of_reverse, elem_of_pages. intros [(i & Hi & ->)|Hp%Hin]; unfold PAGESIZE in *; lia.
  - intros a Hlt Ht. rewrite F3 by lia. rewrite <- F1 by done. apply (mm_frame_outside _ _ _ _ _ _ Fr); [done|].
    intros p Hp Hpa. apply (in_fl1 _ _ Ha Hr) in Hp. unfold in_page in Hpa. lia.
Qed.

(** ** Properties *)

Module KernelMapProps.

Implicit Types (s : kmem) (T : tree) (fl : list Z) (va kend : Z).


(** Mapping the image again is not safe on its own: when [kpgt_init] starts,
    the block that boot.S mapped the first 2 MB of the image with, the running
    code included, becomes an empty level-3 table. From then until the loop has
    filled the table in, the tables translate no address there, and the CPU
    goes on only with what its TLB still holds. *)
Theorem remap_gap kend l1 l20 l21 q fl s va :
  image kend l1 l20 l21 (km_mem s) → mm_ok l1 (boot_tree l1 l20 l21) (q :: fl) s →
  KERNBASE <= va < KERNBASE + SECTIONSIZE → hw_maps (km_mem s) l1 va = true →
  ∃ s', pagewalk l1 KERNBASE s = Ret (q + 8 * PIDX 3 KERNBASE) s' ∧ hw_maps (km_mem s') l1 va = false.
Proof.
  intros Im M Hva _. assert (Hk : KERNBASE <= KERNBASE < PHYMEMEND) by (by vm_compute).
  destruct (ram_walk KERNBASE l1 _ _ s M Hk eq_refl (boot_l3 _ _ _)) as (p3 & T' & fl' & s' & W & H3 & M' & S' & Sf & Hl & _).
  { cbn [length]. change (l3_upto (KERNBASE + PAGESIZE) - l3_upto KERNBASE) with 1. lia. }
  change (l3_upto (KERNBASE + PAGESIZE) - l3_upto KERNBASE) with 1 in Hl.
  assert (Ep : p3 = q).
  { destruct (walk_level_new 2 [1] l21 KERNBASE q l1 (boot_tree l1 l20 l21) fl s M) as (s2 & W2 & _); [done|simpl; lia|..].
    - destruct (boot_tree l1 l20 l21 !! _) eqn:E; [|done]. apply boot_tree_lookup in E as [[? _]|[[? _]|[? _]]]; done.
    - pose proof (mm_table _ _ _ _ M) as Hok. revert W. unfold pagewalk.
      assert (H1 : boot_tree l1 l20 l21 !! ([] ++ [PIDX 1 KERNBASE]) = Some l21) by done.
      rewrite (pbind_ok _ _ _ _ _ (walk_level_found 1 [] l1 KERNBASE l21 _ _ _ _ M (pt_root _ _ _ Hok) ltac:(simpl; lia) H1)).
      rewrite (pbind_ok _ _ _ _ _ W2). unfold ret. intros [= E _]. lia. }
  subst p3. exists s'. split; [exact W|].
  assert (Hi : [PIDX 1 va; PIDX 2 va] = [PIDX 1 KERNBASE; PIDX 2 KERNBASE]).
  { destruct (ram_index va) as (-> & -> & _); [revert Hva; unfold SECTIONSIZE; unfold_layout; lia|].
    change (PIDX 1 KERNBASE) with 1. change (PIDX 2 KERNBASE) with 0. do 2 f_equal. revert Hva. unfold SECTIONSIZE. intros. zlia. }
  rewrite (hw_maps_leaf _ l1 T' va q) by (rewrite ?Hi; by eapply mm_table || done).
  by rewrite (same_leaf _ _ _ _ _ S'), boot_leaf.
Qed.

(** *** Witnesses *)

(** An image of 512 KB, its tables at 64 KB; boot.S mapped the first 2 MB with
    a block. *)
Definition image_end : Z := KERNBASE + 0x80000.
Definition image_l1 : Z := KERNBASE + 0x10000.
Definition image_l20 : Z := KERNBASE + 0x11000.
Definition image_l21 : Z := KERNBASE + 0x12000.
Definition image_block : Z := Z.lor (Z.lor PKERNBASE (Z.lor PTE_AF PTE_NORMAL)) PTE_VALID.
Definition image_mem : mem :=
  st64 (st64 (st64 ∅ image_l1 (table_pte image_l20)) (image_l1 + 8) (table_pte image_l21)) image_l21 image_block.

Lemma image_entry a : a mod 8 = 0 →
  ld64 image_mem a = if decide (a = image_l21) then image_block
    else if decide (a = image_l1 + 8) then table_pte image_l21
    else if decide (a = image_l1) then table_pte image_l20 else 0.
Proof.
  intros Ha. unfold image_mem.
  assert (D : ∀ b m v, b mod 8 = 0 → a ≠ b → ld64 (st64 m b v) a = ld64 m a) by (intros b m v Hb Hne; apply (ld_st_disj 8 8); zlia).
  repeat case_decide; subst; repeat (rewrite D by (done || by vm_compute));
    try (rewrite ld_st_eq; by vm_compute). by apply ld_zero.
Qed.

Lemma image_ok : image image_end image_l1 image_l20 image_l21 image_mem.
Proof.
  split; [done|by vm_compute| |by vm_compute]. split.
  - done.
  - intros π p [[-> ->]|[[-> ->]|[-> ->]]]%boot_tree_lookup; (split; [by apply (bool_decide_unpack _)|cbn; lia]).
  - intros π π' p [[-> ->]|[[-> ->]|[-> ->]]]%boot_tree_lookup [[-> E]|[[-> E]|[-> E]]]%boot_tree_lookup; done.
  - intros π i p [[E _]|[[E _]|[E _]]]%boot_tree_lookup;
      destruct π as [|x [|y π]]; simplify_eq/=; (split; [by eexists|lia]).
  - intros π p i Hp Hl Hi. rewrite image_entry.
    2:{ apply boot_tree_lookup in Hp as [[_ ->]|[[_ ->]|[_ ->]]]; unfold image_l1, image_l20, image_l21; unfold_layout; zlia. }
    destruct (boot_tree _ _ _ !! (π ++ [i])) as [q|] eqn:E.
    + apply boot_tree_lookup in E as [[E _]|[[E ->]|[E ->]]];
        apply boot_tree_lookup in Hp as [[-> ->]|[[-> ->]|[-> ->]]]; simplify_eq/=; by vm_compute.
    + apply boot_tree_lookup in Hp as [[-> ->]|[[-> ->]|[-> ->]]];
        unfold image_l1, image_l20, image_l21 in *; repeat case_decide; try lia; try done.
      * assert (i = 1) as -> by lia. done.
      * assert (i = 0) as -> by lia. done.
Qed.

Definition at_boot : kmem := KMem (Hart 0 0 false false) (Lock 0 0) 0 image_mem.


Definition gap_page : Z := KERNBASE + 0x90000.
Definition gap_state : kmem := KMem (Hart 0 0 false false) lock_init gap_page image_mem.

Lemma gap_ok : mm_ok image_l1 (boot_tree image_l1 image_l20 image_l21) [gap_page] gap_state.
Proof.
  split; [split|apply image_ok|].
  - by apply (bool_decide_unpack _).
  - done.
  - split; [done|]. cbn [km_mem gap_state]. by rewrite image_entry by done.
  - apply NoDup_singleton.
  - apply Forall_singleton. by apply (bool_decide_unpack _).
  - intros π p Hp ->%list_elem_of_singleton. by apply boot_tree_lookup in Hp as [[_ E]|[[_ E]|[_ E]]].
Qed.

(** The block translates the image until the walk replaces it. *)
Lemma remap_gap_witness :
  hw_maps image_mem image_l1 KERNBASE = true ∧
  ∃ s', pagewalk image_l1 KERNBASE gap_state = Ret gap_page s' ∧ hw_maps (km_mem s') image_l1 KERNBASE = false.
Proof.
  assert (H0 : hw_maps image_mem image_l1 KERNBASE = true) by (vm_compute; reflexivity). split; [exact H0|].
  destruct (remap_gap image_end image_l1 image_l20 image_l21 gap_page [] gap_state KERNBASE image_ok gap_ok) as (s' & W & H).
  - split; vm_compute; (reflexivity || discriminate).
  - exact H0.
  - exists s'. split; [exact W|exact H].
Defined.
End KernelMapProps.
