(* ===== verification/Buf.v ===== *)
(** * The buffer cache (kernel/buf.c)

    [NBUF] buffers of one disk block each, counted references, under one lock.
    What the cache needs of the disk driver is the class [BlockDev]; what it
    promises to the file system is the class [BlockCache], which the last part
    of the file discharges for the routines modelled here. *)

From S2P Require Import Prelude Mem Bytes Spinlock.
Import Spin.
Open Scope Z_scope.
Open Scope prog_scope.

Definition BSIZE : nat := 1024.

(** ** What the cache needs of a disk *)

Inductive diskop := DREAD | DWRITE.

#[export] Instance diskop_eq_dec : EqDecision diskop.
Proof. solve_decision. Defined.

(** [virtio_blk_op bno buf op] returns its result and the buffer it leaves. *)
Class BlockDev (D : Type) := {
  virtio_blk_op : Z → bytes → diskop → prog (hart * D) (Z * bytes);
  (** The blocks of the disk, and the driver's invariant. *)
  block : D → Z → bytes;
  dev_ok : D → Prop
}.

(** A block number fits the [u32] it is stored in. *)
Definition is_bno (n : Z) : Prop := 0 <= n < 2 ^ 32.

#[export] Instance is_bno_dec n : Decision (is_bno n).
Proof. unfold is_bno. apply _. Defined.

Class BlockDevOk (D : Type) `{BlockDev D} := {
  block_ok : ∀ d n, dev_ok d → length (block d n) = BSIZE ∧ Forall is_byte (block d n);
  dev_read : ∀ h d n buf, dev_ok d → hart_ok h → is_bno n → length buf = BSIZE →
    ∃ d', virtio_blk_op n buf DREAD (h, d) = Ret (0, block d n) (touched h, d') ∧
      dev_ok d' ∧ ∀ n', block d' n' = block d n';
  dev_write : ∀ h d n buf, dev_ok d → hart_ok h → is_bno n →
    length buf = BSIZE → Forall is_byte buf →
    ∃ d', virtio_blk_op n buf DWRITE (h, d) = Ret (0, buf) (touched h, d') ∧
      dev_ok d' ∧ ∀ n', block d' n' = if decide (n' = n) then buf else block d n'
}.

(** ** The cache *)

Definition NBUF : nat := 32.

Record buf := Buf { b_data : bytes; b_bno : Z; b_ref : Z; b_dirty : Z; b_valid : Z }.

#[export] Instance buf_eq_dec : EqDecision buf.
Proof. solve_decision. Defined.

(** [memset(b, 0, sizeof( *b))] *)
Definition buf_zero : buf := Buf (replicate BSIZE 0) 0 0 0 0.

Definition set_ref (v : Z) (b : buf) : buf := Buf (b_data b) (b_bno b) v (b_dirty b) (b_valid b).
Definition set_bno (v : Z) (b : buf) : buf := Buf (b_data b) v (b_ref b) (b_dirty b) (b_valid b).
Definition set_valid (v : Z) (b : buf) : buf := Buf (b_data b) (b_bno b) (b_ref b) (b_dirty b) v.
Definition set_data (l : bytes) (b : buf) : buf := Buf l (b_bno b) (b_ref b) (b_dirty b) (b_valid b).

Section ops.
Context {D : Type} `{BlockDev D}.

(** This CPU, [bcache], and the disk. *)
Record bcache := BCache { bc_hart : hart; bc_lk : spinlock; bc_buf : list buf; bc_disk : D }.

Definition bc_lock : lens bcache lockst :=
  Lens (λ s, (bc_hart s, bc_lk s)) (λ t s, BCache (fst t) (snd t) (bc_buf s) (bc_disk s)).

Definition bc_dev : lens bcache (hart * D) :=
  Lens (λ s, (bc_hart s, bc_disk s)) (λ t s, BCache (fst t) (bc_lk s) (bc_buf s) (snd t)).

(** [bcache.buf[i]], read and written; a pointer to a buffer is its index. *)
Definition buf_at (i : nat) : prog bcache buf := λ s,
  match bc_buf s !! i with Some b => Ret b s | None => Fault "buf pointer" end.
Definition upd_buf (i : nat) (f : buf → buf) : prog bcache unit :=
  modify (λ s, BCache (bc_hart s) (bc_lk s) (alter f i (bc_buf s)) (bc_disk s)).

Definition buf_init : prog bcache unit :=
  modify (λ s, BCache (bc_hart s) lock_init (replicate NBUF buf_zero) (bc_disk s)).

(** The first buffer that satisfies [P]: the [for] loops of [get_buf]. *)
Definition first_buf (P : buf → Prop) `{∀ b, Decision (P b)} : prog bcache (option nat) :=
  gets (λ s, fst <$> list_find P (bc_buf s)).

Definition get_buf (bno : Z) : prog bcache nat :=
  zoom bc_lock acquire ;;
  hit <- first_buf (λ b, b_bno b = bno) ;;
  match hit with
  | Some i =>
      upd_buf i (λ b, set_ref (b_ref b +u32 1) b) ;;
      zoom bc_lock release ;;
      ret i
  | None =>
      free <- first_buf (λ b, b_ref b = 0) ;;
      match free with
      | Some i =>
          upd_buf i (set_ref 1) ;;
          upd_buf i (set_bno bno) ;;
          zoom bc_lock release ;;
          ret i
      | None => panic "buf"
      end
  end.

Definition bio_read (bno : Z) : prog bcache nat :=
  i <- get_buf bno ;;
  b <- buf_at i ;;
  (if nz (b_valid b) then ret tt else
     r <- zoom bc_dev (virtio_blk_op bno (b_data b) DREAD) ;;
     upd_buf i (set_data (snd r)) ;;
     (if fst r <? 0 then panic "disk read failed" else ret tt) ;;
     upd_buf i (set_valid 1)) ;;
  ret i.

Definition bio_write (i : nat) : prog bcache unit :=
  b <- buf_at i ;;
  r <- zoom bc_dev (virtio_blk_op (b_bno b) (b_data b) DWRITE) ;;
  upd_buf i (set_data (snd r)) ;;
  upd_buf i (set_valid 1).

Definition bio_dup (i : nat) : prog bcache nat :=
  zoom bc_lock acquire ;;
  upd_buf i (λ b, set_ref (b_ref b +u32 1) b) ;;
  zoom bc_lock release ;;
  ret i.

Definition bio_free (i : nat) : prog bcache unit :=
  zoom bc_lock acquire ;;
  b <- buf_at i ;;
  (if b_ref b =? 0 then panic "bio_free" else ret tt) ;;
  upd_buf i (λ b, set_ref (b_ref b -u32 1) b) ;;
  b <- buf_at i ;;
  (if b_ref b =? 0 then upd_buf i (λ _, buf_zero) else ret tt) ;;
  zoom bc_lock release.

(** The accesses of a client to [b->data]. *)
Definition buf_data (i : nat) : prog bcache bytes := b <- buf_at i ;; ret (b_data b).
Definition buf_set (i : nat) (l : bytes) : prog bcache unit := _ <- buf_at i ;; upd_buf i (set_data l).
End ops.

Arguments bcache : clear implicits.

(** ** What the cache promises to its clients *)

(** [bread], [bwrite], [bfree] are [bio_read], [bio_write], [bio_free]; a
    client reads and writes [b->data] through [bdata] and [bset]. *)
Class BlockCache (S : Type) := {
  bread : Z → prog S nat;
  bwrite : nat → prog S unit;
  bfree : nat → prog S unit;
  bdata : nat → prog S bytes;
  bset : nat → bytes → prog S unit;
  chart : lens S hart;
  (** [cached dk held s]: no operation is running, the disk holds [dk], no
      buffer differs from it, and [held] are the references in use. *)
  cached : (Z → bytes) → list Z → S → Prop;
  (** The buffer [i] is that of block [n]. *)
  handle : nat → Z → S → Prop
}.

Definition upd_block (n : Z) (l : bytes) (dk : Z → bytes) : Z → bytes :=
  λ n', if decide (n' = n) then l else dk n'.

Class BlockCacheOk (S : Type) `{BlockCache S} := {
  chart_laws :: LensLaws chart;
  cached_hart : ∀ dk held s, cached dk held s → hart_ok (lget chart s);
  cached_set_hart : ∀ dk held s h, cached dk held s → hart_ok h → cached dk held (lset chart h s);
  handle_set_hart : ∀ i n s h, handle i n s → handle i n (lset chart h s);
  cached_block : ∀ dk held s n, cached dk held s → length (dk n) = BSIZE ∧ Forall is_byte (dk n);
  cached_perm : ∀ dk held held' s, held ≡ₚ held' → cached dk held s → cached dk held' s;
  bread_ok : ∀ dk held s n, cached dk held s → n ≠ 0 → is_bno n → (length held < NBUF)%nat →
    ∃ i s', bread n s = Ret i s' ∧ cached dk (n :: held) s' ∧ handle i n s' ∧
      ∀ j m, handle j m s → handle j m s';
  bdata_ok : ∀ dk held s i n, cached dk held s → n ∈ held → handle i n s →
    bdata i s = Ret (dk n) s;
  bupdate_ok : ∀ dk held s i n l, cached dk held s → n ∈ held → handle i n s →
    length l = BSIZE → Forall is_byte l →
    ∃ s', (bset i l ;; bwrite i) s = Ret tt s' ∧ cached (upd_block n l dk) held s' ∧
      ∀ j m, handle j m s → handle j m s';
  bfree_ok : ∀ dk held s i n, cached dk (n :: held) s → handle i n s →
    ∃ s', bfree i s = Ret tt s' ∧ cached dk held s' ∧
      ∀ j m, m ∈ held → handle j m s → handle j m s'
}.

(** ** The invariant of the cache *)

Definition nref (held : list Z) (n : Z) : Z := Z.of_nat (count_occ Z.eq_dec held n).

(** A buffer in use. *)
Record busy (dk : Z → bytes) (held : list Z) (b : buf) : Prop := {
  busy_bno : b_bno b ≠ 0 ∧ is_bno (b_bno b);
  busy_data : b_data b = dk (b_bno b);
  busy_valid : b_valid b = 1;
  busy_ref : b_ref b = nref held (b_bno b);
  busy_pos : b_ref b ≠ 0
}.

Section inv.
Context {D : Type} {Hdev : BlockDev D} {Hdok : BlockDevOk D}.
Implicit Types (s : bcache D) (dk : Z → bytes) (b : buf) (i j : nat) (n m : Z).

Record bc_inv dk held s : Prop := {
  bi_hart : hart_ok (bc_hart s);
  bi_lock : free_lock (bc_lk s);
  bi_len : length (bc_buf s) = NBUF;
  bi_dev : dev_ok (bc_disk s);
  bi_block : ∀ n, block (bc_disk s) n = dk n;
  bi_slot : ∀ i b, bc_buf s !! i = Some b → b = buf_zero ∨ busy dk held b;
  bi_uniq : ∀ i j b c, bc_buf s !! i = Some b → bc_buf s !! j = Some c →
    b_ref b ≠ 0 → b_bno b = b_bno c → i = j;
  bi_held : ∀ n, n ∈ held → ∃ i b, bc_buf s !! i = Some b ∧ b_bno b = n ∧ b_ref b ≠ 0;
  bi_few : Z.of_nat (length held) < 2 ^ 31
}.

(** The slot of a block in use. *)
Definition slot_of i n s : Prop :=
  n ≠ 0 ∧ ∃ b, bc_buf s !! i = Some b ∧ b_bno b = n ∧ b_ref b ≠ 0.

Lemma nref_cons n m held : nref (n :: held) m = nref held m + (if decide (m = n) then 1 else 0).
Proof.
  unfold nref. simpl. destruct (Z.eq_dec n m) as [->|E].
  - rewrite decide_True by done. lia.
  - rewrite decide_False by done. lia.
Qed.

Lemma nref_bound n held : 0 <= nref held n <= length held.
Proof. unfold nref. pose proof (count_occ_bound Z.eq_dec n held). lia. Qed.

Lemma nref_in n held : n ∈ held ↔ nref held n ≠ 0.
Proof.
  unfold nref. rewrite list_elem_of_In, (count_occ_In Z.eq_dec). lia.
Qed.

Lemma slot_of_uniq dk held s i j n :
  bc_inv dk held s → slot_of i n s → slot_of j n s → i = j.
Proof.
  intros I (_ & b & Hi & Hb & Hr) (_ & c & Hj & Hc & _).
  eapply (bi_uniq _ _ _ I); [exact Hi|exact Hj|done|congruence].
Qed.

Lemma held_slot dk held s n : bc_inv dk held s → n ∈ held → n ≠ 0 → ∃ i, slot_of i n s.
Proof. intros I Hn H0. destruct (bi_held _ _ _ I n Hn) as (i & b & ? & ? & ?). exists i. split; eauto. Qed.

(** What a slot in use holds. *)
Lemma slot_busy dk held s i n b :
  bc_inv dk held s → slot_of i n s → bc_buf s !! i = Some b → busy dk held b ∧ b_bno b = n.
Proof.
  intros I (H0 & c & Hi & Hc & Hr) Hb. simplify_eq. split; [|done].
  destruct (bi_slot _ _ _ I _ _ Hi) as [->|?]; done.
Qed.

(** The search for block [n] finds its slot, or there is none. *)
Lemma find_bno dk held s n :
  bc_inv dk held s → n ≠ 0 →
  match list_find (λ b, b_bno b = n) (bc_buf s) with
  | Some (i, b) => bc_buf s !! i = Some b ∧ slot_of i n s ∧ n ∈ held
  | None => ∀ i, ¬ slot_of i n s
  end.
Proof.
  intros I H0. destruct (list_find _ _) as [[i b]|] eqn:E.
  - apply list_find_Some in E as (Hi & Hb & _).
    destruct (bi_slot _ _ _ I _ _ Hi) as [->|B]; [simpl in Hb; congruence|].
    split_and!; [done|split; [done|]; exists b; split_and!; [done|done|apply B]|].
    apply nref_in. rewrite <- Hb, <- (busy_ref _ _ _ B). apply B.
  - intros i (_ & b & Hi & Hb & _). apply list_find_None in E.
    eapply Forall_lookup_1 in E; [|exact Hi]. done.
Qed.

(** While fewer references are in use than there are buffers, one is free. *)
Lemma find_free dk held s :
  bc_inv dk held s → (length held < NBUF)%nat →
  ∃ i, list_find (λ b, b_ref b = 0) (bc_buf s) = Some (i, buf_zero).
Proof.
  intros I Hl. destruct (list_find _ _) as [[i b]|] eqn:E.
  - exists i. do 2 f_equal. apply list_find_Some in E as (Hi & Hb & _).
    destruct (bi_slot _ _ _ I _ _ Hi) as [->|B]; [done|]. by apply B in Hb.
  - exfalso. apply list_find_None in E.
    assert (Hn : NoDup (b_bno <$> bc_buf s)).
    { apply NoDup_alt. intros i j n Hi Hj.
      apply list_lookup_fmap_Some in Hi as (b & -> & Hi).
      apply list_lookup_fmap_Some in Hj as (c & Ec & Hj).
      eapply (bi_uniq _ _ _ I); [done|done| |done]. by eapply Forall_lookup_1 in E. }
    assert (Hs : b_bno <$> bc_buf s ⊆ held).
    { intros n Hn'. apply list_elem_of_fmap in Hn' as (b & -> & Hb).
      apply list_elem_of_lookup in Hb as [i Hi].
      pose proof (Forall_lookup_1 _ _ _ _ E Hi) as Hr.
      destruct (bi_slot _ _ _ I _ _ Hi) as [->|B]; [done|].
      apply nref_in. by rewrite <- (busy_ref _ _ _ B). }
    pose proof (submseteq_length _ _ (NoDup_submseteq _ _ Hn Hs)) as Hlen.
    rewrite length_fmap, (bi_len _ _ _ I) in Hlen. lia.
Qed.
End inv.

Section runs.
Context {D : Type} {Hdev : BlockDev D} {Hdok : BlockDevOk D}.
Implicit Types (s : bcache D) (dk : Z → bytes) (b : buf) (i j : nat) (n m : Z).

Definition with_buf (i : nat) (b : buf) (s : bcache D) : bcache D :=
  BCache (bc_hart s) (bc_lk s) (<[i := b]> (bc_buf s)) (bc_disk s).

Lemma upd_buf_run i f b s :
  bc_buf s !! i = Some b → upd_buf i f s = Ret tt (with_buf i (f b) s).
Proof.
  intros Hi. unfold upd_buf, with_buf, modify. do 2 f_equal.
  apply list_eq. intros j. rewrite list_lookup_alter, list_lookup_insert.
  repeat case_decide; subst; try done.
  - by rewrite Hi.
  - apply lookup_lt_Some in Hi. tauto.
  - tauto.
Qed.

Lemma buf_at_run i b s : bc_buf s !! i = Some b → buf_at i s = Ret b s.
Proof. unfold buf_at. by intros ->. Qed.

Lemma acquire_bc s :
  hart_ok (bc_hart s) → free_lock (bc_lk s) →
  zoom bc_lock acquire s =
    Ret tt (BCache (entered (bc_hart s)) (Lock 1 (cpuid (bc_hart s))) (bc_buf s) (bc_disk s)).
Proof. intros Hh Hl. unfold zoom. simpl. by rewrite acquire_free. Qed.

Lemma release_bc h (bs : list buf) (d : D) :
  hart_ok h →
  zoom bc_lock release (BCache (entered h) (Lock 1 (cpuid h)) bs d) =
    Ret tt (BCache (touched h) lock_init bs d).
Proof. intros Hh. unfold zoom. simpl. by rewrite release_held. Qed.

(** Replacing one buffer. *)
Lemma bc_inv_slot dk dk' held held' s i b' lk h d :
  bc_inv dk held s → (i < NBUF)%nat → hart_ok h → free_lock lk →
  dev_ok d → (∀ n, block d n = dk' n) →
  (b' = buf_zero ∨ busy dk' held' b') →
  (∀ j c, j ≠ i → bc_buf s !! j = Some c → b_ref c ≠ 0 →
    dk' (b_bno c) = dk (b_bno c) ∧ nref held' (b_bno c) = nref held (b_bno c) ∧ b_bno c ≠ b_bno b') →
  (∀ n, n ∈ held' → (n = b_bno b' ∧ b_ref b' ≠ 0) ∨
    ∃ j c, j ≠ i ∧ bc_buf s !! j = Some c ∧ b_bno c = n ∧ b_ref c ≠ 0) →
  Z.of_nat (length held') < 2 ^ 31 →
  bc_inv dk' held' (BCache h lk (<[i := b']> (bc_buf s)) d).
Proof.
  intros I Hi Hh Hlk Hd Hblk Hb Hrest Hcov Hfew. pose proof (bi_len _ _ _ I) as Hlen.
  assert (Hget : ∀ j c, <[i := b']> (bc_buf s) !! j = Some c →
    (j = i ∧ c = b') ∨ (j ≠ i ∧ bc_buf s !! j = Some c)).
  { intros j c. destruct (decide (j = i)) as [->|E].
    - rewrite list_lookup_insert_eq by lia. intros [= <-]. by left.
    - rewrite list_lookup_insert_ne by done. by right. }
  split; cbn [bc_hart bc_lk bc_buf bc_disk]; try done.
  - by rewrite length_insert.
  - intros j c [[-> ->]|[Hj Hc]]%Hget; [done|].
    destruct (bi_slot _ _ _ I _ _ Hc) as [->|B]; [by left|right].
    destruct (Hrest j c Hj Hc) as (E1 & E2 & _); [apply B|].
    split; [apply B|rewrite E1; apply B|apply B|rewrite E2; apply B|apply B].
  - intros j k c c' [[-> ->]|[Hj Hc]]%Hget [[-> ->]|[Hk Hc']]%Hget Hr E; try done.
    + destruct (decide (b_ref c' = 0)) as [E0|E0].
      * destruct (bi_slot _ _ _ I _ _ Hc') as [->|B]; [|by apply B in E0].
        destruct Hb as [->|B]; [done|]. destruct (busy_bno _ _ _ B) as [? _]. done.
      * destruct (Hrest k c' Hk Hc' E0) as (_ & _ & ?). congruence.
    + destruct (Hrest j c Hj Hc Hr) as (_ & _ & ?). congruence.
    + by eapply (bi_uniq _ _ _ I).
  - intros n [[-> Hr]|(j & c & Hj & Hc & Hn & Hr)]%Hcov.
    + exists i, b'. split_and!; [|done|done]. apply list_lookup_insert_eq. lia.
    + exists j, c. split_and!; [|done|done]. by rewrite list_lookup_insert_ne.
Qed.

(** Slots keep their blocks while these are in use. *)
Lemma slot_of_insert i j n b' s h lk (d : D) :
  slot_of j n s → (j = i → b_bno b' = n ∧ b_ref b' ≠ 0) →
  slot_of j n (BCache h lk (<[i := b']> (bc_buf s)) d).
Proof.
  intros (H0 & b & Hj & Hn & Hr) Hi. split; [done|]. cbn [bc_buf].
  destruct (decide (j = i)) as [->|E].
  - exists b'. destruct Hi as [? ?]; [done|]. split_and!; [|done|done].
    apply list_lookup_insert_eq. by eapply lookup_lt_Some.
  - exists b. split_and!; [|done|done]. by rewrite list_lookup_insert_ne.
Qed.

Lemma get_buf_hit dk held s i n b :
  bc_inv dk held s → n ≠ 0 → slot_of i n s → bc_buf s !! i = Some b →
  Z.of_nat (length held) < 2 ^ 31 - 1 →
  get_buf n s = Ret i (BCache (touched (bc_hart s)) lock_init
                         (<[i := set_ref (b_ref b + 1) b]> (bc_buf s)) (bc_disk s)) ∧
  bc_inv dk (n :: held) (BCache (touched (bc_hart s)) lock_init
                         (<[i := set_ref (b_ref b + 1) b]> (bc_buf s)) (bc_disk s)).
Proof.
  intros I H0 Hs Hi Hl. destruct (slot_busy _ _ _ _ _ _ I Hs Hi) as [B Hb].
  pose proof (nref_bound n held) as Hnb. pose proof (find_bno _ _ _ n I H0) as F.
  destruct (list_find (λ b, b_bno b = n) (bc_buf s)) as [[j c]|] eqn:E;
    [|exfalso; by eapply F].
  destruct F as (Hj & Hsj & Hin). assert (j = i) as -> by (by eapply slot_of_uniq).
  simplify_eq. split.
  - unfold get_buf, first_buf. rewrite (pbind_ok _ _ _ _ _ (acquire_bc s (bi_hart _ _ _ I) (bi_lock _ _ _ I))).
    prog_step. cbn [bc_buf]. rewrite E. cbn [fmap option_fmap option_map fst].
    erewrite pbind_ok by (by apply upd_buf_run). unfold with_buf. cbn [bc_hart bc_lk bc_buf bc_disk].
    rewrite (pbind_ok _ _ _ _ _ (release_bc _ _ _ (bi_hart _ _ _ I))).
    rewrite (busy_ref _ _ _ B). by rewrite u32_small by lia.
  - eapply bc_inv_slot; try exact I; try done; try apply I.
    + rewrite <- (bi_len _ _ _ I). by eapply lookup_lt_Some.
    + right. destruct B as [? ? ? Br ?]. split; cbn [set_ref b_bno b_data b_valid b_ref]; try done.
      * rewrite nref_cons, decide_True, Br by done. lia.
      * rewrite Br. lia.
    + intros j c Hj Hc Hr. split_and!; [done| |].
      * rewrite nref_cons, decide_False; [lia|]. intros E'. apply Hj.
        by eapply (bi_uniq _ _ _ I).
      * cbn. intros E'. apply Hj. by eapply (bi_uniq _ _ _ I).
    + intros m Hm. destruct (decide (m = b_bno b)) as [->|Hne].
      * left. cbn. split; [done|]. rewrite (busy_ref _ _ _ B). lia.
      * right. apply elem_of_cons in Hm as [|Hm]; [done|].
        destruct (bi_held _ _ _ I m Hm) as (j & c & ? & ? & ?). exists j, c. split_and!; try done. congruence.
    + cbn [length]. lia.
Qed.

Lemma get_buf_miss dk held s n :
  bc_inv dk held s → n ≠ 0 → (∀ i, ¬ slot_of i n s) → (length held < NBUF)%nat →
  ∃ i, bc_buf s !! i = Some buf_zero ∧
    get_buf n s = Ret i (BCache (touched (bc_hart s)) lock_init
                           (<[i := set_bno n (set_ref 1 buf_zero)]> (bc_buf s)) (bc_disk s)).
Proof.
  intros I H0 Hno Hl. pose proof (find_bno _ _ _ n I H0) as F.
  destruct (list_find (λ b, b_bno b = n) (bc_buf s)) as [[j c]|] eqn:E.
  { exfalso. by eapply Hno, F. }
  destruct (find_free _ _ _ I Hl) as [i Ei]. exists i.
  assert (Hi : bc_buf s !! i = Some buf_zero) by (by apply list_find_Some in Ei as (? & _)).
  split; [done|]. unfold get_buf, first_buf.
  rewrite (pbind_ok _ _ _ _ _ (acquire_bc s (bi_hart _ _ _ I) (bi_lock _ _ _ I))).
  prog_step. cbn [bc_buf]. rewrite E. cbn [fmap option_fmap option_map fst].
  prog_step. cbn [bc_buf]. rewrite Ei. cbn [fmap option_fmap option_map fst].
  erewrite pbind_ok by (by apply upd_buf_run). unfold with_buf. cbn [bc_hart bc_lk bc_buf bc_disk].
  erewrite pbind_ok; [|apply upd_buf_run; cbn [bc_buf]; apply list_lookup_insert_eq; by eapply lookup_lt_Some].
  unfold with_buf. cbn [bc_hart bc_lk bc_buf bc_disk]. rewrite list_insert_insert_eq.
  by rewrite (pbind_ok _ _ _ _ _ (release_bc _ _ _ (bi_hart _ _ _ I))).
Qed.

(** A transfer leaves the cache's own state alone. *)
Lemma bc_dev_read n l h lk bs (d : D) :
  dev_ok d → hart_ok h → is_bno n → length l = BSIZE →
  ∃ d', zoom bc_dev (virtio_blk_op n l DREAD) (BCache h lk bs d) =
      Ret (0, block d n) (BCache (touched h) lk bs d') ∧
    dev_ok d' ∧ ∀ n', block d' n' = block d n'.
Proof.
  intros Hd Hh Hn Hl. destruct (dev_read h d n l Hd Hh Hn Hl) as (d' & E & Hd' & Hb).
  exists d'. split; [|done]. apply (zoom_ok bc_dev _ (BCache h lk bs d) _ (touched h, d')). exact E.
Qed.

Lemma bc_dev_write n l h lk bs (d : D) :
  dev_ok d → hart_ok h → is_bno n → length l = BSIZE → Forall is_byte l →
  ∃ d', zoom bc_dev (virtio_blk_op n l DWRITE) (BCache h lk bs d) =
      Ret (0, l) (BCache (touched h) lk bs d') ∧
    dev_ok d' ∧ ∀ n', block d' n' = upd_block n l (block d) n'.
Proof.
  intros Hd Hh Hn Hl Hb. destruct (dev_write h d n l Hd Hh Hn Hl Hb) as (d' & E & Hd' & Hb').
  exists d'. split; [|done]. apply (zoom_ok bc_dev _ (BCache h lk bs d) _ (touched h, d')). exact E.
Qed.

Lemma count_occ_0 held n : nref held n = 0 → ¬ (n ∈ held).
Proof. intros H Hin%nref_in. done. Qed.

Lemma bio_read_spec dk held s n :
  bc_inv dk held s → n ≠ 0 → is_bno n → (length held < NBUF)%nat →
  ∃ i s', bio_read n s = Ret i s' ∧ bc_inv dk (n :: held) s' ∧ slot_of i n s' ∧
    ∀ j m, slot_of j m s → slot_of j m s'.
Proof.
  intros I H0 Hn Hl. pose proof (bi_few _ _ _ I) as Hfew.
  assert (Hl' : Z.of_nat (length held) < 2 ^ 31 - 1) by (unfold NBUF in Hl; lia).
  destruct (list_find (λ b, b_bno b = n) (bc_buf s)) as [[i b]|] eqn:E.
  - pose proof (find_bno _ _ _ n I H0) as F. rewrite E in F. destruct F as (Hi & Hs & _).
    destruct (get_buf_hit _ _ _ _ _ _ I H0 Hs Hi Hl') as [Hg I'].
    destruct (slot_busy _ _ _ _ _ _ I Hs Hi) as [B Hb].
    eexists i, _. split_and!; [|exact I'| |].
    + unfold bio_read. rewrite (pbind_ok _ _ _ _ _ Hg).
      erewrite pbind_ok; [|apply buf_at_run; cbn [bc_buf]; apply list_lookup_insert_eq; by eapply lookup_lt_Some].
      cbn [set_ref b_valid]. rewrite (busy_valid _ _ _ B). reflexivity.
    + apply slot_of_insert; [done|]. intros _. split; [done|]. cbn.
      rewrite (busy_ref _ _ _ B). pose proof (nref_bound (b_bno b) held). lia.
    + intros j m Hj. apply slot_of_insert; [done|]. intros ->. cbn.
      destruct (slot_busy _ _ _ _ _ _ I Hj Hi) as [_ ?]. split; [done|].
      rewrite (busy_ref _ _ _ B). pose proof (nref_bound (b_bno b) held). lia.
  - assert (Hno : ∀ i, ¬ slot_of i n s).
    { pose proof (find_bno _ _ _ n I H0) as F. by rewrite E in F. }
    destruct (get_buf_miss _ _ _ _ I H0 Hno Hl) as (i & Hi & Hg).
    assert (Hlt : (i < length (bc_buf s))%nat) by (by eapply lookup_lt_Some).
    destruct (bc_dev_read n (replicate BSIZE 0) (touched (bc_hart s)) lock_init
      (<[i := set_bno n (set_ref 1 buf_zero)]> (bc_buf s)) (bc_disk s)) as (d' & Er & Hd' & Hb');
      [apply I|apply touched_ok, I|done|apply length_replicate|].
    eexists i, (BCache _ _ (<[i := Buf (dk n) n 1 0 1]> (bc_buf s)) d'). split_and!.
    + unfold bio_read. rewrite (pbind_ok _ _ _ _ _ Hg).
      erewrite pbind_ok; [|apply buf_at_run; cbn [bc_buf]; by apply list_lookup_insert_eq].
      cbn [set_ref set_bno b_valid b_data buf_zero]. change (nz 0) with false. cbv iota.
      rewrite pbind_assoc, (pbind_ok _ _ _ _ _ Er). cbn [fst snd]. rewrite pbind_assoc.
      erewrite pbind_ok; [|apply upd_buf_run; cbn [bc_buf]; by apply list_lookup_insert_eq].
      prog_steps. change (0 <? 0) with false. cbv iota. prog_steps.
      unfold with_buf. cbn [bc_hart bc_lk bc_buf bc_disk]. rewrite list_insert_insert_eq.
      erewrite pbind_ok; [|apply upd_buf_run; cbn [bc_buf]; by apply list_lookup_insert_eq].
      unfold with_buf. cbn [bc_hart bc_lk bc_buf bc_disk]. rewrite list_insert_insert_eq.
      unfold ret. cbn. by rewrite (bi_block _ _ _ I).
    + assert (Hnot : nref held n = 0).
      { destruct (decide (nref held n = 0)) as [|Hne]; [done|].
        apply nref_in in Hne. destruct (held_slot _ _ _ _ I Hne H0) as [j Hj]. by eapply Hno in Hj. }
      eapply bc_inv_slot; try exact I; try done.
      * rewrite <- (bi_len _ _ _ I). done.
      * by do 2 apply touched_ok, I.
      * intros m. rewrite Hb'. apply I.
      * right. split; cbn; try done. rewrite nref_cons, decide_True by done. lia.
      * intros j c Hj Hc Hr.
        assert (b_bno c ≠ n) by (intros <-; eapply Hno; split; [done|]; eauto).
        split_and!; [done| |done]. rewrite nref_cons, decide_False by done. lia.
      * intros m Hm. destruct (decide (m = n)) as [->|Hne]; [by left|right].
        apply elem_of_cons in Hm as [|Hm]; [done|].
        destruct (bi_held _ _ _ I m Hm) as (j & c & Hj & ? & Hr). exists j, c. split_and!; try done.
        intros ->. simplify_eq.
      * cbn [length]. lia.
    + split; [done|]. eexists. split_and!; [apply list_lookup_insert_eq; done|done|done].
    + intros j m Hj. apply slot_of_insert; [done|]. intros ->.
      destruct Hj as (_ & b & ? & _ & Hr). simplify_eq.
Qed.

(** The client's store to [b->data] and [bio_write]. *)
Lemma bio_update_spec dk held s i n l :
  bc_inv dk held s → n ∈ held → slot_of i n s → length l = BSIZE → Forall is_byte l →
  ∃ s', (buf_set i l ;; bio_write i) s = Ret tt s' ∧ bc_inv (upd_block n l dk) held s' ∧
    ∀ j m, slot_of j m s → slot_of j m s'.
Proof.
  intros I Hin Hs Hl Hb. pose proof Hs as (H0 & b & Hi & Hbn & Hr).
  destruct (slot_busy _ _ _ _ _ _ I Hs Hi) as [B _].
  assert (Hlt : (i < length (bc_buf s))%nat) by (by eapply lookup_lt_Some).
  destruct (bc_dev_write n l (bc_hart s) (bc_lk s) (<[i := set_data l b]> (bc_buf s)) (bc_disk s))
    as (d' & Ew & Hd' & Hb'); [apply I|apply I|rewrite <- Hbn; apply B|done|done|].
  eexists (BCache _ _ (<[i := Buf l n (b_ref b) (b_dirty b) 1]> (bc_buf s)) d'). split_and!.
  - unfold buf_set. rewrite pbind_assoc, (pbind_ok _ _ _ _ _ (buf_at_run _ _ _ Hi)).
    rewrite (pbind_ok _ _ _ _ _ (upd_buf_run _ _ _ _ Hi)). unfold bio_write, with_buf.
    erewrite pbind_ok; [|apply buf_at_run; cbn [bc_buf]; by apply list_lookup_insert_eq].
    cbn [set_data b_bno b_data]. rewrite Hbn, (pbind_ok _ _ _ _ _ Ew). cbn [fst snd].
    erewrite pbind_ok; [|apply upd_buf_run; cbn [bc_buf]; by apply list_lookup_insert_eq].
    unfold with_buf. cbn [bc_hart bc_lk bc_buf bc_disk]. rewrite list_insert_insert_eq.
    erewrite upd_buf_run; [|cbn [bc_buf]; by apply list_lookup_insert_eq].
    unfold with_buf. cbn [bc_hart bc_lk bc_buf bc_disk]. rewrite list_insert_insert_eq.
    unfold set_data, set_valid. cbn [b_data b_bno b_ref b_dirty]. by rewrite Hbn.
  - eapply bc_inv_slot; try exact I; try done.
    + rewrite <- (bi_len _ _ _ I). done.
    + apply touched_ok, I.
    + apply I.
    + intros m. rewrite Hb'. unfold upd_block. by rewrite (bi_block _ _ _ I).
    + right. destruct B as [B1 B2 B3 B4 B5]. rewrite Hbn in *. split; cbn; try done.
      unfold upd_block. by rewrite decide_True.
    + intros j c Hj Hc Hrc.
      assert (b_bno c ≠ n) by (intros E; apply Hj; eapply (bi_uniq _ _ _ I); [exact Hc|exact Hi|done|congruence]).
      split_and!; [|done|done]. unfold upd_block. by rewrite decide_False.
    + intros m Hm. destruct (decide (m = n)) as [->|Hne]; [by left|right].
      destruct (bi_held _ _ _ I m Hm) as (j & c & Hj & ? & Hrc). exists j, c. split_and!; try done.
      intros ->. simplify_eq.
    + apply I.
  - intros j m Hj. apply slot_of_insert; [done|]. intros ->.
    destruct (slot_busy _ _ _ _ _ _ I Hj Hi) as [_ ?]. cbn. split; [congruence|done].
Qed.

(** The state [bio_free] leaves when [b] was in slot [i]. *)
Definition freed (b : buf) : buf := if b_ref b - 1 =? 0 then buf_zero else set_ref (b_ref b - 1) b.

Lemma bio_free_run s i b :
  hart_ok (bc_hart s) → free_lock (bc_lk s) → bc_buf s !! i = Some b → 0 < b_ref b < 2 ^ 32 →
  bio_free i s = Ret tt (BCache (touched (bc_hart s)) lock_init (<[i := freed b]> (bc_buf s)) (bc_disk s)).
Proof.
  intros Hh Hlk Hi Hr. assert (Hlt : (i < length (bc_buf s))%nat) by (by eapply lookup_lt_Some).
  unfold bio_free. rewrite (pbind_ok _ _ _ _ _ (acquire_bc s Hh Hlk)).
  rewrite (pbind_ok _ _ _ _ _ (buf_at_run i b (BCache (entered (bc_hart s)) _ (bc_buf s) (bc_disk s)) Hi)).
  destruct (b_ref b =? 0) eqn:E0; [lia|]. prog_step.
  erewrite pbind_ok; [|by apply upd_buf_run]. unfold with_buf. cbn [bc_hart bc_lk bc_buf bc_disk].
  erewrite pbind_ok; [|apply buf_at_run; cbn [bc_buf]; by apply list_lookup_insert_eq].
  rewrite u32_small by lia. cbn [set_ref b_ref]. unfold freed.
  destruct (b_ref b - 1 =? 0) eqn:E1.
  - erewrite pbind_ok; [|apply upd_buf_run; cbn [bc_buf]; by apply list_lookup_insert_eq].
    unfold with_buf. cbn [bc_hart bc_lk bc_buf bc_disk]. rewrite list_insert_insert_eq.
    by apply release_bc.
  - prog_step. by apply release_bc.
Qed.

Lemma bio_free_spec dk held s i n :
  bc_inv dk (n :: held) s → slot_of i n s →
  ∃ s', bio_free i s = Ret tt s' ∧ bc_inv dk held s' ∧
    ∀ j m, m ∈ held → slot_of j m s → slot_of j m s'.
Proof.
  intros I Hs. pose proof Hs as (H0 & b & Hi & Hbn & Hr).
  destruct (slot_busy _ _ _ _ _ _ I Hs Hi) as [B _]. pose proof (bi_few _ _ _ I) as Hfew. cbn [length] in Hfew.
  pose proof (nref_bound n held) as Hnb.
  assert (Eref : b_ref b = nref held n + 1).
  { rewrite (busy_ref _ _ _ B), Hbn, nref_cons, decide_True; done. }
  assert (Hfr : (nref held n = 0 ∧ freed b = buf_zero) ∨
                (nref held n ≠ 0 ∧ freed b = set_ref (nref held n) b)).
  { unfold freed. rewrite Eref. replace (nref held n + 1 - 1) with (nref held n) by lia.
    destruct (nref held n =? 0) eqn:E; [left|right]; split; (done || lia). }
  eexists. split_and!; [apply (bio_free_run s i b); [apply I|apply I|done|lia]| |].
  - eapply bc_inv_slot; try exact I; try done; try apply I.
    + rewrite <- (bi_len _ _ _ I). by eapply lookup_lt_Some.
    + destruct Hfr as [[_ ->]|[Hne ->]]; [by left|right].
      destruct B as [B1 B2 B3 B4 B5]. split; cbn; try done. by rewrite Hbn.
    + intros j c Hj Hc Hrc.
      assert (b_bno c ≠ n) by (intros E; apply Hj; eapply (bi_uniq _ _ _ I); [exact Hc|exact Hi|done|congruence]).
      split_and!; [done| |].
      * rewrite nref_cons, decide_False by done. lia.
      * destruct Hfr as [[_ ->]|[_ ->]]; cbn; [|congruence].
        destruct (bi_slot _ _ _ I _ _ Hc) as [->|Bc]; [done|apply Bc].
    + intros m Hm. destruct (decide (m = n)) as [->|Hne].
      * left. destruct Hfr as [[Hz _]|[Hne ->]]; [|done]. by apply count_occ_0 in Hz.
      * right. destruct (bi_held _ _ _ I m) as (j & c & Hj & ? & Hrc); [by constructor|].
        exists j, c. split_and!; try done. intros ->. simplify_eq.
    + lia.
  - intros j m Hm Hj. apply slot_of_insert; [done|]. intros ->.
    destruct (slot_busy _ _ _ _ _ _ I Hj Hi) as [_ E]. assert (m = n) as -> by congruence.
    apply nref_in in Hm. destruct Hfr as [[? _]|[_ ->]]; [done|]. done.
Qed.

Lemma buf_data_spec dk held s i n :
  bc_inv dk held s → n ∈ held → slot_of i n s → buf_data i s = Ret (dk n) s.
Proof.
  intros I Hin Hs. pose proof Hs as (_ & b & Hi & _).
  destruct (slot_busy _ _ _ _ _ _ I Hs Hi) as [B <-]. unfold buf_data.
  rewrite (pbind_ok _ _ _ _ _ (buf_at_run _ _ _ Hi)). by rewrite (busy_data _ _ _ B).
Qed.

Lemma bc_inv_perm dk held held' s : held ≡ₚ held' → bc_inv dk held s → bc_inv dk held' s.
Proof.
  intros Hp [I1 I2 I3 I4 I5 I6 I7 I8 I9].
  assert (Hn : ∀ n, nref held' n = nref held n).
  { intros n. unfold nref. f_equal. symmetry. by apply (Permutation_count_occ Z.eq_dec). }
  split; try done.
  - intros i b Hi. destruct (I6 i b Hi) as [->|[B1 B2 B3 B4 B5]]; [by left|right].
    split; try done. by rewrite Hn.
  - intros n Hin. apply I8. by rewrite Hp.
  - by rewrite <- Hp.
Qed.
End runs.

(** ** The cache keeps its promise *)

Section impl.
Context {D : Type} {Hdev : BlockDev D} {Hdok : BlockDevOk D}.

Definition bc_hart_of : lens (bcache D) hart :=
  Lens bc_hart (λ h s, BCache h (bc_lk s) (bc_buf s) (bc_disk s)).

#[export] Instance bcache_cache : BlockCache (bcache D) := {|
  bread := bio_read;
  bwrite := bio_write;
  bfree := bio_free;
  bdata := buf_data;
  bset := buf_set;
  chart := bc_hart_of;
  cached := bc_inv;
  handle := slot_of
|}.

#[export] Instance bcache_cache_ok : BlockCacheOk (bcache D).
Proof.
  split; cbn [bread bwrite bfree bdata bset chart cached handle bcache_cache].
  - split; by intros; destruct s.
  - intros dk held s I. apply I.
  - intros dk held s h [] ?. by split.
  - by intros i n s h.
  - intros dk held s n I. rewrite <- (bi_block _ _ _ I). apply block_ok, I.
  - intros dk held held' s. apply bc_inv_perm.
  - apply bio_read_spec.
  - apply buf_data_spec.
  - apply bio_update_spec.
  - apply bio_free_spec.
Qed.
End impl.

(** ** A disk to try it on *)

(** Blocks that were never written are zero; transfers take effect at once. *)
Record memdisk := MemDisk { md_blocks : gmap Z bytes }.

Definition md_block (d : memdisk) (n : Z) : bytes := default (replicate BSIZE 0) (md_blocks d !! n).

Definition good_block (l : bytes) : Prop := length l = BSIZE ∧ Forall is_byte l.

#[export] Instance memdisk_dev : BlockDev memdisk := {|
  virtio_blk_op n buf op := λ s,
    match op with
    | DREAD => Ret (0, md_block (snd s) n) (touched (fst s), snd s)
    | DWRITE => Ret (0, buf) (touched (fst s), MemDisk (<[n := buf]> (md_blocks (snd s))))
    end;
  block := md_block;
  dev_ok d := map_Forall (λ _ l, good_block l) (md_blocks d)
|}.

Lemma zero_block : good_block (replicate BSIZE 0).
Proof. split; [apply length_replicate|]. apply Forall_replicate. by vm_compute. Qed.

#[export] Instance memdisk_dev_ok : BlockDevOk memdisk.
Proof.
  split; cbn [virtio_blk_op block dev_ok memdisk_dev].
  - intros d n Hd. unfold md_block. destruct (md_blocks d !! n) as [l|] eqn:E; [by apply Hd in E|].
    apply zero_block.
  - intros h d n buf Hd _ _ _. by exists d.
  - intros h d n buf Hd _ _ Hl Hb. eexists. split_and!; [done| |].
    + cbn. by apply map_Forall_insert_2.
    + intros n'. unfold md_block. cbn. case_decide as E.
      * subst. by rewrite lookup_insert_eq.
      * by rewrite lookup_insert_ne.
Qed.

Definition empty_cache : bcache memdisk :=
  BCache (Hart 0 0 false true) lock_init (replicate NBUF buf_zero) (MemDisk ∅).

Lemma buf_init_inv {D} `{BlockDev D} (h : hart) lk bs (d : D) dk :
  hart_ok h → dev_ok d → (∀ n, block d n = dk n) → bc_inv dk [] (BCache h lock_init (replicate NBUF buf_zero) d) ∧
  buf_init (BCache h lk bs d) = Ret tt (BCache h lock_init (replicate NBUF buf_zero) d).
Proof.
  intros Hh Hd Hdk. split; [|done]. split; cbn [bc_hart bc_lk bc_buf bc_disk]; try done.
  - intros i b Hb%lookup_replicate. left. by apply Hb.
  - intros i j b c Hb%lookup_replicate _ Hr. by destruct Hb as [-> _].
  - intros n Hn. by apply elem_of_nil in Hn.
Qed.

(** Blocks are not kept apart from free buffers when their number is 0: the
    second request for block 0 is given another buffer than the first. *)
Example block_0_aliased :
  match (bio_read 5 ;; _ <- bio_read 0 ;; bio_free 0 ;; j <- bio_read 0 ;; ret j) empty_cache with
  | Ret j s => j = 0%nat ∧ b_ref <$> take 2 (bc_buf s) = [1; 1] ∧ b_bno <$> take 2 (bc_buf s) = [0; 0]
  | _ => False
  end.
Proof. by vm_compute. Qed.

Module BufProps.

Implicit Types (dk : Z → bytes) (n : Z) (l : bytes).



(** Where the cache gives up. [buf_init] empties it; when every buffer is
    in use for other blocks, [bio_read] panics; giving back a buffer nobody
    holds panics; and the last [bio_free] of a block clears its buffer. *)
Theorem buffer_limits {D} `{BlockDevOk D} (s : bcache D) dk held n i b :
  bc_inv dk held s →
  (n ≠ 0 → (∀ j c, bc_buf s !! j = Some c → b_ref c ≠ 0 ∧ b_bno c ≠ n) → bio_read n s = Panic "buf") ∧
  (bc_buf s !! i = Some b → b_ref b = 0 → bio_free i s = Panic "bio_free") ∧
  (bc_buf s !! i = Some b → b_ref b = 1 →
    ∃ s', bio_free i s = Ret tt s' ∧ bc_buf s' = <[i := buf_zero]> (bc_buf s)) ∧
  ∃ s', buf_init s = Ret tt s' ∧ bc_inv dk [] s'.
Proof.
  intros I. split_and!.
  - intros H0' Hall. unfold bio_read, get_buf, first_buf. apply pbind_panic.
    rewrite (pbind_ok _ _ _ _ _ (acquire_bc s (bi_hart _ _ _ I) (bi_lock _ _ _ I))).
    prog_step. cbn [bc_buf]. rewrite (proj2 (list_find_None _ (bc_buf s))); [|by apply Forall_lookup; intros j c Hc; apply (Hall j)].
    cbn [fmap option_fmap option_map]. prog_step. cbn [bc_buf].
    rewrite (proj2 (list_find_None _ (bc_buf s))); [done|]. apply Forall_lookup. intros j c Hc. by apply (Hall j).
  - intros Hi Hr. unfold bio_free.
    rewrite (pbind_ok _ _ _ _ _ (acquire_bc s (bi_hart _ _ _ I) (bi_lock _ _ _ I))).
    erewrite pbind_ok; [|by apply buf_at_run]. by rewrite Hr.
  - intros Hi Hr. eexists. split; [apply (bio_free_run s i b); [apply I|apply I|done|lia]|].
    cbn. unfold freed. by rewrite Hr.
  - destruct s as [h lk bs d]. eexists. split; [done|].
    apply (buf_init_inv h lk bs d dk); apply I.
Qed.

Lemma buffer_limits_witness :
  bio_free 3 empty_cache = Panic "bio_free" ∧ ∃ s', buf_init empty_cache = Ret tt s'.
Proof.
  assert (I : bc_inv (block (MemDisk ∅)) [] empty_cache).
  { apply buf_init_inv with (lk := lock_init) (bs := []); [by vm_compute|by vm_compute|done]. }
  destruct (buffer_limits empty_cache _ [] 7 3 buf_zero I) as (_ & H1 & _ & s' & H2 & _).
  split; [apply H1; reflexivity|]. exists s'. exact H2.
Defined.

End BufProps.
