(* ===== verification/Irq.v ===== *)
(** * Interrupt handlers (the table of kernel/trap.c)

    The functions that the drivers register are the constructors of [irqfn]. *)

From S2P Require Import Prelude.
Open Scope Z_scope.
Open Scope prog_scope.

Inductive irqfn := DefaultHandler | TimerIntr | UartIntr | VirtioBlkIntr.

#[export] Instance irqfn_eq_dec : EqDecision irqfn.
Proof. solve_decision. Defined.

Definition NIRQ : nat := 1024.
Definition TIMER_IRQ : Z := 27.
Definition UART_IRQ : Z := 33.
Definition VIRTIO_BLK_IRQ : Z := 48.

Definition trap_init : list irqfn := replicate NIRQ DefaultHandler.

Definition new_irq (intid : Z) (handler : irqfn) : prog (list irqfn) unit :=
  if intid <? NIRQ then
    if intid <? 0 then fault "irqhandler[]" else modify (<[Z.to_nat intid := handler]>)
  else ret tt.
