(* ===== verification/Gic.v ===== *)
(** * The interrupt controller (kernel/driver/gicv3.c)

    The driver is a set of register programs.  What the registers mean is in
    the types [dreg] and [rreg] with their [_get] and [_put] functions, after the
    GIC architecture; the class [Gic] is a device that the driver reads and
    writes by offset, and [GicOk] says that it behaves so. *)

From S2P Require Import Prelude Irq.
Open Scope Z_scope.
Open Scope prog_scope.

(** ** Register offsets *)

Definition GICD_CTLR : Z := 0x0.
Definition GICD_IGROUPR (n : Z) : Z := 0x80 + n * 4.
Definition GICD_ISENABLER (n : Z) : Z := 0x100 + n * 4.
Definition GICD_ICPENDR (n : Z) : Z := 0x280 + n * 4.
Definition GICD_IPRIORITYR (n : Z) : Z := 0x400 + n * 4.
Definition GICD_ITARGETSR (n : Z) : Z := 0x800 + n * 4.

Definition GICR_CTLR : Z := 0x0.
Definition GICR_WAKER : Z := 0x14.
Definition SGI_BASE : Z := 0x10000.
Definition GICR_IGROUPR0 : Z := SGI_BASE + 0x80.
Definition GICR_ISENABLER0 : Z := SGI_BASE + 0x100.
Definition GICR_ICPENDR0 : Z := SGI_BASE + 0x280.
Definition GICR_IPRIORITYR (n : Z) : Z := SGI_BASE + 0x400 + n * 4.
Definition GICR_ICFGR1 : Z := SGI_BASE + 0xc04.
Definition GICR_IGRPMODR0 : Z := SGI_BASE + 0xd00.

(** System registers of the CPU interface. *)
Inductive iccreg := ICC_IGRPEN1 | ICC_PMR | ICC_SRE | ICC_IAR1 | ICC_EOIR1.

Definition NCPU : nat := 16.

(** A controller; [cpu] is the redistributor, or the CPU that runs. *)
Class Gic (D : Type) := {
  gicd_read : Z → prog D Z;
  gicd_write : Z → Z → prog D unit;
  gicr_read : Z → Z → prog D Z;
  gicr_write : Z → Z → Z → prog D unit;
  icc_read : Z → iccreg → prog D Z;
  icc_write : Z → iccreg → Z → prog D unit
}.

Section driver.
Context {D : Type} {HD : Gic D}.

Definition wd32 (off val : Z) : prog D unit := gicd_write (u32 off) (u32 val).
Definition rd32 (off : Z) : prog D Z := r <- gicd_read (u32 off) ;; ret (u32 r).
(** [gicv3.rdist_addrs] has [NCPU] elements. *)
Definition no_rdist (cpuid : Z) : bool := negb ((0 <=? cpuid) && (cpuid <? NCPU)).
Definition wr32 (cpuid off val : Z) : prog D unit :=
  if no_rdist cpuid then fault "rdist_addrs[]" else gicr_write cpuid (u32 off) (u32 val).
Definition rr32 (cpuid off : Z) : prog D Z :=
  if no_rdist cpuid then fault "rdist_addrs[]" else r <- gicr_read cpuid (u32 off) ;; ret (u32 r).

(** [1 << (intid % 32)] *)
Definition int_bit (intid : Z) : Z := u32 (Z.shiftl 1 (intid mod 32)).
(** [~((u32)0xff << (intid % 4 * 8))] *)
Definition byte_mask (intid : Z) : Z := u32 (Z.lnot (u32 (Z.shiftl 0xff (intid mod 4 * 8)))).

Definition is_sgi_ppi (id : Z) : bool := (0 <=? id) && (id <? 32).

Definition gic_enable_int (intid : Z) : prog D unit :=
  w <- rd32 (GICD_ISENABLER (intid / 32)) ;;
  wd32 (GICD_ISENABLER (intid / 32)) (Z.lor w (int_bit intid)).

Definition gicr_enable_int (cpuid intid : Z) : prog D unit :=
  if negb (is_sgi_ppi intid) then panic "gicr_enable_int" else
  w <- rr32 cpuid GICR_ISENABLER0 ;;
  wr32 cpuid GICR_ISENABLER0 (Z.lor w (int_bit intid)).

Definition gic_clear_pending (intid : Z) : prog D unit :=
  ic <- rd32 (GICD_ICPENDR (intid / 32)) ;;
  wd32 (GICD_ICPENDR (intid / 32)) (Z.lor ic (int_bit intid)).

Definition gicr_clear_pending (cpuid intid : Z) : prog D unit :=
  if negb (is_sgi_ppi intid) then panic "gicr_clear_pending" else
  ic <- rr32 cpuid GICR_ICPENDR0 ;;
  wr32 cpuid GICR_ICPENDR0 (Z.lor ic (int_bit intid)).

Definition gic_set_prio (intid prio : Z) : prog D unit :=
  p <- rd32 (GICD_IPRIORITYR (intid / 4)) ;;
  wd32 (GICD_IPRIORITYR (intid / 4)) (Z.land p (byte_mask intid)).

Definition gicr_set_prio (cpuid intid prio : Z) : prog D unit :=
  if negb (is_sgi_ppi intid) then panic "gicr_set_prio" else
  p <- rr32 cpuid (GICR_IPRIORITYR (intid / 4)) ;;
  wr32 cpuid (GICR_IPRIORITYR (intid / 4)) (Z.land p (byte_mask intid)).

Definition gic_set_target (intid cpuid : Z) : prog D unit :=
  t <- rd32 (GICD_ITARGETSR (intid / 4)) ;;
  wd32 (GICD_ITARGETSR (intid / 4))
    (Z.lor (Z.land t (byte_mask intid)) (u32 (Z.shiftl (u32 (Z.shiftl 1 cpuid)) (intid mod 4 * 8)))).

(** [while((ctlr >> 3) & 1);] does not read the register again. *)
Definition gicr_wait_rwp (cpuid : Z) : prog D unit :=
  ctlr <- rr32 cpuid GICR_CTLR ;;
  if nz (Z.land (Z.shiftr ctlr 3) 1) then λ _, Hang else ret tt.

Definition gic_setup_ppi (cpu intid prio : Z) : prog D unit :=
  gicr_set_prio cpu intid prio ;;
  gicr_clear_pending cpu intid ;;
  gicr_enable_int cpu intid.

Definition gic_setup_spi (intid prio : Z) : prog D unit :=
  gic_set_prio intid prio ;;
  gic_set_target intid 0 ;;
  gic_clear_pending intid ;;
  gic_enable_int intid.

Definition gic_cpu_init (cpu : Z) : prog D unit :=
  icc_write cpu ICC_IGRPEN1 0 ;;
  icc_write cpu ICC_PMR 0xff.

Fixpoint group_loop (cnt : nat) (i : Z) : prog D unit :=
  match cnt with
  | O => ret tt
  | S cnt => wd32 (GICD_IGROUPR i) (Z.lnot 0) ;; group_loop cnt (i + 1)
  end.

Definition gic_dist_init : prog D unit :=
  wd32 GICD_CTLR 0 ;;
  group_loop 32 0.

(** [while(rr32(cpuid, GICR_WAKER) & (1<<2));] *)
Fixpoint wait_awake (fuel : nat) (cpuid : Z) : prog D unit :=
  match fuel with
  | O => λ _, Hang
  | S fuel => w <- rr32 cpuid GICR_WAKER ;; if nz (Z.land w (Z.shiftl 1 2)) then wait_awake fuel cpuid else ret tt
  end.

Definition gic_redist_init (fuel : nat) (cpuid : Z) : prog D unit :=
  wr32 cpuid GICR_CTLR 0 ;;
  sre <- icc_read cpuid ICC_SRE ;;
  icc_write cpuid ICC_SRE (Z.lor sre 1) ;;
  wr32 cpuid GICR_IGROUPR0 (Z.lnot 0) ;;
  wr32 cpuid GICR_IGRPMODR0 0 ;;
  wr32 cpuid GICR_ICFGR1 0 ;;
  waker <- rr32 cpuid GICR_WAKER ;;
  wr32 cpuid GICR_WAKER (Z.land waker (Z.lnot (Z.shiftl 1 1))) ;;
  wait_awake fuel cpuid.

Definition gic_enable (cpu : Z) : prog D unit :=
  wd32 GICD_CTLR 3 ;;
  icc_write cpu ICC_IGRPEN1 1.

Definition gicv3_init_percpu (fuel : nat) (cpu : Z) : prog D unit :=
  gic_cpu_init cpu ;;
  gic_dist_init ;;
  gic_redist_init fuel cpu ;;
  gic_setup_ppi cpu TIMER_IRQ 0 ;;
  gic_enable cpu.

(** The addresses of the distributor and the redistributors, which [gicv3_init]
    also sets, are what [wd32] and [wr32] go through. *)
Definition gicv3_init : prog D unit :=
  gic_setup_spi UART_IRQ 0 ;;
  gic_setup_spi VIRTIO_BLK_IRQ 0.

Definition gic_enabled (cpu : Z) : prog D bool :=
  g <- icc_read cpu ICC_IGRPEN1 ;;
  if nz (Z.land g 1) then c <- rd32 GICD_CTLR ;; ret (nz (Z.land c 1)) else ret false.

Definition gic_iar (cpu : Z) : prog D Z := icc_read cpu ICC_IAR1.
Definition gic_eoi (cpu iar : Z) : prog D unit := icc_write cpu ICC_EOIR1 iar.
End driver.

(** ** What the registers mean *)

(** The distributor; words indexed as the registers are. *)
Record dist := Dist {
  d_ctlr : Z; d_group : Z → Z; d_enable : Z → Z; d_pend : Z → Z; d_prio : Z → Z; d_target : Z → Z
}.

(** A redistributor; [r_asleep] is for how many more reads ChildrenAsleep stays
    set once ProcessorSleep is clear. *)
Record redist := Redist {
  r_ctlr : Z; r_sleep : bool; r_asleep : nat; r_group : Z; r_grpmod : Z; r_cfg1 : Z;
  r_enable : Z; r_pend : Z; r_prio : Z → Z
}.

(** The interface of a CPU. *)
Record cpuif := Cpuif { c_grpen1 : Z; c_pmr : Z; c_sre : Z }.

Record gicv := Gicv { g_dist : dist; g_redist : Z → redist; g_cpu : Z → cpuif }.

Definition upd {A} (i : Z) (x : A) (f : Z → A) : Z → A := λ j, if decide (j = i) then x else f j.

Lemma upd_eq {A} i (x : A) f : upd i x f i = x.
Proof. unfold upd. by rewrite decide_True. Qed.
Lemma upd_ne {A} i j (x : A) f : j ≠ i → upd i x f j = f j.
Proof. intros. unfold upd. by rewrite decide_False. Qed.

Inductive dreg := D_CTLR | D_GROUP (n : Z) | D_ENABLE (n : Z) | D_CLRPEND (n : Z) | D_PRIO (n : Z) | D_TARGET (n : Z).

Definition dreg_ok (r : dreg) : Prop :=
  match r with
  | D_CTLR => True
  | D_GROUP n | D_ENABLE n | D_CLRPEND n => 0 <= n < 32
  | D_PRIO n | D_TARGET n => 0 <= n < 256
  end.

Definition dreg_off (r : dreg) : Z :=
  match r with
  | D_CTLR => GICD_CTLR | D_GROUP n => GICD_IGROUPR n | D_ENABLE n => GICD_ISENABLER n
  | D_CLRPEND n => GICD_ICPENDR n | D_PRIO n => GICD_IPRIORITYR n | D_TARGET n => GICD_ITARGETSR n
  end.

(** A read of ICPENDR gives the pending bits. *)
Definition dreg_get (r : dreg) (d : dist) : Z :=
  match r with
  | D_CTLR => d_ctlr d | D_GROUP n => d_group d n | D_ENABLE n => d_enable d n
  | D_CLRPEND n => d_pend d n | D_PRIO n => d_prio d n | D_TARGET n => d_target d n
  end.

(** A 1 written to ISENABLER enables, a 1 written to ICPENDR clears. *)
Definition dreg_put (r : dreg) (v : Z) (d : dist) : dist :=
  let '(Dist c g e p i t) := d in
  match r with
  | D_CTLR => Dist v g e p i t
  | D_GROUP n => Dist c (upd n v g) e p i t
  | D_ENABLE n => Dist c g (upd n (Z.lor (e n) v) e) p i t
  | D_CLRPEND n => Dist c g e (upd n (Z.ldiff (p n) v) p) i t
  | D_PRIO n => Dist c g e p (upd n v i) t
  | D_TARGET n => Dist c g e p i (upd n v t)
  end.

Inductive rreg := R_CTLR | R_WAKER | R_GROUP | R_GRPMOD | R_CFG1 | R_ENABLE | R_CLRPEND | R_PRIO (n : Z).

Definition rreg_ok (r : rreg) : Prop := match r with R_PRIO n => 0 <= n < 8 | _ => True end.

Definition rreg_off (r : rreg) : Z :=
  match r with
  | R_CTLR => GICR_CTLR | R_WAKER => GICR_WAKER | R_GROUP => GICR_IGROUPR0 | R_GRPMOD => GICR_IGRPMODR0
  | R_CFG1 => GICR_ICFGR1 | R_ENABLE => GICR_ISENABLER0 | R_CLRPEND => GICR_ICPENDR0 | R_PRIO n => GICR_IPRIORITYR n
  end.

Definition waker_word (d : redist) : Z :=
  Z.lor (if r_sleep d then 2 else 0) (match r_asleep d with O => 0 | _ => 4 end).

Definition rreg_get (r : rreg) (d : redist) : Z :=
  match r with
  | R_CTLR => r_ctlr d | R_WAKER => waker_word d | R_GROUP => r_group d | R_GRPMOD => r_grpmod d
  | R_CFG1 => r_cfg1 d | R_ENABLE => r_enable d | R_CLRPEND => r_pend d | R_PRIO n => r_prio d n
  end.

(** Time passes while WAKER is polled. *)
Definition rreg_after (r : rreg) (d : redist) : redist :=
  let '(Redist c s a g m f e p i) := d in
  match r with R_WAKER => if s then d else Redist c s (Nat.pred a) g m f e p i | _ => d end.

Definition rreg_put (r : rreg) (v : Z) (d : redist) : redist :=
  let '(Redist c s a g m f e p i) := d in
  match r with
  | R_CTLR => Redist v s a g m f e p i
  | R_WAKER => Redist c (Z.testbit v 1) a g m f e p i
  | R_GROUP => Redist c s a v m f e p i
  | R_GRPMOD => Redist c s a g v f e p i
  | R_CFG1 => Redist c s a g m v e p i
  | R_ENABLE => Redist c s a g m f (Z.lor e v) p i
  | R_CLRPEND => Redist c s a g m f e (Z.ldiff p v) i
  | R_PRIO n => Redist c s a g m f e p (upd n v i)
  end.

Definition on_dist (f : dist → dist) (g : gicv) : gicv := Gicv (f (g_dist g)) (g_redist g) (g_cpu g).
Definition on_redist (cpu : Z) (f : redist → redist) (g : gicv) : gicv :=
  Gicv (g_dist g) (upd cpu (f (g_redist g cpu)) (g_redist g)) (g_cpu g).
Definition on_cpu (cpu : Z) (f : cpuif → cpuif) (g : gicv) : gicv :=
  Gicv (g_dist g) (g_redist g) (upd cpu (f (g_cpu g cpu)) (g_cpu g)).

Definition icc_put (r : iccreg) (v : Z) (c : cpuif) : cpuif :=
  match r with
  | ICC_IGRPEN1 => Cpuif v (c_pmr c) (c_sre c)
  | ICC_PMR => Cpuif (c_grpen1 c) v (c_sre c)
  | ICC_SRE => Cpuif (c_grpen1 c) (c_pmr c) v
  | _ => c
  end.
Definition icc_get (r : iccreg) (c : cpuif) : option Z :=
  match r with ICC_IGRPEN1 => Some (c_grpen1 c) | ICC_PMR => Some (c_pmr c) | ICC_SRE => Some (c_sre c) | _ => None end.

Class GicOk (D : Type) `{Gic D} := {
  gview : D → gicv;
  gicd_read_ok : ∀ r s, dreg_ok r → ∃ s', gicd_read (dreg_off r) s = Ret (dreg_get r (g_dist (gview s))) s' ∧ gview s' = gview s;
  gicd_write_ok : ∀ r v s, dreg_ok r → ∃ s', gicd_write (dreg_off r) v s = Ret tt s' ∧ gview s' = on_dist (dreg_put r v) (gview s);
  gicr_read_ok : ∀ cpu r s, 0 <= cpu < NCPU → rreg_ok r → ∃ s', gicr_read cpu (rreg_off r) s = Ret (rreg_get r (g_redist (gview s) cpu)) s' ∧
    gview s' = on_redist cpu (rreg_after r) (gview s);
  gicr_write_ok : ∀ cpu r v s, 0 <= cpu < NCPU → rreg_ok r → ∃ s', gicr_write cpu (rreg_off r) v s = Ret tt s' ∧
    gview s' = on_redist cpu (rreg_put r v) (gview s);
  icc_read_ok : ∀ cpu r v s, icc_get r (g_cpu (gview s) cpu) = Some v → ∃ s', icc_read cpu r s = Ret v s' ∧ gview s' = gview s;
  icc_write_ok : ∀ cpu r v s, ∃ s', icc_write cpu r v s = Ret tt s' ∧ gview s' = on_cpu cpu (icc_put r v) (gview s)
}.

(** ** Bits and bytes of registers *)

Definition byte_of (w k : Z) : Z := Z.land (Z.shiftr w (8 * k)) (Z.ones 8).

Section bits.
Implicit Types (w v i j k b : Z).

Lemma u32_bit w b : 0 <= b < 32 → Z.testbit (u32 w) b = Z.testbit w b.
Proof. intros. unfold u32. by rewrite Z.mod_pow2_bits_low by lia. Qed.

Lemma int_bit_at i b : 0 <= b < 32 → Z.testbit (int_bit i) b = (b =? i mod 32).
Proof.
  intros Hb. unfold int_bit. rewrite u32_bit, Z.shiftl_spec by lia. destruct (Z.eqb_spec b (i mod 32)) as [->|Hne].
  - by rewrite Z.sub_diag.
  - destruct (Z.leb_spec 0 (b - i mod 32)); [|by rewrite Z.testbit_neg_r].
    by rewrite (Z.bits_above_log2 1 (b - i mod 32)) by (simpl; lia).
Qed.

Lemma byte_ext w v k j : 0 <= j → 0 <= k → (∀ b, 0 <= b < 8 → Z.testbit w (8 * k + b) = Z.testbit v (8 * j + b)) → byte_of w k = byte_of v j.
Proof.
  intros Hj Hk H. apply Z.bits_inj'. intros b Hb. unfold byte_of. rewrite !Z.land_spec, !Z.shiftr_spec, Z.testbit_ones_nonneg by lia.
  destruct (Z.ltb_spec b 8); [|by rewrite !andb_false_r]. rewrite !andb_true_r, (Z.add_comm b (8 * k)), (Z.add_comm b (8 * j)).
  apply H. lia.
Qed.

Lemma mask_bit i k b : 0 <= k < 4 → 0 <= b < 8 → Z.testbit (byte_mask i) (8 * k + b) = negb (k =? i mod 4).
Proof.
  intros Hk Hb. pose proof (Z.mod_pos_bound i 4 ltac:(lia)) as Hm. unfold byte_mask.
  rewrite u32_bit, Z.lnot_spec, u32_bit, Z.shiftl_spec by lia. f_equal. change 0xff with (Z.ones 8).
  destruct (Z.eqb_spec k (i mod 4)) as [->|Hne].
  - rewrite Z.testbit_ones_nonneg by lia. apply Z.ltb_lt. lia.
  - destruct (Z.leb_spec 0 (8 * k + b - i mod 4 * 8)); [|by rewrite Z.testbit_neg_r].
    rewrite Z.testbit_ones_nonneg by lia. apply Z.ltb_ge. lia.
Qed.

Lemma clear_byte w i k : 0 <= k < 4 → byte_of (u32 (Z.land (u32 w) (byte_mask i))) k = if k =? i mod 4 then 0 else byte_of w k.
Proof.
  intros Hk. destruct (Z.eqb_spec k (i mod 4)) as [E|E].
  - change 0 with (byte_of 0 0). apply byte_ext; [lia..|]. intros b Hb. rewrite u32_bit, Z.land_spec, mask_bit by lia.
    rewrite (proj2 (Z.eqb_eq _ _) E). by rewrite andb_false_r, Z.bits_0.
  - apply byte_ext; [lia..|]. intros b Hb. rewrite u32_bit, Z.land_spec, u32_bit, mask_bit by lia.
    rewrite (proj2 (Z.eqb_neq _ _) E). by rewrite andb_true_r.
Qed.

Lemma target_byte w i k : 0 <= k < 4 →
  byte_of (u32 (Z.lor (Z.land (u32 w) (byte_mask i)) (u32 (Z.shiftl (u32 (Z.shiftl 1 0)) (i mod 4 * 8))))) k =
  if k =? i mod 4 then 1 else byte_of w k.
Proof.
  intros Hk. pose proof (Z.mod_pos_bound i 4 ltac:(lia)) as Hm. change (u32 (Z.shiftl 1 0)) with 1. destruct (Z.eqb_spec k (i mod 4)) as [E|E].
  - change 1 with (byte_of 1 0) at 2. apply byte_ext; [lia..|]. intros b Hb.
    rewrite u32_bit, Z.lor_spec, Z.land_spec, mask_bit, !u32_bit, Z.shiftl_spec by lia. rewrite (proj2 (Z.eqb_eq _ _) E), andb_false_r.
    cbn [orb]. f_equal. lia.
  - apply byte_ext; [lia..|]. intros b Hb. rewrite u32_bit, Z.lor_spec, Z.land_spec, !u32_bit, mask_bit, Z.shiftl_spec by lia.
    rewrite (proj2 (Z.eqb_neq _ _) E), andb_true_r.
    assert (Z.testbit 1 (8 * k + b - i mod 4 * 8) = false) as ->; [|by rewrite orb_false_r].
    destruct (Z.leb_spec 0 (8 * k + b - i mod 4 * 8)); [|by rewrite Z.testbit_neg_r].
    apply Z.bits_above_log2; simpl; lia.
Qed.

Lemma same_index n i j : 0 < n → i / n = j / n → (i mod n =? j mod n) = (i =? j).
Proof.
  intros Hn E. pose proof (Z.div_mod i n ltac:(lia)). pose proof (Z.div_mod j n ltac:(lia)).
  destruct (Z.eqb_spec (i mod n) (j mod n)), (Z.eqb_spec i j); try done; [|by subst]. nia.
Qed.

Lemma other_index n i j : i / n ≠ j / n → (i =? j) = false.
Proof. intros H. apply Z.eqb_neq. by intros ->. Qed.
End bits.

(** ** What the driver does to the controller *)

(** An interrupt of the distributor. *)
Definition enabled (d : dist) (i : Z) : bool := Z.testbit (d_enable d (i / 32)) (i mod 32).
Definition pending (d : dist) (i : Z) : bool := Z.testbit (d_pend d (i / 32)) (i mod 32).
Definition priority (d : dist) (i : Z) : Z := byte_of (d_prio d (i / 4)) (i mod 4).
Definition target (d : dist) (i : Z) : Z := byte_of (d_target d (i / 4)) (i mod 4).

Section runs.
Context {D : Type} {HD : Gic D} {HDok : GicOk D}.
Implicit Types (s : D) (i v : Z).

Lemma off_small r : dreg_ok r → u32 (dreg_off r) = dreg_off r.
Proof.
  intros H. apply u32_small. destruct r; cbn in H |- *; unfold GICD_CTLR, GICD_IGROUPR, GICD_ISENABLER, GICD_ICPENDR, GICD_IPRIORITYR, GICD_ITARGETSR; lia.
Qed.

Lemma rd32_run r s : dreg_ok r → ∃ s', rd32 (dreg_off r) s = Ret (u32 (dreg_get r (g_dist (gview s)))) s' ∧ gview s' = gview s.
Proof.
  intros H. destruct (gicd_read_ok r s H) as (s' & E & V). exists s'. split; [|done]. unfold rd32. by rewrite off_small, (pbind_ok _ _ _ _ _ E).
Qed.

Lemma wd32_run r v s : dreg_ok r → ∃ s', wd32 (dreg_off r) v s = Ret tt s' ∧ gview s' = on_dist (dreg_put r (u32 v)) (gview s).
Proof. intros H. unfold wd32. rewrite off_small by done. by apply gicd_write_ok. Qed.

(** A read, a change of the value, a write. *)
Lemma rmw_run r f s : dreg_ok r → ∃ s', (w <- rd32 (dreg_off r) ;; wd32 (dreg_off r) (f w))%prog s = Ret tt s' ∧
  gview s' = on_dist (dreg_put r (u32 (f (u32 (dreg_get r (g_dist (gview s))))))) (gview s).
Proof.
  intros H. destruct (rd32_run r s H) as (s1 & E1 & V1).
  destruct (wd32_run r (f (u32 (dreg_get r (g_dist (gview s))))) s1 H) as (s2 & E2 & V2).
  exists s2. split; [by rewrite (pbind_ok _ _ _ _ _ E1)|by rewrite V2, V1].
Qed.

Lemma roff_small r : rreg_ok r → u32 (rreg_off r) = rreg_off r.
Proof.
  intros H. apply u32_small. destruct r; cbn in H |- *;
    unfold GICR_CTLR, GICR_WAKER, GICR_IGROUPR0, GICR_IGRPMODR0, GICR_ICFGR1, GICR_ISENABLER0, GICR_ICPENDR0, GICR_IPRIORITYR, SGI_BASE; lia.
Qed.

Lemma rr32_run cpu r s : 0 <= cpu < NCPU → rreg_ok r →
  ∃ s', rr32 cpu (rreg_off r) s = Ret (u32 (rreg_get r (g_redist (gview s) cpu))) s' ∧ gview s' = on_redist cpu (rreg_after r) (gview s).
Proof.
  intros Hc H. destruct (gicr_read_ok cpu r s Hc H) as (s' & E & V). exists s'. split; [|done]. unfold rr32, no_rdist.
  rewrite (proj2 (Z.leb_le 0 cpu)), (proj2 (Z.ltb_lt cpu NCPU)) by lia. cbn [andb negb]. by rewrite roff_small, (pbind_ok _ _ _ _ _ E).
Qed.

Lemma wr32_run cpu r v s : 0 <= cpu < NCPU → rreg_ok r →
  ∃ s', wr32 cpu (rreg_off r) v s = Ret tt s' ∧ gview s' = on_redist cpu (rreg_put r (u32 v)) (gview s).
Proof.
  intros Hc H. unfold wr32, no_rdist. rewrite (proj2 (Z.leb_le 0 cpu)), (proj2 (Z.ltb_lt cpu NCPU)) by lia. cbn [andb negb].
  rewrite roff_small by done. by apply gicr_write_ok.
Qed.

(** From [g] to [g'] only the redistributor of [cpu] changed, into [d]. *)
Definition only_redist (cpu : Z) (g g' : gicv) (d : redist) : Prop :=
  g_dist g' = g_dist g ∧ g_cpu g' = g_cpu g ∧ (∀ c, c ≠ cpu → g_redist g' c = g_redist g c) ∧ g_redist g' cpu = d.

Lemma only_redist_upd cpu f g : only_redist cpu g (on_redist cpu f g) (f (g_redist g cpu)).
Proof. unfold only_redist, on_redist, upd. cbn. split_and!; [done|done|intros c Hc; by rewrite decide_False|by rewrite decide_True]. Qed.

Lemma only_redist_trans cpu g g' g'' d d' : only_redist cpu g g' d → only_redist cpu g' g'' d' → only_redist cpu g g'' d'.
Proof. intros (A1 & A2 & A3 & A4) (B1 & B2 & B3 & B4). split_and!; [by rewrite B1|by rewrite B2|intros c Hc; by rewrite B3, A3|done]. Qed.

(** The same for a redistributor, whose other registers a read leaves alone. *)
Lemma rmwr_run cpu r f s : 0 <= cpu < NCPU → rreg_ok r → r ≠ R_WAKER →
  ∃ s', (w <- rr32 cpu (rreg_off r) ;; wr32 cpu (rreg_off r) (f w))%prog s = Ret tt s' ∧
    only_redist cpu (gview s) (gview s') (rreg_put r (u32 (f (u32 (rreg_get r (g_redist (gview s) cpu))))) (g_redist (gview s) cpu)).
Proof.
  intros Hc H Hw. destruct (rr32_run cpu r s Hc H) as (s1 & E1 & V1).
  destruct (wr32_run cpu r (f (u32 (rreg_get r (g_redist (gview s) cpu)))) s1 Hc H) as (s2 & E2 & V2).
  exists s2. split; [by rewrite (pbind_ok _ _ _ _ _ E1)|].
  assert (Hr : ∀ d, rreg_after r d = d) by (intros []; by destruct r).
  pose proof (only_redist_upd cpu (rreg_after r) (gview s)) as P1. rewrite <- V1, Hr in P1.
  eapply only_redist_trans; [exact P1|]. pose proof P1 as (_ & _ & _ & E). rewrite V2, <- E. apply only_redist_upd.
Qed.

(** A redistributor that is awake. *)
Definition awake (d : redist) : redist :=
  let '(Redist c _ _ g m f e p i) := d in Redist c false 0 g m f e p i.

Lemma wait_awake_run fuel cpu : ∀ s, 0 <= cpu < NCPU → r_sleep (g_redist (gview s) cpu) = false →
  (r_asleep (g_redist (gview s) cpu) < fuel)%nat →
  ∃ s', wait_awake fuel cpu s = Ret tt s' ∧ only_redist cpu (gview s) (gview s') (awake (g_redist (gview s) cpu)).
Proof.
  induction fuel as [|fuel IH]; intros s Hc Hs Hf; [lia|]. cbn [wait_awake].
  destruct (rr32_run cpu R_WAKER s Hc I) as (s1 & E1 & V1). rewrite (pbind_ok _ _ _ _ _ E1).
  pose proof (only_redist_upd cpu (rreg_after R_WAKER) (gview s)) as P. rewrite <- V1 in P.
  destruct (g_redist (gview s) cpu) as [c sl a g m f e p i]. cbn in Hs, Hf. subst sl. cbn [rreg_get waker_word r_sleep r_asleep] in *.
  destruct a as [|a].
  - exists s1. split; [done|exact P].
  - change (nz (Z.land (u32 (Z.lor 0 4)) (Z.shiftl 1 2))) with true. cbn iota. pose proof P as (_ & _ & _ & P4). cbn in P4.
    destruct (IH s1 Hc) as (s2 & E2 & P2); [by rewrite P4|rewrite P4; cbn; lia|]. exists s2. split; [exact E2|].
    rewrite P4 in P2. eapply only_redist_trans; [exact P|exact P2].
Qed.

Lemma group_loop_run (cnt : nat) : ∀ n s, 0 <= n → n + cnt <= 32 →
  ∃ s', group_loop cnt n s = Ret tt s' ∧ g_redist (gview s') = g_redist (gview s) ∧ g_cpu (gview s') = g_cpu (gview s) ∧
    (let d := g_dist (gview s) in let d' := g_dist (gview s') in
     d_ctlr d' = d_ctlr d ∧ d_enable d' = d_enable d ∧ d_pend d' = d_pend d ∧ d_prio d' = d_prio d ∧ d_target d' = d_target d ∧
     ∀ k, d_group d' k = if decide (n <= k < n + cnt) then 2 ^ 32 - 1 else d_group d k).
Proof.
  induction cnt as [|cnt IH]; intros n s H0 Hn; cbn [group_loop].
  - exists s. split_and!; try done. intros k. by rewrite decide_False by lia.
  - destruct (wd32_run (D_GROUP n) (Z.lnot 0) s) as (s1 & E1 & V1); [cbn; lia|].
    change (wd32 (dreg_off (D_GROUP n)) (Z.lnot 0) s) with (wd32 (GICD_IGROUPR n) (Z.lnot 0) s) in E1. rewrite (pbind_ok _ _ _ _ _ E1).
    destruct (IH (n + 1) s1) as (s2 & E2 & R2 & C2 & K); [lia|lia|]. cbv zeta in K. destruct K as (K1 & K2 & K3 & K4 & K5 & K6).
    exists s2. rewrite V1 in *. cbn in *. destruct (g_dist (gview s)). cbn in *. split_and!; try done.
    intros k. rewrite K6. unfold upd. repeat case_decide; try lia; done.
Qed.

(** From [g] to [g'] only what belongs to [cpu] changed, into [r] and [c]. *)
Definition only_cpu (cpu : Z) (g g' : gicv) (r : redist) (c : cpuif) : Prop :=
  g_dist g' = g_dist g ∧ (∀ k, k ≠ cpu → g_redist g' k = g_redist g k ∧ g_cpu g' k = g_cpu g k) ∧
  g_redist g' cpu = r ∧ g_cpu g' cpu = c.

Lemma only_cpu_redist cpu g g' g'' r c d : only_cpu cpu g g' r c → only_redist cpu g' g'' d → only_cpu cpu g g'' d c.
Proof.
  intros (A1 & A2 & A3 & A4) (B1 & B2 & B3 & B4). split_and!; [by rewrite B1| |done|by rewrite B2].
  intros k Hk. rewrite B3, B2 by done. by apply A2.
Qed.

Lemma only_cpu_put cpu g g' r c f : only_cpu cpu g g' r c → only_cpu cpu g (on_redist cpu f g') (f r) c.
Proof. intros P. eapply only_cpu_redist; [exact P|]. pose proof P as (_ & _ & <- & _). apply only_redist_upd. Qed.

Lemma only_cpu_icc cpu g g' r c f : only_cpu cpu g g' r c → only_cpu cpu g (on_cpu cpu f g') r (f c).
Proof.
  intros (A1 & A2 & A3 & A4). unfold only_cpu, on_cpu, upd. cbn. split_and!; [done| |done|by rewrite decide_True, A4].
  intros k Hk. rewrite decide_False by done. by apply A2.
Qed.

(** The redistributor as [gic_redist_init] leaves it. *)
Definition set_up (d : redist) : redist :=
  let '(Redist _ _ _ _ _ _ e p i) := d in Redist 0 false 0 (2 ^ 32 - 1) 0 0 e p i.

Lemma redist_init_run fuel cpu s : 0 <= cpu < NCPU → (r_asleep (g_redist (gview s) cpu) < fuel)%nat →
  ∃ s', gic_redist_init fuel cpu s = Ret tt s' ∧
    only_cpu cpu (gview s) (gview s') (set_up (g_redist (gview s) cpu))
      (icc_put ICC_SRE (Z.lor (c_sre (g_cpu (gview s) cpu)) 1) (g_cpu (gview s) cpu)).
Proof.
  intros Hc Hf. set (g := gview s). assert (P0 : only_cpu cpu g g (g_redist g cpu) (g_cpu g cpu)) by done.
  destruct (wr32_run cpu R_CTLR 0 s Hc I) as (s1 & E1 & V1).
  fold g in V1. pose proof (only_cpu_put _ _ _ _ _ (rreg_put R_CTLR (u32 0)) P0) as P1. rewrite <- V1 in P1.
  pose proof P1 as (_ & _ & _ & Q1).
  destruct (icc_read_ok cpu ICC_SRE (c_sre (g_cpu g cpu)) s1) as (s2 & E2 & V2); [by rewrite Q1|].
  destruct (icc_write_ok cpu ICC_SRE (Z.lor (c_sre (g_cpu g cpu)) 1) s2) as (s3 & E3 & V3). rewrite V2 in V3.
  pose proof (only_cpu_icc _ _ _ _ _ (icc_put ICC_SRE (Z.lor (c_sre (g_cpu g cpu)) 1)) P1) as P3. rewrite <- V3 in P3.
  destruct (wr32_run cpu R_GROUP (Z.lnot 0) s3 Hc I) as (s4 & E4 & V4).
  pose proof (only_cpu_put _ _ _ _ _ (rreg_put R_GROUP (u32 (Z.lnot 0))) P3) as P4. rewrite <- V4 in P4.
  destruct (wr32_run cpu R_GRPMOD 0 s4 Hc I) as (s5 & E5 & V5).
  pose proof (only_cpu_put _ _ _ _ _ (rreg_put R_GRPMOD (u32 0)) P4) as P5. rewrite <- V5 in P5.
  destruct (wr32_run cpu R_CFG1 0 s5 Hc I) as (s6 & E6 & V6).
  pose proof (only_cpu_put _ _ _ _ _ (rreg_put R_CFG1 (u32 0)) P5) as P6. rewrite <- V6 in P6.
  destruct (rr32_run cpu R_WAKER s6 Hc I) as (s7 & E7 & V7). set (w := u32 (rreg_get R_WAKER (g_redist (gview s6) cpu))) in *.
  pose proof (only_cpu_put _ _ _ _ _ (rreg_after R_WAKER) P6) as P7. rewrite <- V7 in P7.
  destruct (wr32_run cpu R_WAKER (Z.land w (Z.lnot (Z.shiftl 1 1))) s7 Hc I) as (s8 & E8 & V8).
  pose proof (only_cpu_put _ _ _ _ _ (rreg_put R_WAKER (u32 (Z.land w (Z.lnot (Z.shiftl 1 1))))) P7) as P8. rewrite <- V8 in P8.
  assert (Hw : Z.testbit (u32 (Z.land w (Z.lnot (Z.shiftl 1 1)))) 1 = false).
  { rewrite u32_bit, Z.land_spec by lia. by rewrite andb_false_r. }
  pose proof P8 as (_ & _ & Q8 & _). fold g in Hf. destruct (g_redist g cpu) as [c sl a gg m f e p i]. cbn [r_asleep] in Hf.
  assert (Ha : ∃ a', (a' <= a)%nat ∧ g_redist (gview s8) cpu = Redist (u32 0) false a' (u32 (Z.lnot 0)) (u32 0) (u32 0) e p i).
  { rewrite Q8. destruct sl; cbn [rreg_put rreg_after]; rewrite Hw; eexists; (split; [|done]); lia. }
  destruct Ha as (a' & Ha & Q9).
  destruct (wait_awake_run fuel cpu s8 Hc) as (s9 & E9 & P9); [by rewrite Q9|rewrite Q9; cbn; lia|].
  exists s9. split.
  - unfold gic_redist_init. rewrite (pbind_ok _ _ _ _ _ E1), (pbind_ok _ _ _ _ _ E2), (pbind_ok _ _ _ _ _ E3), (pbind_ok _ _ _ _ _ E4),
      (pbind_ok _ _ _ _ _ E5), (pbind_ok _ _ _ _ _ E6), (pbind_ok _ _ _ _ _ E7), (pbind_ok _ _ _ _ _ E8). exact E9.
  - pose proof (only_cpu_redist _ _ _ _ _ _ _ P8 P9) as P. rewrite Q9 in P. exact P.
Qed.

(** A private interrupt of [cpu], set up. *)
Lemma setup_ppi_run cpu intid prio s : 0 <= cpu < NCPU → 0 <= intid < 32 →
  ∃ s', gic_setup_ppi cpu intid prio s = Ret tt s' ∧
    ∃ e p (pr : Z → Z), only_redist cpu (gview s) (gview s')
      (let '(Redist c sl a g m f _ _ _) := g_redist (gview s) cpu in Redist c sl a g m f e p pr) ∧
      (∀ k, 0 <= k < 32 → Z.testbit e k = (k =? intid) || Z.testbit (r_enable (g_redist (gview s) cpu)) k) ∧
      (∀ k, 0 <= k < 32 → byte_of (pr (k / 4)) (k mod 4) = if k =? intid then 0 else byte_of (r_prio (g_redist (gview s) cpu) (k / 4)) (k mod 4)) ∧
      (∀ k, 0 <= k < 32 → Z.testbit p k = false).
Proof.
  intros Hc Hi. assert (H4 : 0 <= intid / 4 < 8) by zlia.
  destruct (rmwr_run cpu (R_PRIO (intid / 4)) (λ p, Z.land p (byte_mask intid)) s Hc H4) as (s1 & E1 & P1); [done|].
  destruct (rmwr_run cpu R_CLRPEND (λ w, Z.lor w (int_bit intid)) s1 Hc I) as (s2 & E2 & P2); [done|].
  destruct (rmwr_run cpu R_ENABLE (λ w, Z.lor w (int_bit intid)) s2 Hc I) as (s3 & E3 & P3); [done|].
  assert (Hs : negb (is_sgi_ppi intid) = false).
  { unfold is_sgi_ppi. by rewrite (proj2 (Z.leb_le 0 intid)), (proj2 (Z.ltb_lt intid 32)) by lia. }
  assert (F1 : gicr_set_prio cpu intid prio s = Ret tt s1) by (unfold gicr_set_prio; rewrite Hs; exact E1).
  assert (F2 : gicr_clear_pending cpu intid s1 = Ret tt s2) by (unfold gicr_clear_pending; rewrite Hs; exact E2).
  assert (F3 : gicr_enable_int cpu intid s2 = Ret tt s3) by (unfold gicr_enable_int; rewrite Hs; exact E3).
  exists s3. split; [unfold gic_setup_ppi; by rewrite (pbind_ok _ _ _ _ _ F1), (pbind_ok _ _ _ _ _ F2)|].
  pose proof (only_redist_trans _ _ _ _ _ _ (only_redist_trans _ _ _ _ _ _ P1 P2) P3) as P.
  pose proof P1 as (_ & _ & _ & Q1). pose proof P2 as (_ & _ & _ & Q2). rewrite Q2, Q1 in P. clear - P Hi.
  destruct (g_redist (gview s) cpu) as [c sl a g m f e p i]. cbn in P. do 3 eexists. split; [exact P|]. unfold upd. split_and!; intros k Hk; cbn.
  - rewrite Z.lor_spec, u32_bit, Z.lor_spec, u32_bit, int_bit_at by lia. rewrite (Z.mod_small intid 32) by lia.
    by destruct (Z.testbit _ _), (k =? intid).
  - case_decide as E; [|by rewrite (other_index 4)]. by rewrite clear_byte, same_index, E by (done || zlia).
  - rewrite Z.ldiff_spec, u32_bit, Z.lor_spec, u32_bit by lia. by destruct (Z.testbit _ _).
Qed.
(** Setting up a shared interrupt. *)
Lemma setup_spi_run intid prio s :
  0 <= intid < 1024 →
  ∃ s', gic_setup_spi intid prio s = Ret tt s' ∧
    let d := g_dist (gview s) in let d' := g_dist (gview s') in
    (∀ i, 0 <= i → enabled d' i = (i =? intid) || enabled d i) ∧
    (∀ i, 0 <= i → priority d' i = if i =? intid then 0 else priority d i) ∧
    (∀ i, 0 <= i → target d' i = if i =? intid then 1 else target d i) ∧
    (∀ i, 0 <= i → pending d' i = if i / 32 =? intid / 32 then false else pending d i) ∧
    d_ctlr d' = d_ctlr d ∧ d_group d' = d_group d ∧
    g_redist (gview s') = g_redist (gview s) ∧ g_cpu (gview s') = g_cpu (gview s).
Proof.
  intros Hi. assert (H32 : 0 <= intid / 32 < 32) by zlia. assert (H4 : 0 <= intid / 4 < 256) by zlia.
  destruct (rmw_run (D_PRIO (intid / 4)) (λ p, Z.land p (byte_mask intid)) s H4) as (s1 & E1 & V1).
  destruct (rmw_run (D_TARGET (intid / 4)) (λ t, Z.lor (Z.land t (byte_mask intid)) (u32 (Z.shiftl (u32 (Z.shiftl 1 0)) (intid mod 4 * 8)))) s1 H4) as (s2 & E2 & V2).
  destruct (rmw_run (D_CLRPEND (intid / 32)) (λ w, Z.lor w (int_bit intid)) s2 H32) as (s3 & E3 & V3).
  destruct (rmw_run (D_ENABLE (intid / 32)) (λ w, Z.lor w (int_bit intid)) s3 H32) as (s4 & E4 & V4).
  change (gic_set_prio intid prio s = Ret tt s1) in E1. change (gic_set_target intid 0 s1 = Ret tt s2) in E2.
  change (gic_clear_pending intid s2 = Ret tt s3) in E3. change (gic_enable_int intid s3 = Ret tt s4) in E4.
  exists s4. split; [unfold gic_setup_spi; by rewrite (pbind_ok _ _ _ _ _ E1), (pbind_ok _ _ _ _ _ E2), (pbind_ok _ _ _ _ _ E3)|].
  clear E1 E2 E3 E4. rewrite V4, V3, V2, V1. clear V1 V2 V3 V4. destruct (gview s) as [[c g e p pr t] r cp]. cbn.
  unfold enabled, pending, priority, target. cbn. unfold upd. split_and!; try done; intros i Hi0.
  - case_decide as E; [|by rewrite (other_index 32)]. rewrite Z.lor_spec, u32_bit, Z.lor_spec, u32_bit, int_bit_at, same_index, E by (done || zlia).
    by destruct (Z.testbit _ _), (i =? intid).
  - case_decide as E; [|by rewrite (other_index 4)]. by rewrite clear_byte, same_index, E by (done || zlia).
  - case_decide as E; [|by rewrite (other_index 4)]. by rewrite target_byte, same_index, E by (done || zlia).
  - case_decide as E; [|by rewrite (proj2 (Z.eqb_neq _ _) E)]. rewrite E, Z.eqb_refl, Z.ldiff_spec, u32_bit, Z.lor_spec, u32_bit by zlia.
    by destruct (Z.testbit _ _).
Qed.

End runs.

Module GicProps.

Section claims.
Context {D : Type} {HD : Gic D} {HDok : GicOk D}.
Implicit Types (s : D) (i intid prio : Z).


(** A CPU made ready for interrupts. [gicv3_init_percpu] returns once the
    redistributor has woken up; then both ends are on ([gic_enabled] says so),
    every shared interrupt is in group 1, nothing is masked by its priority, the
    redistributor of the CPU is awake with its timer interrupt enabled at
    priority 0. The shared interrupts that were set up stay so, and the
    redistributors and interfaces of the other CPUs are untouched. *)
Theorem init_percpu_correct fuel cpu s :
  0 <= cpu < NCPU → (r_asleep (g_redist (gview s) cpu) < fuel)%nat →
  ∃ s', gicv3_init_percpu fuel cpu s = Ret tt s' ∧
    let d := g_dist (gview s) in let d' := g_dist (gview s') in
    let r' := g_redist (gview s') cpu in let c' := g_cpu (gview s') cpu in
    (∃ s'', gic_enabled cpu s' = Ret true s'') ∧
    d_ctlr d' = 3 ∧ (∀ k, 0 <= k < 32 → d_group d' k = 2 ^ 32 - 1) ∧
    d_enable d' = d_enable d ∧ d_prio d' = d_prio d ∧ d_target d' = d_target d ∧
    r_sleep r' = false ∧ r_asleep r' = 0%nat ∧ r_group r' = 2 ^ 32 - 1 ∧
    Z.testbit (r_enable r') TIMER_IRQ = true ∧ byte_of (r_prio r' (TIMER_IRQ / 4)) (TIMER_IRQ mod 4) = 0 ∧
    c_grpen1 c' = 1 ∧ c_pmr c' = 0xff ∧
    ∀ k, k ≠ cpu → g_redist (gview s') k = g_redist (gview s) k ∧ g_cpu (gview s') k = g_cpu (gview s) k.
Proof.
  intros Hc Hf. destruct (icc_write_ok cpu ICC_IGRPEN1 0 s) as (s1 & E1 & V1).
  destruct (icc_write_ok cpu ICC_PMR 0xff s1) as (s2 & E2 & V2). rewrite V1 in V2.
  destruct (wd32_run D_CTLR 0 s2 I) as (s3 & E3 & V3). rewrite V2 in V3.
  destruct (group_loop_run 32 0 s3) as (s4 & E4 & R4 & C4 & _ & K1 & _ & K3 & K4 & K5); [lia|lia|].
  rewrite V3 in R4, C4, K1, K3, K4. cbn [on_dist on_cpu g_redist g_cpu g_dist] in R4, C4, K1, K3, K4.
  destruct (redist_init_run fuel cpu s4 Hc) as (s5 & E5 & A1 & A2 & A3 & A4); [by rewrite R4|].
  destruct (setup_ppi_run cpu TIMER_IRQ 0 s5 Hc) as (s6 & E6 & e & p & pr & (B1 & B2 & B3 & B4) & T1 & T2 & _); [by vm_compute|].
  destruct (wd32_run D_CTLR 3 s6 I) as (s7 & E7 & V7).
  destruct (icc_write_ok cpu ICC_IGRPEN1 1 s7) as (s8 & E8 & V8). rewrite V7 in V8.
  assert (D8 : g_dist (gview s8) = dreg_put D_CTLR 3 (g_dist (gview s4))) by (rewrite V8, <- A1, <- B1; done).
  assert (R8 : g_redist (gview s8) = g_redist (gview s6)) by (by rewrite V8).
  assert (C8 : ∀ k, g_cpu (gview s8) k = if decide (k = cpu) then icc_put ICC_IGRPEN1 1 (g_cpu (gview s5) k) else g_cpu (gview s5) k).
  { intros k. rewrite V8, <- B2. cbn. unfold upd. case_decide as E; [by rewrite E|done]. }
  assert (G8 : ∃ s'', gic_enabled cpu s8 = Ret true s'').
  { destruct (icc_read_ok cpu ICC_IGRPEN1 1 s8) as (s9 & E9 & V9); [rewrite C8, decide_True by done; done|].
    destruct (rd32_run D_CTLR s9 I) as (s10 & E10 & _). rewrite V9, D8 in E10. exists s10. unfold gic_enabled.
    rewrite (pbind_ok _ _ _ _ _ E9). change (nz (Z.land 1 1)) with true. cbn iota. change (rd32 GICD_CTLR) with (rd32 (dreg_off D_CTLR)).
    rewrite (pbind_ok _ _ _ _ _ E10). by destruct (g_dist (gview s4)). }
  exists s8. split.
  - unfold gicv3_init_percpu, gic_cpu_init, gic_dist_init, gic_enable. rewrite !pbind_assoc.
    rewrite (pbind_ok _ _ _ _ _ E1), (pbind_ok _ _ _ _ _ E2).
    rewrite !pbind_assoc. change (wd32 GICD_CTLR 0) with (wd32 (dreg_off D_CTLR) 0). rewrite (pbind_ok _ _ _ _ _ E3), (pbind_ok _ _ _ _ _ E4).
    rewrite (pbind_ok _ _ _ _ _ E5), (pbind_ok _ _ _ _ _ E6). change (wd32 GICD_CTLR 3) with (wd32 (dreg_off D_CTLR) 3).
    by rewrite (pbind_ok _ _ _ _ _ E7).
  - cbv zeta. rewrite D8, R8, B4, C8, A3, A4, C4, R4, decide_True by done. split; [done|].
    destruct (g_dist (gview s4)) as [c4 g4 e4 p4 pr4 t4], (g_dist (gview s)) as [c0 g0 e0 p0 pr0 t0]. cbn in K1, K3, K4, K5.
    destruct (g_redist (gview s) cpu) as [c sl a gg m f e1 p1 i1]. cbn [set_up dreg_put d_ctlr d_group d_enable d_prio d_target r_sleep r_asleep r_group r_enable r_prio] in *.
    rewrite !upd_eq. cbn [icc_put c_grpen1 c_pmr]. split_and!; try done.
    + intros k Hk. by rewrite K5, decide_True.
    + by rewrite T1 by done.
    + by rewrite T2 by done.
    + intros k Hk. destruct (A2 k Hk) as [A5 A6]. rewrite B3, A5, R4, C8, decide_False, A6, C4 by done. by rewrite !upd_ne.
Qed.
End claims.

(** *** Witnesses *)

(** A controller that is its own view. *)
Definition dreg_of (off : Z) : option dreg :=
  if off =? 0 then Some D_CTLR
  else if off <? 0x100 then Some (D_GROUP ((off - 0x80) / 4))
  else if off <? 0x180 then Some (D_ENABLE ((off - 0x100) / 4))
  else if off <? 0x400 then Some (D_CLRPEND ((off - 0x280) / 4))
  else if off <? 0x800 then Some (D_PRIO ((off - 0x400) / 4))
  else Some (D_TARGET ((off - 0x800) / 4)).

Lemma dreg_of_off r : dreg_ok r → dreg_of (dreg_off r) = Some r.
Proof.
  unfold dreg_of. destruct r as [|n|n|n|n|n]; cbn; [done|..]; intros Hn;
    unfold GICD_IGROUPR, GICD_ISENABLER, GICD_ICPENDR, GICD_IPRIORITYR, GICD_ITARGETSR;
    repeat (case_match; try zlia); f_equal; f_equal; zlia.
Qed.

Definition rreg_of (off : Z) : option rreg :=
  if off =? 0 then Some R_CTLR
  else if off =? 0x14 then Some R_WAKER
  else if off =? 0x10080 then Some R_GROUP
  else if off =? 0x10100 then Some R_ENABLE
  else if off =? 0x10280 then Some R_CLRPEND
  else if off =? 0x10c04 then Some R_CFG1
  else if off =? 0x10d00 then Some R_GRPMOD
  else Some (R_PRIO ((off - 0x10400) / 4)).

Lemma rreg_of_off r : rreg_ok r → rreg_of (rreg_off r) = Some r.
Proof.
  unfold rreg_of. destruct r as [| | | | | | |n]; cbn; try done. intros Hn. unfold GICR_IPRIORITYR, SGI_BASE.
  repeat (case_match; try zlia). f_equal. f_equal. zlia.
Qed.

#[export] Instance gicv_gic : Gic gicv := {|
  gicd_read := λ off g, match dreg_of off with Some r => Ret (dreg_get r (g_dist g)) g | None => Ret 0 g end;
  gicd_write := λ off v g, match dreg_of off with Some r => Ret tt (on_dist (dreg_put r v) g) | None => Ret tt g end;
  gicr_read := λ cpu off g, match rreg_of off with
                            | Some r => Ret (rreg_get r (g_redist g cpu)) (on_redist cpu (rreg_after r) g)
                            | None => Ret 0 g end;
  gicr_write := λ cpu off v g, match rreg_of off with Some r => Ret tt (on_redist cpu (rreg_put r v) g) | None => Ret tt g end;
  icc_read := λ cpu r g, Ret (default 0 (icc_get r (g_cpu g cpu))) g;
  icc_write := λ cpu r v g, Ret tt (on_cpu cpu (icc_put r v) g)
|}.

#[export] Instance gicv_ok : GicOk gicv.
Proof.
  apply (Build_GicOk gicv gicv_gic (λ g, g)).
  - intros r g H. exists g. cbn. by rewrite dreg_of_off.
  - intros r v g H. exists (on_dist (dreg_put r v) g). cbn. by rewrite dreg_of_off.
  - intros cpu r g Hc H. exists (on_redist cpu (rreg_after r) g). cbn. by rewrite rreg_of_off.
  - intros cpu r v g Hc H. exists (on_redist cpu (rreg_put r v) g). cbn. by rewrite rreg_of_off.
  - intros cpu r v g H. exists g. cbn. by rewrite H.
  - intros cpu r v g. by exists (on_cpu cpu (icc_put r v) g).
Defined.

(** After reset, with two interrupts of the same bank pending. *)
Definition at_reset : gicv :=
  Gicv (Dist 0 (λ _, 0) (λ _, 0) (upd 1 0x10002 (λ _, 0)) (λ _, 0xa0a0a0a0) (λ _, 0))
    (λ _, Redist 0 true 3 0 0 0 0 0 (λ _, 0xa0a0a0a0)) (λ _, Cpuif 0 0 0).


Lemma init_percpu_correct_witness :
  ∃ s' s'', gicv3_init_percpu 4 1 at_reset = Ret tt s' ∧ gic_enabled 1 s' = Ret true s'' ∧
    Z.testbit (r_enable (g_redist (gview s') 1)) TIMER_IRQ = true.
Proof.
  destruct (init_percpu_correct 4 1 at_reset) as (s' & E & (s'' & G) & _ & _ & _ & _ & _ & _ & _ & _ & T & _).
  - vm_compute. split; [discriminate|reflexivity].
  - cbn. lia.
  - exists s', s''. split; [exact E|]. split; [exact G|exact T].
Defined.
End GicProps.
