(* ===== verification/Gicv2.v ===== *)
(** * The older interrupt controller (kernel/driver/gicv2.c)

    The Makefile links gicv3.c; this driver has the same interface. Registers
    are words of memory, named here by their offset from GICBASE ([GicMem]);
    [GicMemOk] says what they mean: the distributor's are those of the file Gic,
    with three banks more, and a CPU has an interface of its own.  Theorems: what
    setting up an interrupt does; [gic_disable_int] disables all 32 interrupts of
    its register. *)

From S2P Require Import Prelude Irq.
From S2P Require Gic.
Open Scope Z_scope.
Open Scope prog_scope.

(** ** Registers *)

Definition GICD_BASE : Z := 0x0.
Definition GICC_BASE : Z := 0x10000.

Definition GICD_CTLR : Z := GICD_BASE.
Definition GICD_ISENABLER (n : Z) : Z := GICD_BASE + 0x100 + n * 4.
Definition GICD_ICENABLER (n : Z) : Z := GICD_BASE + 0x180 + n * 4.
Definition GICD_ISPENDR (n : Z) : Z := GICD_BASE + 0x200 + n * 4.
Definition GICD_ICPENDR (n : Z) : Z := GICD_BASE + 0x280 + n * 4.
Definition GICD_IPRIORITYR (n : Z) : Z := GICD_BASE + 0x400 + n * 4.
Definition GICD_ITARGETSR (n : Z) : Z := GICD_BASE + 0x800 + n * 4.
Definition GICD_ICFGR (n : Z) : Z := GICD_BASE + 0xc00 + n * 4.

Definition GICC_CTLR : Z := GICC_BASE.
Definition GICC_PMR : Z := GICC_BASE + 0x4.
Definition GICC_IAR : Z := GICC_BASE + 0xc.
Definition GICC_EOIR : Z := GICC_BASE + 0x10.

Inductive gicd_cfg := GICD_CFG_LEVEL | GICD_CFG_EDGE.
Definition cfg_word (c : gicd_cfg) : Z := match c with GICD_CFG_LEVEL => 0 | GICD_CFG_EDGE => 2 end.

Class GicMem (D : Type) := { REG : Z → prog D Z; REG_set : Z → Z → prog D unit }.

Section driver.
Context {D : Type} {HD : GicMem D}.

(** [REG(a) |= v], [REG(a) &= v] *)
Definition REG_or (a v : Z) : prog D unit := w <- REG a ;; REG_set a (Z.lor w v).
Definition REG_and (a v : Z) : prog D unit := w <- REG a ;; REG_set a (Z.land w v).

Definition gic_enable_int (intid : Z) : prog D unit := REG_or (GICD_ISENABLER (intid / 32)) (Gic.int_bit intid).
Definition gic_disable_int (intid : Z) : prog D unit := REG_or (GICD_ICENABLER (intid / 32)) (Gic.int_bit intid).
Definition gic_set_pending (intid : Z) : prog D unit := REG_or (GICD_ISPENDR (intid / 32)) (Gic.int_bit intid).
Definition gic_clear_pending (intid : Z) : prog D unit := REG_or (GICD_ICPENDR (intid / 32)) (Gic.int_bit intid).

Definition gic_is_pending (intid : Z) : prog D bool :=
  w <- REG (GICD_ISPENDR (intid / 32)) ;; ret (nz (Z.land w (Gic.int_bit intid))).

Definition gic_set_prio (intid prio : Z) : prog D unit := REG_and (GICD_IPRIORITYR (intid / 4)) (Gic.byte_mask intid).

Definition gic_set_target (intid cpuid : Z) : prog D unit :=
  itargetsr <- REG (GICD_ITARGETSR (intid / 4)) ;;
  let itargetsr := Z.land itargetsr (Gic.byte_mask intid) in
  REG_set (GICD_ITARGETSR (intid / 4)) (Z.lor itargetsr (u32 (Z.shiftl (u32 (Z.shiftl 1 cpuid)) (intid mod 4 * 8)))).

Definition gic_config (intid : Z) (cfg : gicd_cfg) : prog D unit :=
  icfgr <- REG (GICD_ICFGR (intid / 16)) ;;
  let icfgr := Z.land icfgr (u32 (Z.lnot (u32 (Z.shiftl 3 (intid mod 16 * 2))))) in
  REG_set (GICD_ICFGR (intid / 16)) (Z.lor icfgr (u32 (Z.shiftl (cfg_word cfg) (intid mod 16 * 2)))).

Definition gic_setup_ppi (intid prio : Z) : prog D unit :=
  gic_set_prio intid prio ;;
  gic_clear_pending intid ;;
  gic_enable_int intid.

Definition gic_setup_spi (intid prio : Z) : prog D unit :=
  gic_set_prio intid prio ;;
  gic_set_target intid 0 ;;
  gic_clear_pending intid ;;
  gic_enable_int intid.

Definition gicc_init : prog D unit :=
  REG_set GICC_CTLR 0 ;;
  REG_set GICC_PMR 0xff.

Definition gicd_init : prog D unit := REG_set GICD_CTLR 0.

Definition gic_enable : prog D unit :=
  REG_or GICC_CTLR 0x1 ;;
  REG_or GICD_CTLR 0x1.

Definition gicv2_init : prog D unit :=
  gic_setup_spi UART_IRQ 0 ;;
  gic_setup_spi VIRTIO_BLK_IRQ 0 ;;
  gic_setup_ppi TIMER_IRQ 0.

Definition gicv2_init_percpu : prog D unit :=
  gicc_init ;;
  gicd_init ;;
  gic_enable.

Definition gic_enabled : prog D bool :=
  c <- REG GICC_CTLR ;;
  if nz (Z.land c 0x1) then d <- REG GICD_CTLR ;; ret (nz (Z.land d 0x1)) else ret false.

Definition gic_eoi (iar : Z) : prog D unit := REG_set GICC_EOIR iar.
Definition gic_iar : prog D Z := REG GICC_IAR.
End driver.

(** ** What the registers mean *)

(** The distributor, with the trigger of each interrupt, and the interface of the
    CPU that runs. *)
Record gicv2 := Gicv2 { v_dist : Gic.dist; v_cfg : Z → Z; v_ctlr : Z; v_pmr : Z }.

Inductive reg :=
| V_DIST (r : Gic.dreg) | V_CLRENABLE (n : Z) | V_SETPEND (n : Z) | V_CFG (n : Z) | V_CTLR | V_PMR.

(** The targets of the private interrupts cannot be written. *)
Definition reg_ok (r : reg) : Prop :=
  match r with
  | V_DIST (Gic.D_TARGET n) => 8 <= n < 256
  | V_DIST r => Gic.dreg_ok r
  | V_CLRENABLE n | V_SETPEND n => 0 <= n < 32
  | V_CFG n => 0 <= n < 64
  | V_CTLR | V_PMR => True
  end.

Definition reg_off (r : reg) : Z :=
  match r with
  | V_DIST r => Gic.dreg_off r
  | V_CLRENABLE n => GICD_ICENABLER n
  | V_SETPEND n => GICD_ISPENDR n
  | V_CFG n => GICD_ICFGR n
  | V_CTLR => GICC_CTLR
  | V_PMR => GICC_PMR
  end.

(** Both banks of a pair read the same. *)
Definition reg_get (r : reg) (g : gicv2) : Z :=
  match r with
  | V_DIST r => Gic.dreg_get r (v_dist g)
  | V_CLRENABLE n => Gic.d_enable (v_dist g) n
  | V_SETPEND n => Gic.d_pend (v_dist g) n
  | V_CFG n => v_cfg g n
  | V_CTLR => v_ctlr g
  | V_PMR => v_pmr g
  end.

(** A 1 written to ICENABLER disables, a 1 written to ISPENDR makes pending. *)
Definition reg_put (r : reg) (v : Z) (g : gicv2) : gicv2 :=
  let '(Gicv2 (Gic.Dist c gr e p i t as d) cf ct pm) := g in
  match r with
  | V_DIST r => Gicv2 (Gic.dreg_put r v d) cf ct pm
  | V_CLRENABLE n => Gicv2 (Gic.Dist c gr (Gic.upd n (Z.ldiff (e n) v) e) p i t) cf ct pm
  | V_SETPEND n => Gicv2 (Gic.Dist c gr e (Gic.upd n (Z.lor (p n) v) p) i t) cf ct pm
  | V_CFG n => Gicv2 d (Gic.upd n v cf) ct pm
  | V_CTLR => Gicv2 d cf v pm
  | V_PMR => Gicv2 d cf ct v
  end.

(** The words of a register have 32 bits. *)
Class GicMemOk (D : Type) `{GicMem D} := {
  v_of : D → gicv2;
  REG_ok : ∀ r s, reg_ok r → ∃ s', REG (reg_off r) s = Ret (u32 (reg_get r (v_of s))) s' ∧ v_of s' = v_of s;
  REG_set_ok : ∀ r v s, reg_ok r → ∃ s', REG_set (reg_off r) v s = Ret tt s' ∧ v_of s' = reg_put r (u32 v) (v_of s)
}.

(** ** What the driver does *)

Section runs.
Context {D : Type} {HD : GicMem D} {HDok : GicMemOk D}.
Implicit Types (s : D) (i intid v : Z).

(** A read, a change of the value, a write. *)
Lemma reg_rmw r f s : reg_ok r → ∃ s', (w <- REG (reg_off r) ;; REG_set (reg_off r) (f w))%prog s = Ret tt s' ∧
  v_of s' = reg_put r (u32 (f (u32 (reg_get r (v_of s))))) (v_of s).
Proof.
  intros H. destruct (REG_ok r s H) as (s1 & E1 & V1).
  destruct (REG_set_ok r (f (u32 (reg_get r (v_of s)))) s1 H) as (s2 & E2 & V2).
  exists s2. split; [by rewrite (pbind_ok _ _ _ _ _ E1)|by rewrite V2, V1].
Qed.

Lemma own_bit w intid b : 0 <= b < 32 → Z.testbit (u32 (Z.lor (u32 w) (Gic.int_bit intid))) b = Z.testbit w b || (b =? intid mod 32).
Proof. intros. by rewrite Gic.u32_bit, Z.lor_spec, Gic.u32_bit, Gic.int_bit_at by lia. Qed.

(** Setting the bit of [intid] in a bank of which a written 1 sets. *)
Lemma set_bank (f : Z → Z) intid i : 0 <= i → 0 <= intid →
  Z.testbit (Gic.upd (intid / 32) (Z.lor (f (intid / 32)) (u32 (Z.lor (u32 (f (intid / 32))) (Gic.int_bit intid)))) f (i / 32)) (i mod 32) =
  (i =? intid) || Z.testbit (f (i / 32)) (i mod 32).
Proof.
  intros Hi H0. unfold Gic.upd. case_decide as E; [|by rewrite (Gic.other_index 32)].
  rewrite Z.lor_spec, own_bit, Gic.same_index, E by (done || zlia). by destruct (Z.testbit _ _), (i =? intid).
Qed.

(** Writing back a bank of which a written 1 clears. *)
Lemma clear_bank (f : Z → Z) intid i : 0 <= i → 0 <= intid →
  Z.testbit (Gic.upd (intid / 32) (Z.ldiff (f (intid / 32)) (u32 (Z.lor (u32 (f (intid / 32))) (Gic.int_bit intid)))) f (i / 32)) (i mod 32) =
  if i / 32 =? intid / 32 then false else Z.testbit (f (i / 32)) (i mod 32).
Proof.
  intros Hi H0. unfold Gic.upd. case_decide as E; [|by rewrite (proj2 (Z.eqb_neq _ _) E)].
  rewrite E, Z.eqb_refl, Z.ldiff_spec, own_bit by zlia. by destruct (Z.testbit _ _).
Qed.

Definition on_v (f : Gic.dist → Gic.dist) (g : gicv2) : gicv2 := Gicv2 (f (v_dist g)) (v_cfg g) (v_ctlr g) (v_pmr g).

(** One bit or byte of one bank changes; [R] says what became of the others. *)
Lemma clear_pending_run intid s : 0 <= intid < 1024 → ∃ s', gic_clear_pending intid s = Ret tt s' ∧
  ∃ p, v_of s' = on_v (λ d, Gic.Dist (Gic.d_ctlr d) (Gic.d_group d) (Gic.d_enable d) p (Gic.d_prio d) (Gic.d_target d)) (v_of s) ∧
    ∀ i, 0 <= i → Z.testbit (p (i / 32)) (i mod 32) = if i / 32 =? intid / 32 then false else Gic.pending (v_dist (v_of s)) i.
Proof.
  intros H. destruct (reg_rmw (V_DIST (Gic.D_CLRPEND (intid / 32))) (λ w, Z.lor w (Gic.int_bit intid)) s) as (s' & E & V); [cbn; zlia|].
  change (gic_clear_pending intid s = Ret tt s') in E. exists s'. split; [done|]. destruct (v_of s) as [[c gr e p i t] cf ct pm]. eexists. split; [exact V|].
  intros k Hk. apply clear_bank; lia.
Qed.

Lemma enable_int_run intid s : 0 <= intid < 1024 → ∃ s', gic_enable_int intid s = Ret tt s' ∧
  ∃ e, v_of s' = on_v (λ d, Gic.Dist (Gic.d_ctlr d) (Gic.d_group d) e (Gic.d_pend d) (Gic.d_prio d) (Gic.d_target d)) (v_of s) ∧
    ∀ i, 0 <= i → Z.testbit (e (i / 32)) (i mod 32) = (i =? intid) || Gic.enabled (v_dist (v_of s)) i.
Proof.
  intros H. destruct (reg_rmw (V_DIST (Gic.D_ENABLE (intid / 32))) (λ w, Z.lor w (Gic.int_bit intid)) s) as (s' & E & V); [cbn; zlia|].
  change (gic_enable_int intid s = Ret tt s') in E. exists s'. split; [done|]. destruct (v_of s) as [[c gr e p i t] cf ct pm]. eexists. split; [exact V|].
  intros k Hk. apply set_bank; lia.
Qed.

Lemma set_prio_run intid prio s : 0 <= intid < 1024 → ∃ s', gic_set_prio intid prio s = Ret tt s' ∧
  ∃ q, v_of s' = on_v (λ d, Gic.Dist (Gic.d_ctlr d) (Gic.d_group d) (Gic.d_enable d) (Gic.d_pend d) q (Gic.d_target d)) (v_of s) ∧
    ∀ i, 0 <= i → Gic.byte_of (q (i / 4)) (i mod 4) = if i =? intid then 0 else Gic.priority (v_dist (v_of s)) i.
Proof.
  intros H. destruct (reg_rmw (V_DIST (Gic.D_PRIO (intid / 4))) (λ w, Z.land w (Gic.byte_mask intid)) s) as (s' & E & V); [cbn; zlia|].
  change (gic_set_prio intid prio s = Ret tt s') in E. exists s'. split; [done|]. destruct (v_of s) as [[c gr e p i t] cf ct pm]. eexists. split; [exact V|].
  intros k Hk. unfold Gic.priority, Gic.upd. cbn. case_decide as Ek; [|by rewrite (Gic.other_index 4)].
  by rewrite Gic.clear_byte, Gic.same_index, Ek by (done || zlia).
Qed.

Lemma set_target_run intid s : 32 <= intid < 1024 → ∃ s', gic_set_target intid 0 s = Ret tt s' ∧
  ∃ t, v_of s' = on_v (λ d, Gic.Dist (Gic.d_ctlr d) (Gic.d_group d) (Gic.d_enable d) (Gic.d_pend d) (Gic.d_prio d) t) (v_of s) ∧
    ∀ i, 0 <= i → Gic.byte_of (t (i / 4)) (i mod 4) = if i =? intid then 1 else Gic.target (v_dist (v_of s)) i.
Proof.
  intros H. destruct (reg_rmw (V_DIST (Gic.D_TARGET (intid / 4)))
    (λ w, Z.lor (Z.land w (Gic.byte_mask intid)) (u32 (Z.shiftl (u32 (Z.shiftl 1 0)) (intid mod 4 * 8)))) s) as (s' & E & V); [cbn; zlia|].
  change (gic_set_target intid 0 s = Ret tt s') in E. exists s'. split; [done|]. destruct (v_of s) as [[c gr e p i t] cf ct pm]. eexists. split; [exact V|].
  intros k Hk. unfold Gic.target, Gic.upd. cbn. case_decide as Ek; [|by rewrite (Gic.other_index 4)].
  by rewrite Gic.target_byte, Gic.same_index, Ek by (done || zlia).
Qed.

(** What [intid] becomes by being set up; [spi]: with CPU 0 as its target. *)
Definition set_up (spi : bool) (intid : Z) (g g' : gicv2) : Prop :=
  (∀ i, 0 <= i → Gic.enabled (v_dist g') i = (i =? intid) || Gic.enabled (v_dist g) i) ∧
  (∀ i, 0 <= i → Gic.priority (v_dist g') i = if i =? intid then 0 else Gic.priority (v_dist g) i) ∧
  (∀ i, 0 <= i → Gic.target (v_dist g') i = if spi && (i =? intid) then 1 else Gic.target (v_dist g) i) ∧
  (∀ i, 0 <= i → Gic.pending (v_dist g') i = if i / 32 =? intid / 32 then false else Gic.pending (v_dist g) i) ∧
  Gic.d_ctlr (v_dist g') = Gic.d_ctlr (v_dist g) ∧ v_cfg g' = v_cfg g ∧ v_ctlr g' = v_ctlr g ∧ v_pmr g' = v_pmr g.

Lemma v2_setup_ppi_run intid prio s : 0 <= intid < 1024 →
  ∃ s', gic_setup_ppi intid prio s = Ret tt s' ∧ set_up false intid (v_of s) (v_of s').
Proof.
  intros H. destruct (set_prio_run intid prio s H) as (s1 & E1 & q & V1 & Q).
  destruct (clear_pending_run intid s1 H) as (s2 & E2 & p & V2 & P).
  destruct (enable_int_run intid s2 H) as (s3 & E3 & e & V3 & En).
  exists s3. split; [unfold gic_setup_ppi; by rewrite (pbind_ok _ _ _ _ _ E1), (pbind_ok _ _ _ _ _ E2)|].
  rewrite V3, V2, V1. rewrite V1 in P. rewrite V2, V1 in En. done.
Qed.

Lemma v2_setup_spi_run intid prio s : 32 <= intid < 1024 →
  ∃ s', gic_setup_spi intid prio s = Ret tt s' ∧ set_up true intid (v_of s) (v_of s').
Proof.
  intros H. assert (H' : 0 <= intid < 1024) by lia. destruct (set_prio_run intid prio s H') as (s1 & E1 & q & V1 & Q).
  destruct (set_target_run intid s1 H) as (s2 & E2 & t & V2 & T).
  destruct (clear_pending_run intid s2 H') as (s3 & E3 & p & V3 & P).
  destruct (enable_int_run intid s3 H') as (s4 & E4 & e & V4 & En).
  exists s4. split; [unfold gic_setup_spi; by rewrite (pbind_ok _ _ _ _ _ E1), (pbind_ok _ _ _ _ _ E2), (pbind_ok _ _ _ _ _ E3)|].
  rewrite V4, V3, V2, V1. rewrite V1 in T. rewrite V2, V1 in P. rewrite V3, V2, V1 in En. done.
Qed.
End runs.

Module Gicv2Props.

Section claims.
Context {D : Type} {HD : GicMem D} {HDok : GicMemOk D}.
Implicit Types (s : D) (i intid : Z).

(** Setting up a shared interrupt: enabled, at priority 0 whatever was asked for,
    for CPU 0; every other interrupt keeps its enable bit, priority and target, and
    all 32 interrupts of the register lose their pending state. *)
Theorem v2_setup_spi_correct intid prio s : 32 <= intid < 1024 →
  ∃ s', gic_setup_spi intid prio s = Ret tt s' ∧ set_up true intid (v_of s) (v_of s').
Proof. apply v2_setup_spi_run. Qed.

(** [gic_disable_int] writes the enable bits it has read back to a register that
    disables where a 1 is written: all interrupts of the register are off. *)
Theorem disable_int_disables_all intid s : 0 <= intid < 1024 →
  ∃ s', gic_disable_int intid s = Ret tt s' ∧
    (∀ i, 0 <= i → Gic.enabled (v_dist (v_of s')) i = if i / 32 =? intid / 32 then false else Gic.enabled (v_dist (v_of s)) i) ∧
    (∀ i, Gic.pending (v_dist (v_of s')) i = Gic.pending (v_dist (v_of s)) i).
Proof.
  intros H. destruct (reg_rmw (V_CLRENABLE (intid / 32)) (λ w, Z.lor w (Gic.int_bit intid)) s) as (s' & E & V); [cbn; zlia|].
  change (gic_disable_int intid s = Ret tt s') in E. exists s'. split; [done|]. rewrite V. destruct (v_of s) as [[c gr e p i t] cf ct pm].
  split; [|done]. intros k Hk. apply clear_bank; lia.
Qed.

(** [gic_set_pending] makes its interrupt pending and no other, and
    [gic_is_pending] then says so. *)
Theorem set_pending_correct intid s : 0 <= intid < 1024 →
  ∃ s', gic_set_pending intid s = Ret tt s' ∧
    (∀ i, 0 <= i → Gic.pending (v_dist (v_of s')) i = (i =? intid) || Gic.pending (v_dist (v_of s)) i) ∧
    (∃ s'', gic_is_pending intid s' = Ret true s'').
Proof.
  intros H. destruct (reg_rmw (V_SETPEND (intid / 32)) (λ w, Z.lor w (Gic.int_bit intid)) s) as (s' & E & V); [cbn; zlia|].
  change (gic_set_pending intid s = Ret tt s') in E.
  assert (P : ∀ i, 0 <= i → Gic.pending (v_dist (v_of s')) i = (i =? intid) || Gic.pending (v_dist (v_of s)) i).
  { rewrite V. destruct (v_of s) as [[c gr e p i t] cf ct pm]. intros k Hk. apply set_bank; lia. }
  exists s'. split_and!; [done|done|]. destruct (REG_ok (V_SETPEND (intid / 32)) s') as (s'' & E2 & _); [cbn; zlia|].
  change (REG (GICD_ISPENDR (intid / 32)) s' = Ret (u32 (Gic.d_pend (v_dist (v_of s')) (intid / 32))) s'') in E2.
  exists s''. unfold gic_is_pending. rewrite (pbind_ok _ _ _ _ _ E2). unfold ret. f_equal. unfold nz. apply negb_true_iff, Z.eqb_neq. intros Hz.
  apply (f_equal (λ w, Z.testbit w (intid mod 32))) in Hz. rewrite Z.bits_0, Z.land_spec, Gic.u32_bit, Gic.int_bit_at, Z.eqb_refl in Hz by zlia.
  specialize (P intid ltac:(lia)). unfold Gic.pending in P. rewrite Z.eqb_refl in P. rewrite P in Hz. done.
Qed.

(** The trigger of an interrupt. *)
Definition trigger (g : gicv2) (i : Z) : Z := Z.land (Z.shiftr (v_cfg g (i / 16)) (2 * (i mod 16))) (Z.ones 2).

(** [gic_config] sets the trigger of its interrupt and keeps the others. *)
Theorem config_correct intid cfg s : 0 <= intid < 1024 →
  ∃ s', gic_config intid cfg s = Ret tt s' ∧ v_dist (v_of s') = v_dist (v_of s) ∧
    ∀ i, 0 <= i → trigger (v_of s') i = if i =? intid then cfg_word cfg else trigger (v_of s) i.
Proof.
  intros H. destruct (reg_rmw (V_CFG (intid / 16)) (λ w, Z.lor (Z.land w (u32 (Z.lnot (u32 (Z.shiftl 3 (intid mod 16 * 2))))))
    (u32 (Z.shiftl (cfg_word cfg) (intid mod 16 * 2)))) s) as (s' & E & V); [cbn; zlia|].
  change (gic_config intid cfg s = Ret tt s') in E. exists s'. split; [done|]. rewrite V. destruct (v_of s) as [[c gr e p ip t] cf ct pm].
  split; [done|]. intros i Hi. cbn. unfold trigger, Gic.upd. cbn. case_decide as Ei; [|by rewrite (Gic.other_index 16)].
  rewrite <- (Gic.same_index 16 i intid), Ei by (done || lia). set (w := cf (intid / 16)).
  pose proof (Z.mod_pos_bound i 16 ltac:(lia)) as Hm. pose proof (Z.mod_pos_bound intid 16 ltac:(lia)) as Hn.
  assert (Hc : ∀ b, 2 <= b → Z.testbit (cfg_word cfg) b = false) by (intros; destruct cfg; [by rewrite Z.bits_0|by apply Z.bits_above_log2; cbn; lia]).
  apply Z.bits_inj'. intros b Hb. rewrite Z.land_spec, Z.testbit_ones_nonneg, Z.shiftr_spec by lia.
  destruct (Z.ltb_spec b 2) as [Hb2|Hb2].
  - rewrite andb_true_r, Gic.u32_bit, Z.lor_spec, Z.land_spec, !Gic.u32_bit, Z.lnot_spec, Gic.u32_bit, !Z.shiftl_spec by lia. change 3 with (Z.ones 2).
    destruct (Z.eqb_spec (i mod 16) (intid mod 16)) as [Em|Em].
    + rewrite Em. replace (b + 2 * (intid mod 16) - intid mod 16 * 2) with b by lia.
      by rewrite Z.testbit_ones_nonneg, (proj2 (Z.ltb_lt b 2) Hb2), andb_false_r by lia.
    + rewrite Z.land_spec, (Z.testbit_ones_nonneg 2 b), Z.shiftr_spec, (proj2 (Z.ltb_lt b 2) Hb2), andb_true_r by lia.
      destruct (Z.leb_spec 0 (b + 2 * (i mod 16) - intid mod 16 * 2)).
      * rewrite Z.testbit_ones_nonneg, (proj2 (Z.ltb_ge _ 2)), Hc, orb_false_r, andb_true_r by lia. done.
      * rewrite !(Z.testbit_neg_r _ (b + 2 * (i mod 16) - intid mod 16 * 2)) by lia. by rewrite orb_false_r, andb_true_r.
  - rewrite andb_false_r. destruct (Z.eqb_spec (i mod 16) (intid mod 16)) as [Em|Em]; [by rewrite Hc|].
    by rewrite Z.land_spec, (Z.testbit_ones_nonneg 2 b), (proj2 (Z.ltb_ge b 2) Hb2), andb_false_r by lia.
Qed.

(** [gicv2_init] sets up the three interrupts of the kernel and no other. *)
Theorem v2_init_correct s :
  ∃ s', gicv2_init s = Ret tt s' ∧
    (∀ i, 0 <= i → Gic.enabled (v_dist (v_of s')) i =
       ((i =? TIMER_IRQ) || (i =? VIRTIO_BLK_IRQ) || (i =? UART_IRQ)) || Gic.enabled (v_dist (v_of s)) i) ∧
    (∀ i, i ∈ [TIMER_IRQ; VIRTIO_BLK_IRQ; UART_IRQ] → Gic.priority (v_dist (v_of s')) i = 0) ∧
    (∀ i, i ∈ [VIRTIO_BLK_IRQ; UART_IRQ] → Gic.target (v_dist (v_of s')) i = 1).
Proof.
  destruct (v2_setup_spi_run UART_IRQ 0 s) as (s1 & E1 & A1 & B1 & C1 & _); [by vm_compute|].
  destruct (v2_setup_spi_run VIRTIO_BLK_IRQ 0 s1) as (s2 & E2 & A2 & B2 & C2 & _); [by vm_compute|].
  destruct (v2_setup_ppi_run TIMER_IRQ 0 s2) as (s3 & E3 & A3 & B3 & C3 & _); [by vm_compute|].
  exists s3. split_and!.
  - unfold gicv2_init. by rewrite (pbind_ok _ _ _ _ _ E1), (pbind_ok _ _ _ _ _ E2).
  - intros i Hi. by rewrite A3, A2, A1, !orb_assoc by done.
  - intros i Hi. assert (0 <= i) by (set_unfold; destruct Hi as [->|[->|[->|[]]]]; by vm_compute). rewrite B3, B2, B1 by done.
    set_unfold. by destruct Hi as [->|[->|[->|[]]]].
  - intros i Hi. assert (0 <= i) by (set_unfold; destruct Hi as [->|[->|[]]]; by vm_compute). rewrite C3, C2, C1 by done.
    set_unfold. by destruct Hi as [->|[->|[]]].
Qed.

(** [gicv2_init_percpu] turns both ends on, with no interrupt masked by its
    priority, and [gic_enabled] says so; the interrupts stay as they were set up. *)
Theorem v2_init_percpu_correct s :
  ∃ s', gicv2_init_percpu s = Ret tt s' ∧ (∃ s'', gic_enabled s' = Ret true s'') ∧ v_pmr (v_of s') = 0xff ∧
    v_ctlr (v_of s') = 1 ∧ v_dist (v_of s') = Gic.dreg_put Gic.D_CTLR 1 (v_dist (v_of s)).
Proof.
  destruct (REG_set_ok V_CTLR 0 s I) as (s1 & E1 & V1). destruct (REG_set_ok V_PMR 0xff s1 I) as (s2 & E2 & V2).
  destruct (REG_set_ok (V_DIST Gic.D_CTLR) 0 s2 I) as (s3 & E3 & V3).
  destruct (reg_rmw V_CTLR (λ w, Z.lor w 1) s3 I) as (s4 & E4 & V4). destruct (reg_rmw (V_DIST Gic.D_CTLR) (λ w, Z.lor w 1) s4 I) as (s5 & E5 & V5).
  assert (V : v_of s5 = Gicv2 (Gic.dreg_put Gic.D_CTLR 1 (v_dist (v_of s))) (v_cfg (v_of s)) 1 0xff).
  { rewrite V5, V4, V3, V2, V1. by destruct (v_of s) as [[c gr e p i t] cf ct pm]. }
  exists s5. split_and!; try (by rewrite V).
  - assert (F2 : gicc_init s = Ret tt s2) by (unfold gicc_init; by rewrite (pbind_ok _ _ _ _ _ E1)).
    assert (F5 : gic_enable s3 = Ret tt s5) by (unfold gic_enable; by rewrite (pbind_ok _ _ _ _ _ E4)).
    unfold gicv2_init_percpu. by rewrite (pbind_ok _ _ _ _ _ F2), (pbind_ok _ _ _ _ _ E3).
  - destruct (REG_ok V_CTLR s5 I) as (s6 & E6 & V6). destruct (REG_ok (V_DIST Gic.D_CTLR) s6 I) as (s7 & E7 & _).
    rewrite V in E6. rewrite V6, V in E7. exists s7. unfold gic_enabled. rewrite (pbind_ok _ _ _ _ _ E6). change (nz (Z.land (u32 _) 0x1)) with true. cbn iota.
    change (REG GICD_CTLR) with (REG (reg_off (V_DIST Gic.D_CTLR))). rewrite (pbind_ok _ _ _ _ _ E7). by destruct (v_dist (v_of s)).
Qed.
End claims.

(** A controller that is its own view. *)
Definition reg_of (off : Z) : reg :=
  if off =? GICC_CTLR then V_CTLR
  else if off =? GICC_PMR then V_PMR
  else if (0x180 <=? off) && (off <? 0x200) then V_CLRENABLE ((off - 0x180) / 4)
  else if (0x200 <=? off) && (off <? 0x280) then V_SETPEND ((off - 0x200) / 4)
  else if 0xc00 <=? off then V_CFG ((off - 0xc00) / 4)
  else match Gic.GicProps.dreg_of off with Some r => V_DIST r | None => V_CTLR end.

Lemma reg_of_dist r : Gic.dreg_ok r → reg_of (Gic.dreg_off r) = V_DIST r.
Proof.
  intros H. assert (B : 0 <= Gic.dreg_off r < 0xc00 ∧ (Gic.dreg_off r < 0x180 ∨ 0x280 <= Gic.dreg_off r)).
  { destruct r; cbn in H |- *; unfold Gic.GICD_CTLR, Gic.GICD_IGROUPR, Gic.GICD_ISENABLER, Gic.GICD_ICPENDR, Gic.GICD_IPRIORITYR, Gic.GICD_ITARGETSR; lia. }
  unfold reg_of, GICC_CTLR, GICC_PMR, GICC_BASE. rewrite Gic.GicProps.dreg_of_off by done. repeat (case_match; try lia); done.
Qed.

Lemma reg_of_off r : reg_ok r → reg_of (reg_off r) = r.
Proof.
  destruct r as [r| | | | |]; intros H; cbn in H; try done.
  - apply reg_of_dist. destruct r; cbn in H |- *; lia.
  - cbn. unfold reg_of, GICC_CTLR, GICC_PMR, GICC_BASE, GICD_ICENABLER, GICD_BASE. repeat (case_match; try lia). f_equal. zlia.
  - cbn. unfold reg_of, GICC_CTLR, GICC_PMR, GICC_BASE, GICD_ISPENDR, GICD_BASE. repeat (case_match; try lia). f_equal. zlia.
  - cbn. unfold reg_of, GICC_CTLR, GICC_PMR, GICC_BASE, GICD_ICFGR, GICD_BASE. repeat (case_match; try lia). f_equal. zlia.
Qed.

#[local] Instance gicv2_mem : GicMem gicv2 := {|
  REG := λ off g, Ret (u32 (reg_get (reg_of off) g)) g;
  REG_set := λ off v g, Ret tt (reg_put (reg_of off) (u32 v) g)
|}.

#[local] Instance gicv2_ok : GicMemOk gicv2.
Proof.
  apply (Build_GicMemOk gicv2 gicv2_mem (λ g, g)).
  - intros r g H. exists g. cbn. by rewrite reg_of_off.
  - intros r v g H. eexists. cbn. by rewrite reg_of_off.
Defined.

(** The serial port and the disk share a register: turning off the one turns off
    the other. *)
Lemma disable_int_disables_all_witness :
  ∃ s s', gicv2_init (Gicv2 (Gic.Dist 0 (λ _, 0) (λ _, 0) (λ _, 0) (λ _, 0) (λ _, 0)) (λ _, 0) 0 0) = Ret tt s ∧
    Gic.enabled (v_dist s) VIRTIO_BLK_IRQ = true ∧ gic_disable_int UART_IRQ s = Ret tt s' ∧
    Gic.enabled (v_dist s') VIRTIO_BLK_IRQ = false.
Proof.
  destruct (gicv2_init (Gicv2 (Gic.Dist 0 (λ _, 0) (λ _, 0) (λ _, 0) (λ _, 0) (λ _, 0)) (λ _, 0) 0 0)) as [[] s| | |] eqn:E; try discriminate E.
  destruct (disable_int_disables_all UART_IRQ s) as (s' & E' & He & _).
  - vm_compute. split; [discriminate|reflexivity].
  - exists s, s'. split_and!; [done| |exact E'|].
    + injection E as <-. vm_compute. reflexivity.
    + change s' with (v_of s'). rewrite (He VIRTIO_BLK_IRQ) by (vm_compute; discriminate). reflexivity.
Defined.

Lemma v2_setup_spi_correct_witness :
  ∃ s', gic_setup_spi UART_IRQ 7 (Gicv2 (Gic.Dist 0 (λ _, 0) (λ _, 0) (λ _, 0) (λ _, 0) (λ _, 0)) (λ _, 0) 0 0) = Ret tt s' ∧
    Gic.enabled (v_dist s') UART_IRQ = true.
Proof.
  destruct (v2_setup_spi_correct UART_IRQ 7 (Gicv2 (Gic.Dist 0 (λ _, 0) (λ _, 0) (λ _, 0) (λ _, 0) (λ _, 0)) (λ _, 0) 0 0)) as (s' & E & He & _).
  - vm_compute. split; [discriminate|reflexivity].
  - exists s'. split; [exact E|]. change s' with (v_of s'). rewrite (He UART_IRQ) by (vm_compute; discriminate). reflexivity.
Defined.
End Gicv2Props.
