(* ===== verification/Timer.v ===== *)
(** * The generic timer (kernel/driver/timer.c)

    Each CPU's virtual timer and the count of ticks that CPU 0 keeps. *)

From S2P Require Import Prelude Irq.
Open Scope Z_scope.
Open Scope prog_scope.

Definition CNTV_CTL_ENABLE : Z := Z.shiftl 1 0.
Definition CNTV_CTL_IMASK : Z := Z.shiftl 1 1.

(** The timer of the CPU that runs, the frequency register, the variables of
    timer.c and the table of handlers. *)
Record timer := Timer {
  cntv_ctl_el0 : Z;
  cntv_tval_el0 : Z;
  cntfrq_el0 : Z;
  ticks : Z;
  interval_ms : Z;
  t_irq : list irqfn
}.

Definition set_cntv_ctl_el0 (c : Z) : prog timer unit :=
  modify (λ t, Timer (u64 c) (cntv_tval_el0 t) (cntfrq_el0 t) (ticks t) (interval_ms t) (t_irq t)).
Definition set_cntv_tval_el0 (v : Z) : prog timer unit :=
  modify (λ t, Timer (cntv_ctl_el0 t) (u64 v) (cntfrq_el0 t) (ticks t) (interval_ms t) (t_irq t)).
Definition set_ticks (v : Z) : prog timer unit :=
  modify (λ t, Timer (cntv_ctl_el0 t) (cntv_tval_el0 t) (cntfrq_el0 t) (u64 v) (interval_ms t) (t_irq t)).
Definition set_interval (v : Z) : prog timer unit :=
  modify (λ t, Timer (cntv_ctl_el0 t) (cntv_tval_el0 t) (cntfrq_el0 t) (ticks t) (u64 v) (t_irq t)).

Definition of_irq : lens timer (list irqfn) :=
  Lens t_irq (λ l t, Timer (cntv_ctl_el0 t) (cntv_tval_el0 t) (cntfrq_el0 t) (ticks t) (interval_ms t) l).

Definition enable_timer : prog timer unit :=
  c <- gets cntv_ctl_el0 ;;
  set_cntv_ctl_el0 (Z.land (Z.lor c CNTV_CTL_ENABLE) (Z.lnot CNTV_CTL_IMASK)).

Definition disable_timer : prog timer unit :=
  c <- gets cntv_ctl_el0 ;;
  set_cntv_ctl_el0 (Z.lor (Z.land c (Z.lnot CNTV_CTL_ENABLE)) CNTV_CTL_IMASK).

Definition timer_enabled : prog timer bool :=
  c <- gets cntv_ctl_el0 ;;
  ret (nz (Z.land c 1)).

Definition reload_timer (ms : Z) : prog timer unit :=
  let interval_us := u64 (ms * 1000) in
  frq <- gets cntfrq_el0 ;;
  set_cntv_tval_el0 (u64 (interval_us * (frq / 1000000))).

Definition timerintr (cpu : Z) : prog timer unit :=
  disable_timer ;;
  (if cpu =? 0 then t <- gets ticks ;; set_ticks (t + 1) else ret tt) ;;
  ms <- gets interval_ms ;;
  reload_timer ms ;;
  enable_timer.

Definition timer_init (ms : Z) : prog timer unit :=
  set_interval ms ;;
  set_ticks 0 ;;
  zoom of_irq (new_irq TIMER_IRQ TimerIntr).

Definition timer_init_percpu : prog timer unit :=
  disable_timer ;;
  ms <- gets interval_ms ;;
  reload_timer ms ;;
  enable_timer.

(** ** The timer goes on *)

(** The timer counts down one interval and will then interrupt. *)
Record armed (t : timer) : Prop := {
  arm_on : Z.testbit (cntv_ctl_el0 t) 0 = true;
  arm_unmasked : Z.testbit (cntv_ctl_el0 t) 1 = false;
  arm_count : cntv_tval_el0 t = u64 (u64 (interval_ms t * 1000) * (cntfrq_el0 t / 1000000))
}.

Lemma enable_bits c : let c' := u64 (Z.land (Z.lor (u64 c) CNTV_CTL_ENABLE) (Z.lnot CNTV_CTL_IMASK)) in
  Z.testbit c' 0 = true ∧ Z.testbit c' 1 = false.
Proof.
  cbv zeta. unfold u64. rewrite !Z.mod_pow2_bits_low, !Z.land_spec, !Z.lor_spec by lia. split; [by rewrite orb_true_r|by rewrite andb_false_r].
Qed.

Lemma rearm_run t : ∃ t', (ms <- gets interval_ms ;; reload_timer ms ;; enable_timer)%prog t = Ret tt t' ∧
  (0 <= cntv_ctl_el0 t < 2 ^ 64 → armed t') ∧ ticks t' = ticks t ∧ interval_ms t' = interval_ms t ∧ t_irq t' = t_irq t ∧ cntfrq_el0 t' = cntfrq_el0 t.
Proof.
  eexists. split; [done|]. split_and!; try done. intros Hc. split; cbn.
  - rewrite <- (u64_small (cntv_ctl_el0 t) Hc). apply enable_bits.
  - rewrite <- (u64_small (cntv_ctl_el0 t) Hc). apply enable_bits.
  - unfold u64. by rewrite Z.mod_mod.
Qed.

(** The interrupt of the timer: it is armed again for the interval, whatever
    its state, and CPU 0 counts one more tick, modulo 2^64; the others count
    none. *)
Lemma timerintr_run cpu t :
  ∃ t', timerintr cpu t = Ret tt t' ∧ armed t' ∧ ticks t' = (if cpu =? 0 then u64 (ticks t + 1) else ticks t) ∧
    interval_ms t' = interval_ms t ∧ t_irq t' = t_irq t.
Proof.
  unfold timerintr, disable_timer. rewrite pbind_assoc, pbind_gets. unfold set_cntv_ctl_el0. rewrite pbind_modify.
  set (t1 := Timer _ _ _ _ _ _). assert (H1 : 0 <= cntv_ctl_el0 t1 < 2 ^ 64) by apply u64_bound. destruct (cpu =? 0).
  - rewrite pbind_assoc, pbind_gets. unfold set_ticks at 1. rewrite pbind_modify. set (t2 := Timer _ _ _ _ _ _).
    destruct (rearm_run t2) as (t' & E & A & K1 & K2 & K3 & _). exists t'. split; [exact E|]. split_and!; [by apply A|by rewrite K1|by rewrite K2|by rewrite K3].
  - rewrite pbind_ret_l. destruct (rearm_run t1) as (t' & E & A & K1 & K2 & K3 & _). exists t'.
    split; [exact E|]. split_and!; [by apply A|by rewrite K1|by rewrite K2|by rewrite K3].
Qed.

(** A CPU that starts arms its timer with the interval that is set. *)
Lemma timer_init_percpu_run t : ∃ t', timer_init_percpu t = Ret tt t' ∧ armed t' ∧ ticks t' = ticks t ∧
  interval_ms t' = interval_ms t ∧ t_irq t' = t_irq t.
Proof.
  unfold timer_init_percpu, disable_timer. rewrite pbind_assoc, pbind_gets. unfold set_cntv_ctl_el0.
  rewrite pbind_modify. set (t2 := Timer _ _ _ _ _ _). destruct (rearm_run t2) as (t' & E & A & K1 & K2 & K3 & _).
  exists t'. split; [exact E|]. split_and!; [by apply A, u64_bound|done..].
Qed.

(** After the two initialisations the timer is armed, no tick is counted and
    [timerintr] is the handler of its interrupt. *)
Lemma timer_init_run ms t : length (t_irq t) = NIRQ →
  ∃ t', (timer_init ms ;; timer_init_percpu)%prog t = Ret tt t' ∧ armed t' ∧ ticks t' = 0 ∧ interval_ms t' = u64 ms ∧
    t_irq t' !! Z.to_nat TIMER_IRQ = Some TimerIntr.
Proof.
  intros Hl. unfold timer_init, set_interval. rewrite !pbind_assoc, pbind_modify. unfold set_ticks. rewrite !pbind_assoc, pbind_modify.
  set (t1 := Timer _ _ _ _ _ _).
  assert (E1 : zoom of_irq (new_irq TIMER_IRQ TimerIntr) t1 =
    Ret tt (Timer (cntv_ctl_el0 t) (cntv_tval_el0 t) (cntfrq_el0 t) 0 (u64 ms) (<[27%nat := TimerIntr]> (t_irq t)))) by done.
  rewrite (pbind_ok _ _ _ _ _ E1). destruct (timer_init_percpu_run (Timer (cntv_ctl_el0 t) (cntv_tval_el0 t) (cntfrq_el0 t) 0 (u64 ms) (<[27%nat := TimerIntr]> (t_irq t))))
    as (t' & E & A & K1 & K2 & K3).
  exists t'. split; [exact E|]. split_and!; [done..|]. rewrite K3. cbn [t_irq].
  apply list_lookup_insert_eq. rewrite Hl. unfold NIRQ. lia.
Qed.
