(* ===== verification/Uart.v ===== *)
(** * The serial port (kernel/driver/virt/uart.c, and [csputc] of kernel/console.c)

    The class [Pl011] is what the driver sees of the device: its registers.
    [Pl011Ok] is what the PL011 promises, in terms of the characters it has
    sent, those it has received and not handed over, and how long its transmit
    queue stays full. *)

From S2P Require Import Prelude Irq.
Open Scope Z_scope.
Open Scope prog_scope.

(** Registers, by their offset from [UARTBASE]. *)
Definition UART_DR : Z := 0x00.
Definition UART_FR : Z := 0x18.
Definition UART_LCRH : Z := 0x2c.
Definition UART_CR : Z := 0x30.
Definition UART_IMSC : Z := 0x38.
Definition UART_ICR : Z := 0x44.
Definition FR_RXFE : Z := Z.shiftl 1 4.
Definition FR_TXFF : Z := Z.shiftl 1 5.
Definition LCRH_FEN : Z := Z.shiftl 1 4.
Definition LCRH_WLEN_8BIT : Z := Z.shiftl 3 5.

Definition BACKSPACE : Z := 127.

Class Pl011 (D : Type) := {
  uart_read : Z → prog D Z;
  uart_write : Z → Z → prog D unit;
  sent : D → list Z;
  received : D → list Z;
  busy : D → nat;    (* how often its transmit queue will be found full *)
  polls : nat        (* at most that often *)
}.

Section driver.
Context {D : Type} `{!Pl011 D}.

(** [while(REG(UART_FR) & FR_TXFF) ;], [fuel] turns at most. *)
Fixpoint tx_wait (fuel : nat) : prog D unit :=
  fr <- uart_read UART_FR ;;
  if nz (Z.land fr FR_TXFF) then
    match fuel with O => λ _, Hang | S fuel => tx_wait fuel end
  else ret tt.

Definition uart_putc (c : Z) : prog D unit :=
  tx_wait polls ;;
  uart_write UART_DR (u8 c).

Definition uart_getc : prog D Z :=
  fr <- uart_read UART_FR ;;
  if nz (Z.land fr FR_RXFE) then ret (-1) else
  c <- uart_read UART_DR ;;
  ret (i32 c).

(** [s] are the bytes from the pointer on. *)
Fixpoint uart_puts (s : list Z) : prog D unit :=
  match s with
  | [] => fault "uart_puts"
  | c :: s => if c =? 0 then ret tt else uart_putc c ;; uart_puts s
  end.

Definition disable_uart : prog D unit := uart_write UART_CR 0.

Definition enable_uartintr : prog D unit :=
  uart_write UART_IMSC 0 ;;
  uart_write UART_IMSC (Z.lor (Z.shiftl 1 4) (Z.shiftl 1 5)).

(** The device and the table of interrupt handlers. *)
Definition uart_of : lens (list irqfn * D) D := Lens snd (λ d s, (fst s, d)).
Definition irqs_of : lens (list irqfn * D) (list irqfn) := Lens fst (λ l s, (l, snd s)).

Definition uart_init : prog (list irqfn * D) unit :=
  zoom uart_of disable_uart ;;
  zoom irqs_of (new_irq UART_IRQ UartIntr) ;;
  zoom uart_of (uart_write UART_LCRH (Z.lor LCRH_FEN LCRH_WLEN_8BIT)) ;;
  zoom uart_of (uart_write UART_CR 0x301) ;;
  zoom uart_of enable_uartintr.

Definition csputc (c : Z) : prog D unit :=
  if u8 c =? BACKSPACE then uart_putc 8 ;; uart_putc 32 ;; uart_putc 8 else uart_putc c.

(** ** What the device promises *)

Class Pl011Ok : Prop := {
  busy_bound : ∀ d, (busy d <= polls)%nat;
  fr_read : ∀ d, ∃ v d', uart_read UART_FR d = Ret v d' ∧ sent d' = sent d ∧ received d' = received d ∧
    (if nz (Z.land v FR_TXFF) then (busy d' < busy d)%nat else busy d' = 0%nat) ∧
    nz (Z.land v FR_RXFE) = bool_decide (received d = []);
  dr_write : ∀ d c, busy d = 0%nat → 0 <= c < 256 →
    ∃ d', uart_write UART_DR c d = Ret tt d' ∧ sent d' = sent d ++ [c] ∧ received d' = received d;
  ctl_write : ∀ d r v, r ≠ UART_DR →
    ∃ d', uart_write r v d = Ret tt d' ∧ sent d' = sent d ∧ received d' = received d;
  dr_read : ∀ d c r, received d = c :: r →
    ∃ d', uart_read UART_DR d = Ret c d' ∧ sent d' = sent d ∧ received d' = r
}.
End driver.

(** What a character looks like on the terminal: DEL rubs out the last one. *)
Definition glyph (c : Z) : list Z := if c =? BACKSPACE then [8; 32; 8] else [c].

Section output.
Context {D : Type} `{!Pl011 D} `{!Pl011Ok}.
Implicit Types (d : D) (c : Z).

Lemma tx_wait_run fuel d : (busy d <= fuel)%nat →
  ∃ d', tx_wait fuel d = Ret tt d' ∧ busy d' = 0%nat ∧ sent d' = sent d ∧ received d' = received d.
Proof.
  revert d. induction fuel as [|fuel IH]; intros d Hb;
    destruct (fr_read d) as (v & d1 & E & Hs & Hr & Hx & _); cbn [tx_wait]; rewrite (pbind_ok _ _ _ _ _ E);
    destruct (nz _); [lia|by exists d1| |by exists d1].
  destruct (IH d1) as (d2 & E2 & Hb2 & Hs2 & Hr2); [lia|]. exists d2. by rewrite E2, Hs2, Hr2.
Qed.

Lemma uart_putc_run c d : ∃ d', uart_putc c d = Ret tt d' ∧ sent d' = sent d ++ [u8 c] ∧ received d' = received d.
Proof.
  destruct (tx_wait_run polls d (busy_bound d)) as (d1 & E1 & Hb & Hs1 & Hr1).
  destruct (dr_write d1 (u8 c) Hb (u8_bound c)) as (d2 & E2 & Hs2 & Hr2).
  exists d2. unfold uart_putc. by rewrite (pbind_ok _ _ _ _ _ E1), E2, Hs2, Hs1, Hr2, Hr1.
Qed.

Lemma csputc_run c d : ∃ d', csputc c d = Ret tt d' ∧ sent d' = sent d ++ glyph (u8 c) ∧ received d' = received d.
Proof.
  unfold csputc, glyph. destruct (u8 c =? BACKSPACE).
  - destruct (uart_putc_run 8 d) as (d1 & E1 & Hs1 & Hr1), (uart_putc_run 32 d1) as (d2 & E2 & Hs2 & Hr2),
      (uart_putc_run 8 d2) as (d3 & E3 & Hs3 & Hr3).
    exists d3. rewrite (pbind_ok _ _ _ _ _ E1), (pbind_ok _ _ _ _ _ E2), E3, Hs3, Hs2, Hs1, Hr3, Hr2, Hr1.
    by rewrite <- !app_assoc.
  - apply uart_putc_run.
Qed.

Lemma uart_getc_none d : received d = [] → ∃ d', uart_getc d = Ret (-1) d' ∧ sent d' = sent d ∧ received d' = [].
Proof.
  intros Hd. destruct (fr_read d) as (v & d1 & E & Hs & Hr & _ & Hx).
  exists d1. unfold uart_getc. rewrite (pbind_ok _ _ _ _ _ E), Hx, bool_decide_eq_true_2 by done. split_and!; [done..|by rewrite Hr].
Qed.

Lemma uart_getc_some d c r : received d = c :: r → 0 <= c < 256 →
  ∃ d', uart_getc d = Ret c d' ∧ sent d' = sent d ∧ received d' = r.
Proof.
  intros Hd Hc. destruct (fr_read d) as (v & d1 & E & Hs & Hr & _ & Hx).
  destruct (dr_read d1 c r) as (d2 & E2 & Hs2 & Hr2); [by rewrite Hr|]. exists d2.
  unfold uart_getc. rewrite (pbind_ok _ _ _ _ _ E), Hx, bool_decide_eq_false_2 by (by rewrite Hd).
  rewrite (pbind_ok _ _ _ _ _ E2), i32_small by lia. split_and!; [done|by rewrite Hs2|done].
Qed.
End output.

(** ** A device *)

(** One that finds its queue full once after every character. *)
Record pl011 := PL { pl_sent : list Z; pl_received : list Z; pl_busy : bool }.

#[export] Instance pl011_regs : Pl011 pl011 := {|
  uart_read r d :=
    if r =? UART_FR then
      Ret (Z.lor (if pl_busy d then FR_TXFF else 0) (if decide (pl_received d = []) then FR_RXFE else 0))
          (PL (pl_sent d) (pl_received d) false)
    else if r =? UART_DR then
      match pl_received d with c :: l => Ret c (PL (pl_sent d) l (pl_busy d)) | [] => Ret 0 d end
    else Ret 0 d;
  uart_write r v d :=
    if r =? UART_DR then
      Ret tt (if pl_busy d then d else PL (pl_sent d ++ [v]) (pl_received d) true)
    else Ret tt d;
  sent := pl_sent;
  received := pl_received;
  busy d := (if pl_busy d then 1 else 0)%nat;
  polls := 1
|}.

#[export] Instance pl011_ok : Pl011Ok.
Proof.
  split.
  - intros [l r []]; cbn; lia.
  - intros [l r b]. eexists _, _. split; [reflexivity|]. cbn [sent received busy pl011_regs pl_sent pl_received pl_busy].
    split; [done|]. split; [done|]. destruct b, r; vm_compute; split; (done || lia).
  - intros [l r []] c Hb _; [done|]. by eexists.
  - intros [l r b] r' v Hr. cbn. rewrite (proj2 (Z.eqb_neq r' UART_DR) Hr). by eexists.
  - intros [l r b] c r' [= ->]. by eexists.
Qed.
