(* ===== verification/Printk.v ===== *)
(** * Formatted output (kernel/printk.c)

    The characters go to the serial port through [csputc].  A variable
    argument is a word, or a pointer to the characters of a string; a string
    literal is the list of its characters with the NUL, so that reading past
    the list is reading past the object. *)

From S2P Require Import Prelude Spinlock Uart.
Import Spin.
Open Scope Z_scope.
Open Scope prog_scope.

Definition chars (s : string) : list Z := (λ a, Z.of_N (Ascii.N_of_ascii a)) <$> String.list_ascii_of_string s.
Definition literal (s : string) : list Z := chars s ++ [0].

(** ** Numbers *)

(** The local array and [cur], an index of it. *)
Definition numbuf : Type := list Z * Z.

(** [*--cur = c] *)
Definition push (c : Z) : prog numbuf unit := λ b,
  let cur := b.2 - 1 in
  if (0 <=? cur) && (cur <? length b.1) then Ret tt (<[Z.to_nat cur := c]> b.1, cur) else Fault "buf[]".

(** ["0123456789abcdef"[n]] *)
Definition digit (n : Z) : prog numbuf Z := λ b,
  match literal "0123456789abcdef" !! Z.to_nat n with Some c => Ret c b | None => Fault "digits" end.

(** [do *--cur = ...; while(unum /= base);] *)
Fixpoint put_digits (fuel : nat) (base unum : Z) : prog numbuf unit :=
  match fuel with
  | O => λ _, Hang
  | S fuel =>
      c <- digit (unum mod base) ;;
      push c ;;
      if nz (unum / base) then put_digits fuel base (unum / base) else ret tt
  end.

(** The text of a number, of [w] bits: up to the last loop of [printiu32] and
    [printiu64].  [-(num + 1)] is in the range of the signed type. *)
Definition number (w : Z) (num base : Z) (sign : bool) : prog numbuf unit :=
  let neg := sign && (num <? 0) in
  let unum := if neg then (- (num + 1)) mod 2 ^ w + 1 else num mod 2 ^ w in
  put_digits (Z.to_nat w) base unum ;;
  if neg then push 45 else ret tt.

Definition empty_buf (w : nat) : numbuf := (replicate (w + 1) 0, Z.of_nat w).

Section printing.
Context {D : Type} `{!Pl011 D}.

(** [while( *cur ) csputc(&cons1, *cur++);] from the pointer [s] on. *)
Fixpoint put_string (s : list Z) : prog D unit :=
  match s with
  | [] => fault "string"
  | c :: s => if c =? 0 then ret tt else csputc c ;; put_string s
  end.

Definition print_number (w : nat) (num base : Z) (sign : bool) : prog D unit := λ d,
  match number w num base sign (empty_buf w) with
  | Ret _ (buf, cur) => put_string (drop (Z.to_nat cur) buf) d
  | Panic e => Panic e
  | Hang => Hang
  | Fault e => Fault e
  end.

Definition printiu32 (num base : Z) (sign : bool) : prog D unit := print_number 32 num base sign.
Definition printiu64 (num base : Z) (sign : bool) : prog D unit := print_number 64 num base sign.

(** ** Formats *)

(** A pointer argument is NULL or points to a string. *)
Inductive varg := Word (v : Z) | Str (s : option (list Z)).

(** [va_arg(ap, T)] for an integer type and for [char *]. *)
Definition va_word (ap : list varg) : prog D (Z * list varg) :=
  match ap with Word v :: ap => ret (v, ap) | _ => fault "va_arg" end.
Definition va_str (ap : list varg) : prog D (option (list Z) * list varg) :=
  match ap with Str s :: ap => ret (s, ap) | Word _ :: _ | [] => fault "va_arg" end.

Definition fmt_at (fmt : list Z) (i : nat) : prog D Z :=
  match fmt !! i with Some c => ret c | None => fault "fmt[]" end.

(** The switch on the character after a [%]. *)
Definition directive (c : Z) (ap : list varg) : prog D (list varg) :=
  if c =? 100 (* d *) then a <- va_word ap ;; printiu32 (i32 a.1) 10 true ;; ret a.2
  else if c =? 117 (* u *) then a <- va_word ap ;; printiu32 (i32 (u32 a.1)) 10 false ;; ret a.2
  else if c =? 120 (* x *) then a <- va_word ap ;; printiu64 (i64 (u64 a.1)) 16 false ;; ret a.2
  else if c =? 112 (* p *) then
    csputc 48 ;; csputc 120 ;; a <- va_word ap ;; printiu64 (i64 (u64 a.1)) 16 false ;; ret a.2
  else if c =? 99 (* c *) then a <- va_word ap ;; csputc (u8 a.1) ;; ret a.2
  else if c =? 115 (* s *) then
    a <- va_str ap ;; put_string (default (literal "(null)") a.1) ;; ret a.2
  else if c =? 37 (* % *) then csputc 37 ;; ret ap
  else csputc 37 ;; csputc c ;; ret ap.

(** The loop over [fmt]. *)
Fixpoint fmt_loop (fuel : nat) (fmt : list Z) (i : nat) (ap : list varg) : prog D unit :=
  c <- fmt_at fmt i ;;
  if c =? 0 then ret tt else
  match fuel with
  | O => λ _, Hang
  | S fuel =>
      if c =? 37 then
        c <- fmt_at fmt (i + 1) ;;
        ap <- directive c ap ;;
        fmt_loop fuel fmt (i + 2) ap
      else csputc c ;; fmt_loop fuel fmt (i + 1) ap
  end.

(** ** [printk] and [panic] *)

Record pst := Pst { p_hart : hart; printk_lk : spinlock; p_dev : D }.

Definition of_plk : lens pst lockst := Lens (λ s, (p_hart s, printk_lk s)) (λ t s, Pst (fst t) (snd t) (p_dev s)).
Definition of_pdev : lens pst D := Lens p_dev (λ d s, Pst (p_hart s) (printk_lk s) d).

Definition vprintk (fmt : list Z) (ap : list varg) : prog pst Z :=
  zoom of_plk acquire ;;
  zoom of_pdev (fmt_loop (length fmt) fmt 0 ap) ;;
  zoom of_plk release ;;
  ret 0.

Definition printk (fmt : list Z) (ap : list varg) : prog pst Z :=
  vprintk fmt ap ;;
  ret 0.

Definition disable_irq : prog hart unit :=
  modify (λ h, Hart (Spin.cpuid h) (cli_depth h) (intr_enabled h) false).

Definition of_phart : lens pst hart := Lens p_hart (λ h s, Pst h (printk_lk s) (p_dev s)).

(** [psci_shutdown], a call to the firmware, may return. *)
Definition panic (psci_shutdown : prog pst unit) (s : list Z) (ap : list varg) : prog pst unit :=
  zoom of_phart disable_irq ;;
  h <- gets p_hart ;;
  printk (literal "CPU%d [panic]: ") [Word (Spin.cpuid h)] ;;
  vprintk s ap ;;
  printk [10; 0] [] ;;
  psci_shutdown ;;
  λ _, Hang.

Definition printk_init : prog pst unit :=
  modify (λ s, Pst (p_hart s) lock_init (p_dev s)).
End printing.
Arguments pst : clear implicits.

(** ** Numerals *)

Definition digit_char (n : Z) : Z := if n <? 10 then 48 + n else 87 + n.
Definition digit_val (c : Z) : Z := if c <? 58 then c - 48 else c - 87.

(** The digits of [n] before [t]. *)
Fixpoint digits (fuel : nat) (base n : Z) (t : list Z) : list Z :=
  match fuel with
  | O => t
  | S fuel => let t := digit_char (n mod base) :: t in if n / base =? 0 then t else digits fuel base (n / base) t
  end.
Definition numeral (base n : Z) : list Z := digits 64 base n [].
Definition signed_numeral (n : Z) : list Z := if n <? 0 then 45 :: numeral 10 (- n) else numeral 10 n.

(** The number a numeral denotes. *)
Definition value (base : Z) (l : list Z) : Z := foldl (λ v c, v * base + digit_val c) 0 l.

Section numerals.
Implicit Types (n base c : Z) (t l : list Z).

Lemma digit_char_ok n : 0 <= n < 16 → 48 <= digit_char n < 103 ∧ digit_val (digit_char n) = n.
Proof.
  intros. unfold digit_char, digit_val. destruct (Z.ltb_spec n 10).
  - rewrite (proj2 (Z.ltb_lt (48 + n) 58)) by lia. lia.
  - rewrite (proj2 (Z.ltb_ge (87 + n) 58)) by lia. lia.
Qed.

Lemma digit_run n b : 0 <= n < 16 → digit n b = Ret (digit_char n) b.
Proof.
  intros Hn. assert (H : Forall (λ k : nat, literal "0123456789abcdef" !! k = Some (digit_char k)) (seq 0 16)).
  { repeat constructor. }
  unfold digit. rewrite Forall_forall in H. specialize (H (Z.to_nat n)). rewrite Z2Nat.id in H by lia.
  by rewrite H by (apply elem_of_seq; lia).
Qed.

Lemma push_run c k t : push c (replicate (S k) 0 ++ t, Z.of_nat (S k)) = Ret tt (replicate k 0 ++ c :: t, Z.of_nat k).
Proof.
  unfold push. cbn [fst snd]. replace (Z.of_nat (S k) - 1) with (Z.of_nat k) by lia.
  rewrite (proj2 (Z.leb_le 0 (Z.of_nat k))), (proj2 (Z.ltb_lt (Z.of_nat k) _)) by (rewrite ?length_app, ?length_replicate; lia).
  cbn [andb]. rewrite Nat2Z.id. f_equal. f_equal. rewrite replicate_S_end, <- app_assoc.
  rewrite insert_app_r_alt by (rewrite length_replicate; lia). by rewrite length_replicate, Nat.sub_diag.
Qed.

Lemma digits_S fuel base n t : digits (S fuel) base n t =
  if n / base =? 0 then digit_char (n mod base) :: t else digits fuel base (n / base) (digit_char (n mod base) :: t).
Proof. done. Qed.

Lemma div_below base n m : 2 <= base → 0 <= n < base ^ Z.of_nat (S m) → 0 <= n / base < base ^ Z.of_nat m.
Proof.
  intros Hb Hn. rewrite Nat2Z.inj_succ, Z.pow_succ_r in Hn by lia. split; [apply Z.div_pos; lia|].
  apply Z.div_lt_upper_bound; lia.
Qed.

(** Digits that are enough do not depend on the fuel. *)
Lemma digits_fuel m : ∀ fuel base n t, 2 <= base → 0 <= n < base ^ Z.of_nat (S m) → (S m <= fuel)%nat →
  digits fuel base n t = digits (S m) base n t.
Proof.
  induction m as [|m IH]; intros [|fuel] base n t Hb Hn Hf; try lia; rewrite !digits_S.
  - rewrite (Z.div_small n base) by lia. done.
  - pose proof (div_below base n (S m) Hb Hn). destruct (n / base =? 0); [done|]. apply IH; lia || done.
Qed.

Lemma digits_app m : ∀ base n t, digits m base n t = digits m base n [] ++ t.
Proof.
  induction m as [|m IH]; intros base n t; [done|]. rewrite !digits_S. destruct (n / base =? 0); [done|].
  rewrite IH, (IH _ _ [_]), <- app_assoc. done.
Qed.

(** Up to [S m] digits go in front of [t]. *)
Lemma put_digits_run m : ∀ fuel base n k t, 2 <= base <= 16 → 0 <= n < base ^ Z.of_nat (S m) → (S m <= fuel)%nat → (S m <= k)%nat →
  ∃ k', (k <= k' + S m)%nat ∧ (k' < k)%nat ∧
    put_digits fuel base n (replicate k 0 ++ t, Z.of_nat k) = Ret tt (replicate k' 0 ++ digits (S m) base n t, Z.of_nat k').
Proof.
  induction m as [|m IH]; intros [|fuel] base n [|k] t Hb Hn Hf Hk; try lia; cbn [put_digits];
    rewrite (pbind_ok _ _ _ _ _ (digit_run (n mod base) _ ltac:(pose proof (Z.mod_pos_bound n base ltac:(lia)); lia)));
    rewrite (pbind_ok _ _ _ _ _ (push_run _ k t)), digits_S; unfold nz.
  - rewrite (Z.div_small n base) by lia. exists k. split_and!; [lia|lia|done].
  - destruct (n / base =? 0) eqn:E; cbn [negb]; [exists k; split_and!; [lia|lia|done]|].
    destruct (IH fuel base (n / base) k (digit_char (n mod base) :: t)) as (k' & H1 & H2 & E'); [lia|by apply div_below; [lia|]|lia|lia|].
    exists k'. split_and!; [lia|lia|done].
Qed.

Lemma numeral_digits m base n t : 2 <= base → 0 <= n < base ^ Z.of_nat (S m) → (S m <= 64)%nat →
  digits (S m) base n t = numeral base n ++ t.
Proof. intros. rewrite digits_app. unfold numeral. by rewrite (digits_fuel m 64). Qed.

Lemma digits_chars m : ∀ base n t, 2 <= base <= 16 → 0 <= n → Forall (λ c, 48 <= c < 103) t → Forall (λ c, 48 <= c < 103) (digits m base n t).
Proof.
  induction m as [|m IH]; intros base n t Hb Hn Ht; [done|]. rewrite digits_S.
  assert (H : Forall (λ c, 48 <= c < 103) (digit_char (n mod base) :: t)).
  { constructor; [|done]. apply digit_char_ok. pose proof (Z.mod_pos_bound n base). lia. }
  destruct (n / base =? 0); [done|]. apply IH; [lia|apply Z.div_pos; lia|done].
Qed.

Lemma numeral_chars base n : 2 <= base <= 16 → 0 <= n → Forall (λ c, 48 <= c < 103) (numeral base n).
Proof. intros. by apply digits_chars. Qed.

Lemma value_snoc base l c : value base (l ++ [c]) = value base l * base + digit_val c.
Proof. unfold value. by rewrite foldl_app. Qed.

Lemma digits_length m : ∀ base n t, (length t <= length (digits m base n t) <= length t + m)%nat.
Proof.
  induction m as [|m IH]; intros base n t; [cbn; lia|]. rewrite digits_S. destruct (n / base =? 0); [cbn; lia|].
  specialize (IH base (n / base) (digit_char (n mod base) :: t)). cbn [length] in IH. lia.
Qed.

Lemma value_digits m : ∀ base n, 2 <= base <= 16 → 0 <= n < base ^ Z.of_nat (S m) → value base (digits (S m) base n []) = n.
Proof.
  induction m as [|m IH]; intros base n Hb Hn; rewrite digits_S;
    pose proof (digit_char_ok (n mod base) ltac:(pose proof (Z.mod_pos_bound n base ltac:(lia)); lia)) as [_ Hd];
    pose proof (Z_div_mod_eq_full n base).
  - rewrite (Z.div_small n base) in * by lia. cbn [Z.eqb value foldl]. rewrite Hd. lia.
  - destruct (Z.eqb_spec (n / base) 0) as [E|E]; [cbn [value foldl]; rewrite Hd; lia|].
    rewrite digits_app, value_snoc, Hd, IH; [lia|done|by apply div_below; [lia|]].
Qed.

(** A numeral denotes its number and has no more digits than needed. *)
Lemma numeral_ok m base n : 2 <= base <= 16 → 0 <= n < base ^ Z.of_nat (S m) → (S m <= 64)%nat →
  value base (numeral base n) = n ∧ (1 <= length (numeral base n) <= S m)%nat.
Proof.
  intros Hb Hn Hm. unfold numeral. rewrite (digits_fuel m 64) by (lia || done). split; [by apply value_digits|].
  rewrite digits_S. pose proof (digits_length m base (n / base) [digit_char (n mod base)]) as H. cbn [length] in H.
  destruct (n / base =? 0); [cbn; lia|lia].
Qed.
End numerals.

(** ** Characters on the terminal *)

Definition typeset (l : list Z) : list Z := l ≫= (λ c, glyph (u8 c)).

Section output.
Context {D : Type} `{!Pl011 D} `{!Pl011Ok}.
Implicit Types (d : D) (l : list Z).

Lemma put_string_run l rest d : Forall (λ c, c ≠ 0) l →
  ∃ d', put_string (l ++ 0 :: rest) d = Ret tt d' ∧ sent d' = sent d ++ typeset l ∧ received d' = received d.
Proof.
  revert d. induction l as [|c l IH]; intros d Hl; [exists d; by rewrite app_nil_r|].
  apply Forall_cons in Hl as [Hc Hl]. destruct (csputc_run c d) as (d1 & E1 & H1 & H2), (IH d1 Hl) as (d2 & E2 & H3 & H4).
  exists d2. cbn [put_string app]. rewrite (proj2 (Z.eqb_neq c 0) Hc), (pbind_ok _ _ _ _ _ E1), E2, H3, H1, H4, H2, <- app_assoc.
  done.
Qed.

(** Digits and the sign are printed as they are. *)
Lemma typeset_plain l : Forall (λ c, 0 < c < 127) l → typeset l = l.
Proof.
  unfold typeset. induction 1 as [|c l Hc _ IH]; [done|]. rewrite bind_cons, IH, u8_small by lia.
  unfold glyph, BACKSPACE. by rewrite (proj2 (Z.eqb_neq c 127)) by lia.
Qed.

Lemma number_run (w m : nat) num base sign :
  let neg := sign && (num <? 0) in
  let n := if neg then (- (num + 1)) mod 2 ^ w + 1 else num mod 2 ^ w in
  2 <= base <= 16 → 0 <= n < base ^ Z.of_nat (S m) → (S m + (if neg then 1 else 0) <= w)%nat → (w <= 64)%nat →
  ∃ k : nat, number w num base sign (empty_buf w) =
    Ret tt (replicate k 0 ++ (if neg then [45] else []) ++ numeral base n ++ [0], Z.of_nat k).
Proof.
  intros neg n Hb Hn Hm Hw. unfold number, empty_buf. fold neg n. rewrite Nat2Z.id.
  destruct (put_digits_run m w base n w [0] Hb Hn ltac:(lia) ltac:(lia)) as (k & H1 & H2 & E).
  replace (w + 1)%nat with (length [0] + w)%nat by (cbn; lia). rewrite Nat.add_comm, replicate_add. cbn [length replicate].
  rewrite (pbind_ok _ _ _ _ _ E), numeral_digits by lia. destruct neg.
  - destruct k as [|k]; [lia|]. exists k. by rewrite push_run.
  - by exists k.
Qed.

Lemma print_number_run (w m : nat) num base sign d :
  let neg := sign && (num <? 0) in
  let n := if neg then (- (num + 1)) mod 2 ^ w + 1 else num mod 2 ^ w in
  2 <= base <= 16 → 0 <= n < base ^ Z.of_nat (S m) → (S m + (if neg then 1 else 0) <= w)%nat → (w <= 64)%nat →
  ∃ d', print_number w num base sign d = Ret tt d' ∧ received d' = received d ∧
    sent d' = sent d ++ (if neg then [45] else []) ++ numeral base n.
Proof.
  intros neg n Hb Hn Hm Hw. destruct (number_run w m num base sign Hb Hn Hm Hw) as [k E]. fold neg n in E.
  assert (Hc : Forall (λ c, 0 < c < 127) ((if neg then [45] else []) ++ numeral base n)).
  { apply Forall_app. split; [destruct neg; repeat constructor; lia|].
    eapply Forall_impl; [apply numeral_chars; [done|lia]|]. cbn. lia. }
  destruct (put_string_run ((if neg then [45] else []) ++ numeral base n) [] d) as (d' & E' & Hs & Hr).
  { eapply Forall_impl; [exact Hc|]. cbn. lia. }
  exists d'. unfold print_number. rewrite E, Nat2Z.id, drop_app_length' by (symmetry; apply length_replicate).
  rewrite <- app_assoc in E'. cbn [app] in E'. rewrite E'. by rewrite Hs, (typeset_plain _ Hc).
Qed.

(** [%d], [%u] and [%x]. *)
Lemma printiu32_signed v d : - 2 ^ 31 <= v < 2 ^ 31 →
  ∃ d', printiu32 v 10 true d = Ret tt d' ∧ received d' = received d ∧ sent d' = sent d ++ signed_numeral v.
Proof.
  intros Hv. unfold signed_numeral. pose proof (print_number_run 32 9 v 10 true d) as Hp. cbn [andb] in Hp. cbv zeta in Hp.
  change (Z.of_nat 32) with 32 in Hp. change (10 ^ Z.of_nat 10) with 10000000000 in Hp.
  destruct (Z.ltb_spec v 0).
  - rewrite (Z.mod_small (- (v + 1))) in Hp by lia. replace (- (v + 1) + 1) with (- v) in Hp by lia. apply Hp; lia.
  - rewrite (Z.mod_small v) in Hp by lia. apply Hp; lia.
Qed.

Lemma printiu32_unsigned v d : 0 <= v < 2 ^ 32 →
  ∃ d', printiu32 (i32 v) 10 false d = Ret tt d' ∧ received d' = received d ∧ sent d' = sent d ++ numeral 10 v.
Proof.
  intros Hv. pose proof (print_number_run 32 9 (i32 v) 10 false d) as Hp. cbn [andb] in Hp. cbv zeta in Hp.
  change (Z.of_nat 32) with 32 in Hp. change (10 ^ Z.of_nat 10) with 10000000000 in Hp.
  assert (E : i32 v mod 2 ^ 32 = v) by (unfold i32; zlia). rewrite E in Hp. apply Hp; lia.
Qed.

Lemma printiu64_hex v d : 0 <= v < 2 ^ 64 →
  ∃ d', printiu64 (i64 v) 16 false d = Ret tt d' ∧ received d' = received d ∧ sent d' = sent d ++ numeral 16 v.
Proof.
  intros Hv. pose proof (print_number_run 64 15 (i64 v) 16 false d) as Hp. cbn [andb] in Hp. cbv zeta in Hp.
  change (Z.of_nat 64) with 64 in Hp. change (16 ^ Z.of_nat 16) with (2 ^ 64) in Hp.
  assert (E : i64 v mod 2 ^ 64 = v) by (unfold i64; zlia). rewrite E in Hp. apply Hp; lia.
Qed.
End output.

(** ** Formats as pieces *)

(** What a format is made of, with the argument each piece takes: text, the
    directives, and a [%] before a character that is none. [Field] is a string in
    an array that goes on after the NUL. *)
Inductive piece :=
| Lit (c : Z) | Dec (v : Z) | Udec (v : Z) | Hex (v : Z) | Ptr (v : Z) | Chr (v : Z)
| Txt (l : list Z) | Field (l rest : list Z) | Null | Percent | Other (c : Z).

Definition piece_source (p : piece) : list Z :=
  match p with
  | Lit c => [c] | Dec _ => [37; 100] | Udec _ => [37; 117] | Hex _ => [37; 120] | Ptr _ => [37; 112]
  | Chr _ => [37; 99] | Txt _ | Field _ _ | Null => [37; 115] | Percent => [37; 37] | Other c => [37; c]
  end.
Definition piece_arg (p : piece) : list varg :=
  match p with
  | Dec v | Udec v | Hex v | Ptr v | Chr v => [Word v]
  | Txt l => [Str (Some (l ++ [0]))]
  | Field l rest => [Str (Some (l ++ 0 :: rest))]
  | Null => [Str None]
  | Lit _ | Percent | Other _ => []
  end.
Definition piece_text (p : piece) : list Z :=
  match p with
  | Lit c => typeset [c]
  | Dec v => signed_numeral (i32 v)
  | Udec v => numeral 10 (u32 v)
  | Hex v => numeral 16 (u64 v)
  | Ptr v => 48 :: 120 :: numeral 16 (u64 v)
  | Chr v => typeset [v]
  | Txt l | Field l _ => typeset l
  | Null => chars "(null)"
  | Percent => [37]
  | Other c => 37 :: typeset [c]
  end.
Definition directives : list Z := [100; 117; 120; 112; 99; 115; 37].
Definition piece_ok (p : piece) : Prop :=
  match p with
  | Lit c => c ≠ 0 ∧ c ≠ 37
  | Txt l | Field l _ => Forall (λ c, c ≠ 0) l
  | Other c => ¬ c ∈ directives
  | _ => True
  end.

Section formats.
Context {D : Type} `{!Pl011 D} `{!Pl011Ok}.
Implicit Types (d : D) (ps : list piece) (p : piece).

Definition source ps : list Z := ps ≫= piece_source.
Definition vargs ps : list varg := ps ≫= piece_arg.
Definition text ps : list Z := ps ≫= piece_text.

(** The directive of a piece takes its argument and prints its text. *)
Lemma directive_run p c ap d : piece_ok p → piece_source p = [37; c] →
  ∃ d', directive c (piece_arg p ++ ap) d = Ret ap d' ∧ received d' = received d ∧ sent d' = sent d ++ piece_text p.
Proof.
  intros Hp. destruct p as [c0|v|v|v|v|v|l|l rest| | |c0]; cbn [piece_source]; intros [= <-]; cbn [piece_arg piece_text app];
    unfold directive; cbn [Z.eqb Pos.eqb]; unfold va_word, va_str; prog_steps; cbn [fst snd].
  - destruct (printiu32_signed (i32 v) d (i32_bound v)) as (d1 & E & ?). exists d1. by rewrite (pbind_ok _ _ _ _ _ E).
  - destruct (printiu32_unsigned (u32 v) d (u32_bound v)) as (d1 & E & ?). exists d1. by rewrite (pbind_ok _ _ _ _ _ E).
  - destruct (printiu64_hex (u64 v) d (u64_bound v)) as (d1 & E & ?). exists d1. by rewrite (pbind_ok _ _ _ _ _ E).
  - destruct (csputc_run 48 d) as (d1 & E1 & S1 & R1), (csputc_run 120 d1) as (d2 & E2 & S2 & R2).
    destruct (printiu64_hex (u64 v) d2 (u64_bound v)) as (d3 & E3 & R3 & S3).
    exists d3. rewrite (pbind_ok _ _ _ _ _ E1), (pbind_ok _ _ _ _ _ E2). prog_steps. cbn [fst snd]. rewrite (pbind_ok _ _ _ _ _ E3).
    rewrite R3, R2, R1, S3, S2, S1, <- !app_assoc. done.
  - destruct (csputc_run (u8 v) d) as (d1 & E1 & S1 & R1). exists d1. rewrite (pbind_ok _ _ _ _ _ E1).
    split_and!; [done|done|]. rewrite S1. unfold typeset. cbn. rewrite app_nil_r. do 2 f_equal. unfold u8. by rewrite Zmod_mod.
  - destruct (put_string_run l [] d Hp) as (d1 & E & S1 & R1). exists d1. by rewrite (pbind_ok _ _ _ _ _ E).
  - destruct (put_string_run l rest d Hp) as (d1 & E & S1 & R1). exists d1. cbn [fst snd default]. by rewrite (pbind_ok _ _ _ _ _ E).
  - destruct (put_string_run (chars "(null)") [] d) as (d1 & E & S1 & R1); [by repeat constructor|]. exists d1.
    change (default _ None) with (literal "(null)"). unfold literal. by rewrite (pbind_ok _ _ _ _ _ E).
  - destruct (csputc_run 37 d) as (d1 & E & S1 & R1). exists d1. by rewrite (pbind_ok _ _ _ _ _ E).
  - cbn [piece_ok] in Hp. unfold directives in Hp. rewrite !not_elem_of_cons in Hp. destruct Hp as (H1 & H2 & H3 & H4 & H5 & H6 & H7 & _).
    rewrite !(proj2 (Z.eqb_neq c0 _)) by done.
    destruct (csputc_run 37 d) as (d1 & E1 & S1 & R1), (csputc_run c0 d1) as (d2 & E2 & S2 & R2).
    exists d2. rewrite (pbind_ok _ _ _ _ _ E1), (pbind_ok _ _ _ _ _ E2), R2, R1, S2, S1, <- app_assoc. unfold typeset. cbn.
    by rewrite app_nil_r.
Qed.

Lemma piece_cases p : piece_ok p →
  (∃ c, p = Lit c ∧ c ≠ 0 ∧ c ≠ 37) ∨ ∃ c, piece_source p = [37; c].
Proof.
  destruct p; cbn; intros Hp; try (right; eexists; reflexivity).
  left. by exists c.
Qed.

Lemma fmt_loop_run ps : ∀ fuel pre rest d, Forall piece_ok ps → (length (source ps) <= fuel)%nat →
  ∃ d', fmt_loop fuel (pre ++ source ps ++ 0 :: rest) (length pre) (vargs ps) d = Ret tt d' ∧
    received d' = received d ∧ sent d' = sent d ++ text ps.
Proof.
  assert (Hat : ∀ (pre : list Z) x l d, fmt_at (pre ++ x :: l) (length pre) d = Ret x d).
  { intros. unfold fmt_at. by rewrite list_lookup_middle. }
  induction ps as [|p ps IH]; intros fuel pre rest d Hps Hf.
  { exists d. unfold source, vargs, text. cbn. rewrite app_nil_r. destruct fuel; cbn [fmt_loop]; by rewrite (pbind_ok _ _ _ _ _ (Hat _ _ _ _)). }
  apply Forall_cons in Hps as [Hp Hps]. unfold source, vargs, text in *. rewrite !bind_cons in *.
  destruct (piece_cases p Hp) as [(c & -> & H0 & H37)|(c & Es)].
  - cbn [piece_source app length piece_arg piece_text] in *. destruct fuel as [|fuel]; [lia|].
    destruct (csputc_run c d) as (d1 & E1 & S1 & R1).
    destruct (IH fuel (pre ++ [c]) rest d1 Hps ltac:(lia)) as (d2 & E2 & R2 & S2). exists d2. cbn [fmt_loop].
    rewrite (pbind_ok _ _ _ _ _ (Hat _ _ _ _)), (proj2 (Z.eqb_neq c 0) H0), (proj2 (Z.eqb_neq c 37) H37), (pbind_ok _ _ _ _ _ E1).
    rewrite <- app_assoc, length_app in E2. cbn [app length] in E2. rewrite E2, R2, R1, S2, S1, <- app_assoc. unfold typeset. cbn.
    by rewrite app_nil_r.
  - rewrite Es in Hf |- *. cbn [app length] in *. destruct fuel as [|fuel]; [lia|].
    destruct (directive_run p c (ps ≫= piece_arg) d Hp Es) as (d1 & E1 & R1 & S1).
    destruct (IH fuel (pre ++ [37; c]) rest d1 Hps ltac:(lia)) as (d2 & E2 & R2 & S2). exists d2. cbn [fmt_loop].
    rewrite (pbind_ok _ _ _ _ _ (Hat _ _ _ _)). cbn [Z.eqb Pos.eqb].
    assert (Hn : fmt_at (pre ++ 37 :: c :: (ps ≫= piece_source) ++ 0 :: rest) (length pre + 1) d = Ret c d).
    { unfold fmt_at. rewrite lookup_app_r by lia. by replace (length pre + 1 - length pre)%nat with 1%nat by lia. }
    rewrite (pbind_ok _ _ _ _ _ Hn), (pbind_ok _ _ _ _ _ E1).
    rewrite <- app_assoc, length_app in E2. cbn [app length] in E2. rewrite E2, R2, R1, S2, S1, <- app_assoc. done.
Qed.

Lemma vprintk_run ps rest (s : pst D) : Forall piece_ok ps → hart_ok (p_hart s) → free_lock (printk_lk s) →
  ∃ d', vprintk (source ps ++ 0 :: rest) (vargs ps) s = Ret 0 (Pst (touched (p_hart s)) lock_init d') ∧
    received d' = received (p_dev s) ∧ sent d' = sent (p_dev s) ++ text ps.
Proof.
  destruct s as [h lk d]. cbn. intros Hps Hh Hl.
  destruct (fmt_loop_run ps (length (source ps ++ 0 :: rest)) [] rest d Hps) as (d' & E & R & T); [rewrite length_app; lia|].
  exists d'. split; [|done]. unfold vprintk, zoom, pbind. cbn [lget lset of_plk of_pdev p_hart printk_lk p_dev].
  rewrite acquire_free by done. cbn [lget lset of_plk of_pdev p_hart printk_lk p_dev fst snd]. cbn [app length] in E.
  rewrite E. cbn [p_hart printk_lk p_dev fst snd]. rewrite release_held by done. done.
Qed.

Lemma printk_run ps rest (s : pst D) : Forall piece_ok ps → hart_ok (p_hart s) → free_lock (printk_lk s) →
  ∃ d', printk (source ps ++ 0 :: rest) (vargs ps) s = Ret 0 (Pst (touched (p_hart s)) lock_init d') ∧
    received d' = received (p_dev s) ∧ sent d' = sent (p_dev s) ++ text ps.
Proof.
  intros Hps Hh Hl. destruct (vprintk_run ps rest s Hps Hh Hl) as (d' & E & R & T).
  exists d'. unfold printk. by rewrite (pbind_ok _ _ _ _ _ E).
Qed.
End formats.

(** The piece of a directive with its argument, and the pieces of a format with
    its arguments, when there are some for it. *)
Definition piece_of (c : Z) (ap : list varg) : option (piece * list varg) :=
  if c =? 37 then Some (Percent, ap) else
  match ap with
  | Word v :: ap =>
      if c =? 100 then Some (Dec v, ap) else if c =? 117 then Some (Udec v, ap) else if c =? 120 then Some (Hex v, ap)
      else if c =? 112 then Some (Ptr v, ap) else if c =? 99 then Some (Chr v, ap) else None
  | Str (Some l) :: ap =>
      if c =? 115 then i ← list_find (λ c, c = 0) l; Some (Field (take i.1 l) (drop (S i.1) l), ap) else None
  | Str None :: ap => if c =? 115 then Some (Null, ap) else None
  | [] => None
  end.

Fixpoint pieces (fmt : list Z) (ap : list varg) : option (list piece) :=
  match fmt with
  | [] => match ap with [] => Some [] | _ => None end
  | c :: fmt =>
      if negb (c =? 37) then cons (Lit c) <$> pieces fmt ap else
      match fmt with
      | [] => None
      | c :: fmt => match piece_of c ap with Some (p, ap) => cons p <$> pieces fmt ap | None => None end
      end
  end.

Lemma piece_of_ok c ap p ap' : piece_of c ap = Some (p, ap') → piece_source p = [37; c] ∧ piece_arg p ++ ap' = ap ∧ piece_ok p.
Proof.
  unfold piece_of. destruct (Z.eqb_spec c 37) as [->|_]; [by intros [= <- <-]|].
  destruct ap as [|[v|[l|]] ap]; [done|..].
  - repeat match goal with |- context [c =? ?n] => destruct (Z.eqb_spec c n) as [->|_]; [by intros [= <- <-]|] end. done.
  - destruct (Z.eqb_spec c 115) as [->|_]; [|done]. destruct (list_find _ l) as [[i x]|] eqn:E; [|done]. cbn. intros [= <- <-].
    apply list_find_Some in E as (Hi & -> & Hbefore). split_and!; [done| |].
    + cbn [piece_arg app]. by rewrite take_drop_middle.
    + cbn [piece_ok]. apply Forall_lookup. intros j y Hj. apply lookup_take_Some in Hj as [Hj Hlt]. by apply (Hbefore j).
  - destruct (Z.eqb_spec c 115) as [->|_]; [by intros [= <- <-]|done].
Qed.

Lemma pieces_ok n : ∀ fmt ap ps, (length fmt <= n)%nat → Forall (λ c, c ≠ 0) fmt → pieces fmt ap = Some ps →
  source ps = fmt ∧ vargs ps = ap ∧ Forall piece_ok ps.
Proof.
  induction n as [|n IH]; intros [|c fmt] ap ps Hn Hf E; simpl in Hn; try lia; cbn [pieces] in E.
  1, 2: by destruct ap; simplify_eq.
  apply Forall_cons in Hf as [Hc Hf]. destruct (Z.eqb_spec c 37) as [->|Hne]; cbn [negb] in E.
  - destruct fmt as [|c fmt]; [done|]. destruct (piece_of c ap) as [[p ap']|] eqn:Ep; [|done].
    apply piece_of_ok in Ep as (Es & Ea & Ho). apply fmap_Some in E as (qs & Eq & ->). apply Forall_cons in Hf as [_ Hf].
    destruct (IH fmt ap' qs) as (<- & <- & H3); [simpl in Hn; lia|done|done|]. unfold source, vargs in *. rewrite !bind_cons, Es.
    split_and!; [done|done|by constructor].
  - apply fmap_Some in E as (qs & Eq & ->). destruct (IH fmt ap qs) as (<- & <- & H3); [lia|done|done|].
    split_and!; [done|done|by constructor].
Qed.

(** ["CPU%d [panic]: "] *)
Definition panic_head (n : Z) : list piece := (Lit <$> chars "CPU") ++ Dec n :: (Lit <$> chars " [panic]: ").

Lemma panic_head_text n : text (panic_head n) = chars "CPU" ++ signed_numeral (i32 n) ++ chars " [panic]: ".
Proof. done. Qed.

Module PrintkProps.

(** C39: printk. A format made of pieces, whose arguments are those the pieces
    take, prints exactly the text of the pieces, numbers and all; the array a
    number is written to is never left; [printk_lk] is free and the interrupt
    mask as before. *)
Theorem printk_correct {D} `{!Pl011 D} `{!Pl011Ok} ps rest (s : pst D) :
  Forall piece_ok ps → hart_ok (p_hart s) → free_lock (printk_lk s) →
  ∃ s', printk (source ps ++ 0 :: rest) (vargs ps) s = Ret 0 s' ∧
    p_hart s' = touched (p_hart s) ∧ free_lock (printk_lk s') ∧ received (p_dev s') = received (p_dev s) ∧
    sent (p_dev s') = sent (p_dev s) ++ text ps.
Proof.
  intros Hps Hh Hl. destruct (printk_run ps rest s Hps Hh Hl) as (d' & E & R & T). by eexists.
Qed.

(** Numbers read back. What [printiu32] and [printiu64] print denotes the
    number, whatever it is, the least included; and it is at most 11 digits
    and a sign, or 16 hexadecimal digits. *)
Theorem numbers_read_back {D} `{!Pl011 D} `{!Pl011Ok} (v : Z) (d : D) :
  (- 2 ^ 31 <= v < 2 ^ 31 → ∃ d' l, printiu32 v 10 true d = Ret tt d' ∧
     sent d' = sent d ++ (if v <? 0 then 45 :: l else l) ∧ value 10 l = Z.abs v ∧ (1 <= length l <= 10)%nat) ∧
  (0 <= v < 2 ^ 32 → ∃ d' l, printiu32 (i32 v) 10 false d = Ret tt d' ∧
     sent d' = sent d ++ l ∧ value 10 l = v ∧ (1 <= length l <= 10)%nat) ∧
  (0 <= v < 2 ^ 64 → ∃ d' l, printiu64 (i64 v) 16 false d = Ret tt d' ∧
     sent d' = sent d ++ l ∧ value 16 l = v ∧ (1 <= length l <= 16)%nat).
Proof.
  split_and!; intros Hv.
  - destruct (printiu32_signed v d Hv) as (d' & E & _ & S). destruct (numeral_ok 9 10 (Z.abs v)) as [? ?]; [lia..|].
    exists d', (numeral 10 (Z.abs v)). split; [done|]. split; [|done]. rewrite S. unfold signed_numeral.
    by destruct (Z.ltb_spec v 0); [rewrite Z.abs_neq by lia|rewrite Z.abs_eq by lia].
  - destruct (printiu32_unsigned v d Hv) as (d' & E & _ & S). destruct (numeral_ok 9 10 v) as [? ?]; [lia..|].
    by exists d', (numeral 10 v).
  - destruct (printiu64_hex v d Hv) as (d' & E & _ & S). destruct (numeral_ok 15 16 v) as [? ?]; [lia..|].
    by exists d', (numeral 16 v).
Qed.

(** A final [%] is an overrun. A format that ends in [%] prints the [%]
    and the NUL, and is then read on past its end: whatever follows the string
    in memory is taken for more of the format. *)
Theorem trailing_percent {D} `{!Pl011 D} `{!Pl011Ok} ps ps' rest (s : pst D) :
  Forall piece_ok ps → Forall piece_ok ps' → hart_ok (p_hart s) → free_lock (printk_lk s) →
  ∃ s', printk ((source ps ++ [37; 0]) ++ source ps' ++ 0 :: rest) (vargs ps ++ vargs ps') s = Ret 0 s' ∧
    sent (p_dev s') = sent (p_dev s) ++ text ps ++ [37; 0] ++ text ps'.
Proof.
  intros H1 H2 Hh Hl. destruct (printk_run (ps ++ Other 0 :: ps') rest s) as (d' & E & _ & T); [|done|done|].
  { apply Forall_app. split; [done|]. constructor; [|done]. cbn [piece_ok]. unfold directives.
    rewrite !not_elem_of_cons. split_and!; try done. apply not_elem_of_nil. }
  unfold source, vargs, text in *. rewrite !bind_app in *. rewrite !bind_cons in *. cbn [piece_source piece_arg piece_text] in *.
  eexists. rewrite <- !app_assoc in *. cbn [app] in *. by rewrite E.
Qed.

(** Panic reports and stops. With interrupts off, the report with the
    CPU's number, the message and the end of the line is on the terminal before
    the machine is shut down; and panic never returns, also if the firmware's
    call does. *)
Theorem panic_reports {D} `{!Pl011 D} `{!Pl011Ok} (psci_shutdown : prog (pst D) unit) ps rest (s : pst D) :
  Forall piece_ok ps → hart_ok (p_hart s) → free_lock (printk_lk s) →
  ∃ s', panic psci_shutdown (source ps ++ 0 :: rest) (vargs ps) s =
      (match psci_shutdown s' with Ret _ _ => Hang | o => o end) ∧
    irq_on (p_hart s') = false ∧
    sent (p_dev s') = sent (p_dev s) ++ chars "CPU" ++ signed_numeral (Spin.cpuid (p_hart s)) ++ chars " [panic]: " ++ text ps ++ [10].
Proof.
  intros Hps Hh Hl. set (h1 := Hart (Spin.cpuid (p_hart s)) (cli_depth (p_hart s)) (intr_enabled (p_hart s)) false).
  assert (Hh1 : hart_ok h1) by (destruct Hh as (B1 & B2 & _); exact (conj B1 (conj B2 (λ _, eq_refl)))).
  assert (Hid : i32 (Spin.cpuid (p_hart s)) = Spin.cpuid (p_hart s)) by (apply i32_small; destruct Hh as (_ & ? & _); lia).
  destruct (printk_run (panic_head (Spin.cpuid (p_hart s))) [] (Pst h1 (printk_lk s) (p_dev s))) as (d1 & E1 & _ & T1);
    [by repeat constructor|done|done|].
  destruct (vprintk_run ps rest (Pst (touched h1) lock_init d1)) as (d2 & E2 & _ & T2); [done..|].
  destruct (printk_run [Lit 10] [] (Pst (touched (touched h1)) lock_init d2)) as (d3 & E3 & _ & T3); [by repeat constructor|done..|].
  exists (Pst (touched (touched (touched h1))) lock_init d3). cbn [p_hart p_dev printk_lk] in *. split_and!; [|done|].
  - unfold panic. assert (E0 : zoom of_phart disable_irq s = Ret tt (Pst h1 (printk_lk s) (p_dev s))) by done.
    rewrite (pbind_ok _ _ _ _ _ E0). prog_step. cbn [p_hart Spin.cpuid h1].
    change (literal "CPU%d [panic]: ") with (source (panic_head (Spin.cpuid (p_hart s))) ++ [0]).
    change [Word (Spin.cpuid (p_hart s))] with (vargs (panic_head (Spin.cpuid (p_hart s)))).
    rewrite (pbind_ok _ _ _ _ _ E1), (pbind_ok _ _ _ _ _ E2).
    change [10; 0] with (source [Lit 10] ++ [0]). change (@nil varg) with (vargs [Lit 10]).
    rewrite (pbind_ok _ _ _ _ _ E3). unfold pbind. by destruct (psci_shutdown _).
  - by rewrite T3, T2, T1, panic_head_text, Hid, <- !app_assoc.
Qed.

(** *** Witnesses *)

(** ["%s: %d%%"] *)
Definition sample : list piece := [Txt [99; 112; 117]; Lit 58; Lit 32; Dec (-7); Percent].
Definition sample_state : pst pl011 := Pst (Hart 0 0 false true) lock_init (PL [] [] false).

Lemma sample_ok : Forall piece_ok sample.
Proof. repeat constructor; done. Qed.

Lemma printk_correct_witness :
  ∃ s', printk (literal "%s: %d%%") [Str (Some (literal "cpu")); Word (-7)] sample_state = Ret 0 s' ∧
    sent (p_dev s') = chars "cpu: -7%".
Proof.
  destruct (printk_correct sample [] sample_state sample_ok ltac:(by vm_compute) eq_refl) as (s' & E & _ & _ & _ & T).
  exists s'. split; [exact E|]. rewrite T. by vm_compute.
Defined.

Lemma numbers_read_back_witness :
  ∃ d' l, printiu32 (- 2 ^ 31) 10 true (PL [] [] false) = Ret tt d' ∧ sent d' = 45 :: l ∧ value 10 l = 2 ^ 31.
Proof.
  destruct (numbers_read_back (- 2 ^ 31) (PL [] [] false)) as [H _].
  destruct (H ltac:(lia)) as (d' & l & E & S & V & _). exists d', l. by split_and!.
Defined.

Lemma trailing_percent_witness :
  ∃ s', printk ([79; 75; 37; 0] ++ [65; 66; 0]) [] sample_state = Ret 0 s' ∧ sent (p_dev s') = [79; 75; 37; 0; 65; 66].
Proof.
  destruct (trailing_percent [Lit 79; Lit 75] [Lit 65; Lit 66] [] sample_state) as (s' & E & T);
    [by repeat constructor|by repeat constructor|by vm_compute|done|].
  exists s'. split; [exact E|]. rewrite T. by vm_compute.
Defined.

Lemma panic_reports_witness :
  ∃ s', panic (ret tt) (literal "kalloc") [] sample_state = Hang ∧ sent (p_dev s') = chars "CPU0 [panic]: kalloc" ++ [10].
Proof.
  destruct (panic_reports (ret tt) (Lit <$> chars "kalloc") [] sample_state) as (s' & E & _ & T);
    [by repeat constructor|by vm_compute|done|].
  exists s'. split; [exact E|]. rewrite T. by vm_compute.
Defined.
End PrintkProps.
