(* ===== verification/Console.v ===== *)
(** * The console (kernel/console.c, and the interrupt of kernel/driver/virt/uart.c)

    Characters typed at the terminal come one by one to [consoleintr], which
    edits the line in the buffer of the process that waits in [csread]. *)

From S2P Require Import Prelude Mem Bytes Spinlock Layout Kalloc PageTable Irq Uart Printk.
Import Spin.
Open Scope Z_scope.
Open Scope prog_scope.

(** [C(x)] *)
Definition CTRL (x : Z) : Z := x - 64.

(** [struct console] with the rest of the state its routines change. *)
Record cst (D : Type) := Cst {
  c_hart : hart;
  c_lk : spinlock; readbuf : Z; bufc : Z; bufsz : Z;       (* cons1 *)
  c_plk : spinlock;                                        (* printk_lk *)
  c_klk : spinlock; c_freelist : Z; c_mem : mem;
  c_irqs : list irqfn;
  c_dev : D
}.
Arguments Cst {D}.
Arguments c_hart {D}.
Arguments c_lk {D}.
Arguments readbuf {D}.
Arguments bufc {D}.
Arguments bufsz {D}.
Arguments c_plk {D}.
Arguments c_klk {D}.
Arguments c_freelist {D}.
Arguments c_mem {D}.
Arguments c_irqs {D}.
Arguments c_dev {D}.

Section console.
Context {D : Type} `{!Pl011 D}.
Implicit Types (s : cst D).

Definition put_clk (h : hart) (l : spinlock) s : cst D :=
  Cst h l (readbuf s) (bufc s) (bufsz s) (c_plk s) (c_klk s) (c_freelist s) (c_mem s) (c_irqs s) (c_dev s).
Definition put_line (r c z : Z) s : cst D :=
  Cst (c_hart s) (c_lk s) r c z (c_plk s) (c_klk s) (c_freelist s) (c_mem s) (c_irqs s) (c_dev s).
Definition put_cmem (m : mem) s : cst D :=
  Cst (c_hart s) (c_lk s) (readbuf s) (bufc s) (bufsz s) (c_plk s) (c_klk s) (c_freelist s) m (c_irqs s) (c_dev s).
Definition put_cdev (d : D) s : cst D :=
  Cst (c_hart s) (c_lk s) (readbuf s) (bufc s) (bufsz s) (c_plk s) (c_klk s) (c_freelist s) (c_mem s) (c_irqs s) d.

Definition of_clk : lens (cst D) lockst := Lens (λ s, (c_hart s, c_lk s)) (λ t s, put_clk (fst t) (snd t) s).
Definition of_cdev : lens (cst D) D := Lens c_dev put_cdev.
Definition of_ckmem : lens (cst D) kmem :=
  Lens (λ s, KMem (c_hart s) (c_klk s) (c_freelist s) (c_mem s))
       (λ k s, Cst (km_hart k) (c_lk s) (readbuf s) (bufc s) (bufsz s) (c_plk s) (kallocator_lk k) (freelist k) (km_mem k)
                   (c_irqs s) (c_dev s)).
Definition of_pst : lens (cst D) (pst D) :=
  Lens (λ s, Pst (c_hart s) (c_plk s) (c_dev s))
       (λ p s, Cst (p_hart p) (c_lk s) (readbuf s) (bufc s) (bufsz s) (printk_lk p) (c_klk s) (c_freelist s) (c_mem s)
                   (c_irqs s) (p_dev p)).
Definition of_uart : lens (cst D) (list irqfn * D) :=
  Lens (λ s, (c_irqs s, c_dev s))
       (λ p s, Cst (c_hart s) (c_lk s) (readbuf s) (bufc s) (bufsz s) (c_plk s) (c_klk s) (c_freelist s) (c_mem s) p.1 p.2).

(** [*s++] for [size] characters. *)
Fixpoint cswrite_loop (n : nat) (p : Z) : prog (cst D) unit :=
  match n with
  | O => ret tt
  | S n =>
      s <- get ;;
      zoom of_cdev (uart_putc (rd8 (c_mem s) p)) ;;
      cswrite_loop n (p +u64 1)
  end.
Definition cswrite (s size : Z) : prog (cst D) Z :=
  cswrite_loop (Z.to_nat size) s ;;
  ret (i32 size).

(** [sleep(chan, &cs->lk)], [wakeup(chan)] and [dumpps()], which are in
    kernel/proc.c, as they change this state; the fuel of [freed_mem_kb];
    [register_cdev(CDEV_CONSOLE, &cons_devsw)]. *)
Context (sleep : Z → prog (cst D) unit) (wakeup : Z → prog (cst D) unit) (dumpps : prog (cst D) unit).
Context (kb_fuel : nat) (register_cdev : prog (cst D) unit).

(** [pgt] is the page table of the process. *)
Definition csread (pgt buf size : Z) : prog (cst D) Z :=
  zoom of_clk acquire ;;
  ka <- zoom of_ckmem (uva2ka pgt buf) ;;
  modify (put_line ka 0 size) ;;
  s <- get ;;
  sleep (readbuf s) ;;
  s <- get ;;
  let sz := bufc s in
  modify (put_line 0 0 0) ;;
  zoom of_clk release ;;
  ret (i32 sz).

(** The second switch: erase, end of input, or a character of the line. *)
Definition edit_line (c : Z) : prog (cst D) unit :=
  s <- get ;;
  if c =? BACKSPACE then
    if 0 <? bufc s then
      modify (put_line (readbuf s) (bufc s - 1) (bufsz s)) ;;
      zoom of_cdev (csputc c)
    else ret tt
  else if c =? CTRL 68 then ret tt
  else
    modify (put_cmem (wr8 (c_mem s) (readbuf s +u64 bufc s) (u8 c))) ;;
    modify (put_line (readbuf s) (bufc s +u64 1) (bufsz s)) ;;
    zoom of_cdev (csputc c).

Definition consoleintr (c : Z) : prog (cst D) unit :=
  zoom of_clk acquire ;;
  (if c =? 0 then ret tt
   else if c =? CTRL 80 then
     dumpps ;;
     kb <- zoom of_ckmem (freed_mem_kb kb_fuel) ;;
     zoom of_pst (printk (chars "%d KB free" ++ [10; 0]) [Word kb]) ;;
     ret tt
   else
     s <- get ;;
     if readbuf s =? 0 then ret tt else
     let c := if c =? 13 then 10 else c in
     edit_line c ;;
     s <- get ;;
     if (c =? 10) || (c =? CTRL 68) || (bufc s =? bufsz s) then wakeup (readbuf s) else ret tt) ;;
  zoom of_clk release.

(** [while((c = uart_getc()) >= 0) consoleintr(&cons1, c);] *)
Fixpoint uartintr (fuel : nat) : prog (cst D) unit :=
  c <- zoom of_cdev uart_getc ;;
  if 0 <=? c then
    match fuel with
    | O => λ _, Hang
    | S fuel => consoleintr c ;; uartintr fuel
    end
  else zoom of_cdev (uart_write UART_ICR (Z.lor (Z.shiftl 1 4) (Z.shiftl 1 5))).

Definition console_write (buf size : Z) : prog (cst D) Z := cswrite buf size.
Definition console_read (pgt buf size : Z) : prog (cst D) Z := csread pgt buf size.

Definition console_init : prog (cst D) unit :=
  zoom of_uart uart_init ;;
  modify (λ s, put_clk (c_hart s) lock_init s) ;;
  register_cdev.
End console.

(** Initialisation: the port's handler is registered, the line buffer's lock is
    free, and nothing is sent. *)
Section initialised.
Context {D : Type} `{!Pl011 D} `{!Pl011Ok}.
Implicit Types (s : cst D) (d : D).

Lemma uart_init_run l d : ∃ d', uart_init (l, d) = Ret tt (<[Z.to_nat UART_IRQ := UartIntr]> l, d') ∧
  sent d' = sent d ∧ received d' = received d.
Proof.
  destruct (ctl_write d UART_CR 0 ltac:(discriminate)) as (d1 & E1 & S1 & R1).
  destruct (ctl_write d1 UART_LCRH (Z.lor LCRH_FEN LCRH_WLEN_8BIT) ltac:(discriminate)) as (d2 & E2 & S2 & R2).
  destruct (ctl_write d2 UART_CR 0x301 ltac:(discriminate)) as (d3 & E3 & S3 & R3).
  destruct (ctl_write d3 UART_IMSC 0 ltac:(discriminate)) as (d4 & E4 & S4 & R4).
  destruct (ctl_write d4 UART_IMSC (Z.lor (Z.shiftl 1 4) (Z.shiftl 1 5)) ltac:(discriminate)) as (d5 & E5 & S5 & R5).
  exists d5. split; [|by rewrite S5, S4, S3, S2, S1, R5, R4, R3, R2, R1].
  assert (E45 : enable_uartintr d3 = Ret tt d5) by (unfold enable_uartintr; by rewrite (pbind_ok _ _ _ _ _ E4)).
  assert (Z : ∀ (m : prog D unit) l e e', m e = Ret tt e' → zoom uart_of m (l, e) = Ret tt (l, e')) by (intros m l0 e e' E; by apply (zoom_ok uart_of)).
  unfold uart_init, disable_uart. rewrite (pbind_ok _ _ _ _ _ (Z _ l _ _ E1)).
  assert (En : zoom irqs_of (new_irq UART_IRQ UartIntr) (l, d1) = Ret tt (<[Z.to_nat UART_IRQ := UartIntr]> l, d1)) by done.
  by rewrite (pbind_ok _ _ _ _ _ En), (pbind_ok _ _ _ _ _ (Z _ _ _ _ E2)), (pbind_ok _ _ _ _ _ (Z _ _ _ _ E3)), (Z _ _ _ _ E45).
Qed.

Lemma console_init_run s : ∃ d', console_init (ret tt) s =
    Ret tt (Cst (c_hart s) lock_init (readbuf s) (bufc s) (bufsz s) (c_plk s) (c_klk s) (c_freelist s) (c_mem s)
              (<[Z.to_nat UART_IRQ := UartIntr]> (c_irqs s)) d') ∧
  sent d' = sent (c_dev s) ∧ received d' = received (c_dev s).
Proof.
  destruct (uart_init_run (c_irqs s) (c_dev s)) as (d' & E & Hs). exists d'. split; [|exact Hs].
  unfold console_init. by rewrite (pbind_ok _ _ _ _ _ (zoom_ok of_uart _ s _ _ E)).
Qed.
End initialised.

(** ** The terminal and the sleeping reader

    The device together with the channels [wakeup] was called for. *)

#[export] Instance logged_regs {D} `{!Pl011 D} : Pl011 (D * list Z) := {|
  uart_read r d := match uart_read r d.1 with Ret v e => Ret v (e, d.2) | Panic w => Panic w | Hang => Hang | Fault w => Fault w end;
  uart_write r v d := match uart_write r v d.1 with Ret v e => Ret v (e, d.2) | Panic w => Panic w | Hang => Hang | Fault w => Fault w end;
  sent d := sent d.1;
  received d := received d.1;
  busy d := busy d.1;
  polls := polls
|}.

#[export] Instance logged_ok {D} `{!Pl011 D} `{!Pl011Ok} : @Pl011Ok (D * list Z) _.
Proof.
  split; cbn [uart_read uart_write sent received busy polls logged_regs].
  - intros [d l]. apply busy_bound.
  - intros [d l]. destruct (fr_read d) as (v & d' & E & ?). exists v, (d', l). cbn [fst snd]. by rewrite E.
  - intros [d l] c Hb Hc. destruct (dr_write d c Hb Hc) as (d' & E & ?). exists (d', l). cbn [fst snd]. by rewrite E.
  - intros [d l] r v Hr. destruct (ctl_write d r v Hr) as (d' & E & ?). exists (d', l). cbn [fst snd]. by rewrite E.
  - intros [d l] c r Hr. destruct (dr_read d c r Hr) as (d' & E & ?). exists (d', l). cbn [fst snd]. by rewrite E.
Qed.

(** The driver leaves the log alone. *)
Section log.
Context {D : Type} `{!Pl011 D}.

Definition keeps_log {A} (m : prog (D * list Z) A) : Prop := ∀ d a d', m d = Ret a d' → d'.2 = d.2.

Lemma keeps_bind {A B} (m : prog _ A) (f : A → prog _ B) : keeps_log m → (∀ a, keeps_log (f a)) → keeps_log (pbind m f).
Proof. intros Hm Hf d b d'' (a & d' & E1 & E2)%pbind_inv. by rewrite (Hf _ _ _ _ E2), (Hm _ _ _ E1). Qed.

Lemma keeps_ret {A} (a : A) : keeps_log (ret a).
Proof. by intros d a' d' [= <- <-]. Qed.

Lemma keeps_read r : keeps_log (uart_read r).
Proof. intros [d l] a d'. cbn. destruct (uart_read r d); try done. by intros [= <- <-]. Qed.

Lemma keeps_write r v : keeps_log (uart_write r v).
Proof. intros [d l] a d'. cbn. destruct (uart_write r v d); try done. by intros [= <- <-]. Qed.

Lemma keeps_tx_wait n : keeps_log (tx_wait n).
Proof.
  induction n as [|n IH]; cbn [tx_wait]; (apply keeps_bind; [apply keeps_read|]);
    intros fr; destruct (nz _); try done; apply keeps_ret.
Qed.

Lemma keeps_putc c : keeps_log (uart_putc c).
Proof. apply keeps_bind; [apply keeps_tx_wait|intros _; apply keeps_write]. Qed.

Lemma keeps_csputc c : keeps_log (csputc c).
Proof. unfold csputc. destruct (_ =? _); [|apply keeps_putc]. repeat (apply keeps_bind; [apply keeps_putc|intros _]). apply keeps_putc. Qed.

Lemma keeps_getc : keeps_log uart_getc.
Proof.
  apply keeps_bind; [apply keeps_read|]. intros fr. destruct (nz _); [apply keeps_ret|].
  apply keeps_bind; [apply keeps_read|]. intros c. apply keeps_ret.
Qed.
End log.

(** ** Line editing *)

Definition newline (c : Z) : Z := if c =? 13 then 10 else c.

(** The line after a key, what the terminal shows, and whether the line ends. *)
Definition edit (b : list Z) (c : Z) : list Z :=
  if c =? BACKSPACE then removelast b else if c =? CTRL 68 then b else b ++ [newline c].
Definition echo (b : list Z) (c : Z) : list Z :=
  if c =? BACKSPACE then match b with [] => [] | _ => [8; 32; 8] end else if c =? CTRL 68 then [] else [newline c].
Definition ends (size : Z) (b : list Z) (c : Z) : bool :=
  (newline c =? 10) || (c =? CTRL 68) || (length (edit b c) =? size).

(** Keys that are neither ^P, which lists the processes, nor NUL. *)
Definition key_ok (c : Z) : Prop := 0 < c < 256 ∧ c ≠ CTRL 80.

#[export] Instance key_ok_dec c : Decision (key_ok c).
Proof. unfold key_ok. apply _. Defined.

Definition typed (l : list Z) : list Z := foldl edit [] l.
Fixpoint echoes (b l : list Z) : list Z :=
  match l with [] => [] | c :: l => echo b c ++ echoes (edit b c) l end.

(** The last key, and no other, ends the line. *)
Fixpoint one_line (size : Z) (b l : list Z) : bool :=
  match l with
  | [] => false
  | c :: l => if ends size b c then bool_decide (l = []) else one_line size (edit b c) l
  end.

(** The calls of [wakeup], the last first. *)
Fixpoint wakings (size r : Z) (b l : list Z) : list Z :=
  match l with
  | [] => []
  | c :: l => wakings size r (edit b c) l ++ (if ends size b c then [r] else [])
  end.

(** The line is shorter than [k] at every key. *)
Fixpoint below (k : Z) (b l : list Z) : Prop :=
  match l with [] => True | c :: l => length b < k ∧ below k (edit b c) l end.

Lemma edit_length b c : (length (edit b c) <= length b + 1)%nat.
Proof.
  unfold edit. destruct (_ =? _); [|destruct (_ =? _); [lia|rewrite length_app; cbn; lia]].
  destruct b as [|x b _] using rev_ind; [cbn; lia|]. rewrite removelast_last, length_app. cbn. lia.
Qed.

Lemma one_line_below size r l : ∀ b, one_line size b l = true → length b < size →
  below size b l ∧ wakings size r b l = [r] ∧ length (foldl edit b l) <= size.
Proof.
  induction l as [|c l IH]; intros b Hl Hb; [done|]. cbn [one_line] in Hl. cbn [below wakings foldl].
  pose proof (edit_length b c). destruct (ends size b c) eqn:He.
  - apply bool_decide_eq_true in Hl as ->. cbn. split_and!; (done || lia).
  - unfold ends in He. apply orb_false_iff in He as [_ He]. apply Z.eqb_neq in He.
    destruct (IH (edit b c) Hl) as (H1 & H2 & H3); [lia|]. rewrite H2, app_nil_r. by split_and!.
Qed.

Lemma below_app k c l : ∀ b, below k b l → length (foldl edit b l) < k → below k b (l ++ [c]).
Proof. induction l as [|c' l IH]; intros b; cbn; [by split|]. intros [H1 H2] H3. split; [done|]. by apply IH. Qed.

Lemma below_mono k k' l : ∀ b, below k b l → k <= k' → below k' b l.
Proof. induction l as [|c l IH]; intros b; cbn; [done|]. intros [H1 H2] H3. split; [lia|]. by apply IH. Qed.

Lemma wakings_app size r c l : ∀ b, wakings size r b (l ++ [c]) = wakings size r (foldl edit b l) [c] ++ wakings size r b l.
Proof. induction l as [|c' l IH]; intros b; cbn [app wakings foldl]; [by rewrite app_nil_r|]. by rewrite IH, <- app_assoc. Qed.

Lemma mread_snoc m a n : mread m a (S n) = mread m a n ++ [rd8 m (a + n)].
Proof. replace (S n) with (n + 1)%nat by lia. by rewrite mread_app. Qed.

Lemma newline_backspace c : (newline c =? BACKSPACE) = (c =? BACKSPACE).
Proof. unfold newline, BACKSPACE. destruct (Z.eqb_spec c 13); [by subst|done]. Qed.

Lemma newline_eof c : (newline c =? CTRL 68) = (c =? CTRL 68).
Proof. unfold newline, CTRL. destruct (Z.eqb_spec c 13); [by subst|done]. Qed.

Lemma newline_plain c : 0 < c < 256 → c ≠ BACKSPACE → u8 (newline c) = newline c ∧ glyph (newline c) = [newline c].
Proof.
  intros Hc Hb. unfold glyph. rewrite newline_backspace, (proj2 (Z.eqb_neq _ _) Hb). split; [|done].
  apply u8_small. unfold newline. destruct (c =? 13); lia.
Qed.

Lemma snoc_case (b : list Z) : b = [] ∨ ∃ b' x, b = b' ++ [x].
Proof. induction b as [|x b _] using rev_ind; [by left|right; by exists b, x]. Qed.

Section reading.
Context {D : Type} `{!Pl011 D} `{!Pl011Ok}.
Abbreviation W := (D * list Z)%type.
Implicit Types (s : cst W).
Context (dumpps : prog (cst W) unit) (kb_fuel : nat).

Definition woken s : list Z := (c_dev s).2.
Definition log_wakeup (ch : Z) : prog (cst W) unit := modify (λ s, put_cdev ((c_dev s).1, ch :: woken s) s).

(** The line [b] is being read into the [size] bytes at [r]. *)
Record reading s (r size : Z) (b : list Z) : Prop := {
  rg_buf : readbuf s = r;
  rg_count : bufc s = length b;
  rg_size : bufsz s = size;
  rg_line : mread (c_mem s) r (length b) = b
}.

Lemma zoom_clk_acquire s : hart_ok (c_hart s) → free_lock (c_lk s) →
  zoom of_clk acquire s = Ret tt (put_clk (entered (c_hart s)) (Lock 1 (Spin.cpuid (c_hart s))) s).
Proof. intros Hh Hl. unfold zoom. cbn [lget lset of_clk]. by rewrite acquire_free. Qed.

Lemma zoom_clk_release h s : hart_ok h → c_hart s = entered h → c_lk s = Lock 1 (Spin.cpuid h) →
  zoom of_clk release s = Ret tt (put_clk (touched h) lock_init s).
Proof. intros Hh E1 E2. unfold zoom. cbn [lget lset of_clk]. by rewrite E1, E2, release_held. Qed.

Lemma zoom_csputc c s : ∃ d', zoom of_cdev (csputc c) s = Ret tt (put_cdev d' s) ∧
  sent d' = sent (c_dev s) ++ glyph (u8 c) ∧ received d' = received (c_dev s) ∧ d'.2 = woken s.
Proof.
  destruct (csputc_run c (c_dev s)) as (d' & E & S & R). exists d'. unfold zoom. cbn [lget lset of_cdev]. rewrite E.
  split_and!; [done..|]. by apply (keeps_csputc c _ _ _ E).
Qed.

(** One key, the lock held. *)
Lemma edit_line_run s r size b c : reading s r size b → 0 <= r → r + length b < 2 ^ 64 - 1 → key_ok c →
  ∃ m d', edit_line (newline c) s = Ret tt (put_cdev d' (put_line r (length (edit b c)) size (put_cmem m s))) ∧
    mread m r (length (edit b c)) = edit b c ∧ (∀ a, a ≠ r + length b → rd8 m a = rd8 (c_mem s) a) ∧
    sent d' = sent (c_dev s) ++ echo b c ∧ received d' = received (c_dev s) ∧ d'.2 = woken s.
Proof.
  intros [Rb Rc Rs Rl] Hr Hlen [Hc HP]. destruct s as [h lk rb bc bz plk klk fl m irqs d]. cbn in Rb, Rc, Rs, Rl. subst rb bc bz.
  unfold edit_line. prog_step. unfold edit, echo. rewrite newline_backspace, newline_eof. cbn [bufc bufsz readbuf c_mem].
  destruct (Z.eqb_spec c BACKSPACE) as [->|Hb]; [|destruct (Z.eqb_spec c (CTRL 68)) as [->|He]].
  - destruct (snoc_case b) as [->|(b' & x & ->)].
    + exists m, d. rewrite app_nil_r. by split_and!.
    + rewrite length_app in *. cbn [length] in *. rewrite removelast_last, (proj2 (Z.ltb_lt 0 _)) by lia.
      replace (Z.of_nat (length b' + 1) - 1) with (Z.of_nat (length b')) by lia. prog_step.
      edestruct zoom_csputc as (d' & E & Sd & Rd & Ld). exists m, d'. rewrite E. split_and!; [done| |done|by rewrite Sd; destruct b'|exact Rd|exact Ld].
      rewrite mread_app in Rl. by apply app_inj_tail in Rl as [-> _].
  - exists m, d. rewrite app_nil_r. by split_and!.
  - assert (Hn : u8 (newline c) = newline c ∧ glyph (newline c) = [newline c]) by (by apply newline_plain).
    destruct Hn as [Hn1 Hn2]. rewrite (u64_small (r + length b)), (u64_small (length b + 1)), Hn1 by lia. prog_steps.
    edestruct zoom_csputc as (d' & E & Sd & Rd & Ld). exists (wr8 m (r + length b) (newline c)), d'.
    rewrite length_app. cbn [length]. replace (Z.of_nat (length b + 1)) with (length b + 1) by lia.
    split_and!; [exact E| | |by rewrite Sd, Hn1, Hn2|exact Rd|exact Ld].
    + rewrite Nat.add_1_r, mread_snoc, rd8_wr8_eq, Hn1. f_equal. transitivity (mread m r (length b)); [|exact Rl]. apply mread_ext. intros a Ha. apply rd8_wr8_ne. lia.
    + intros a Ha. by apply rd8_wr8_ne.
Qed.

(** A key typed while the line [b] is being read. *)
Lemma consoleintr_run s h r size b c :
  hart_ok h → c_hart s = h → free_lock (c_lk s) → reading s r size b → 0 < r → r + length b < 2 ^ 64 - 1 → key_ok c →
  ∃ s', consoleintr log_wakeup dumpps kb_fuel c s = Ret tt s' ∧ c_hart s' = touched h ∧ free_lock (c_lk s') ∧
    reading s' r size (edit b c) ∧ (∀ a, a ≠ r + length b → rd8 (c_mem s') a = rd8 (c_mem s) a) ∧
    sent (c_dev s') = sent (c_dev s) ++ echo b c ∧ received (c_dev s') = received (c_dev s) ∧
    woken s' = (if ends size b c then [r] else []) ++ woken s.
Proof.
  intros Hh Eh Hl Hg Hr Hlen Hk. pose proof Hk as [Hc HP]. pose proof Hg as [Rb _ _ _].
  set (s1 := put_clk (entered h) (Lock 1 (Spin.cpuid h)) s).
  assert (E1 : zoom of_clk acquire s = Ret tt s1) by (subst h; by apply zoom_clk_acquire).
  assert (Hg1 : reading s1 r size b) by (by destruct Hg).
  destruct (edit_line_run s1 r size b c Hg1) as (m & d' & E2 & Hm & Hf & Sd & Rd & Ld); [lia|done|done|].
  set (s2 := put_cdev d' _) in E2.
  set (s3 := if ends size b c then put_cdev (d'.1, r :: d'.2) s2 else s2).
  exists (put_clk (touched h) lock_init s3). assert (Hends : ends size b c = (newline c =? 10) || (newline c =? CTRL 68) || (length (edit b c) =? size)).
  { unfold ends. by rewrite newline_eof. }
  split_and!; try done.
  - unfold consoleintr. rewrite (pbind_ok _ _ _ _ _ E1), (proj2 (Z.eqb_neq c 0)), (proj2 (Z.eqb_neq c _) HP) by lia.
    prog_steps. change (readbuf s1) with (readbuf s). rewrite Rb, (proj2 (Z.eqb_neq r 0)) by lia.
    change (if c =? 13 then 10 else c) with (newline c). prog_steps. rewrite (pbind_ok _ _ _ _ _ E2). prog_steps.
    change (bufc s2) with (Z.of_nat (length (edit b c))). change (bufsz s2) with size. rewrite <- Hends.
    assert (E3 : (if ends size b c then log_wakeup (readbuf s2) else ret tt) s2 = Ret tt s3) by (unfold s3; by destruct (ends _ _ _)).
    rewrite (pbind_ok _ _ _ _ _ E3). apply zoom_clk_release; [done|by unfold s3; destruct (ends _ _ _)..].
  - unfold s3. by destruct (ends _ _ _).
  - unfold s3. by destruct (ends _ _ _).
  - unfold s3. by destruct (ends _ _ _).
  - unfold s3. by destruct (ends _ _ _).
  - unfold s3. destruct (ends _ _ _); [change (r :: d'.2 = [r] ++ woken s); by rewrite Ld|exact Ld].
Qed.

(** [uartintr] handles the keys that have been received, one after another. *)
Lemma uartintr_run k r size h l : ∀ fuel s b,
  (length l <= fuel)%nat → hart_ok h → c_hart s = touched h → free_lock (c_lk s) → received (c_dev s) = l → Forall key_ok l →
  reading s r size b → 0 < r → r + k < 2 ^ 64 → below k b l →
  ∃ s', uartintr log_wakeup dumpps kb_fuel fuel s = Ret tt s' ∧ c_hart s' = touched h ∧ free_lock (c_lk s') ∧
    reading s' r size (foldl edit b l) ∧ (∀ a, ¬ (r <= a < r + k) → rd8 (c_mem s') a = rd8 (c_mem s) a) ∧
    sent (c_dev s') = sent (c_dev s) ++ echoes b l ∧ received (c_dev s') = [] ∧ woken s' = wakings size r b l ++ woken s.
Proof.
  induction l as [|c l IH]; intros fuel s b Hf Hh Eh Hl Hr Hk Hg Hr0 Hrk Hb.
  - destruct (uart_getc_none (c_dev s) Hr) as (d1 & E1 & S1 & R1). pose proof (keeps_getc _ _ _ E1) as L1.
    destruct (ctl_write d1 UART_ICR (Z.lor (Z.shiftl 1 4) (Z.shiftl 1 5))) as (d2 & E2 & S2 & R2); [done|].
    pose proof (keeps_write _ _ _ _ _ E2) as L2. exists (put_cdev d2 s).
    split_and!; [|done|done|by destruct Hg|done|cbn [echoes]; by rewrite app_nil_r, <- S1, <- S2|
      change (received d2 = []); by rewrite R2|change (d2.2 = (c_dev s).2); by rewrite L2].
    assert (Z1 : zoom of_cdev uart_getc s = Ret (-1) (put_cdev d1 s)) by (unfold zoom; cbn [lget of_cdev]; by rewrite E1).
    destruct fuel; cbn [uartintr]; rewrite (pbind_ok _ _ _ _ _ Z1); cbn [Z.leb Z.compare]; unfold zoom;
      cbn [lget lset of_cdev put_cdev c_dev]; by rewrite E2.
  - apply Forall_cons in Hk as [Hc Hk]. destruct Hb as [Hb1 Hb2]. destruct fuel as [|fuel]; [cbn in Hf; lia|].
    destruct (uart_getc_some (c_dev s) c l Hr) as (d1 & E1 & S1 & R1); [destruct Hc; lia|].
    pose proof (keeps_getc _ _ _ E1) as L1.
    assert (Z1 : zoom of_cdev uart_getc s = Ret c (put_cdev d1 s)) by (unfold zoom; cbn [lget of_cdev]; by rewrite E1).
    destruct (consoleintr_run (put_cdev d1 s) (touched h) r size b c) as (s2 & E2 & Eh2 & Hl2 & Hg2 & F2 & T2 & R2 & W2);
      [done|done|done|by destruct Hg|done|lia|done|].
    destruct (IH fuel s2 (edit b c)) as (s3 & E3 & Eh3 & Hl3 & Hg3 & F3 & T3 & R3 & W3);
      [cbn in Hf; lia|done|by rewrite Eh2, touched_idem|done|by rewrite R2|done|done|done|done|done|].
    exists s3. split_and!; [|done|done|done| |rewrite T3, T2, <- app_assoc; by rewrite <- S1|done|].
    + cbn [uartintr]. rewrite (pbind_ok _ _ _ _ _ Z1), (proj2 (Z.leb_le 0 c)) by (destruct Hc; lia). by rewrite (pbind_ok _ _ _ _ _ E2).
    + intros a Ha. rewrite F3, F2 by (done || lia). done.
    + rewrite W3, W2. cbn [wakings]. rewrite <- app_assoc.
      change (woken (put_cdev d1 s)) with (d1.2). by rewrite L1.
Qed.

(** [sleep] while the received keys are handled: it returns if one of them
    ended the line. *)
Definition sleep_typing (ch : Z) : prog (cst W) unit :=
  zoom of_clk release ;;
  uartintr log_wakeup dumpps kb_fuel 1000 ;;
  s <- get ;;
  (if bool_decide (ch ∈ woken s) then ret tt else λ _, Hang) ;;
  zoom of_clk acquire.

(** What a caller of [csread] finds, and what it leaves. *)
Record reader_ok s h pgt buf r : Prop := {
  ro_hart : hart_ok h;
  ro_here : c_hart s = h;
  ro_lock : free_lock (c_lk s);
  ro_buf : uva2ka pgt buf (KMem (entered h) (c_klk s) (c_freelist s) (c_mem s)) =
    Ret r (KMem (entered h) (c_klk s) (c_freelist s) (c_mem s));
  ro_quiet : woken s = []
}.

Lemma csread_run k s h pgt buf r size l :
  reader_ok s h pgt buf r → received (c_dev s) = l → Forall key_ok l → (length l <= 1000)%nat →
  0 < r → r + k < 2 ^ 64 → below k [] l → r ∈ wakings size r [] l → length (typed l) < 2 ^ 31 →
  ∃ s', csread sleep_typing pgt buf size s = Ret (Z.of_nat (length (typed l))) s' ∧
    c_hart s' = touched h ∧ free_lock (c_lk s') ∧ readbuf s' = 0 ∧ bufc s' = 0 ∧
    mread (c_mem s') r (length (typed l)) = typed l ∧
    (∀ a, ¬ (r <= a < r + k) → rd8 (c_mem s') a = rd8 (c_mem s) a) ∧
    sent (c_dev s') = sent (c_dev s) ++ echoes [] l ∧ received (c_dev s') = [].
Proof.
  intros [Hh Eh Hl Hka Hq] Hr Hk Hlen Hr0 Hrk Hb Hw Ht.
  set (s1 := put_clk (entered h) (Lock 1 (Spin.cpuid h)) s).
  assert (E1 : zoom of_clk acquire s = Ret tt s1) by (subst h; by apply zoom_clk_acquire).
  assert (E2 : zoom of_ckmem (uva2ka pgt buf) s1 = Ret r s1).
  { unfold zoom. cbn [lget of_ckmem]. change (KMem (c_hart s1) _ _ _) with (KMem (entered h) (c_klk s) (c_freelist s) (c_mem s)).
    rewrite Hka. by destruct s. }
  set (s2 := put_line r 0 size s1).
  assert (E3 : zoom of_clk release s2 = Ret tt (put_clk (touched h) lock_init s2)) by (by apply zoom_clk_release).
  set (s3 := put_clk (touched h) lock_init s2) in E3.
  destruct (uartintr_run k r size h l 1000 s3 []) as (s4 & E4 & Eh4 & Hl4 & [G1 G2 G3 G4] & F4 & T4 & R4 & W4); try done.
  change (woken s3) with (woken s) in W4. rewrite Hq, app_nil_r in W4.
  set (s5 := put_clk (entered (touched h)) (Lock 1 (Spin.cpuid (touched h))) s4).
  assert (E5 : zoom of_clk acquire s4 = Ret tt s5) by (unfold s5; rewrite <- Eh4; apply zoom_clk_acquire; by rewrite ?Eh4).
  assert (Es : sleep_typing r s2 = Ret tt s5).
  { unfold sleep_typing. rewrite (pbind_ok _ _ _ _ _ E3), (pbind_ok _ _ _ _ _ E4). prog_step. rewrite W4, bool_decide_eq_true_2 by done.
    by prog_step. }
  exists (put_clk (touched (touched h)) lock_init (put_line 0 0 0 s5)).
  split_and!; try done; [|by apply touched_idem].
  unfold csread. rewrite (pbind_ok _ _ _ _ _ E1), (pbind_ok _ _ _ _ _ E2). prog_steps. fold s2.
  change (readbuf s2) with r. rewrite (pbind_ok _ _ _ _ _ Es). prog_steps.
  rewrite (pbind_ok _ _ _ _ _ (zoom_clk_release (touched h) (put_line 0 0 0 s5) Hh eq_refl eq_refl)). unfold ret. f_equal.
  change (bufc s5) with (bufc s4). rewrite G2. apply i32_small. unfold typed in *. lia.
Qed.
End reading.

Module ConsoleProps.


(** Late keys overrun the buffer. A key that arrives with the line, after
    it was full and before the reader took the lock, is stored one byte past
    the buffer, and [csread] returns more than it was asked for. *)
Theorem late_key_overruns {D} `{!Pl011 D} `{!Pl011Ok} dumpps kb_fuel (s : cst (D * list Z)) h pgt buf r size l c :
  reader_ok s h pgt buf r → received (c_dev s) = l ++ [c] → Forall key_ok (l ++ [c]) → (length l < 1000)%nat →
  0 < r → r + size + 1 < 2 ^ 64 → 0 < size < 2 ^ 31 - 1 → one_line size [] l = true → size = length (typed l) →
  c ≠ BACKSPACE → c ≠ CTRL 68 →
  ∃ s', csread (sleep_typing dumpps kb_fuel) pgt buf size s = Ret (size + 1) s' ∧
    rd8 (c_mem s') (r + size) = newline c.
Proof.
  intros Ho Hr Hk Hlen Hr0 Hrs Hs Hl Hfull Hb1 Hb2.
  destruct (one_line_below size r l [] Hl) as (Hb & Hw & Ht); [cbn; lia|].
  assert (Et : typed (l ++ [c]) = typed l ++ [newline c]).
  { unfold typed. rewrite foldl_snoc. unfold edit at 1. by rewrite (proj2 (Z.eqb_neq c _) Hb1), (proj2 (Z.eqb_neq c _) Hb2). }
  assert (El : length (typed (l ++ [c])) = S (length (typed l))) by (rewrite Et, length_app; cbn; lia).
  destruct (csread_run dumpps kb_fuel (size + 1) s h pgt buf r size (l ++ [c])) as (s' & E & _ & _ & _ & _ & M & _).
  1-6: done || (rewrite ?length_app; cbn; lia).
  - apply below_app; [apply (below_mono size); [done|lia]|]. unfold typed in Hfull. lia.
  - rewrite wakings_app, Hw. apply elem_of_app. right. constructor.
  - lia.
  - exists s'. rewrite E, El. split; [f_equal; lia|]. rewrite El, mread_snoc, Et in M.
    apply app_inj_tail in M as [_ M]. by rewrite Hfull.
Qed.

(** *** Witnesses *)

(** A user page at [0x1000], mapped to the first page after three tables. *)
Definition term_mem : mem :=
  let t i := KERNBASE + PAGESIZE * i in
  st64 (st64 (st64 ∅ (t 0) (table_pte (t 1))) (t 1) (table_pte (t 2))) (t 2 + 8) (leaf_pte (V2P (t 3)) PTE_USER).
Definition term (keys : list Z) : cst (pl011 * list Z) :=
  Cst (Hart 0 0 false true) lock_init 0 0 0 lock_init lock_init 0 term_mem [] (PL [] keys false, []).

Lemma term_ok keys : reader_ok (term keys) (Hart 0 0 false true) KERNBASE 0x1010 (KERNBASE + PAGESIZE * 3 + 16).
Proof. split; [by vm_compute|done|done|by vm_compute|done]. Qed.


Lemma late_key_overruns_witness :
  ∃ s', csread (sleep_typing (ret tt) 0) KERNBASE 0x1010 2 (term [104; 105; 120]) = Ret 3 s' ∧
    rd8 (c_mem s') (KERNBASE + PAGESIZE * 3 + 16 + 2) = 120.
Proof.
  destruct (late_key_overruns (ret tt) 0 _ _ _ _ _ 2 [104; 105] 120 (term_ok [104; 105; 120])) as (s' & E & M);
    [done|by repeat constructor|cbn; lia|done|by vm_compute|lia|done|done|done|done|].
  exists s'. split; [exact E|exact M].
Defined.

End ConsoleProps.
