(* ===== verification/Virtio.v ===== *)
(** * The block device driver (kernel/driver/virtio.c)

    The virtqueue: a table of [NQUEUE] descriptors with a free list threaded
    through it, the ring of requests the driver makes available and the ring of
    those the device has used.  Device registers are a parameter; the second
    part has a device that does what the virtio specification says, and shows
    that driver and device together are a [BlockDev]. *)

From S2P Require Import Prelude Mem Bytes Spinlock Layout Kalloc Buf Irq.
Import Spin.
Open Scope Z_scope.
Open Scope prog_scope.

Definition NQUEUE : nat := 8.

(** Registers, by their offset from [VIRTIO0]. *)
Definition VIRTIO_REG_MAGICVALUE : Z := 0.
Definition VIRTIO_REG_VERSION : Z := 0x4.
Definition VIRTIO_REG_DEVICE_ID : Z := 0x8.
Definition VIRTIO_REG_DEVICE_FEATURES : Z := 0x10.
Definition VIRTIO_REG_DEVICE_FEATURES_SEL : Z := 0x14.
Definition VIRTIO_REG_DRIVER_FEATURES : Z := 0x20.
Definition VIRTIO_REG_DRIVER_FEATURES_SEL : Z := 0x24.
Definition VIRTIO_REG_QUEUE_SEL : Z := 0x30.
Definition VIRTIO_REG_QUEUE_NUM_MAX : Z := 0x34.
Definition VIRTIO_REG_QUEUE_NUM : Z := 0x38.
Definition VIRTIO_REG_QUEUE_READY : Z := 0x44.
Definition VIRTIO_REG_QUEUE_NOTIFY : Z := 0x50.
Definition VIRTIO_REG_INTERRUPT_STATUS : Z := 0x60.
Definition VIRTIO_REG_INTERRUPT_ACK : Z := 0x64.
Definition VIRTIO_REG_STATUS : Z := 0x70.
Definition VIRTIO_REG_QUEUE_DESC_LOW : Z := 0x80.
Definition VIRTIO_REG_QUEUE_DESC_HIGH : Z := 0x84.
Definition VIRTIO_REG_QUEUE_DRIVER_LOW : Z := 0x90.
Definition VIRTIO_REG_QUEUE_DRIVER_HIGH : Z := 0x94.
Definition VIRTIO_REG_QUEUE_DEVICE_LOW : Z := 0xa0.
Definition VIRTIO_REG_QUEUE_DEVICE_HIGH : Z := 0xa4.

Definition VIRTIO_MAGIC : Z := 0x74726976.
Definition DEV_STATUS_ACKNOWLEDGE : Z := 1.
Definition DEV_STATUS_DRIVER : Z := 2.
Definition DEV_STATUS_DRIVER_OK : Z := 4.
Definition DEV_STATUS_FEATURES_OK : Z := 8.

Definition VIRTQ_DESC_F_NEXT : Z := 1.
Definition VIRTQ_DESC_F_WRITE : Z := 2.
Definition VIRTIO_BLK_T_IN : Z := 0.
Definition VIRTIO_BLK_T_OUT : Z := 1.

(** [struct virtq_desc], an entry of [info], [struct virtq] with the three
    tables it points to; of the used ring the members the driver reads. *)
Record virtq_desc := VDesc { d_addr : Z; d_len : Z; d_flags : Z; d_next : Z }.
Record vinfo := VInfo { vi_status : Z; vi_done : Z; vi_buf : Z }.
Record virtq := Virtq {
  desc_p : Z; avail_p : Z; used_p : Z;
  desc : list virtq_desc;
  avail_idx : Z; avail_ring : list Z;
  used_idx : Z; used_ring : list Z;
  free_head : Z; nfree : Z; last_used_idx : Z;
  info : list vinfo
}.

#[export] Instance virtq_desc_eq_dec : EqDecision virtq_desc.
Proof. solve_decision. Defined.
#[export] Instance vinfo_eq_dec : EqDecision vinfo.
Proof. solve_decision. Defined.

Definition set_d_next (v : Z) (d : virtq_desc) : virtq_desc := VDesc (d_addr d) (d_len d) (d_flags d) v.
Definition set_d_flags (v : Z) (d : virtq_desc) : virtq_desc := VDesc (d_addr d) (d_len d) v (d_next d).
Definition set_vi_done (v : Z) (i : vinfo) : vinfo := VInfo (vi_status i) v (vi_buf i).
Definition set_vi_buf (v : Z) (i : vinfo) : vinfo := VInfo (vi_status i) (vi_done i) v.
Definition set_vi_status (v : Z) (i : vinfo) : vinfo := VInfo v (vi_done i) (vi_buf i).

Section setters.
Implicit Types (q : virtq).
Definition set_desc v q := Virtq (desc_p q) (avail_p q) (used_p q) v (avail_idx q) (avail_ring q) (used_idx q) (used_ring q)
  (free_head q) (nfree q) (last_used_idx q) (info q).
Definition set_avail i r q := Virtq (desc_p q) (avail_p q) (used_p q) (desc q) i r (used_idx q) (used_ring q)
  (free_head q) (nfree q) (last_used_idx q) (info q).
Definition set_used i r q := Virtq (desc_p q) (avail_p q) (used_p q) (desc q) (avail_idx q) (avail_ring q) i r
  (free_head q) (nfree q) (last_used_idx q) (info q).
Definition set_free h n q := Virtq (desc_p q) (avail_p q) (used_p q) (desc q) (avail_idx q) (avail_ring q) (used_idx q) (used_ring q)
  h n (last_used_idx q) (info q).
Definition set_last v q := Virtq (desc_p q) (avail_p q) (used_p q) (desc q) (avail_idx q) (avail_ring q) (used_idx q) (used_ring q)
  (free_head q) (nfree q) v (info q).
Definition set_info v q := Virtq (desc_p q) (avail_p q) (used_p q) (desc q) (avail_idx q) (avail_ring q) (used_idx q) (used_ring q)
  (free_head q) (nfree q) (last_used_idx q) v.
End setters.

(** ** Descriptors *)

(** [virtq->desc[d]] *)
Definition desc_at (d : Z) : prog virtq virtq_desc := λ q,
  match desc q !! Z.to_nat d with Some x => Ret x q | None => Fault "virtq->desc[]" end.
Definition upd_desc (d : Z) (f : virtq_desc → virtq_desc) : prog virtq unit :=
  modify (λ q, set_desc (alter f (Z.to_nat d) (desc q)) q).
Definition has_next (x : virtq_desc) : bool := nz (Z.land (d_flags x) VIRTQ_DESC_F_NEXT).

Definition desc_init (q : virtq) : virtq :=
  set_desc (imap (λ i x, if decide (i = NQUEUE - 1)%nat then x else VDesc (d_addr x) (d_len x) VIRTQ_DESC_F_NEXT (Z.of_nat i + 1)) (desc q)) q.

Definition alloc_desc : prog virtq Z :=
  n <- gets nfree ;;
  (if n =? 0 then panic "virtq kokatu" else ret tt) ;;
  d <- gets free_head ;;
  x <- desc_at d ;;
  (if has_next x then modify (λ q, set_free (d_next x) (nfree q) q) else ret tt) ;;
  modify (λ q, set_free (free_head q) (u16 (nfree q - 1)) q) ;;
  ret d.

(** [while(virtq->nfree++, (virtq->desc[n].flags & VIRTQ_DESC_F_NEXT)) ...]:
    the last descriptor of the chain. *)
Fixpoint free_walk (fuel : nat) (n : Z) : prog virtq Z :=
  match fuel with
  | O => λ _, Hang
  | S fuel =>
      modify (λ q, set_free (free_head q) (u16 (nfree q + 1)) q) ;;
      x <- desc_at n ;;
      if has_next x then free_walk fuel (d_next x) else ret n
  end.

Definition free_desc (fuel : nat) (n : Z) : prog virtq unit :=
  q <- get ;;
  let empty := nfree q =? 0 in
  last <- free_walk fuel n ;;
  upd_desc last (set_d_flags VIRTQ_DESC_F_NEXT) ;;
  (if empty then ret tt else upd_desc last (set_d_next (free_head q))) ;;
  modify (λ q, set_free n (nfree q) q).

(** ** The driver *)

Record vst (D : Type) := Vst {
  v_hart : hart;
  v_lk : spinlock;        (* disk.lk *)
  v_q : virtq;            (* disk.virtq *)
  v_mem : mem;
  v_klk : spinlock;
  v_freelist : Z;
  v_irqs : list irqfn;
  v_dev : D
}.
Arguments Vst {D}.
Arguments v_hart {D}.
Arguments v_lk {D}.
Arguments v_q {D}.
Arguments v_mem {D}.
Arguments v_klk {D}.
Arguments v_freelist {D}.
Arguments v_irqs {D}.
Arguments v_dev {D}.

Section driver.
Context {D : Type}.
Implicit Types (s : vst D).

Definition put_q (q : virtq) s : vst D := Vst (v_hart s) (v_lk s) q (v_mem s) (v_klk s) (v_freelist s) (v_irqs s) (v_dev s).
Definition put_vmem (m : mem) s : vst D := Vst (v_hart s) (v_lk s) (v_q s) m (v_klk s) (v_freelist s) (v_irqs s) (v_dev s).
Definition put_dev (d : D) s : vst D := Vst (v_hart s) (v_lk s) (v_q s) (v_mem s) (v_klk s) (v_freelist s) (v_irqs s) d.
Definition put_irqs (l : list irqfn) s : vst D := Vst (v_hart s) (v_lk s) (v_q s) (v_mem s) (v_klk s) (v_freelist s) l (v_dev s).
Definition put_vlk (h : hart) (l : spinlock) s : vst D := Vst h l (v_q s) (v_mem s) (v_klk s) (v_freelist s) (v_irqs s) (v_dev s).

Definition of_vlk : lens (vst D) lockst := Lens (λ s, (v_hart s, v_lk s)) (λ t s, put_vlk (fst t) (snd t) s).
Definition of_q : lens (vst D) virtq := Lens v_q put_q.
Definition of_dev : lens (vst D) D := Lens v_dev put_dev.
Definition of_irqs : lens (vst D) (list irqfn) := Lens v_irqs put_irqs.
Definition of_vkmem : lens (vst D) kmem :=
  Lens (λ s, KMem (v_hart s) (v_klk s) (v_freelist s) (v_mem s))
       (λ k s, Vst (km_hart k) (v_lk s) (v_q s) (km_mem k) (kallocator_lk k) (freelist k) (v_irqs s) (v_dev s)).

(** [REG(r)] and [REG(r) = v] for a register at offset [r] of the device; the
    address of [disk.virtq.info[i].status]; [sleep(buf, &disk.lk)] and
    [wakeup(buf)], which are in the file Proc, as they change this state. *)
Context (reg_read : Z → prog D Z) (reg_write : Z → Z → prog D unit).
Context (status_addr : Z → Z).
Context (sleep : Z → prog (vst D) unit) (wakeup : Z → prog (vst D) unit).

Definition REG (r : Z) : prog (vst D) Z := zoom of_dev (reg_read r).
Definition REG_set (r v : Z) : prog (vst D) unit := zoom of_dev (reg_write r v).

Definition info_at (d : Z) : prog (vst D) vinfo := λ s,
  match info (v_q s) !! Z.to_nat d with Some x => Ret x s | None => Fault "virtq.info[]" end.
Definition upd_info (d : Z) (f : vinfo → vinfo) : prog (vst D) unit :=
  modify (λ s, put_q (set_info (alter f (Z.to_nat d) (info (v_q s))) (v_q s)) s).
Definition put_desc (d : Z) (x : virtq_desc) : prog (vst D) unit := zoom of_q (upd_desc d (λ _, x)).

(** The header of a request, in memory: [type], [reserved] and [sector]. *)
Definition put_hdr (hdr type sector : Z) (m : mem) : mem := st64 (st32 (st32 m hdr type) (hdr + 4) 0) (hdr + 8) sector.

(** From the first [alloc_desc] to the notification of the device; the result
    is [d0].  A [u16] is never negative, so the tests of [d0], [d1] and [d2] fail. *)
Definition virtio_submit (hdr buf : Z) (op : diskop) : prog (vst D) Z :=
  d0 <- zoom of_q alloc_desc ;;
  zoom of_q (upd_desc d0 (λ x, VDesc (V2P hdr) 16 VIRTQ_DESC_F_NEXT (d_next x))) ;;
  d1 <- zoom of_q alloc_desc ;;
  zoom of_q (upd_desc d0 (set_d_next d1)) ;;
  zoom of_q (upd_desc d1 (λ x, VDesc (V2P buf) 1024
    (if decide (op = DREAD) then Z.lor VIRTQ_DESC_F_NEXT VIRTQ_DESC_F_WRITE else VIRTQ_DESC_F_NEXT) (d_next x))) ;;
  d2 <- zoom of_q alloc_desc ;;
  zoom of_q (upd_desc d1 (set_d_next d2)) ;;
  zoom of_q (upd_desc d2 (λ _, VDesc (V2P (status_addr d0)) 1 VIRTQ_DESC_F_WRITE 0)) ;;
  zoom of_q (modify (λ q, set_avail (u16 (avail_idx q + 1))
    (<[Z.to_nat (avail_idx q mod NQUEUE) := d0]> (avail_ring q)) q)) ;;
  upd_info d0 (set_vi_buf buf) ;;
  REG_set VIRTIO_REG_QUEUE_NOTIFY 0 ;;
  ret d0.

(** [while(!disk.virtq.info[d0].done) sleep(buf, &disk.lk);] *)
Fixpoint wait_done (turns : nat) (buf d0 : Z) : prog (vst D) unit :=
  i <- info_at d0 ;;
  if nz (vi_done i) then ret tt else
  match turns with
  | O => λ _, Hang
  | S turns => sleep buf ;; wait_done turns buf d0
  end.

(** [hdr] is the address of the local variable. *)
Definition virtio_blk_op (turns : nat) (hdr bno buf : Z) (op : diskop) : prog (vst D) Z :=
  let sector := u64 (bno * 2) in
  let type := match op with DREAD => VIRTIO_BLK_T_IN | DWRITE => VIRTIO_BLK_T_OUT end in
  modify (λ s, put_vmem (put_hdr hdr type sector (v_mem s)) s) ;;
  zoom of_vlk acquire ;;
  d0 <- virtio_submit hdr buf op ;;
  wait_done turns buf d0 ;;
  upd_info d0 (set_vi_done 0) ;;
  zoom of_q (free_desc NQUEUE d0) ;;
  zoom of_vlk release ;;
  ret 0.

(** [while(disk.virtq.last_used_idx != disk.virtq.used->idx) ...] *)
Fixpoint intr_loop (fuel : nat) : prog (vst D) unit :=
  q <- gets v_q ;;
  if last_used_idx q =? used_idx q then ret tt else
  match fuel with
  | O => λ _, Hang
  | S fuel =>
      d0 <- (λ s, match used_ring q !! Z.to_nat (last_used_idx q mod NQUEUE) with
                  | Some d => Ret d s | None => Fault "used->ring[]" end) ;;
      i <- info_at d0 ;;
      (if nz (vi_status i) then panic "disk op error" else ret tt) ;;
      upd_info d0 (set_vi_done 1) ;;
      i <- info_at d0 ;;
      wakeup (vi_buf i) ;;
      upd_info d0 (set_vi_buf 0) ;;
      zoom of_q (modify (λ q, set_last (u16 (last_used_idx q + 1)) q)) ;;
      intr_loop fuel
  end.

(** The indices are [u16]: the loop ends after fewer than [2 ^ 16] turns. *)
Definition virtio_blk_intr (fuel : nat) : prog (vst D) unit :=
  zoom of_vlk acquire ;;
  st <- REG VIRTIO_REG_INTERRUPT_STATUS ;;
  REG_set VIRTIO_REG_INTERRUPT_ACK (Z.land st 3) ;;
  intr_loop fuel ;;
  zoom of_vlk release.

(** ** Initialisation *)

Definition virtq_init : prog (vst D) unit :=
  d <- zoom of_vkmem kalloc ;;
  a <- zoom of_vkmem kalloc ;;
  u <- zoom of_vkmem kalloc ;;
  (if (d =? 0) || (a =? 0) || (u =? 0) then panic "virtq init failed" else ret tt) ;;
  modify (put_q (desc_init (Virtq d a u (replicate NQUEUE (VDesc 0 0 0 0)) 0 (replicate NQUEUE 0) 0 (replicate NQUEUE 0)
    0 NQUEUE 0 (replicate NQUEUE (VInfo 0 0 0))))).

Definition LO (a : Z) : Z := Z.land a 0xffffffff.
Definition HI (a : Z) : Z := Z.land (Z.shiftr a 32) 0xffffffff.

(** The bits of the features the driver does not want, in its order. *)
Definition refused : list Z := [2; 4; 5; 6; 9; 10; 11; 27; 28; 29].

Definition virtio_init : prog (vst D) unit :=
  magic <- REG VIRTIO_REG_MAGICVALUE ;;
  (if negb (magic =? VIRTIO_MAGIC) then panic "no block device" else ret tt) ;;
  version <- REG VIRTIO_REG_VERSION ;;
  (if negb (version =? 2) then panic "no block device" else ret tt) ;;
  devid <- REG VIRTIO_REG_DEVICE_ID ;;
  (if negb (devid =? 2) then panic "no block device" else ret tt) ;;
  REG_set VIRTIO_REG_STATUS 0 ;;
  status <- ret (Z.lor 0 DEV_STATUS_ACKNOWLEDGE) ;;
  REG_set VIRTIO_REG_STATUS status ;;
  status <- ret (Z.lor status DEV_STATUS_DRIVER) ;;
  REG_set VIRTIO_REG_STATUS status ;;
  REG_set VIRTIO_REG_DEVICE_FEATURES_SEL 0 ;;
  REG_set VIRTIO_REG_DRIVER_FEATURES_SEL 0 ;;
  features <- REG VIRTIO_REG_DEVICE_FEATURES ;;
  REG_set VIRTIO_REG_DRIVER_FEATURES (foldl (λ f k, Z.land f (u32 (Z.lnot (Z.shiftl 1 k)))) features refused) ;;
  status <- ret (Z.lor status DEV_STATUS_FEATURES_OK) ;;
  REG_set VIRTIO_REG_STATUS status ;;
  status <- REG VIRTIO_REG_STATUS ;;
  (if negb (nz (Z.land status DEV_STATUS_FEATURES_OK)) then panic "virtio-blk err" else ret tt) ;;
  virtq_init ;;
  qmax <- REG VIRTIO_REG_QUEUE_NUM_MAX ;;
  (if i32 qmax <? NQUEUE then panic "virtqueue" else ret tt) ;;
  REG_set VIRTIO_REG_QUEUE_SEL 0 ;;
  REG_set VIRTIO_REG_QUEUE_NUM NQUEUE ;;
  q <- gets v_q ;;
  REG_set VIRTIO_REG_QUEUE_DESC_LOW (LO (V2P (desc_p q))) ;;
  REG_set VIRTIO_REG_QUEUE_DESC_HIGH (HI (V2P (desc_p q))) ;;
  REG_set VIRTIO_REG_QUEUE_DRIVER_LOW (LO (V2P (avail_p q))) ;;
  REG_set VIRTIO_REG_QUEUE_DRIVER_HIGH (HI (V2P (avail_p q))) ;;
  REG_set VIRTIO_REG_QUEUE_DEVICE_LOW (LO (V2P (used_p q))) ;;
  REG_set VIRTIO_REG_QUEUE_DEVICE_HIGH (HI (V2P (used_p q))) ;;
  REG_set VIRTIO_REG_QUEUE_READY 1 ;;
  REG_set VIRTIO_REG_STATUS (Z.lor status DEV_STATUS_DRIVER_OK) ;;
  zoom of_irqs (new_irq VIRTIO_BLK_IRQ VirtioBlkIntr) ;;
  modify (λ s, put_vlk (v_hart s) lock_init s).
End driver.

(** ** The free list and the requests *)

Definition is_desc (d : Z) : Prop := 0 <= d < 8.

#[export] Instance is_desc_dec d : Decision (is_desc d).
Proof. unfold is_desc. apply _. Defined.

(** Each descriptor of [l] but the last leads to the next one. *)
Fixpoint dlinks (ds : list virtq_desc) (l : list Z) : Prop :=
  match l with
  | d :: l' =>
      match l' with
      | [] => True
      | e :: _ => (∃ x, ds !! Z.to_nat d = Some x ∧ has_next x = true ∧ d_next x = e) ∧ dlinks ds l'
      end
  | [] => True
  end.

Record free_ok (q : virtq) (l : list Z) : Prop := {
  fo_len : length (desc q) = NQUEUE;
  fo_count : nfree q = length l;
  fo_head : l ≠ [] → free_head q = hd 0 l;
  fo_links : dlinks (desc q) l;
  fo_nodup : NoDup l;
  fo_range : Forall is_desc l
}.

(** The descriptors of a request: three, of which the last leads nowhere. *)
Definition req_ok (ds : list virtq_desc) (r : list Z) : Prop :=
  dlinks ds r ∧ ∃ d0 d1 d2 x, r = [d0; d1; d2] ∧ ds !! Z.to_nat d2 = Some x ∧ has_next x = false.

(** [l] are the free descriptors and [rs] the requests: every descriptor is
    free or in exactly one request. *)
Record queue_ok (q : virtq) (l : list Z) (rs : list (list Z)) : Prop := {
  qo_free : free_ok q l;
  qo_reqs : Forall (req_ok (desc q)) rs;
  qo_split : l ++ concat rs ≡ₚ seqZ 0 8
}.

Section descriptors.
Implicit Types (q : virtq) (l r : list Z) (d : Z) (ds : list virtq_desc).

Lemma desc_some ds d : length ds = NQUEUE → is_desc d → ∃ x, ds !! Z.to_nat d = Some x.
Proof.
  intros Hl Hd. destruct (ds !! Z.to_nat d) eqn:E; [by eexists|].
  apply lookup_ge_None in E. unfold is_desc, NQUEUE in *. lia.
Qed.

Lemma desc_at_run q d x : desc q !! Z.to_nat d = Some x → desc_at d q = Ret x q.
Proof. unfold desc_at. by intros ->. Qed.

Lemma upd_desc_run q d f x : desc q !! Z.to_nat d = Some x →
  upd_desc d f q = Ret tt (set_desc (<[Z.to_nat d := f x]> (desc q)) q).
Proof.
  intros Hd. unfold upd_desc, modify. f_equal. f_equal. apply list_eq. intros j.
  rewrite list_lookup_alter, list_lookup_insert. assert (Hlt := lookup_lt_Some _ _ _ Hd).
  destruct (decide (Z.to_nat d = j)) as [<-|]; [|by rewrite decide_False by (by intros [? _])].
  rewrite !decide_True by done. by rewrite Hd.
Qed.

Lemma dlinks_ext ds ds' l :
  (∀ d, d ∈ l → ds' !! Z.to_nat d = ds !! Z.to_nat d) → dlinks ds l → dlinks ds' l.
Proof.
  induction l as [|d [|e l] IH]; intros H; [done|done|]. cbn [dlinks]. intros [H1 H2]. split.
  - rewrite H by constructor. done.
  - apply IH; [|done]. intros d' Hd'. apply H. by constructor.
Qed.

Lemma req_ok_ext ds ds' r :
  (∀ d, d ∈ r → ds' !! Z.to_nat d = ds !! Z.to_nat d) → req_ok ds r → req_ok ds' r.
Proof.
  intros H [H1 (d0 & d1 & d2 & x & -> & Hx & Hn)]. split; [by eapply dlinks_ext|].
  exists d0, d1, d2, x. split_and!; [done| |done]. rewrite H; [done|]. rewrite !elem_of_cons. auto.
Qed.

Lemma insert_desc_other ds d x d' : is_desc d → is_desc d' → d ≠ d' →
  <[Z.to_nat d := x]> ds !! Z.to_nat d' = ds !! Z.to_nat d'.
Proof. unfold is_desc. intros ???. apply list_lookup_insert_ne. lia. Qed.

Lemma elem_of_concat (r : list Z) rs d : r ∈ rs → d ∈ r → d ∈ concat rs.
Proof. intros Hr Hd. induction Hr; cbn [concat]; apply elem_of_app; auto. Qed.

Lemma distinct3 (a b c : Z) : NoDup [a; b; c] → a ≠ b ∧ a ≠ c ∧ b ≠ c.
Proof. intros [N0 [N1 _]%NoDup_cons]%NoDup_cons. split_and!; intros ->; [apply N0|apply N0|apply N1]; repeat constructor. Qed.

Lemma not_in3 (d a b c : Z) : ¬ (d ∈ [a; b; c]) → d ≠ a ∧ d ≠ b ∧ d ≠ c.
Proof. intros H. split_and!; intros ->; apply H; repeat constructor. Qed.

Lemma few_descs l : NoDup l → Forall is_desc l → (length l <= 8)%nat.
Proof.
  intros Hn Hr. change 8%nat with (length (seqZ 0 8)). apply submseteq_length, NoDup_submseteq; [done|].
  intros x Hx. apply elem_of_seqZ. exact (proj1 (Forall_forall _ _) Hr x Hx).
Qed.

(** [alloc_desc] takes the first free descriptor. *)
Lemma alloc_desc_run q d l :
  free_ok q (d :: l) → ∃ h, alloc_desc q = Ret d (set_free h (length l) q) ∧ free_ok (set_free h (length l) q) l.
Proof.
  intros [Hl Hc Hh Hk Hn Hr]. specialize (Hh ltac:(done)). pose proof (few_descs _ Hn Hr) as Hlen.
  apply Forall_cons in Hr as [Hd Hr]. apply NoDup_cons in Hn as [_ Hn]. cbn [length hd] in *.
  destruct (desc_some _ d Hl Hd) as [x Hx].
  exists (if has_next x then d_next x else free_head q). split.
  - unfold alloc_desc. prog_step. rewrite (proj2 (Z.eqb_neq (nfree q) 0)) by lia.
    prog_steps. rewrite Hh, (pbind_ok _ _ _ _ _ (desc_at_run q d x Hx)).
    assert (Hu : u16 (nfree q - 1) = length l) by (rewrite u16_small; lia).
    destruct (has_next x); prog_steps; unfold ret; cbn [set_free nfree free_head]; rewrite Hu, ?Hh; done.
  - split; cbn [set_free desc nfree free_head]; try done.
    + destruct l as [|e l]; [done|]. intros _. destruct Hk as [(y & Hy & Hny & He) _]. rewrite Hx in Hy. injection Hy as <-.
      by rewrite Hny.
    + by destruct l as [|e l]; [|destruct Hk].
Qed.

Lemma alloc_desc_none q : free_ok q [] → alloc_desc q = Panic "virtq kokatu".
Proof. intros [_ Hc _ _ _ _]. unfold alloc_desc. prog_step. by rewrite Hc. Qed.

(** Writing a descriptor that is not free. *)
Lemma free_ok_upd q l d x :
  free_ok q l → is_desc d → ¬ (d ∈ l) → free_ok (set_desc (<[Z.to_nat d := x]> (desc q)) q) l.
Proof.
  intros [Hl Hc Hh Hk Hn Hr] Hd Hni. split; try done; cbn [desc set_desc].
  - by rewrite length_insert.
  - eapply dlinks_ext; [|exact Hk]. intros d' Hd'. apply insert_desc_other; [done| |by intros ->].
    exact (proj1 (Forall_forall _ _) Hr d' Hd').
Qed.

Lemma free_walk_S fuel d x q :
  desc q !! Z.to_nat d = Some x →
  free_walk (S fuel) d q = if has_next x then free_walk fuel (d_next x) (set_free (free_head q) (u16 (nfree q + 1)) q)
    else Ret d (set_free (free_head q) (u16 (nfree q + 1)) q).
Proof.
  intros Hx. cbn [free_walk]. prog_step. set (q' := set_free _ _ q).
  rewrite (pbind_ok _ _ _ _ _ (desc_at_run q' d x Hx)). by destruct (has_next x).
Qed.

(** The walk over a request adds its three descriptors to the count. *)
Lemma free_walk_req q d0 d1 d2 :
  req_ok (desc q) [d0; d1; d2] → 0 <= nfree q <= 5 →
  free_walk NQUEUE d0 q = Ret d2 (set_free (free_head q) (nfree q + 3) q).
Proof.
  intros [[(x0 & H0 & N0 & E0) [(x1 & H1 & N1 & E1) _]] (a & b & c & x2 & [= <- <- <-] & H2 & N2)] Hn.
  unfold NQUEUE. rewrite (free_walk_S _ _ _ _ H0), N0, E0. rewrite (free_walk_S _ _ x1), N1, E1 by done.
  rewrite (free_walk_S _ _ x2), N2 by done. unfold set_free. cbn [nfree free_head desc_p avail_p used_p desc avail_idx
    avail_ring used_idx used_ring last_used_idx info].
  rewrite (u16_small (nfree q + 1)), (u16_small (nfree q + 1 + 1)), (u16_small (nfree q + 1 + 1 + 1)) by lia.
  by replace (nfree q + 1 + 1 + 1) with (nfree q + 3) by lia.
Qed.

(** [free_desc] of a request puts its descriptors before the free ones. *)
Lemma free_desc_run q l d0 d1 d2 :
  free_ok q l → req_ok (desc q) [d0; d1; d2] → NoDup ([d0; d1; d2] ++ l) → Forall is_desc [d0; d1; d2] →
  ∃ x, free_desc NQUEUE d0 q = Ret tt (set_free d0 (nfree q + 3) (set_desc (<[Z.to_nat d2 := x]> (desc q)) q)) ∧
    free_ok (set_free d0 (nfree q + 3) (set_desc (<[Z.to_nat d2 := x]> (desc q)) q)) (d0 :: d1 :: d2 :: l).
Proof.
  intros Hf Hq Hnd Hds. pose proof Hf as [Hl Hc Hh Hk Hn Hr].
  assert (Hall : Forall is_desc ([d0; d1; d2] ++ l)) by (by apply Forall_app).
  pose proof (few_descs _ Hnd Hall) as Hlen. cbn [length app] in Hlen.
  pose proof (free_walk_req q d0 d1 d2 Hq ltac:(lia)) as Ew.
  destruct Hq as [[(x0 & H0 & N0 & E0) [(x1 & H1 & N1 & E1) _]] (a & b & c & x2 & [= <- <- <-] & H2 & N2)].
  apply Forall_cons in Hds as [D0 Hds]. apply Forall_cons in Hds as [D1 Hds]. apply Forall_cons in Hds as [D2 _].
  cbn [app] in Hnd. assert (Hne : d0 ≠ d2 ∧ d1 ≠ d2 ∧ ¬ (d2 ∈ l)).
  { apply NoDup_cons in Hnd as [A Hnd]. apply NoDup_cons in Hnd as [B Hnd]. apply NoDup_cons in Hnd as [E _].
    split_and!; [intros -> | intros -> |done]; [apply A|apply B]; rewrite !elem_of_cons; auto. }
  destruct Hne as (Ne0 & Ne1 & Ni2).
  set (y := set_d_flags VIRTQ_DESC_F_NEXT x2).
  set (z := if nfree q =? 0 then y else set_d_next (free_head q) y).
  exists z. split.
  - unfold free_desc. prog_step. cbv zeta. rewrite (pbind_ok _ _ _ _ _ Ew).
    rewrite (pbind_ok _ _ _ _ _ (upd_desc_run (set_free (free_head q) (nfree q + 3) q) d2 _ x2 H2)). fold y.
    set (q1 := set_desc _ (set_free _ _ q)).
    assert (Hy : desc q1 !! Z.to_nat d2 = Some y) by (apply list_lookup_insert_eq; by eapply lookup_lt_Some).
    unfold z. destruct (nfree q =? 0); [prog_steps; done|].
    rewrite (pbind_ok _ _ _ _ _ (upd_desc_run q1 d2 _ y Hy)). unfold modify, q1. cbn [desc set_desc]. by rewrite list_insert_insert_eq.
  - assert (Hz : <[Z.to_nat d2 := z]> (desc q) !! Z.to_nat d2 = Some z) by (apply list_lookup_insert_eq; by eapply lookup_lt_Some).
    split; cbn [set_free set_desc desc nfree free_head length hd]; try done.
    + by rewrite length_insert.
    + rewrite Hc. lia.
    + cbn [dlinks]. split_and!.
      * exists x0. rewrite insert_desc_other by done. done.
      * exists x1. rewrite insert_desc_other by done. done.
      * destruct l as [|e l']; [done|]. split.
        -- exists z. split; [exact Hz|]. unfold z. rewrite Hh by done. rewrite (proj2 (Z.eqb_neq (nfree q) 0)) by (cbn [length] in Hc; lia). done.
        -- apply (dlinks_ext (desc q)); [|done]. intros d' Hd'. apply insert_desc_other; [done| |by intros ->].
           exact (proj1 (Forall_forall _ _) Hr d' Hd').
Qed.
End descriptors.

Section submitting.
Context {D : Type} (reg_write : Z → Z → prog D unit) (status_addr : Z → Z).
Implicit Types (s : vst D) (q : virtq) (l : list Z) (rs : list (list Z)).

(** The descriptors of a request, as the specification of the device wants them. *)
Definition hdr_desc (hdr d1 : Z) : virtq_desc := VDesc (V2P hdr) 16 VIRTQ_DESC_F_NEXT d1.
Definition buf_desc (buf : Z) (op : diskop) (d2 : Z) : virtq_desc :=
  VDesc (V2P buf) 1024 (if decide (op = DREAD) then Z.lor VIRTQ_DESC_F_NEXT VIRTQ_DESC_F_WRITE else VIRTQ_DESC_F_NEXT) d2.
Definition status_desc (d0 : Z) : virtq_desc := VDesc (V2P (status_addr d0)) 1 VIRTQ_DESC_F_WRITE 0.

(** The queue after a request was submitted. *)
Definition submitted q (d0 d1 d2 hdr buf : Z) (op : diskop) (h : Z) (n : nat) : virtq :=
  Virtq (desc_p q) (avail_p q) (used_p q)
    (<[Z.to_nat d2 := status_desc d0]> (<[Z.to_nat d1 := buf_desc buf op d2]> (<[Z.to_nat d0 := hdr_desc hdr d1]> (desc q))))
    (u16 (avail_idx q + 1)) (<[Z.to_nat (avail_idx q mod NQUEUE) := d0]> (avail_ring q)) (used_idx q) (used_ring q)
    h n (last_used_idx q) (alter (set_vi_buf buf) (Z.to_nat d0) (info q)).

Lemma zoom_q_ok {A} (m : prog virtq A) s a q' : m (v_q s) = Ret a q' → zoom of_q m s = Ret a (put_q q' s).
Proof. apply (zoom_ok of_q). Qed.

Lemma upd_q_ok d f x s :
  desc (v_q s) !! Z.to_nat d = Some x →
  zoom of_q (upd_desc d f) s = Ret tt (put_q (set_desc (<[Z.to_nat d := f x]> (desc (v_q s))) (v_q s)) s).
Proof. intros Hx. apply zoom_q_ok. by apply upd_desc_run. Qed.

Lemma put_q_put_q q q' s : put_q q (put_q q' s) = put_q q s.
Proof. done. Qed.

Lemma submit_run s d0 d1 d2 l hdr buf op dev' :
  free_ok (v_q s) (d0 :: d1 :: d2 :: l) → reg_write VIRTIO_REG_QUEUE_NOTIFY 0 (v_dev s) = Ret tt dev' →
  ∃ h, virtio_submit reg_write status_addr hdr buf op s =
      Ret d0 (put_dev dev' (put_q (submitted (v_q s) d0 d1 d2 hdr buf op h (length l)) s)) ∧
    free_ok (submitted (v_q s) d0 d1 d2 hdr buf op h (length l)) l.
Proof.
  intros F Hreg. pose proof (fo_nodup _ _ F) as Hnd. pose proof (fo_range _ _ F) as Hr.
  apply Forall_cons in Hr as [D0 Hr]. apply Forall_cons in Hr as [D1 Hr]. apply Forall_cons in Hr as [D2 _].
  apply NoDup_cons in Hnd as [N0 Hnd]. apply NoDup_cons in Hnd as [N1 Hnd]. apply NoDup_cons in Hnd as [N2 _].
  assert (Ne01 : d0 ≠ d1) by (intros ->; apply N0; constructor).
  assert (Ne02 : d0 ≠ d2) by (intros ->; apply N0; rewrite !elem_of_cons; auto).
  assert (Ne12 : d1 ≠ d2) by (intros ->; apply N1; constructor).
  pose proof (fo_len _ _ F) as Hl.
  destruct (desc_some _ d0 Hl D0) as [x0 H0], (desc_some _ d1 Hl D1) as [x1 H1], (desc_some _ d2 Hl D2) as [x2 H2].
  destruct (alloc_desc_run _ _ _ F) as (h1 & E1 & F1).
  set (q1 := set_free h1 _ _) in *. set (X0 := VDesc (V2P hdr) 16 VIRTQ_DESC_F_NEXT (d_next x0)).
  set (q2 := set_desc (<[Z.to_nat d0 := X0]> (desc q1)) q1).
  assert (F2 : free_ok q2 (d1 :: d2 :: l)) by (by apply free_ok_upd).
  destruct (alloc_desc_run _ _ _ F2) as (h3 & E3 & F3). set (q3 := set_free h3 _ _) in *.
  assert (H03 : desc q3 !! Z.to_nat d0 = Some X0) by (apply list_lookup_insert_eq; by eapply lookup_lt_Some).
  set (q4 := set_desc (<[Z.to_nat d0 := set_d_next d1 X0]> (desc q3)) q3).
  assert (F4 : free_ok q4 (d2 :: l)).
  { apply free_ok_upd; [done|done|]. intros [->|Hin]%elem_of_cons; [done|]. apply N0. rewrite !elem_of_cons. auto. }
  assert (H14 : desc q4 !! Z.to_nat d1 = Some x1).
  { cbn [desc set_desc q4 q3 q2 q1 set_free]. by rewrite !insert_desc_other. }
  set (X1 := VDesc (V2P buf) 1024 (if decide (op = DREAD) then Z.lor VIRTQ_DESC_F_NEXT VIRTQ_DESC_F_WRITE else VIRTQ_DESC_F_NEXT) (d_next x1)).
  set (q5 := set_desc (<[Z.to_nat d1 := X1]> (desc q4)) q4).
  assert (F5 : free_ok q5 (d2 :: l)) by (by apply free_ok_upd).
  destruct (alloc_desc_run _ _ _ F5) as (h6 & E6 & F6). set (q6 := set_free h6 _ _) in *.
  assert (H16 : desc q6 !! Z.to_nat d1 = Some X1) by (apply list_lookup_insert_eq; by eapply lookup_lt_Some).
  set (q7 := set_desc (<[Z.to_nat d1 := set_d_next d2 X1]> (desc q6)) q6).
  assert (F7 : free_ok q7 l) by (apply free_ok_upd; [done|done|]; intros Hin; apply N1; by constructor).
  assert (H27 : desc q7 !! Z.to_nat d2 = Some x2).
  { cbn [desc set_desc q7 q6 q5 q4 q3 q2 q1 set_free]. by rewrite !insert_desc_other. }
  set (q8 := set_desc (<[Z.to_nat d2 := status_desc d0]> (desc q7)) q7).
  assert (F8 : free_ok q8 l) by (by apply free_ok_upd).
  exists h6. assert (Eq : submitted (v_q s) d0 d1 d2 hdr buf op h6 (length l) =
    set_info (alter (set_vi_buf buf) (Z.to_nat d0) (info q8))
      (set_avail (u16 (avail_idx q8 + 1)) (<[Z.to_nat (avail_idx q8 mod NQUEUE) := d0]> (avail_ring q8)) q8)).
  { unfold submitted, set_info, set_avail. cbn [desc set_desc q8 q7 q6 q5 q4 q3 q2 q1 set_free desc_p avail_p used_p
      avail_idx avail_ring used_idx used_ring free_head nfree last_used_idx info].
    f_equal. by rewrite !list_insert_insert_eq. }
  split; [|destruct F8; rewrite Eq; by split]. rewrite Eq. unfold virtio_submit.
  rewrite (pbind_ok _ _ _ _ _ (zoom_q_ok _ s _ _ E1)).
  rewrite (pbind_ok _ _ _ _ _ (upd_q_ok d0 _ x0 (put_q q1 s) H0)). fold X0.
  rewrite (pbind_ok _ _ _ _ _ (zoom_q_ok _ (put_q q2 s) _ _ E3)).
  rewrite (pbind_ok _ _ _ _ _ (upd_q_ok d0 _ X0 (put_q q3 s) H03)).
  rewrite (pbind_ok _ _ _ _ _ (upd_q_ok d1 _ x1 (put_q q4 s) H14)). fold X1.
  rewrite (pbind_ok _ _ _ _ _ (zoom_q_ok _ (put_q q5 s) _ _ E6)).
  rewrite (pbind_ok _ _ _ _ _ (upd_q_ok d1 _ X1 (put_q q6 s) H16)).
  rewrite (pbind_ok _ _ _ _ _ (upd_q_ok d2 _ x2 (put_q q7 s) H27)). fold (status_desc d0).
  erewrite pbind_ok; [|apply (zoom_q_ok _ (put_q q8 s)); reflexivity].
  unfold upd_info. prog_step. unfold REG_set.
  erewrite pbind_ok; [|apply (zoom_ok of_dev); exact Hreg]. done.
Qed.

(** With fewer than three free descriptors the driver gives up. *)
Lemma submit_panics s l hdr buf op :
  free_ok (v_q s) l → (length l < 3)%nat →
  virtio_submit reg_write status_addr hdr buf op s = Panic "virtq kokatu".
Proof.
  intros F Hlen. unfold virtio_submit. destruct l as [|d0 l].
  { apply pbind_panic, zoom_panic. by apply alloc_desc_none. }
  pose proof (Forall_inv (fo_range _ _ F)) as D0. pose proof (NoDup_cons_1_1 _ _ (fo_nodup _ _ F)) as N0.
  destruct (alloc_desc_run _ _ _ F) as (h1 & E1 & F1). set (q1 := set_free h1 _ _) in *.
  rewrite (pbind_ok _ _ _ _ _ (zoom_q_ok _ s _ _ E1)).
  destruct (desc_some _ d0 (fo_len _ _ F1) D0) as [x0 H0].
  rewrite (pbind_ok _ _ _ _ _ (upd_q_ok d0 _ x0 (put_q q1 s) H0)). set (q2 := set_desc _ _).
  assert (F2 : free_ok q2 l) by (by apply free_ok_upd). change (put_q q2 (put_q q1 s)) with (put_q q2 s).
  destruct l as [|d1 l]; [apply pbind_panic, zoom_panic; by apply alloc_desc_none|].
  destruct l as [|d2 l]; [|simpl in Hlen; lia].
  pose proof (Forall_inv (fo_range _ _ F2)) as D1.
  destruct (alloc_desc_run _ _ _ F2) as (h3 & E3 & F3). set (q3 := set_free h3 _ _) in *.
  rewrite (pbind_ok _ _ _ _ _ (zoom_q_ok _ (put_q q2 s) _ _ E3)).
  destruct (desc_some _ d0 (fo_len _ _ F3) D0) as [y0 G0].
  rewrite (pbind_ok _ _ _ _ _ (upd_q_ok d0 _ y0 (put_q q3 s) G0)). set (q4 := set_desc _ (v_q _)).
  assert (F4 : free_ok q4 []) by (apply (free_ok_upd q3); [done|done|by intros ?%elem_of_nil]).
  destruct (desc_some _ d1 (fo_len _ _ F4) D1) as [x1 H1].
  match goal with |- context [put_q q4 ?t] => rewrite (pbind_ok _ _ _ _ _ (upd_q_ok d1 _ x1 (put_q q4 t) H1)) end.
  set (q5 := set_desc _ (v_q _)).
  assert (F5 : free_ok q5 []) by (apply (free_ok_upd q4); [done|done|by intros ?%elem_of_nil]).
  apply pbind_panic, zoom_panic. by apply alloc_desc_none.
Qed.

Lemma split_facts l rs : l ++ concat rs ≡ₚ seqZ 0 8 → NoDup (l ++ concat rs) ∧ Forall is_desc (l ++ concat rs).
Proof.
  intros H. split; [rewrite H; apply NoDup_seqZ|]. rewrite H. apply Forall_forall. intros x Hx.
  by apply elem_of_seqZ in Hx.
Qed.

Lemma reqs_length ds rs : Forall (req_ok ds) rs → length (concat rs) = (3 * length rs)%nat.
Proof.
  induction 1 as [|r rs [_ (d0 & d1 & d2 & x & -> & _)] _ IH]; [done|]. cbn [concat]. rewrite length_app, IH. simpl. lia.
Qed.

Lemma submitted_descs q d0 d1 d2 hdr buf op h n :
  length (desc q) = NQUEUE → NoDup [d0; d1; d2] → Forall is_desc [d0; d1; d2] →
  let ds := desc (submitted q d0 d1 d2 hdr buf op h n) in
  ds !! Z.to_nat d0 = Some (hdr_desc hdr d1) ∧ ds !! Z.to_nat d1 = Some (buf_desc buf op d2) ∧
  ds !! Z.to_nat d2 = Some (status_desc d0).
Proof.
  intros Hl Hn Hd. cbn [desc submitted]. destruct (distinct3 _ _ _ Hn) as (A1 & A2 & A3).
  apply Forall_cons in Hd as [D0 Hd]. apply Forall_cons in Hd as [D1 Hd]. apply Forall_cons in Hd as [D2 _].
  assert (Hlt : ∀ d, is_desc d → (Z.to_nat d < length (desc q))%nat) by (unfold is_desc, NQUEUE in *; intros; lia).
  split_and!.
  - rewrite !insert_desc_other by done. apply list_lookup_insert_eq; by apply Hlt.
  - rewrite insert_desc_other by done. apply list_lookup_insert_eq; rewrite length_insert; by apply Hlt.
  - apply list_lookup_insert_eq. rewrite !length_insert. by apply Hlt.
Qed.

Lemma submitted_req q d0 d1 d2 hdr buf op h n :
  length (desc q) = NQUEUE → NoDup [d0; d1; d2] → Forall is_desc [d0; d1; d2] →
  req_ok (desc (submitted q d0 d1 d2 hdr buf op h n)) [d0; d1; d2].
Proof.
  intros Hl Hn Hd. destruct (submitted_descs q d0 d1 d2 hdr buf op h n Hl Hn Hd) as (L0 & L1 & L2).
  split; [cbn [dlinks]; split_and!; [| |done]|by exists d0, d1, d2, (status_desc d0)].
  - by exists (hdr_desc hdr d1).
  - exists (buf_desc buf op d2). split; [exact L1|]. split; [|done]. unfold buf_desc. by case_decide.
Qed.

Lemma submitted_other q d0 d1 d2 hdr buf op h n d :
  is_desc d → Forall is_desc [d0; d1; d2] → ¬ (d ∈ [d0; d1; d2]) →
  desc (submitted q d0 d1 d2 hdr buf op h n) !! Z.to_nat d = desc q !! Z.to_nat d.
Proof.
  intros Hd Hds (M0 & M1 & M2)%not_in3. cbn [desc submitted].
  apply Forall_cons in Hds as [D0 Hds]. apply Forall_cons in Hds as [D1 Hds]. apply Forall_cons in Hds as [D2 _].
  by rewrite !insert_desc_other.
Qed.

(** A request more. *)
Lemma queue_submit q l rs d0 d1 d2 hdr buf op h :
  queue_ok q (d0 :: d1 :: d2 :: l) rs → free_ok (submitted q d0 d1 d2 hdr buf op h (length l)) l →
  queue_ok (submitted q d0 d1 d2 hdr buf op h (length l)) l ([d0; d1; d2] :: rs) ∧
  ∀ d, d ∈ concat rs → desc (submitted q d0 d1 d2 hdr buf op h (length l)) !! Z.to_nat d = desc q !! Z.to_nat d.
Proof.
  intros [F R P] F'. destruct (split_facts _ _ P) as [Hnd Hrg].
  pose proof (fo_range _ _ F) as Hr. pose proof (fo_nodup _ _ F) as Hn.
  assert (D3 : Forall is_desc [d0; d1; d2]) by (apply (Forall_app _ [d0; d1; d2] l) in Hr; tauto).
  assert (N3 : NoDup [d0; d1; d2]) by (apply (NoDup_app [d0; d1; d2] l) in Hn; tauto).
  assert (Ho : ∀ d, d ∈ concat rs → desc (submitted q d0 d1 d2 hdr buf op h (length l)) !! Z.to_nat d = desc q !! Z.to_nat d).
  { intros d Hd. apply submitted_other; [|done|].
    - apply (proj1 (Forall_forall _ _) Hrg). apply elem_of_app. by right.
    - intros Hin. apply NoDup_app in Hnd as (_ & Hx & _). apply (Hx d); [|done].
      apply (elem_of_app [d0; d1; d2] l). by left. }
  split; [|exact Ho]. split; [done| |].
  - constructor; [apply submitted_req; [apply F|done|done]|]. apply Forall_forall. intros r Hr'.
    apply (req_ok_ext (desc q)); [|exact (proj1 (Forall_forall _ _) R r Hr')].
    intros d Hd. apply Ho. by eapply elem_of_concat.
  - rewrite <- P. cbn [concat]. rewrite (Permutation_app_comm l). rewrite <- app_assoc. cbn [app].
    do 3 constructor. apply Permutation_app_comm.
Qed.

(** A request less, whichever it is. *)
Lemma queue_complete q l rs1 r rs2 :
  queue_ok q l (rs1 ++ r :: rs2) →
  ∃ d0 q', free_desc NQUEUE d0 q = Ret tt q' ∧ hd 0 r = d0 ∧ queue_ok q' (r ++ l) (rs1 ++ rs2) ∧
    avail_idx q' = avail_idx q ∧ avail_ring q' = avail_ring q ∧ used_idx q' = used_idx q ∧ used_ring q' = used_ring q ∧
    last_used_idx q' = last_used_idx q ∧ info q' = info q.
Proof.
  intros [F R P]. destruct (split_facts _ _ P) as [Hnd Hrg].
  apply Forall_app in R as [R1 R2]. apply Forall_cons in R2 as [Rr R2].
  assert (P' : (r ++ l) ++ concat (rs1 ++ rs2) ≡ₚ seqZ 0 8).
  { rewrite <- P, !concat_app. cbn [concat]. rewrite !app_assoc. apply Permutation_app_tail.
    rewrite <- !app_assoc. rewrite (Permutation_app_comm (concat rs1) r), app_assoc, (Permutation_app_comm r l).
    by rewrite <- app_assoc. }
  destruct (split_facts _ _ P') as [Hnd' Hrg']. rewrite <- app_assoc in Hnd', Hrg'.
  pose proof Rr as [_ (d0 & d1 & d2 & x & -> & _)].
  assert (N4 : NoDup ([d0; d1; d2] ++ l)) by (rewrite app_assoc in Hnd'; apply NoDup_app in Hnd'; tauto).
  assert (D3 : Forall is_desc [d0; d1; d2]) by (apply Forall_app in Hrg'; tauto).
  destruct (free_desc_run q l d0 d1 d2 F Rr N4 D3) as (y & E & F').
  eexists d0, _. split; [exact E|]. split; [done|]. split; [|done]. split; [exact F'| |done].
  cbn [desc set_free set_desc]. apply Forall_forall. intros r' Hr'.
  apply (req_ok_ext (desc q)).
  - intros d Hd. assert (Hin : d ∈ concat (rs1 ++ rs2)) by (by eapply elem_of_concat).
    apply insert_desc_other.
    + apply Forall_cons in D3 as [_ D3]. apply Forall_cons in D3 as [_ D3]. by apply Forall_cons in D3 as [? _].
    + apply Forall_app in Hrg' as [_ Hrg']. apply Forall_app in Hrg' as [_ Hrg'].
      exact (proj1 (Forall_forall _ _) Hrg' d Hin).
    + intros ->. apply NoDup_app in Hnd' as (_ & Hx & _). apply (Hx d); [repeat constructor|].
      apply elem_of_app. by right.
  - apply elem_of_app in Hr' as [H|H]; [exact (proj1 (Forall_forall _ _) R1 r' H)|exact (proj1 (Forall_forall _ _) R2 r' H)].
Qed.
End submitting.

(** ** A device that follows the specification *)

(** Registers it answers with constants; the requests it has taken; its blocks. *)
Record vdev := VDev { dv_status : Z; dv_seen : Z; dv_disk : memdisk }.

Definition dev_reg_read (r : Z) : prog vdev Z := λ d,
  Ret (if r =? 0 then 0x74726976 else if r =? 4 then 2 else if r =? 8 then 2
       else if r =? 0x34 then 1024 else if r =? 0x70 then dv_status d else 0) d.
Definition dev_reg_write (r v : Z) : prog vdev unit := λ d,
  Ret tt (if r =? 0x70 then VDev v (dv_seen d) (dv_disk d) else d).

(** Where [info[i].status] is. *)
Definition STATUS_BASE : Z := KERNBASE.
Definition status_at (i : Z) : Z := STATUS_BASE + 16 * i.

(** The device takes the next available request: it follows the chain, moves
    the block between the disk and memory, stores the status and reports the
    head of the chain as used. *)
Definition device_serve : prog (vst vdev) unit := λ s,
  let q := v_q s in
  if dv_seen (v_dev s) =? avail_idx q then Ret tt s else
  match avail_ring q !! Z.to_nat (dv_seen (v_dev s) mod NQUEUE) with
  | None => Fault "avail ring"
  | Some head =>
      match desc q !! Z.to_nat head with
      | None => Fault "descriptor"
      | Some x0 =>
          match desc q !! Z.to_nat (d_next x0) with
          | None => Fault "descriptor"
          | Some x1 =>
              match desc q !! Z.to_nat (d_next x1) with
              | None => Fault "descriptor"
              | Some x2 =>
                  let hdr := P2V (d_addr x0) in
                  let buf := P2V (d_addr x1) in
                  let bno := ld64 (v_mem s) (hdr + 8) / 2 in
                  let d := dv_disk (v_dev s) in
                  if negb (has_next x0 && has_next x1 && negb (has_next x2) && (d_len x0 =? 16) && (d_len x1 =? 1024)
                           && nz (Z.land (d_flags x2) VIRTQ_DESC_F_WRITE) && (d_len x2 =? 1)
                           && (ld64 (v_mem s) (hdr + 8) mod 2 =? 0))
                  then Fault "request" else
                  let q' := set_used (u16 (used_idx q + 1))
                    (<[Z.to_nat (used_idx q mod NQUEUE) := head]> (used_ring q))
                    (set_info (alter (set_vi_status 0) (Z.to_nat ((P2V (d_addr x2) - STATUS_BASE) / 16)) (info q)) q) in
                  let dev d := VDev (dv_status (v_dev s)) (u16 (dv_seen (v_dev s) + 1)) d in
                  if ld32 (v_mem s) hdr =? VIRTIO_BLK_T_IN then
                    if nz (Z.land (d_flags x1) VIRTQ_DESC_F_WRITE)
                    then Ret tt (put_dev (dev d) (put_q q' (put_vmem (mwrite (v_mem s) buf (md_block d bno)) s)))
                    else Fault "buffer not writable"
                  else if ld32 (v_mem s) hdr =? VIRTIO_BLK_T_OUT then
                    if nz (Z.land (d_flags x1) VIRTQ_DESC_F_WRITE) then Fault "buffer not readable"
                    else Ret tt (put_dev (dev (MemDisk (<[bno := mread (v_mem s) buf BSIZE]> (md_blocks d)))) (put_q q' s))
                  else Fault "request type"
              end
          end
      end
  end.

(** [sleep] when nothing else happens: the lock is given back, the device
    serves the request and interrupts, and the sleeper goes on with the lock. *)
Definition serve_sleep (buf : Z) : prog (vst vdev) unit :=
  zoom of_vlk release ;;
  device_serve ;;
  virtio_blk_intr dev_reg_read dev_reg_write (λ _, ret tt) NQUEUE ;;
  zoom of_vlk acquire.

(** ** Driver and device together *)

Section together.
Implicit Types (s : vst vdev) (q : virtq) (l : list Z) (m : mem).

Lemma P2V_V2P_id a : 0 <= a < 2 ^ 64 → P2V (V2P a) = a.
Proof. unfold P2V, V2P, u64, VA_START. intros. zlia. Qed.

Lemma status_back i : is_desc i → (P2V (V2P (status_at i)) - STATUS_BASE) / 16 = i.
Proof.
  unfold is_desc. intros. rewrite P2V_V2P_id.
  - unfold status_at. replace (STATUS_BASE + 16 * i - STATUS_BASE) with (i * 16) by lia. by rewrite Z.div_mul.
  - unfold status_at, STATUS_BASE. unfold_layout. lia.
Qed.

Lemma u16_mod_small x : 0 <= x < 2 ^ 16 → 0 <= x mod 8 < 8.
Proof. intros. by apply Z.mod_pos_bound. Qed.

(** Nothing is on its way. *)
Record idle s : Prop := {
  id_queue : ∃ l, queue_ok (v_q s) l [];
  id_seen : dv_seen (v_dev s) = avail_idx (v_q s);
  id_last : last_used_idx (v_q s) = used_idx (v_q s);
  id_range : 0 <= avail_idx (v_q s) < 2 ^ 16 ∧ 0 <= used_idx (v_q s) < 2 ^ 16;
  id_rings : length (avail_ring (v_q s)) = NQUEUE ∧ length (used_ring (v_q s)) = NQUEUE;
  id_info : length (info (v_q s)) = NQUEUE ∧ ∀ i x, info (v_q s) !! i = Some x → vi_done x = 0 ∧ vi_status x = 0
}.

Lemma ld_hdr hdr type sector m :
  0 <= type < 2 ^ 32 → 0 <= sector < 2 ^ 64 →
  ld32 (put_hdr hdr type sector m) hdr = type ∧ ld64 (put_hdr hdr type sector m) (hdr + 8) = sector.
Proof.
  intros Ht Hs. unfold put_hdr. split.
  - rewrite (ld_st_disj 4 8), (ld_st_disj 4 4), ld_st_eq by lia. by apply Z.mod_small.
  - rewrite ld_st_eq. by apply Z.mod_small.
Qed.

Lemma rd8_hdr hdr type sector m a : ¬ (hdr <= a < hdr + 16) → rd8 (put_hdr hdr type sector m) a = rd8 m a.
Proof. intros. unfold put_hdr. rewrite !rd8_st_other by lia. done. Qed.

(** The memory, and the disk, after the device served a request. *)
Definition served_mem (op : diskop) (buf bno : Z) (d : memdisk) m : mem :=
  match op with DREAD => mwrite m buf (md_block d bno) | DWRITE => m end.
Definition served_disk (op : diskop) (buf bno : Z) (d : memdisk) m : memdisk :=
  match op with DREAD => d | DWRITE => MemDisk (<[bno := mread m buf BSIZE]> (md_blocks d)) end.

(** Where the rings and the flags stand after the device served [d0]. *)
Definition used_q q d0 : virtq :=
  set_used (u16 (used_idx q + 1)) (<[Z.to_nat (used_idx q mod NQUEUE) := d0]> (used_ring q))
    (set_info (alter (set_vi_status 0) (Z.to_nat d0) (info q)) q).
(** After the interrupt. *)
Definition done_q q d0 : virtq :=
  set_last (u16 (last_used_idx q + 1)) (set_info (alter (set_vi_buf 0) (Z.to_nat d0) (alter (set_vi_done 1) (Z.to_nat d0) (info q))) q).

Lemma device_serve_run s q d0 d1 d2 hdr buf op h n bno :
  v_q s = submitted status_at q d0 d1 d2 hdr buf op h n →
  dv_seen (v_dev s) = avail_idx q → 0 <= avail_idx q < 2 ^ 16 → length (avail_ring q) = NQUEUE →
  length (desc q) = NQUEUE → NoDup [d0; d1; d2] → Forall is_desc [d0; d1; d2] →
  0 <= hdr < 2 ^ 64 → 0 <= buf < 2 ^ 64 → is_bno bno →
  ld32 (v_mem s) hdr = (match op with DREAD => VIRTIO_BLK_T_IN | DWRITE => VIRTIO_BLK_T_OUT end) →
  ld64 (v_mem s) (hdr + 8) = bno * 2 →
  device_serve s = Ret tt (put_dev (VDev (dv_status (v_dev s)) (u16 (avail_idx q + 1)) (served_disk op buf bno (dv_disk (v_dev s)) (v_mem s)))
    (put_q (used_q (v_q s) d0) (put_vmem (served_mem op buf bno (dv_disk (v_dev s)) (v_mem s)) s))).
Proof.
  intros Eq Hseen Hai Hal Hl Hn Hd Hh Hb Hbno Et Es.
  destruct (submitted_descs status_at q d0 d1 d2 hdr buf op h n Hl Hn Hd) as (L0 & L1 & L2). rewrite <- Eq in L0, L1, L2.
  pose proof (Forall_inv Hd) as D0.
  assert (Ering : avail_ring (v_q s) !! Z.to_nat (avail_idx q mod NQUEUE) = Some d0).
  { rewrite Eq. cbn [avail_ring submitted]. apply list_lookup_insert_eq. rewrite Hal. unfold NQUEUE.
    pose proof (u16_mod_small _ Hai). change (Z.of_nat 8) with 8. lia. }
  unfold device_serve. rewrite Hseen.
  assert (Ene : (avail_idx q =? avail_idx (v_q s)) = false).
  { rewrite Eq. cbn [avail_idx submitted]. apply Z.eqb_neq. unfold u16. zlia. }
  rewrite Ene, Ering, L0. cbn [hdr_desc d_next]. rewrite L1. cbn [buf_desc d_next]. rewrite L2.
  unfold is_bno in Hbno. cbn [hdr_desc buf_desc status_desc d_addr d_len d_flags d_next].
  rewrite (P2V_V2P_id hdr), (P2V_V2P_id buf), status_back, Et, Es by done. rewrite Z.mod_mul, Z.div_mul by done.
  destruct op; reflexivity.
Qed.

Lemma info_lookup (l : list vinfo) (f : vinfo → vinfo) (i : nat) x : l !! i = Some x → alter f i l !! i = Some (f x).
Proof. intros H. by rewrite list_lookup_alter, H, decide_True. Qed.

Lemma info_at_run (d : Z) x s : info (v_q s) !! Z.to_nat d = Some x → info_at d s = Ret x s.
Proof. unfold info_at. by intros ->. Qed.

Lemma reg_status s : REG dev_reg_read VIRTIO_REG_INTERRUPT_STATUS s = Ret 0 s.
Proof. by destruct s. Qed.

Lemma reg_plain r v s : r ≠ 0x70 → REG_set dev_reg_write r v s = Ret tt s.
Proof. intros Hr. unfold REG_set, zoom, dev_reg_write. rewrite (proj2 (Z.eqb_neq r 0x70)) by done. by destruct s. Qed.

Lemma intr_turn n s d0 x :
  used_ring (v_q s) !! Z.to_nat (last_used_idx (v_q s) mod NQUEUE) = Some d0 →
  info (v_q s) !! Z.to_nat d0 = Some x → vi_status x = 0 → last_used_idx (v_q s) ≠ used_idx (v_q s) →
  intr_loop (λ _, ret tt) (S n) s = intr_loop (λ _, ret tt) n (put_q (done_q (v_q s) d0) s).
Proof.
  intros Er Hx Hst Hne. cbn [intr_loop]. prog_step. rewrite (proj2 (Z.eqb_neq _ _) Hne), Er.
  set (s3 := put_q (set_info (alter (set_vi_done 1) (Z.to_nat d0) (info (v_q s))) (v_q s)) s).
  assert (Hx2 : info (v_q s3) !! Z.to_nat d0 = Some (set_vi_done 1 x)) by (by apply info_lookup).
  rewrite (pbind_ok (λ s0, Ret d0 s0) _ s d0 s eq_refl).
  rewrite (pbind_ok _ _ _ _ _ (info_at_run d0 x s Hx)), Hst. cbn [nz Z.eqb negb]. prog_step.
  unfold upd_info. prog_steps. fold s3. rewrite (pbind_ok _ _ _ _ _ (info_at_run d0 _ s3 Hx2)). prog_steps.
  erewrite pbind_ok; [|apply zoom_q_ok; reflexivity]. done.
Qed.

(** The interrupt handler after one request was used. *)
Lemma intr_run s h d0 x :
  hart_ok h → v_hart s = h → free_lock (v_lk s) →
  0 <= last_used_idx (v_q s) < 2 ^ 16 → used_idx (v_q s) = u16 (last_used_idx (v_q s) + 1) →
  used_ring (v_q s) !! Z.to_nat (last_used_idx (v_q s) mod NQUEUE) = Some d0 →
  info (v_q s) !! Z.to_nat d0 = Some x → vi_status x = 0 →
  virtio_blk_intr dev_reg_read dev_reg_write (λ _, ret tt) NQUEUE s = Ret tt (put_vlk (touched h) lock_init (put_q (done_q (v_q s) d0) s)).
Proof.
  intros Hh Eh El Hlast Eu Er Hx Hst. unfold virtio_blk_intr.
  set (s1 := put_vlk (entered h) (Lock 1 (cpuid h)) s).
  assert (E1 : zoom of_vlk acquire s = Ret tt s1).
  { unfold zoom. cbn [lget lset of_vlk]. rewrite Eh. by rewrite acquire_free. }
  rewrite (pbind_ok _ _ _ _ _ E1).
  assert (Hack : VIRTIO_REG_INTERRUPT_ACK ≠ 0x70) by discriminate.
  rewrite (pbind_ok _ _ _ _ _ (reg_status s1)), (pbind_ok _ _ _ _ _ (reg_plain _ _ s1 Hack)).
  assert (Hne : last_used_idx (v_q s1) ≠ used_idx (v_q s1)).
  { change (v_q s1) with (v_q s). rewrite Eu. unfold u16. clear -Hlast. zlia. }
  rewrite (pbind_ok _ _ s1 tt (put_q (done_q (v_q s) d0) s1)).
  2:{ change NQUEUE with (S 7). rewrite (intr_turn 7 s1 d0 x Er Hx Hst Hne). cbn [intr_loop]. prog_step.
      rewrite (proj2 (Z.eqb_eq _ _)); [done|]. change (v_q s1) with (v_q s). cbn. by rewrite Eu. }
  unfold zoom. cbn [lget lset of_vlk]. change (v_hart (put_q _ s1)) with (entered h).
  change (v_lk (put_q _ s1)) with (Lock 1 (cpuid h)). rewrite release_held by done. reflexivity.
Qed.

(** Sleeping until the request at [d0] has been served. *)
Lemma serve_sleep_run s h q d0 d1 d2 hdr buf op hd n bno x :
  hart_ok h → v_hart s = entered h → v_lk s = Lock 1 (cpuid h) →
  v_q s = submitted status_at q d0 d1 d2 hdr buf op hd n → dv_seen (v_dev s) = avail_idx q →
  0 <= avail_idx q < 2 ^ 16 → length (avail_ring q) = NQUEUE → length (desc q) = NQUEUE →
  NoDup [d0; d1; d2] → Forall is_desc [d0; d1; d2] → 0 <= hdr < 2 ^ 64 → 0 <= buf < 2 ^ 64 → is_bno bno →
  ld32 (v_mem s) hdr = (match op with DREAD => VIRTIO_BLK_T_IN | DWRITE => VIRTIO_BLK_T_OUT end) →
  ld64 (v_mem s) (hdr + 8) = bno * 2 →
  last_used_idx q = used_idx q → 0 <= used_idx q < 2 ^ 16 → length (used_ring q) = NQUEUE →
  info q !! Z.to_nat d0 = Some x →
  serve_sleep buf s = Ret tt
    (put_dev (VDev (dv_status (v_dev s)) (u16 (avail_idx q + 1)) (served_disk op buf bno (dv_disk (v_dev s)) (v_mem s)))
      (put_vmem (served_mem op buf bno (dv_disk (v_dev s)) (v_mem s))
        (put_q (done_q (used_q (v_q s) d0) d0) (put_vlk (entered (touched h)) (Lock 1 (cpuid h)) s)))).
Proof.
  intros Hh Eh El Eq Hseen Hai Hal Hl Hn Hd Hhdr Hbuf Hbno Et Es Hlast Hu Hul Hx. unfold serve_sleep.
  set (s1 := put_vlk (touched h) lock_init s).
  assert (E1 : zoom of_vlk release s = Ret tt s1).
  { unfold zoom. cbn [lget lset of_vlk]. by rewrite Eh, El, release_held. }
  rewrite (pbind_ok _ _ _ _ _ E1).
  pose proof (device_serve_run s1 q d0 d1 d2 hdr buf op hd n bno Eq Hseen Hai Hal Hl Hn Hd Hhdr Hbuf Hbno Et Es) as E2.
  rewrite (pbind_ok _ _ _ _ _ E2). set (s2 := put_dev _ _).
  assert (Hh' : hart_ok (touched h)) by (by apply touched_ok).
  assert (E3 : virtio_blk_intr dev_reg_read dev_reg_write (λ _, ret tt) NQUEUE s2 =
    Ret tt (put_vlk (touched h) lock_init (put_q (done_q (v_q s2) d0) s2))).
  { assert (Eq2 : v_q s2 = used_q (submitted status_at q d0 d1 d2 hdr buf op hd n) d0) by (by rewrite <- Eq).
    rewrite <- (touched_idem h) at 1.
    apply (intr_run s2 (touched h) d0 (set_vi_status 0 (set_vi_buf buf x))); try done.
    - rewrite Eq2. cbn [last_used_idx used_q set_used set_info submitted]. by rewrite Hlast.
    - rewrite Eq2. cbn [used_idx last_used_idx used_q set_used set_info submitted]. by rewrite Hlast.
    - rewrite Eq2. cbn [used_ring used_idx last_used_idx used_q set_used set_info submitted]. rewrite Hlast.
      apply list_lookup_insert_eq. rewrite Hul. unfold NQUEUE. pose proof (u16_mod_small _ Hu). change (Z.of_nat 8) with 8. lia.
    - rewrite Eq2. cbn [info used_q set_used set_info submitted]. by do 2 apply info_lookup. }
  rewrite (pbind_ok _ _ _ _ _ E3). unfold zoom. cbn [lget lset of_vlk put_vlk v_hart v_lk].
  by rewrite acquire_free.
Qed.

Lemma wait_done_now turns buf d0 x s :
  info (v_q s) !! Z.to_nat d0 = Some x → vi_done x ≠ 0 → wait_done serve_sleep turns buf d0 s = Ret tt s.
Proof.
  intros Hx Hd. destruct turns; cbn [wait_done]; rewrite (pbind_ok _ _ _ _ _ (info_at_run d0 x s Hx));
    by rewrite (proj2 (nz_true _) Hd).
Qed.

Lemma wait_done_sleep turns buf d0 x s s' :
  info (v_q s) !! Z.to_nat d0 = Some x → vi_done x = 0 → serve_sleep buf s = Ret tt s' →
  wait_done serve_sleep (S turns) buf d0 s = wait_done serve_sleep turns buf d0 s'.
Proof.
  intros Hx Hd E. cbn [wait_done]. rewrite (pbind_ok _ _ _ _ _ (info_at_run d0 x s Hx)), Hd.
  cbn [nz Z.eqb negb]. by rewrite (pbind_ok _ _ _ _ _ E).
Qed.

(** The flags of a request that is over are as before. *)
Lemma info_settled (l : list vinfo) (d buf : Z) :
  length l = NQUEUE → (∀ i x, l !! i = Some x → vi_done x = 0 ∧ vi_status x = 0) →
  let l' := alter (set_vi_done 0) (Z.to_nat d) (alter (set_vi_buf 0) (Z.to_nat d) (alter (set_vi_done 1) (Z.to_nat d)
    (alter (set_vi_status 0) (Z.to_nat d) (alter (set_vi_buf buf) (Z.to_nat d) l)))) in
  length l' = NQUEUE ∧ ∀ i x, l' !! i = Some x → vi_done x = 0 ∧ vi_status x = 0.
Proof.
  intros Hl Hz. cbv zeta. split; [by rewrite !length_alter|]. intros i x.
  destruct (decide (Z.to_nat d = i)) as [<-|Hne].
  - rewrite !list_lookup_alter, !decide_True by done. destruct (l !! Z.to_nat d); cbn; [|done]. by intros [= <-].
  - rewrite !list_lookup_alter_ne by done. apply Hz.
Qed.

Lemma op_run s h turns hdr buf bno op :
  idle s → hart_ok h → v_hart s = h → free_lock (v_lk s) →
  0 <= hdr < 2 ^ 64 → 0 <= buf < 2 ^ 64 → is_bno bno →
  let m1 := put_hdr hdr (match op with DREAD => VIRTIO_BLK_T_IN | DWRITE => VIRTIO_BLK_T_OUT end) (bno * 2) (v_mem s) in
  ∃ s', virtio_blk_op dev_reg_write status_at serve_sleep (S turns) hdr bno buf op s = Ret 0 s' ∧
    v_hart s' = touched h ∧ free_lock (v_lk s') ∧ idle s' ∧
    dv_disk (v_dev s') = served_disk op buf bno (dv_disk (v_dev s)) m1 ∧
    v_mem s' = served_mem op buf bno (dv_disk (v_dev s)) m1.
Proof.
  intros [[l Q] Hseen Hlast [Hai Hui] [Hal Hul] [Hil Hiz]] Hh Eh El Hhdr Hbuf Hbno m1.
  pose proof Q as [F _ P]. cbn [concat] in P. rewrite app_nil_r in P.
  destruct l as [|d0 [|d1 [|d2 l]]]; try (apply Permutation_length in P; discriminate P).
  set (q := v_q s) in *. pose proof (fo_range _ _ F) as Hr. pose proof (fo_nodup _ _ F) as Hnd.
  assert (D3 : Forall is_desc [d0; d1; d2]) by (apply (Forall_app _ [d0; d1; d2] l) in Hr; tauto).
  assert (N3 : NoDup [d0; d1; d2]) by (apply (NoDup_app [d0; d1; d2] l) in Hnd; tauto).
  pose proof (Forall_inv D3) as D0. unfold is_desc in D0.
  destruct (info q !! Z.to_nat d0) as [x|] eqn:Hx; [|apply lookup_ge_None in Hx; rewrite Hil in Hx; unfold NQUEUE in Hx; lia].
  destruct (Hiz _ _ Hx) as [Hxd Hxs].
  set (s2 := put_vlk (entered h) (Lock 1 (cpuid h)) (put_vmem m1 s)).
  destruct (submit_run dev_reg_write status_at s2 d0 d1 d2 l hdr buf op (v_dev s) F eq_refl) as (hd & E3 & F3).
  change (v_q s2) with q in E3, F3. set (qs := submitted status_at q d0 d1 d2 hdr buf op hd (length l)) in *.
  set (s3 := put_dev (v_dev s) (put_q qs s2)) in *.
  destruct (queue_submit dev_reg_write status_at q l [] d0 d1 d2 hdr buf op hd Q F3) as [Q3 _].
  unfold is_bno in Hbno. destruct (ld_hdr hdr (match op with DREAD => VIRTIO_BLK_T_IN | DWRITE => VIRTIO_BLK_T_OUT end) (bno * 2) (v_mem s))
    as [Lt Ls]; [by destruct op|lia|]. fold m1 in Lt, Ls.
  assert (E4 := serve_sleep_run s3 h q d0 d1 d2 hdr buf op hd (length l) bno x Hh eq_refl eq_refl eq_refl Hseen Hai Hal
    (fo_len _ _ F) N3 D3 Hhdr Hbuf Hbno Lt Ls Hlast Hui Hul Hx). set (s4 := put_dev _ _) in E4.
  assert (Hx3 : info (v_q s3) !! Z.to_nat d0 = Some (set_vi_buf buf x)) by (by apply info_lookup).
  assert (Hx4 : info (v_q s4) !! Z.to_nat d0 = Some (set_vi_buf 0 (set_vi_done 1 (set_vi_status 0 (set_vi_buf buf x)))))
    by (by do 4 apply info_lookup).
  set (q5 := set_info (alter (set_vi_done 0) (Z.to_nat d0) (info (v_q s4))) (v_q s4)).
  assert (Q5 : queue_ok q5 l ([] ++ [[d0; d1; d2]])) by (destruct Q3 as [[] ? ?]; split; [by split|done|done]).
  destruct (queue_complete dev_reg_write status_at q5 l [] [d0; d1; d2] [] Q5) as (d0' & q6 & E6 & Ed & Q6 & A1 & A2 & A3 & A4 & A5 & A6).
  cbn [List.hd] in Ed. subst d0'.
  exists (put_vlk (touched (touched h)) lock_init (put_q q6 (put_q q5 s4))). split_and!; try done.
  - assert (E2 : zoom of_vlk acquire (put_vmem m1 s) = Ret tt s2).
    { unfold zoom. cbn [lget lset of_vlk]. change (v_hart (put_vmem _ s)) with (v_hart s). change (v_lk (put_vmem _ s)) with (v_lk s).
      rewrite Eh. by rewrite acquire_free. }
    assert (E5 : wait_done serve_sleep (S turns) buf d0 s3 = Ret tt s4).
    { rewrite (wait_done_sleep turns buf d0 _ s3 s4 Hx3 Hxd E4). by eapply wait_done_now. }
    assert (E7 : zoom of_vlk release (put_q q6 (put_q q5 s4)) = Ret tt (put_vlk (touched (touched h)) lock_init (put_q q6 (put_q q5 s4)))).
    { unfold zoom. cbn [lget lset of_vlk]. change (v_hart (put_q _ _)) with (entered (touched h)).
      change (v_lk (put_q _ _)) with (Lock 1 (cpuid (touched h))). by rewrite release_held by (by apply touched_ok). }
    unfold virtio_blk_op. cbv zeta. rewrite (u64_small (bno * 2)) by lia. prog_step. fold m1.
    rewrite (pbind_ok _ _ _ _ _ E2), (pbind_ok _ _ _ _ _ E3), (pbind_ok _ _ _ _ _ E5).
    unfold upd_info. prog_step. fold q5.
    by rewrite (pbind_ok _ _ _ _ _ (zoom_q_ok _ (put_q q5 s4) _ _ E6)), (pbind_ok _ _ _ _ _ E7).
  - apply touched_idem.
  - split; cbn [put_vlk put_q v_q v_dev].
    + by exists ([d0; d1; d2] ++ l).
    + rewrite A1. done.
    + rewrite A5, A3. cbn. by rewrite Hlast.
    + rewrite A1, A3. split; cbn; apply u16_bound.
    + rewrite A2, A4. cbn. by rewrite !length_insert.
    + rewrite A6. apply (info_settled (info q) d0 buf Hil Hiz).
Qed.
End together.

(** *** Initialisation *)

Section starting.
Implicit Types (s : vst vdev) (r v d a u : Z) (fl : list Z).

(** The queue that [virtq_init] makes of three pages. *)
Definition new_queue (d a u : Z) : virtq :=
  desc_init (Virtq d a u (replicate NQUEUE (VDesc 0 0 0 0)) 0 (replicate NQUEUE 0) 0 (replicate NQUEUE 0)
    0 NQUEUE 0 (replicate NQUEUE (VInfo 0 0 0))).

Lemma new_queue_ok d a u : queue_ok (new_queue d a u) (seqZ 0 8) [].
Proof.
  split; [split|constructor|by rewrite app_nil_r].
  - reflexivity.
  - reflexivity.
  - reflexivity.
  - cbn. repeat split; eexists; (split; [reflexivity|]; split; reflexivity).
  - apply NoDup_seqZ.
  - apply Forall_forall. intros x Hx. by apply elem_of_seqZ in Hx.
Qed.

Lemma vkmem_get_set km s : lget of_vkmem (lset of_vkmem km s) = km.
Proof. by destruct km. Qed.

(** One page for the queue. *)
Lemma kalloc_vst p fl s : kinv (p :: fl) (lget of_vkmem s) →
  ∃ km, zoom of_vkmem kalloc s = Ret p (lset of_vkmem km s) ∧ kinv fl (lget of_vkmem (lset of_vkmem km s)) ∧ p ≠ 0 ∧
    ∀ x, ¬ in_page p x → rd8 (km_mem km) x = rd8 (v_mem s) x.
Proof.
  intros I. destruct (kalloc_spec p fl _ I) as (km & E & I1 & _ & Hp & _ & Hm). exists km.
  split_and!; [by apply zoom_ok|by rewrite vkmem_get_set|by apply page_nonzero|]. intros x Hx. by rewrite Hm, decide_False.
Qed.

(** The four tables of [disk.virtq] come from three pages. *)
Lemma virtq_init_run d a u fl s : kinv (d :: a :: u :: fl) (lget of_vkmem s) →
  ∃ km, virtq_init s = Ret tt (put_q (new_queue d a u) (lset of_vkmem km s)) ∧ kinv fl km ∧
    ∀ x, ¬ in_page d x → ¬ in_page a x → ¬ in_page u x → rd8 (km_mem km) x = rd8 (v_mem s) x.
Proof.
  intros I. destruct (kalloc_vst d _ s I) as (k1 & E1 & I1 & Hd & F1).
  destruct (kalloc_vst a _ _ I1) as (k2 & E2 & I2 & Ha & F2). destruct (kalloc_vst u _ _ I2) as (k3 & E3 & I3 & Hu & F3).
  exists k3. split_and!; [|by rewrite vkmem_get_set in I3|].
  - unfold virtq_init. rewrite (pbind_ok _ _ _ _ _ E1), (pbind_ok _ _ _ _ _ E2), (pbind_ok _ _ _ _ _ E3).
    rewrite (proj2 (Z.eqb_neq _ _) Hd), (proj2 (Z.eqb_neq _ _) Ha), (proj2 (Z.eqb_neq _ _) Hu). done.
  - intros x H1 H2 H3. rewrite F3 by done. change (v_mem (lset of_vkmem k2 _)) with (km_mem k2). rewrite F2 by done.
    change (v_mem (lset of_vkmem k1 s)) with (km_mem k1). by apply F1.
Qed.

(** What the device answers. *)
Definition reg_val (r st : Z) : Z :=
  if r =? 0 then 0x74726976 else if r =? 4 then 2 else if r =? 8 then 2
  else if r =? 0x34 then 1024 else if r =? 0x70 then st else 0.

Lemma reg_get r s : REG dev_reg_read r s = Ret (reg_val r (dv_status (v_dev s))) s.
Proof. by destruct s. Qed.

Lemma reg_set_status v s : REG_set dev_reg_write VIRTIO_REG_STATUS v s =
  Ret tt (put_dev (VDev v (dv_seen (v_dev s)) (dv_disk (v_dev s))) s).
Proof. done. Qed.

(** One register access, or a check of a value just read. *)
Ltac reg_step :=
  first
    [ rewrite (pbind_ok _ _ _ _ _ (reg_get _ _))
    | rewrite (pbind_ok _ _ _ _ _ (reg_set_status _ _)); unfold put_dev; cbn [v_dev dv_seen dv_disk v_hart v_lk v_q v_mem v_klk v_freelist v_irqs]
    | match goal with |- context [pbind (REG_set dev_reg_write ?r ?v) _ ?s] =>
        rewrite (pbind_ok _ _ _ _ _ (reg_plain r v s ltac:(discriminate))) end
    | match goal with |- context [reg_val ?r _] => let v := eval vm_compute in (λ st, reg_val r st) in
        change (reg_val r) with v; cbv beta end
    | match goal with |- context [if ?c then panic _ else ret tt] => let v := eval vm_compute in c in change c with v; cbv iota end
    | prog_step ].

(** The device is found, features and queue are negotiated, and driver and
    device are idle; memory outside the three pages is as it was. *)
Lemma virtio_init_run d a u fl s :
  kinv (d :: a :: u :: fl) (lget of_vkmem s) → dv_seen (v_dev s) = 0 →
  ∃ s', virtio_init dev_reg_read dev_reg_write s = Ret tt s' ∧ free_lock (v_lk s') ∧ idle s' ∧ kinv fl (lget of_vkmem s') ∧
    v_irqs s' = <[Z.to_nat VIRTIO_BLK_IRQ := VirtioBlkIntr]> (v_irqs s) ∧ dv_disk (v_dev s') = dv_disk (v_dev s) ∧
    ∀ x, ¬ in_page d x → ¬ in_page a x → ¬ in_page u x → rd8 (v_mem s') x = rd8 (v_mem s) x.
Proof.
  destruct s as [h lk q m klk f irqs [st seen disk]]. cbn [v_dev dv_seen]. intros I ->.
  unfold virtio_init. repeat reg_step.
  set (s1 := Vst h lk q m klk f irqs (VDev 11 0 disk)).
  destruct (virtq_init_run d a u fl s1 I) as (km & E & I2 & F).
  match goal with |- ∃ s', pbind _ ?k ?s0 = _ ∧ _ => change (∃ s', pbind virtq_init k s1 = Ret tt s' ∧ free_lock (v_lk s') ∧ idle s' ∧
    kinv fl (lget of_vkmem s') ∧ v_irqs s' = <[Z.to_nat VIRTIO_BLK_IRQ := VirtioBlkIntr]> irqs ∧ dv_disk (v_dev s') = disk ∧
    ∀ x, ¬ in_page d x → ¬ in_page a x → ¬ in_page u x → rd8 (v_mem s') x = rd8 m x) end.
  rewrite (pbind_ok _ _ _ _ _ E). repeat reg_step. eexists. split; [reflexivity|].
  split_and!; try done.
  - split; cbn [v_q v_dev put_vlk]; [exists (seqZ 0 8); exact (new_queue_ok d a u)|reflexivity|reflexivity|by split|by split|].
    split; [reflexivity|]. intros i x [-> _]%lookup_replicate. done.
  - destruct km. exact I2.
Qed.
End starting.

(** The driver as the file Buf sees it: the caller's buffer is at [buf], the
    header on its stack at [hdr]. *)
Definition virtio_dev (hdr buf : Z) : BlockDev (vst vdev) := {|
  Buf.virtio_blk_op n data op := λ s,
    match virtio_blk_op dev_reg_write status_at serve_sleep 1 hdr n buf op
            (put_vlk (fst s) (v_lk (snd s)) (put_vmem (mwrite (v_mem (snd s)) buf data) (snd s))) with
    | Ret r s' => Ret (r, mread (v_mem s') buf BSIZE) (v_hart s', s')
    | Panic w => Panic w
    | Hang => Hang
    | Fault w => Fault w
    end;
  block d n := md_block (dv_disk (v_dev d)) n;
  dev_ok d := idle d ∧ free_lock (v_lk d) ∧ map_Forall (λ _ l, good_block l) (md_blocks (dv_disk (v_dev d)))
|}.

(** The driver keeps the promises of a disk. *)
Lemma virtio_dev_ok hdr buf :
  0 <= hdr → hdr + 16 <= buf → buf + BSIZE <= 2 ^ 64 → @BlockDevOk (vst vdev) (virtio_dev hdr buf).
Proof.
  intros H1 H2 H3. assert (Hb : 0 <= hdr < 2 ^ 64 ∧ 0 <= buf < 2 ^ 64) by (unfold BSIZE in H3; lia). destruct Hb as [Hh Hb].
  split; cbn [Buf.virtio_blk_op block dev_ok virtio_dev].
  - intros d n (_ & _ & Hg). unfold md_block. destruct (md_blocks _ !! n) as [l|] eqn:E; [by apply Hg in E|]. apply zero_block.
  - intros h d n data (I & Hl & Hg) Hhok Hn Hlen. cbn [fst snd].
    destruct (op_run (put_vlk h (v_lk d) (put_vmem (mwrite (v_mem d) buf data) d)) h 0 hdr buf n DREAD)
      as (s' & E & Eh & El & I' & Ed & Em); [by destruct I|done|done|done|done|done|done|].
    rewrite E. exists s'. rewrite Eh, Em, Ed. cbn [served_mem served_disk]. split_and!; [|done|done|done|done].
    f_equal. f_equal. change (dv_disk (v_dev (put_vlk _ _ _))) with (dv_disk (v_dev d)).
    assert (Hgb : good_block (md_block (dv_disk (v_dev d)) n)).
    { unfold md_block. destruct (md_blocks _ !! n) as [l|] eqn:El'; [by apply Hg in El'|]. apply zero_block. }
    destruct Hgb as [Hlb Hfb]. rewrite <- Hlb at 1. by rewrite mread_mwrite.
  - intros h d n data (I & Hl & Hg) Hhok Hn Hlen Hbytes. cbn [fst snd].
    destruct (op_run (put_vlk h (v_lk d) (put_vmem (mwrite (v_mem d) buf data) d)) h 0 hdr buf n DWRITE)
      as (s' & E & Eh & El & I' & Ed & Em); [by destruct I|done|done|done|done|done|done|].
    rewrite E. exists s'. rewrite Eh, Em, Ed. cbn [served_mem served_disk].
    change (dv_disk (v_dev (put_vlk _ _ _))) with (dv_disk (v_dev d)).
    assert (Er : mread (put_hdr hdr VIRTIO_BLK_T_OUT (n * 2) (mwrite (v_mem d) buf data)) buf BSIZE = data).
    { rewrite <- (mread_mwrite (v_mem d) buf data Hbytes) at 2. rewrite Hlen. apply mread_ext. intros a Ha.
      apply rd8_hdr. unfold BSIZE in *. lia. }
    change (v_mem (put_vlk _ _ (put_vmem ?m _))) with m. rewrite Er. split_and!; [done|done|done| |].
    + cbn [md_blocks]. by apply map_Forall_insert_2.
    + intros n'. unfold md_block. cbn [md_blocks]. case_decide as En.
      * subst. by rewrite lookup_insert_eq.
      * by rewrite lookup_insert_ne.
Qed.

Module VirtioProps.


(** Requests do not share descriptors, and there are never three. While
    [rs] are on their way, whose descriptors with the free ones are all eight:
    if at most one is, a new request takes three free descriptors, linked as the
    device expects and published in the ring, and leaves those of the others as
    they were; if two are, the driver panics; and whichever request ends, its
    descriptors are free again and the others' are untouched. *)
Theorem requests_in_flight {D} reg_write status_addr (s : vst D) l rs hdr buf op dev' :
  queue_ok (v_q s) l rs → reg_write VIRTIO_REG_QUEUE_NOTIFY 0 (v_dev s) = Ret tt dev' →
  ((length rs <= 1)%nat → ∃ d0 d1 d2 l' q',
     virtio_submit reg_write status_addr hdr buf op s = Ret d0 (put_dev dev' (put_q q' s)) ∧
     l = d0 :: d1 :: d2 :: l' ∧ queue_ok q' l' ([d0; d1; d2] :: rs) ∧
     desc q' !! Z.to_nat d0 = Some (VDesc (V2P hdr) 16 1 d1) ∧
     desc q' !! Z.to_nat d1 = Some (VDesc (V2P buf) 1024 (if decide (op = DREAD) then 3 else 1) d2) ∧
     desc q' !! Z.to_nat d2 = Some (VDesc (V2P (status_addr d0)) 1 2 0) ∧
     avail_idx q' = u16 (avail_idx (v_q s) + 1) ∧
     avail_ring q' = <[Z.to_nat (avail_idx (v_q s) mod 8) := d0]> (avail_ring (v_q s)) ∧
     ∀ d, d ∈ concat rs → desc q' !! Z.to_nat d = desc (v_q s) !! Z.to_nat d) ∧
  (length rs = 2%nat → virtio_submit reg_write status_addr hdr buf op s = Panic "virtq kokatu") ∧
  (length rs <= 2)%nat ∧
  ∀ rs1 r rs2, rs = rs1 ++ r :: rs2 →
    ∃ q', free_desc NQUEUE (hd 0 r) (v_q s) = Ret tt q' ∧ queue_ok q' (r ++ l) (rs1 ++ rs2).
Proof.
  intros Q Hreg. pose proof Q as [F R P].
  assert (Hlen : (length l + 3 * length rs = 8)%nat).
  { apply Permutation_length in P. rewrite length_app, (reqs_length _ _ R) in P. exact P. }
  split_and!.
  - intros Hrs. destruct l as [|d0 [|d1 [|d2 l']]]; [simpl in Hlen; lia..|].
    destruct (submit_run reg_write status_addr s d0 d1 d2 l' hdr buf op dev' F Hreg) as (h & E & F').
    destruct (queue_submit reg_write status_addr _ _ _ _ _ _ hdr buf op h Q F') as [Q' Ho].
    pose proof (fo_range _ _ F) as Hr. pose proof (fo_nodup _ _ F) as Hn.
    destruct (submitted_descs status_addr (v_q s) d0 d1 d2 hdr buf op h (length l')) as (L0 & L1 & L2);
      [apply F|apply (NoDup_app [d0; d1; d2] l') in Hn; tauto|apply (Forall_app _ [d0; d1; d2] l') in Hr; tauto|].
    exists d0, d1, d2, l', (submitted status_addr (v_q s) d0 d1 d2 hdr buf op h (length l')).
    split_and!; [exact E|done|exact Q'|exact L0|exact L1|exact L2|done|done|exact Ho].
  - intros Hrs. apply (submit_panics _ _ _ l); [done|lia].
  - lia.
  - intros rs1 r rs2 ->. destruct (queue_complete reg_write status_addr _ _ _ _ _ Q) as (d0 & q' & E & <- & Q' & _).
    by exists q'.
Qed.

(** *** Witnesses *)

(** The queue after [virtq_init], with an idle device. *)
Definition fresh_q : virtq := new_queue 0 0 0.
Definition fresh_disk : vst vdev :=
  Vst (Hart 0 0 false true) lock_init fresh_q ∅ lock_init 0 [] (VDev 0 0 (MemDisk ∅)).

Lemma fresh_queue_ok : queue_ok fresh_q (seqZ 0 8) [].
Proof. exact (new_queue_ok 0 0 0). Qed.

Lemma fresh_idle : idle fresh_disk.
Proof.
  split; [exists (seqZ 0 8); exact fresh_queue_ok|reflexivity|reflexivity|by split|by split|].
  split; [reflexivity|]. intros i x [-> _]%lookup_replicate. done.
Qed.


Lemma requests_in_flight_witness :
  ∃ s, virtio_submit dev_reg_write status_at KERNBASE 0x5000 DWRITE fresh_disk = Ret 0 s.
Proof.
  destruct (requests_in_flight dev_reg_write status_at fresh_disk (seqZ 0 8) [] KERNBASE 0x5000 DWRITE (v_dev fresh_disk)
    fresh_queue_ok eq_refl) as [H _].
  destruct (H ltac:(simpl; lia)) as (d0 & d1 & d2 & l' & q' & E & El & _). injection El as <- _ _ _.
  eexists. exact E.
Defined.

End VirtioProps.
