(* ===== verification/Fs.v ===== *)
(** * The inode table (kernel/fs.c)

    In-memory inodes, the super block, and the state the file system runs in:
    a block cache that keeps the promises of [BlockCache], the table, and the
    memory callers' pointers point into. *)

From S2P Require Import Prelude Mem Bytes Spinlock Buf.
Import Spin.
Open Scope Z_scope.
Open Scope prog_scope.

Definition NINODE : nat := 256.

(** [struct inode]; [i_block] has 15 elements. *)
Record inode := Inode {
  i_mode : Z; i_size : Z; i_atime : Z; i_ctime : Z; i_mtime : Z; i_dtime : Z;
  i_links_count : Z; i_blocks : Z; i_block : list Z;
  i_inum : Z; i_major : Z; i_minor : Z; i_ref : Z
}.

#[export] Instance inode_eq_dec : EqDecision inode.
Proof. solve_decision. Defined.

Definition inode_zero : inode := Inode 0 0 0 0 0 0 0 0 (replicate 15 0) 0 0 0 0.

(** [struct superblock] *)
Record superblock := Superblock {
  sb_inodes_count : Z; sb_blocks_count : Z; sb_first_data_block : Z;
  sb_blocks_per_group : Z; sb_inodes_per_group : Z; sb_mtime : Z; sb_wtime : Z;
  sb_first_ino : Z; sb_inode_size : Z;
  sb_bsize : Z; sb_block_bitmap : Z; sb_inode_bitmap : Z; sb_inode_table : Z
}.

Definition set_iref (v : Z) (i : inode) : inode :=
  Inode (i_mode i) (i_size i) (i_atime i) (i_ctime i) (i_mtime i) (i_dtime i) (i_links_count i)
    (i_blocks i) (i_block i) (i_inum i) (i_major i) (i_minor i) v.
Definition set_inum (v : Z) (i : inode) : inode :=
  Inode (i_mode i) (i_size i) (i_atime i) (i_ctime i) (i_mtime i) (i_dtime i) (i_links_count i)
    (i_blocks i) (i_block i) v (i_major i) (i_minor i) (i_ref i).

(** The file modes of fs.h. *)
Definition S_IFMT : Z := 0xf000.
Definition S_IFREG : Z := 0x8000.
Definition S_IFDIR : Z := 0x4000.
Definition S_IFCHR : Z := 0x2000.
Definition S_ISREG (m : Z) : bool := Z.land m S_IFMT =? S_IFREG.
Definition S_ISDIR (m : Z) : bool := Z.land m S_IFMT =? S_IFDIR.
Definition S_ISCHR (m : Z) : bool := Z.land m S_IFMT =? S_IFCHR.

(** The state of the file system over a cache [S]. A [struct inode *] is an
    index of [itable.inode], [None] for NULL. *)
Record fsst (S : Type) := FsSt {
  fs_cache : S;
  itable_lk : spinlock;
  itable : list inode;
  sb : superblock;
  fs_mem : mem
}.
Arguments FsSt {S}.
Arguments fs_cache {S}.
Arguments itable_lk {S}.
Arguments itable {S}.
Arguments sb {S}.
Arguments fs_mem {S}.

Section ops.
Context {S : Type} `{BlockCache S}.

Definition of_cache : lens (fsst S) S :=
  Lens fs_cache (λ c s, FsSt c (itable_lk s) (itable s) (sb s) (fs_mem s)).

Definition itable_lock : lens (fsst S) lockst :=
  Lens (λ s, (lget chart (fs_cache s), itable_lk s))
       (λ t s, FsSt (lset chart (fst t) (fs_cache s)) (snd t) (itable s) (sb s) (fs_mem s)).

Definition of_mem : lens (fsst S) mem :=
  Lens fs_mem (λ m s, FsSt (fs_cache s) (itable_lk s) (itable s) (sb s) m).

Definition set_sb (b : superblock) : prog (fsst S) unit :=
  modify (λ s, FsSt (fs_cache s) (itable_lk s) (itable s) b (fs_mem s)).

(** [*ino], read and written. *)
Definition ino_at (i : nat) : prog (fsst S) inode := λ s,
  match itable s !! i with Some x => Ret x s | None => Fault "inode pointer" end.
Definition upd_ino (i : nat) (f : inode → inode) : prog (fsst S) unit :=
  modify (λ s, FsSt (fs_cache s) (itable_lk s) (alter f i (itable s)) (sb s) (fs_mem s)).

(** Dereference of an inode pointer that may be NULL. *)
Definition not_null (p : option nat) : prog (fsst S) nat :=
  match p with Some i => ret i | None => fault "NULL inode" end.

Definition release_inode (i : nat) : prog (fsst S) unit :=
  x <- ino_at i ;;
  (if i_ref x =? 0 then panic "invalid ino" else ret tt) ;;
  upd_ino i (λ x, set_iref (i_ref x -u32 1) x) ;;
  x <- ino_at i ;;
  (if i_ref x =? 0 then upd_ino i (λ _, inode_zero) else ret tt).

Definition first_ino (P : inode → Prop) `{∀ x, Decision (P x)} : prog (fsst S) (option nat) :=
  gets (λ s, fst <$> list_find P (itable s)).

(** The loop stops at the first inode with the number; [freei] is the first
    unreferenced one, used when there is none. *)
Definition find_inode (inum : Z) : prog (fsst S) (option nat) :=
  zoom itable_lock acquire ;;
  hit <- first_ino (λ x, i_inum x = u32 inum) ;;
  match hit with
  | Some i =>
      upd_ino i (λ x, set_iref (i_ref x +u32 1) x) ;;
      zoom itable_lock release ;;
      ret (Some i)
  | None =>
      freei <- first_ino (λ x, i_ref x = 0) ;;
      match freei with
      | None => (* printk("no inode\n") *) zoom itable_lock release ;; ret None
      | Some i =>
          upd_ino i (λ x, set_iref (i_ref x +u32 1) x) ;;
          upd_ino i (set_inum (u32 inum)) ;;
          zoom itable_lock release ;;
          ret (Some i)
      end
  end.

Definition inode_init : prog (fsst S) unit :=
  modify (λ s, FsSt (fs_cache s) lock_init (replicate NINODE inode_zero) (sb s) (fs_mem s)).
End ops.

(** ** The table's invariant *)

(** An entry nobody references is cleared; the others have distinct numbers. *)
Record itable_ok (t : list inode) : Prop := {
  it_len : length t = NINODE;
  it_free : ∀ i x, t !! i = Some x → i_ref x = 0 → x = inode_zero;
  it_used : ∀ i x, t !! i = Some x → i_ref x ≠ 0 → i_inum x ≠ 0 ∧ 0 < i_ref x < 2 ^ 31;
  it_uniq : ∀ i j x y, t !! i = Some x → t !! j = Some y → i_ref x ≠ 0 → i_inum x = i_inum y → i = j
}.

Section table.
Implicit Types (t : list inode) (x y : inode) (i j : nat) (n : Z).

Lemma itable_init : itable_ok (replicate NINODE inode_zero).
Proof.
  split.
  - apply length_replicate.
  - intros i x Hx%lookup_replicate. by destruct Hx as [-> _].
  - intros i x Hx%lookup_replicate Hr. by destruct Hx as [-> _].
  - intros i j x y Hx%lookup_replicate _ Hr. by destruct Hx as [-> _].
Qed.

(** The search for inode [n]: its entry if there is one. *)
Lemma find_inum t n :
  itable_ok t → n ≠ 0 →
  match list_find (λ x, i_inum x = n) t with
  | Some (i, x) => t !! i = Some x ∧ i_inum x = n ∧ i_ref x ≠ 0
  | None => ∀ i x, t !! i = Some x → i_inum x ≠ n
  end.
Proof.
  intros I H0. destruct (list_find _ _) as [[i x]|] eqn:E.
  - apply list_find_Some in E as (Hi & Hx & _). split_and!; [done|done|].
    intros Hr. apply (it_free _ I _ _ Hi) in Hr as ->. done.
  - intros i x Hi. apply list_find_None in E. by eapply Forall_lookup_1 in E.
Qed.

Lemma find_freei t :
  itable_ok t →
  match list_find (λ x, i_ref x = 0) t with
  | Some (i, x) => t !! i = Some inode_zero ∧ x = inode_zero
  | None => ∀ i x, t !! i = Some x → i_ref x ≠ 0
  end.
Proof.
  intros I. destruct (list_find _ _) as [[i x]|] eqn:E.
  - apply list_find_Some in E as (Hi & Hx & _). by rewrite (it_free _ I _ _ Hi Hx) in Hi |- *.
  - intros i x Hi. apply list_find_None in E. by eapply Forall_lookup_1 in E.
Qed.

(** Replacing one entry. *)
Lemma itable_insert t i x y :
  itable_ok t → t !! i = Some x →
  (i_ref y = 0 → y = inode_zero) → (i_ref y ≠ 0 → i_inum y ≠ 0 ∧ 0 < i_ref y < 2 ^ 31) →
  (i_ref y ≠ 0 → ∀ j z, j ≠ i → t !! j = Some z → i_inum z ≠ i_inum y) →
  itable_ok (<[i := y]> t).
Proof.
  intros I Hi Hz Hu Hn. assert (Hlt : (i < length t)%nat) by (by eapply lookup_lt_Some).
  assert (Hget : ∀ j z, <[i := y]> t !! j = Some z → (j = i ∧ z = y) ∨ (j ≠ i ∧ t !! j = Some z)).
  { intros j z. destruct (decide (j = i)) as [->|E].
    - rewrite list_lookup_insert_eq by done. intros [= <-]. by left.
    - rewrite list_lookup_insert_ne by done. by right. }
  split.
  - rewrite length_insert. apply I.
  - intros j z [[-> ->]|[_ Hj]]%Hget; [done|by apply (it_free _ I _ _ Hj)].
  - intros j z [[-> ->]|[_ Hj]]%Hget; [done|by apply (it_used _ I _ _ Hj)].
  - intros j k a b [[-> ->]|[Hj Ha]]%Hget [[-> ->]|[Hk Hb]]%Hget Hr E; try done.
    + by destruct (Hn Hr k b Hk Hb).
    + destruct (decide (i_ref y = 0)) as [E0|E0].
      * rewrite (Hz E0) in E. by destruct (it_used _ I _ _ Ha Hr) as [? _].
      * by destruct (Hn E0 j a Hj Ha).
    + by eapply (it_uniq _ I).
Qed.

Lemma alter_some (f : inode → inode) t i x : t !! i = Some x → alter f i t = <[i := f x]> t.
Proof.
  intros Hi. apply list_eq. intros j. rewrite list_lookup_alter, list_lookup_insert.
  repeat case_decide; subst; try done.
  - by rewrite Hi.
  - apply lookup_lt_Some in Hi. tauto.
  - tauto.
Qed.
End table.

(** ** What [find_inode] and [release_inode] do *)

Section find.
Context {S : Type} {Hc : BlockCache S} {Hok : BlockCacheOk S}.
Implicit Types (s : fsst S) (dk : Z → bytes) (x : inode) (i : nat) (n : Z).

Definition with_table (h : hart) (t : list inode) s : fsst S :=
  FsSt (lset chart h (fs_cache s)) lock_init t (sb s) (fs_mem s).

(** The entry [find_inode n] returns, as it leaves it. *)
Inductive found (t : list inode) n : nat → inode → Prop :=
| found_used i x : t !! i = Some x → i_inum x = n → i_ref x ≠ 0 →
    found t n i (set_iref (i_ref x + 1) x)
| found_free i : t !! i = Some inode_zero → (∀ j x, t !! j = Some x → i_inum x ≠ n) →
    found t n i (set_inum n (set_iref 1 inode_zero)).

Lemma upd_ino_run i x f s :
  itable s !! i = Some x →
  upd_ino i f s = Ret tt (FsSt (fs_cache s) (itable_lk s) (<[i := f x]> (itable s)) (sb s) (fs_mem s)).
Proof. intros Hi. unfold upd_ino, modify. by rewrite (alter_some _ _ _ _ Hi). Qed.

Lemma ino_at_run i x s : itable s !! i = Some x → ino_at i s = Ret x s.
Proof. unfold ino_at. by intros ->. Qed.

Lemma acquire_itable s :
  hart_ok (lget chart (fs_cache s)) → free_lock (itable_lk s) →
  zoom itable_lock acquire s =
    Ret tt (FsSt (lset chart (entered (lget chart (fs_cache s))) (fs_cache s))
              (Lock 1 (cpuid (lget chart (fs_cache s)))) (itable s) (sb s) (fs_mem s)).
Proof. intros Hh Hl. unfold zoom. simpl. by rewrite acquire_free. Qed.

Lemma release_itable h (c : S) t b m :
  hart_ok h →
  zoom itable_lock release (FsSt (lset chart (entered h) c) (Lock 1 (cpuid h)) t b m) =
    Ret tt (FsSt (lset chart (touched h) c) lock_init t b m).
Proof.
  intros Hh. unfold zoom. cbn [lget lset itable_lock fs_cache itable_lk itable sb fs_mem].
  rewrite (lget_lset (l := chart)), release_held by done. cbn [fst snd].
  by rewrite (lset_lset (l := chart)).
Qed.

Lemma find_inode_run s n :
  hart_ok (lget chart (fs_cache s)) → free_lock (itable_lk s) → itable_ok (itable s) → 0 < n < 2 ^ 31 →
  (∃ i y, found (itable s) n i y ∧ find_inode n s =
     Ret (Some i) (with_table (touched (lget chart (fs_cache s))) (<[i := y]> (itable s)) s)) ∨
  ((∀ i x, itable s !! i = Some x → i_ref x ≠ 0 ∧ i_inum x ≠ n) ∧
   find_inode n s = Ret None (with_table (touched (lget chart (fs_cache s))) (itable s) s)).
Proof.
  intros Hh Hl I Hn. pose proof (find_inum _ n I ltac:(lia)) as F. pose proof (find_freei _ I) as G.
  assert (En : u32 n = n) by (apply u32_small; lia).
  destruct (list_find (λ x, i_inum x = n) (itable s)) as [[i x]|] eqn:E1.
  - destruct F as (Hi & Hx & Hr). left. exists i, (set_iref (i_ref x + 1) x).
    split; [by apply found_used|].
    unfold find_inode, first_ino. rewrite (pbind_ok _ _ _ _ _ (acquire_itable s Hh Hl)), En.
    prog_step. cbn [itable]. rewrite E1. cbn [fmap option_fmap option_map fst].
    erewrite pbind_ok; [|by apply upd_ino_run]. cbn [fs_cache itable_lk itable sb fs_mem].
    rewrite (pbind_ok _ _ _ _ _ (release_itable _ _ _ _ _ Hh)).
    destruct (it_used _ I _ _ Hi Hr) as [_ ?]. by rewrite u32_small by lia.
  - destruct (list_find (λ x, i_ref x = 0) (itable s)) as [[i x]|] eqn:E2.
    + destruct G as [Hi ->]. left. exists i, (set_inum n (set_iref 1 inode_zero)).
      split; [by apply found_free|].
      unfold find_inode, first_ino. rewrite (pbind_ok _ _ _ _ _ (acquire_itable s Hh Hl)), En.
      prog_step. cbn [itable]. rewrite E1. cbn [fmap option_fmap option_map].
      prog_step. cbn [itable]. rewrite E2. cbn [fmap option_fmap option_map fst].
      erewrite pbind_ok; [|by apply upd_ino_run]. cbn [fs_cache itable_lk itable sb fs_mem].
      erewrite pbind_ok; [|apply upd_ino_run; cbn [itable]; apply list_lookup_insert_eq; by eapply lookup_lt_Some].
      cbn [fs_cache itable_lk itable sb fs_mem]. rewrite list_insert_insert_eq.
      by rewrite (pbind_ok _ _ _ _ _ (release_itable _ _ _ _ _ Hh)).
    + right. split; [by intros i x Hi; split; [eapply G|eapply F]|].
      unfold find_inode, first_ino. rewrite (pbind_ok _ _ _ _ _ (acquire_itable s Hh Hl)), En.
      prog_step. cbn [itable]. rewrite E1. cbn [fmap option_fmap option_map].
      prog_step. cbn [itable]. rewrite E2. cbn [fmap option_fmap option_map].
      by rewrite (pbind_ok _ _ _ _ _ (release_itable _ _ _ _ _ Hh)).
Qed.

Lemma found_ok t n i y :
  itable_ok t → 0 < n < 2 ^ 31 → found t n i y →
  (∀ x, t !! i = Some x → i_ref x < 2 ^ 31 - 1) → itable_ok (<[i := y]> t) ∧ i_inum y = n ∧ i_ref y ≠ 0.
Proof.
  intros I Hn F Hr. destruct F as [i x Hi Hx Hx0|i Hi Hno].
  - destruct (it_used _ I _ _ Hi Hx0) as [Hi0 Hi1]. pose proof (Hr _ Hi).
    split_and!; [|done|simpl; lia]. eapply itable_insert; [done|exact Hi|simpl; lia|simpl; lia|].
    intros _ j z Hj Hz E. apply Hj. symmetry. by eapply (it_uniq _ I).
  - split_and!; [|done|done]. eapply itable_insert; [done|exact Hi|done|simpl; lia|].
    intros _ j z Hj Hz. by eapply Hno.
Qed.

Lemma release_inode_run i x s :
  itable s !! i = Some x → 0 < i_ref x < 2 ^ 32 →
  release_inode i s = Ret tt (FsSt (fs_cache s) (itable_lk s)
    (<[i := if i_ref x =? 1 then inode_zero else set_iref (i_ref x - 1) x]> (itable s)) (sb s) (fs_mem s)).
Proof.
  intros Hi Hr. assert (Hlt : (i < length (itable s))%nat) by (by eapply lookup_lt_Some).
  unfold release_inode. rewrite (pbind_ok _ _ _ _ _ (ino_at_run _ _ _ Hi)).
  destruct (i_ref x =? 0) eqn:E0; [lia|]. prog_step.
  rewrite (pbind_ok _ _ _ _ _ (upd_ino_run _ _ _ _ Hi)).
  erewrite pbind_ok; [|apply ino_at_run; cbn [itable]; by apply list_lookup_insert_eq].
  rewrite u32_small by lia. cbn [set_iref i_ref].
  destruct (i_ref x - 1 =? 0) eqn:E1; destruct (i_ref x =? 1) eqn:E2; try lia.
  - erewrite upd_ino_run; [|cbn [itable]; by apply list_lookup_insert_eq].
    cbn [fs_cache itable_lk itable sb fs_mem]. by rewrite list_insert_insert_eq.
  - done.
Qed.
End find.

Module FsProps.

(** Inodes are unique in memory. [find_inode] returns the entry that has
    the number if there is one, with one more reference, and otherwise a free
    entry it gives the number to; NULL only when neither exists. The table
    keeps one entry per number, and [release_inode] of the result puts the
    table back as it was. *)
Theorem find_release_correct {S} `{BlockCacheOk S} (s : fsst S) dk held n :
  cached dk held (fs_cache s) → free_lock (itable_lk s) → itable_ok (itable s) → 0 < n < 2 ^ 31 →
  (∀ i x, itable s !! i = Some x → i_ref x < 2 ^ 31 - 1) →
  (∃ i y s1 s2, found (itable s) n i y ∧ find_inode n s = Ret (Some i) s1 ∧
     itable s1 = <[i := y]> (itable s) ∧ itable_ok (itable s1) ∧ cached dk held (fs_cache s1) ∧
     (∀ j z, itable s1 !! j = Some z → i_inum z = n → j = i) ∧
     release_inode i s1 = Ret tt s2 ∧ itable s2 = itable s) ∨
  ((∀ i x, itable s !! i = Some x → i_ref x ≠ 0 ∧ i_inum x ≠ n) ∧
   ∃ s1, find_inode n s = Ret None s1 ∧ itable s1 = itable s).
Proof.
  intros I Hl It Hn Hfew. pose proof (cached_hart _ _ _ I) as Hh.
  destruct (find_inode_run s n Hh Hl It Hn) as [(i & y & F & E)|[Hno E]].
  - left. destruct (found_ok _ _ _ _ It Hn F) as (It' & Hy & Hr); [by apply Hfew|].
    assert (Hi : ∃ x, itable s !! i = Some x) by (destruct F; eauto). destruct Hi as [x Hi].
    assert (Hlt : (i < length (itable s))%nat) by (by eapply lookup_lt_Some).
    assert (Hiy : <[i := y]> (itable s) !! i = Some y) by (by apply list_lookup_insert_eq).
    exists i, y. eexists. eexists. split_and!; [exact F|exact E|done|done| | | |].
    + apply cached_set_hart; [done|by apply touched_ok].
    + intros j z Hj Hz. symmetry. eapply (it_uniq _ It'); [exact Hiy|exact Hj|done|congruence].
    + apply (release_inode_run i y); [done|]. destruct (it_used _ It' _ _ Hiy Hr). lia.
    + cbn [itable with_table]. rewrite list_insert_insert_eq. apply list_insert_id.
      destruct F as [i x' Hx' Hn' Hr'|i Hx' _].
      * rewrite Hx'. f_equal. cbn. destruct (it_used _ It _ _ Hx' Hr').
        destruct (i_ref x' + 1 =? 1) eqn:E1; [lia|]. unfold set_iref. cbn.
        replace (i_ref x' + 1 - 1) with (i_ref x') by lia. by destruct x'.
      * by rewrite Hx'.
  - right. split; [done|]. by eexists.
Qed.

Definition start_fs : fsst (bcache memdisk) :=
  FsSt empty_cache lock_init (replicate NINODE inode_zero)
    (Superblock 0 0 0 0 0 0 0 0 128 1024 3 4 5) ∅.

Lemma empty_cached : cached (block (MemDisk ∅)) [] empty_cache.
Proof. apply buf_init_inv with (lk := lock_init) (bs := []); [by vm_compute|by vm_compute|done]. Qed.

Lemma find_release_correct_witness :
  ∃ i s1 s2, find_inode 12 start_fs = Ret (Some i) s1 ∧ release_inode i s1 = Ret tt s2 ∧
    itable s2 = itable start_fs.
Proof.
  destruct (find_release_correct start_fs _ [] 12 empty_cached) as [H|[H _]].
  - reflexivity.
  - exact itable_init.
  - lia.
  - intros i x Hx. apply lookup_replicate in Hx as [-> _]. vm_compute. reflexivity.
  - destruct H as (i & y & s1 & s2 & _ & E1 & _ & _ & _ & _ & E2 & E3). exists i, s1, s2.
    exact (conj E1 (conj E2 E3)).
  - exfalso. destruct (H 0%nat inode_zero eq_refl) as [H1 _]. exact (H1 eq_refl).
Defined.

End FsProps.
