(* ===== verification/Ext2.v ===== *)
(** * The ext2 file system (kernel/ext2.c): the routines

    Definitions only; the files Ext2Alloc, Ext2File and Ext2Dir prove them.
    Buffers hold 1024 bytes ([struct buf]), so an access outside the block is a
    fault here.  A name or a path is the list of its characters, without the
    terminating NUL; [c_string] is where the code relies on finding one. *)

From S2P Require Import Prelude Mem Bytes Spinlock Buf Fs.
Import Spin.
Open Scope Z_scope.
Open Scope prog_scope.

(** ** Strings inside blocks *)

(** The characters before the first NUL. *)
Fixpoint strz (l : bytes) : bytes :=
  match l with
  | [] => []
  | c :: l => if c =? 0 then [] else c :: strz l
  end.

(** The string that starts at [l], when its NUL is in [l]. *)
Definition c_string (l : bytes) : option bytes :=
  if decide (0 ∈ l) then Some (strz l) else None.

(** ** Bitmaps *)

(** [for(i = 0; i < sb.bsize; i++) { if((chunk = data[i]) != 0xff) break; num += 8; }] *)
Fixpoint skip_full (n i : nat) (num : Z) (l : bytes) : Z * Z :=
  match n with
  | O => (0xff, num)
  | S n =>
      let chunk := byte_at l i in
      if chunk =? 0xff then skip_full n (S i) (num + 8) l else (chunk, num)
  end.

(** [for(; chunk & 1; chunk >>= 1) num++;] *)
Fixpoint low_ones (n : nat) (chunk num : Z) : Z :=
  match n with
  | O => num
  | S n => if nz (Z.land chunk 1) then low_ones n (Z.shiftr chunk 1) (num + 1) else num
  end.

Definition find_free_ino (bsize : Z) (l : bytes) : Z :=
  let '(chunk, inum) := skip_full (Z.to_nat bsize) 0 1 l in
  if chunk =? 0xff then -1 else low_ones 8 chunk inum.

Definition find_free_block (bsize : Z) (l : bytes) : Z :=
  let '(chunk, bnum) := skip_full (Z.to_nat bsize) 0 0 l in
  if chunk =? 0xff then -1 else low_ones 8 chunk bnum.

(** The byte and the bit in it: [None] past the end of the bitmap. *)
Fixpoint chunk_of (n : nat) (chunkn bitn : Z) : option (Z * Z) :=
  match n with
  | O => None
  | S n => if bitn <? 8 then Some (chunkn, bitn) else chunk_of n (chunkn + 1) (bitn - 8)
  end.

Definition put_bit (c bitn val : Z) : Z :=
  if nz val then u8 (Z.lor c (Z.shiftl 1 bitn))
  else u8 (Z.land c (Z.lnot (u8 (Z.shiftl 1 bitn)))).

Section ext2.
Context {C : Type} `{BlockCache C}.

Abbreviation fsprog := (prog (fsst C)).

Definition cread (n : Z) : fsprog nat := zoom of_cache (bread n).
Definition cwrite (i : nat) : fsprog unit := zoom of_cache (bwrite i).
Definition cfree (i : nat) : fsprog unit := zoom of_cache (bfree i).
Definition cdata (i : nat) : fsprog bytes := zoom of_cache (bdata i).
(** Stores to [b->data] that [bio_write] follows. *)
Definition cset (i : nat) (l : bytes) : fsprog unit := zoom of_cache (bset i l).

Definition get_sb : fsprog superblock := gets sb.

(** [n] bytes of [b->data] from [off] on. *)
Definition in_data (off n : Z) : fsprog unit :=
  if (0 <=? off) && (off + n <=? BSIZE) then ret tt else fault "outside b->data".

Definition ext2_get_sb : fsprog nat := cread 1.
Definition ext2_get_bg : fsprog nat := cread 2.

(** [map] is the contents of the indirect block. *)
Definition read_indirect_block (map : bytes) (bnum : Z) : fsprog nat :=
  let idx := bnum - 12 in
  in_data (4 * idx) 4 ;;
  cread (fld 4 map (Z.to_nat (4 * idx))).

Definition write_bit (bitmap : nat) (bitn val : Z) : fsprog Z :=
  s <- get_sb ;;
  match chunk_of (Z.to_nat (sb_bsize s)) 0 bitn with
  | None => ret (-1)
  | Some (chunkn, bitn) =>
      (if bitn <? 0 then fault "negative shift" else ret tt) ;;
      in_data chunkn 1 ;;
      l <- cdata bitmap ;;
      cset bitmap (splice l (Z.to_nat chunkn) [put_bit (byte_at l (Z.to_nat chunkn)) bitn val]) ;;
      cwrite bitmap ;;
      ret 0
  end.

Definition ibmp_write_bit (bitmap : nat) (ino val : Z) : fsprog Z := write_bit bitmap (ino - 1) val.
Definition bbmp_write_bit (bitmap : nat) (bn val : Z) : fsprog Z := write_bit bitmap bn val.

Definition ext2_alloc_block : fsprog Z :=
  s <- get_sb ;;
  bitmap <- cread (sb_block_bitmap s) ;;
  in_data 0 (sb_bsize s) ;;
  l <- cdata bitmap ;;
  let bn := find_free_block (sb_bsize s) l in
  if bn <? 0 then ret (-1) else
  bbmp_write_bit bitmap bn 1 ;;
  cfree bitmap ;;
  ret bn.

Definition ext2_alloc_inum : fsprog Z :=
  s <- get_sb ;;
  ibmp <- cread (sb_inode_bitmap s) ;;
  in_data 0 (sb_bsize s) ;;
  l <- cdata ibmp ;;
  let inum := find_free_ino (sb_bsize s) l in
  if inum <? 0 then ret (-1) else
  ibmp_write_bit ibmp inum 1 ;;
  cfree ibmp ;;
  ret inum.

Definition ext2_alloc_inode : fsprog (option nat) :=
  inum <- ext2_alloc_inum ;;
  if inum <? 0 then ret None else find_inode inum.

(** ** Inodes on disk *)

(** The buffer of the block that holds the inode, and its offset there. *)
Definition ext2_raw_inode (inum : Z) : fsprog (nat * Z) :=
  s <- get_sb ;;
  (if sb_inode_size s =? 0 then fault "division by zero" else ret tt) ;;
  let per := sb_bsize s / sb_inode_size s in
  (if per =? 0 then fault "division by zero" else ret tt) ;;
  let bgrp := u32 (inum - 1) / per in
  let offset := u32 ((u32 (inum - 1) mod per) * sb_inode_size s) in
  itable <- cread (sb_inode_table s +u32 bgrp) ;;
  ret (itable, offset).

(** [i_block[k]] of the inode at [off]. *)
Definition raw_block (l : bytes) (off k : nat) : Z := fld 4 l (off + 40 + 4 * k).

(** The fields of [struct ext2_inode] at [off], copied to [i]. *)
Definition load_inode (l : bytes) (off : nat) (i : inode) : inode :=
  Inode (fld 2 l off) (fld 4 l (off + 4)) (fld 4 l (off + 8)) (fld 4 l (off + 12))
    (fld 4 l (off + 16)) (fld 4 l (off + 20)) (fld 2 l (off + 26)) (fld 4 l (off + 28))
    (raw_block l off <$> seq 0 15) (i_inum i) (i_major i) (i_minor i) (i_ref i).

(** The bytes of [i->block]. *)
Definition block_bytes (i : inode) : bytes := concat (le_bytes 4 <$> i_block i).

(** The stores of [inode_sync], in their order. *)
Definition store_inode (l : bytes) (off : nat) (i : inode) : bytes :=
  let l := set_fld 2 l off (i_mode i) in
  let l := set_fld 4 l (off + 4) (i_size i) in
  let l := set_fld 4 l (off + 8) (i_atime i) in
  let l := set_fld 4 l (off + 12) (i_ctime i) in
  let l := set_fld 4 l (off + 16) (i_mtime i) in
  let l := set_fld 4 l (off + 20) (i_dtime i) in
  let l := set_fld 2 l (off + 26) (i_links_count i) in
  let l := set_fld 4 l (off + 28) (i_blocks i) in
  splice l (off + 40) (block_bytes i).

(** Bytes 0 to 99 of the 128 of a disk inode are accessed. *)
Definition inode_sync (i : nat) : fsprog unit :=
  x <- ino_at i ;;
  r <- ext2_raw_inode (i_inum x) ;;
  in_data (snd r) 100 ;;
  l <- cdata (fst r) ;;
  cset (fst r) (store_inode l (Z.to_nat (snd r)) x) ;;
  cwrite (fst r) ;;
  cfree (fst r).

Definition ext2_get_inode (inum : Z) : fsprog (option nat) :=
  p <- find_inode inum ;;
  r <- ext2_raw_inode inum ;;
  match p with
  | None => ret None
  | Some i =>
      in_data (snd r) 100 ;;
      l <- cdata (fst r) ;;
      upd_ino i (load_inode l (Z.to_nat (snd r))) ;;
      cfree (fst r) ;;
      ret (Some i)
  end.

(** ** The blocks of a file *)

Definition ext2_inode_nblock (x : inode) : Z := i_blocks x / 2.

Definition block_no (x : inode) (bi : Z) : fsprog Z := λ s,
  if bi <? 0 then Fault "block[]" else
  match i_block x !! Z.to_nat bi with Some n => Ret n s | None => Fault "block[]" end.

Definition ext2_inode_block (i : nat) (bi : Z) : fsprog nat :=
  x <- ino_at i ;;
  if bi <? 12 then n <- block_no x bi ;; cread n else
  n <- block_no x 12 ;;
  map <- cread n ;;
  l <- cdata map ;;
  b <- read_indirect_block l bi ;;
  cfree map ;;
  ret b.

Definition set_blocks (v : Z) (x : inode) : inode :=
  Inode (i_mode x) (i_size x) (i_atime x) (i_ctime x) (i_mtime x) (i_dtime x) (i_links_count x)
    v (i_block x) (i_inum x) (i_major x) (i_minor x) (i_ref x).
Definition set_block (k : nat) (v : Z) (x : inode) : inode :=
  Inode (i_mode x) (i_size x) (i_atime x) (i_ctime x) (i_mtime x) (i_dtime x) (i_links_count x)
    (i_blocks x) (<[k := v]> (i_block x)) (i_inum x) (i_major x) (i_minor x) (i_ref x).
Definition set_size (v : Z) (x : inode) : inode :=
  Inode (i_mode x) v (i_atime x) (i_ctime x) (i_mtime x) (i_dtime x) (i_links_count x)
    (i_blocks x) (i_block x) (i_inum x) (i_major x) (i_minor x) (i_ref x).
Definition set_links (v : Z) (x : inode) : inode :=
  Inode (i_mode x) (i_size x) (i_atime x) (i_ctime x) (i_mtime x) (i_dtime x) v
    (i_blocks x) (i_block x) (i_inum x) (i_major x) (i_minor x) (i_ref x).
Definition set_mode (m d l : Z) (x : inode) : inode :=
  Inode m (i_size x) (i_atime x) (i_ctime x) (i_mtime x) (i_dtime x) l
    (i_blocks x) (i_block x) (i_inum x) d (i_minor x) (i_ref x).

(** The first of the 12 direct blocks that is 0. *)
Definition free_direct (x : inode) : option nat :=
  fst <$> list_find (λ n, n = 0) (take 12 (i_block x)).

(** [for(i = 0; i < nblock; i++) ino->block[n + i] = ext2_alloc_block();] *)
Fixpoint grow_loop (cnt : nat) (i : nat) (k : nat) : fsprog unit :=
  match cnt with
  | O => ret tt
  | S cnt =>
      bn <- ext2_alloc_block ;;
      (if (15 <=? k)%nat then fault "block[]" else ret tt) ;;
      upd_ino i (set_block k (u32 bn)) ;;
      grow_loop cnt i (k + 1)
  end.

Definition ext2_grow_inode_block (i : nat) (nblock : Z) : fsprog Z :=
  x <- ino_at i ;;
  match free_direct x with
  | None => ret (-1)
  | Some n =>
      grow_loop (Z.to_nat nblock) i n ;;
      s <- get_sb ;;
      upd_ino i (λ x, set_blocks (i_blocks x +u32 nblock * (sb_bsize s / 512)) x) ;;
      inode_sync i ;;
      ret 0
  end.

Definition ext2_append_inode_block (i : nat) (blockn : Z) : fsprog Z :=
  x <- ino_at i ;;
  match free_direct x with
  | None => ret (-1)
  | Some n =>
      s <- get_sb ;;
      upd_ino i (set_block n (u32 blockn)) ;;
      upd_ino i (λ x, set_blocks (i_blocks x +u32 sb_bsize s / 512) x) ;;
      inode_sync i ;;
      ret 0
  end.

(** ** Directories *)

Definition DIRENT_NAME_MAX : Z := 255.

(** [struct dirent]: inode at 0, rec_len at 4, name_len at 6, file_type at 7,
    the name from 8 on. *)
Definition d_inode (l : bytes) (off : nat) : Z := fld 4 l off.
Definition d_rec_len (l : bytes) (off : nat) : Z := fld 2 l (off + 4).
Definition d_name_len (l : bytes) (off : nat) : Z := fld 1 l (off + 6).
Definition d_file_type (l : bytes) (off : nat) : Z := fld 1 l (off + 7).

Definition roundup_4byte (m : Z) : Z := Z.land (m +u64 3) (Z.lnot 3).

(** The entry is built in a cleared buffer of 1024 bytes. *)
Definition make_dirent (ino : Z) (name : bytes) (file_type : Z) : fsprog bytes :=
  s <- get_sb ;;
  (if sb_bsize s >? BSIZE then fault "buf[1024]" else ret tt) ;;
  let l := replicate BSIZE 0 in
  let l := set_fld 4 l 0 ino in
  let l := set_fld 1 l 7 file_type in
  let name_len := u8 (length name) in
  let l := set_fld 1 l 6 name_len in
  let l := splice l 8 (take (Z.to_nat (name_len + 1)) (name ++ [0])) in
  ret (set_fld 2 l 4 (u16 (roundup_4byte (8 + length name)))).

(** Compares the names of the entries with [path] until one is equal. *)
Fixpoint search_loop (fuel : nat) (bsize : Z) (l : bytes) (bpos : Z) (path : bytes) : fsprog Z :=
  if negb (bpos <? bsize) then ret (-1) else
  match fuel with
  | O => λ _, Hang
  | S fuel =>
      in_data bpos 8 ;;
      let d := Z.to_nat bpos in
      let n := d_name_len l d in
      in_data (bpos + 8) n ;;
      (if (n =? DIRENT_NAME_MAX) && (DIRENT_NAME_MAX <=? length path)
       then fault "buf is not terminated" else ret tt) ;;
      if decide (strz (slice l (d + 8) (Z.to_nat n)) = path) then ret (i32 (d_inode l d)) else
      search_loop fuel bsize l (bpos +u64 d_rec_len l d) path
  end.

(** An entry of length 0 is never left, so [bsize] turns are enough for the
    walks that end. *)
Definition search_dirent_block (bsize : Z) (l : bytes) (path : bytes) : fsprog Z :=
  search_loop (Z.to_nat bsize) bsize l 0 path.

Fixpoint search_blocks (cnt : nat) (i : Z) (dir : nat) (name : bytes) : fsprog Z :=
  match cnt with
  | O => ret (-1)
  | S cnt =>
      db <- ext2_inode_block dir i ;;
      l <- cdata db ;;
      s <- get_sb ;;
      inum <- search_dirent_block (sb_bsize s) l name ;;
      cfree db ;;
      if inum >? 0 then ret inum else search_blocks cnt (i + 1) dir name
  end.

Definition ext2_search_dir (dir : nat) (name : bytes) : fsprog Z :=
  x <- ino_at dir ;;
  search_blocks (Z.to_nat (ext2_inode_nblock x)) 0 dir name.

(** The last entry of the block ([d], starting from the first), or the entry
    whose length is 0: [true] for [goto empty_block]. *)
Fixpoint last_dirent (fuel : nat) (bsize : Z) (l : bytes) (bpos d : Z) : fsprog (Z * bool) :=
  if negb (bpos <? bsize) then ret (d, false) else
  match fuel with
  | O => λ _, Hang
  | S fuel =>
      in_data bpos 8 ;;
      let r := d_rec_len l (Z.to_nat bpos) in
      if r =? 0 then ret (bpos, true) else last_dirent fuel bsize l (bpos +u64 r) bpos
  end.

(** Where a new entry goes: in an empty block, or after the entry [d] whose
    name ends at [dend]. *)
Inductive place :=
| PlaceEmpty (b : nat) (d : Z)
| PlaceAfter (b : nat) (d dend : Z)
| PlaceNone.

(** The loop over the blocks of the directory. *)
Fixpoint find_place (cnt : nat) (i : Z) (pdir : nat) (rec_len : Z) : fsprog place :=
  match cnt with
  | O => ret PlaceNone
  | S cnt =>
      b <- ext2_inode_block pdir i ;;
      l <- cdata b ;;
      s <- get_sb ;;
      r <- last_dirent (Z.to_nat (sb_bsize s)) (sb_bsize s) l 0 0 ;;
      let '(d, empty) := r in
      if empty : bool then ret (PlaceEmpty b d) else
      match c_string (drop (Z.to_nat (d + 8)) l) with
      | None => fault "strlen"
      | Some name =>
          let dend := d + 8 + length name in
          if sb_bsize s -u64 dend >? rec_len then ret (PlaceAfter b d dend)
          else find_place cnt (i + 1) pdir rec_len
      end
  end.

(** [d->inode], [d->rec_len], [d->name_len], [d->file_type] and the name. *)
Definition put_dirent (l : bytes) (d : Z) (rec_len : Z) (de : bytes) : fsprog bytes :=
  in_data d (8 + d_name_len de 0 + 1) ;;
  let o := Z.to_nat d in
  let l := set_fld 4 l o (d_inode de 0) in
  let l := set_fld 2 l (o + 4) rec_len in
  let l := set_fld 1 l (o + 6) (d_name_len de 0) in
  let l := set_fld 1 l (o + 7) (d_file_type de 0) in
  ret (splice l (o + 8) (slice de 8 (Z.to_nat (d_name_len de 0 + 1)))).

Definition put_place (p : place) (de : bytes) : fsprog Z :=
  s <- get_sb ;;
  match p with
  | PlaceNone => ret (-1)
  | PlaceEmpty b d =>
      l <- cdata b ;;
      l <- put_dirent l d (sb_bsize s) de ;;
      cset b l ;;
      cwrite b ;;
      cfree b ;;
      ret 0
  | PlaceAfter b d dend =>
      let debegin := roundup_4byte dend in
      l <- cdata b ;;
      l <- put_dirent (set_fld 2 l (Z.to_nat (d + 4)) (debegin - d)) debegin (sb_bsize s - debegin) de ;;
      cset b l ;;
      cwrite b ;;
      cfree b ;;
      ret 0
  end.

(** [de] is the entry [make_dirent] built. *)
Definition ext2_dirlink (pdir : nat) (de : bytes) : fsprog Z :=
  match c_string (drop 8 de) with
  | None => fault "de->name"
  | Some name =>
      found <- ext2_search_dir pdir name ;;
      if found >? 0 then ret (-1) else
      x <- ino_at pdir ;;
      p <- find_place (Z.to_nat (ext2_inode_nblock x)) 0 pdir (d_rec_len de 0) ;;
      match p with
      | PlaceNone =>
          x <- ino_at pdir ;;
          if ext2_inode_nblock x =? 0 then
            bn <- ext2_alloc_block ;;
            ext2_append_inode_block pdir bn ;;
            b <- cread (u32 bn) ;;
            put_place (PlaceEmpty b 0) de
          else ret (-1)
      | p => put_place p de
      end
  end.

(** ** New inodes *)

Definition itype_dtype_table : list Z := [0; 5; 3; 0; 2; 0; 4; 0; 1; 0; 7; 0; 6; 0; 0].

Definition imode2dtype (mode : Z) : fsprog Z := λ s,
  match itype_dtype_table !! Z.to_nat (Z.shiftr (Z.land mode S_IFMT) 12) with
  | Some t => Ret t s
  | None => Fault "itype_dtype_table[]"
  end.

Definition DT_DIR : Z := 2.

Definition ext2_new_inode (name : bytes) (dir : nat) (mode dev : Z) : fsprog (option nat) :=
  p <- ext2_alloc_inode ;;
  match p with
  | None => ret None
  | Some ino =>
      upd_ino ino (set_mode (u16 mode) (u32 dev) 1) ;;
      s <- get_sb ;;
      x <- ino_at ino ;;
      ok <- (if S_ISDIR mode then
               upd_ino dir (λ x, set_links (u16 (i_links_count x + 1)) x) ;;
               de <- make_dirent (i_inum x) [46] DT_DIR ;;
               r <- ext2_dirlink ino de ;;
               if r <? 0 then ret false else
               d <- ino_at dir ;;
               de <- make_dirent (i_inum d) [46; 46] DT_DIR ;;
               r <- ext2_dirlink ino de ;;
               if r <? 0 then ret false else
               upd_ino ino (set_size (sb_bsize s)) ;;
               ret true
             else if S_ISCHR mode then upd_ino ino (set_size 0) ;; ret true
             else ret true) ;;
      if negb ok then ret None else
      t <- imode2dtype (u16 mode) ;;
      de <- make_dirent (i_inum x) name t ;;
      r <- ext2_dirlink dir de ;;
      if r <? 0 then ret None else
      inode_sync ino ;;
      inode_sync dir ;;
      ret (Some ino)
  end.

Definition ext2_rm_inode (name : bytes) (pdir : nat) : fsprog Z := ret (-1).

(** ** Reading and writing files *)

(** How many bytes a turn of the loops moves. *)
Definition cp_size (size bsize offblkoff : Z) : Z :=
  let cpsize := Z.min size bsize in
  if offblkoff + cpsize >? bsize then bsize - offblkoff else cpsize.

(** The loop of [ext2_read_inode]: [cnt] blocks from [bi] on; the place after
    the last byte stored. *)
Fixpoint read_loop (cnt : nat) (bsize : Z) (i : nat) (bi offblkoff buf size : Z) : fsprog Z :=
  match cnt with
  | O => ret buf
  | S cnt =>
      b <- ext2_inode_block i bi ;;
      let cpsize := cp_size size bsize offblkoff in
      in_data offblkoff cpsize ;;
      l <- cdata b ;;
      zoom of_mem (modify (λ m, mwrite m buf (slice l (Z.to_nat offblkoff) (Z.to_nat cpsize)))) ;;
      cfree b ;;
      read_loop cnt bsize i (bi + 1) 0 (buf + cpsize) (size - cpsize)
  end.

(** How many times [i < ext2_inode_nblock(ino) && i <= lastblk] holds. *)
Definition blk_turns (x : inode) (offblk lastblk : Z) : nat :=
  Z.to_nat (Z.min (ext2_inode_nblock x) (lastblk + 1) - offblk).

Definition ext2_read_inode (i : nat) (buf off size : Z) : fsprog Z :=
  s <- get_sb ;;
  let bsize := sb_bsize s in
  x <- ino_at i ;;
  if off >? i_size x then ret (-1) else
  let size := if off +u64 size >? i_size x then i_size x - off else size in
  let offblk := u32 (off / bsize) in
  let lastblk := u32 ((size +u64 off) / bsize) in
  let offblkoff := off mod bsize in
  e <- read_loop (blk_turns x offblk lastblk) bsize i offblk offblkoff buf size ;;
  ret (i32 (e - buf)).

Fixpoint write_loop (cnt : nat) (bsize : Z) (i : nat) (bi offblkoff buf size : Z) : fsprog unit :=
  match cnt with
  | O => ret tt
  | S cnt =>
      b <- ext2_inode_block i bi ;;
      let cpsize := cp_size size bsize offblkoff in
      in_data offblkoff cpsize ;;
      l <- cdata b ;;
      m <- gets fs_mem ;;
      cset b (splice l (Z.to_nat offblkoff) (mread m buf (Z.to_nat cpsize))) ;;
      cwrite b ;;
      cfree b ;;
      write_loop cnt bsize i (bi + 1) 0 (buf + cpsize) (if size >? bsize then size - bsize else 0)
  end.

Definition ext2_w_inode (i : nat) (buf off size : Z) : fsprog Z :=
  s <- get_sb ;;
  let bsize := sb_bsize s in
  x <- ino_at i ;;
  if off >? i_size x then ret (-1) else
  (if off +u64 size >? i_size x then upd_ino i (set_size (u32 (off + size))) else ret tt) ;;
  let offblk := u32 (off / bsize) in
  let lastblk := u32 ((size +u64 off) / bsize) in
  let offblkoff := off mod bsize in
  (if lastblk >? ext2_inode_nblock x
   then _ <- ext2_grow_inode_block i (lastblk - ext2_inode_nblock x) ;; ret tt else ret tt) ;;
  x <- ino_at i ;;
  write_loop (blk_turns x offblk lastblk) bsize i offblk offblkoff buf size ;;
  inode_sync i ;;
  ret (i32 size).

(** ** Paths *)

Fixpoint drop_slashes (path : bytes) : bytes :=
  match path with
  | c :: p => if c =? 47 then drop_slashes p else path
  | [] => []
  end.

(** The loop of [skippath]: [name] has been stored so far; [None] for
    [*err = 1]. Each turn stores [name[len]] before it tests. *)
Fixpoint take_elem (path name : bytes) : fsprog (option (bytes * bytes)) :=
  (if DIRENT_NAME_MAX <=? length name then fault "name[255]" else ret tt) ;;
  match path with
  | [] => ret (Some (name, []))
  | c :: p =>
      if c =? 47 then ret (Some (name, p)) else
      if length name + 1 >? DIRENT_NAME_MAX then ret None else
      take_elem p (name ++ [c])
  end.

(** The first element of the path, and what follows it. *)
Definition skippath (path : bytes) : fsprog (option (bytes * bytes)) :=
  take_elem (drop_slashes path) [].

(** Each level of the recursion consumes an element of the path. *)
Fixpoint traverse_inode (fuel : nat) (pi : option nat) (path : bytes) : fsprog (option nat) :=
  match fuel with
  | O => λ _, Hang
  | S fuel =>
      r <- skippath path ;;
      match r with
      | None => ret None
      | Some (name, path) =>
          match path, name with
          | [], [] => ret pi
          | _, _ =>
              i <- not_null pi ;;
              x <- ino_at i ;;
              if negb (S_ISDIR (i_mode x)) then ret pi else
              inum <- ext2_search_dir i name ;;
              if inum <? 0 then ret None else
              pi <- ext2_get_inode inum ;;
              traverse_inode fuel pi path
          end
      end
  end.

(** The inode, and the last element of the path. *)
Fixpoint traverse_inode_parent (fuel : nat) (pi : option nat) (path : bytes)
    : fsprog (option nat * bytes) :=
  match fuel with
  | O => λ _, Hang
  | S fuel =>
      r <- skippath path ;;
      match r with
      | None => ret (None, [])
      | Some (name, path) =>
          match path with
          | [] => ret (pi, name)
          | _ =>
              i <- not_null pi ;;
              x <- ino_at i ;;
              if negb (S_ISDIR (i_mode x)) then ret (pi, name) else
              inum <- ext2_search_dir i name ;;
              if inum <? 0 then ret (None, []) else
              pi <- ext2_get_inode inum ;;
              traverse_inode_parent fuel pi path
          end
      end
  end.

Definition EXT2_ROOT_INO : Z := 2.

(** [cwd] is [myproc()->cwd]. *)
Definition start_inode (cwd : option nat) (path : bytes) : fsprog (option nat) :=
  match path with
  | c :: _ => if c =? 47 then ext2_get_inode EXT2_ROOT_INO else ret cwd
  | [] => ret cwd
  end.

Definition ext2_path2inode (cwd : option nat) (path : bytes) : fsprog (option nat) :=
  ino <- start_inode cwd path ;;
  traverse_inode (length path + 2) ino path.

Definition ext2_path2inode_parent (cwd : option nat) (path : bytes) : fsprog (option nat * bytes) :=
  ino <- start_inode cwd path ;;
  traverse_inode_parent (length path + 2) ino path.

Definition ext2_rm (cwd : option nat) (path : bytes) : fsprog Z :=
  r <- ext2_path2inode_parent cwd path ;;
  match fst r with
  | None => ret (-1)
  | Some pdir => ext2_rm_inode (snd r) pdir
  end.

Definition ext2_mknod (cwd : option nat) (path : bytes) (mode dev : Z) : fsprog (option nat) :=
  r <- ext2_path2inode_parent cwd path ;;
  match fst r with
  | None => ret None
  | Some pdir => ext2_new_inode (snd r) pdir mode dev
  end.

Definition ext2_mkdir (cwd : option nat) (path : bytes) : fsprog (option nat) :=
  r <- ext2_path2inode_parent cwd path ;;
  match fst r with
  | None => ret None
  | Some pdir => ext2_new_inode (snd r) pdir S_IFDIR 0
  end.

(** ** Mounting *)

(** [sb] after the superblock and the first group descriptor. *)
Definition load_super (e bg : bytes) : superblock := {|
  sb_inodes_count := fld 4 e 0; sb_blocks_count := fld 4 e 4;
  sb_first_data_block := fld 4 e 20; sb_blocks_per_group := fld 4 e 32;
  sb_inodes_per_group := fld 4 e 40; sb_mtime := fld 4 e 44; sb_wtime := fld 4 e 48;
  sb_first_ino := fld 4 e 84; sb_inode_size := fld 2 e 88;
  sb_bsize := Z.shiftl 1024 (fld 4 e 24);
  sb_block_bitmap := fld 4 bg 0; sb_inode_bitmap := fld 4 bg 4; sb_inode_table := fld 4 bg 8
|}.

Definition ext2_init : fsprog unit :=
  b_esb <- ext2_get_sb ;;
  e <- cdata b_esb ;;
  (if fld 2 e 56 =? 0xef53 then ret tt else panic "invalid filesystem") ;;
  b_bg <- ext2_get_bg ;;
  bg <- cdata b_bg ;;
  (if fld 4 e 24 <? 21 then ret tt else fault "shift") ;;
  set_sb (load_super e bg) ;;
  cfree b_esb ;;
  cfree b_bg.
End ext2.

Arguments place : clear implicits.
