(* ===== verification/Ext2Alloc.v ===== *)
(** * ext2: bitmaps and inodes on disk

    The file system over any cache that keeps the promises of [BlockCache]:
    allocation of blocks and inode numbers, and the round trip of an inode
    through its disk block. *)

From S2P Require Import Prelude Mem Bytes Spinlock Buf Fs Ext2.
Import Spin.
Open Scope Z_scope.
Open Scope prog_scope.

(** ** The file system between operations *)

Section base.
Context {C : Type} {Hc : BlockCache C} {Hok : BlockCacheOk C}.
Implicit Types (s : fsst C) (dk : Z → bytes) (n m : Z) (l : bytes).

Definition with_cache (c : C) (s : fsst C) : fsst C :=
  FsSt c (itable_lk s) (itable s) (sb s) (fs_mem s).

(** The disk holds [dk], the references [held] are in use, no lock is taken,
    and blocks are of 1024 bytes. *)
Record fs_ok dk (held : list Z) s : Prop := {
  fo_cache : cached dk held (fs_cache s);
  fo_lock : free_lock (itable_lk s);
  fo_bsize : sb_bsize (sb s) = 1024
}.

Lemma fs_ok_cache dk dk' held held' s c :
  fs_ok dk held s → cached dk' held' c → fs_ok dk' held' (with_cache c s).
Proof. intros [_ ? ?] ?. by split. Qed.

Lemma fs_block dk held s n : fs_ok dk held s → good_block (dk n).
Proof. intros [I _ _]. by apply (cached_block _ _ _ n I). Qed.

Lemma cread_ok dk held s n :
  fs_ok dk held s → n ≠ 0 → is_bno n → (length held < NBUF)%nat →
  ∃ i c, cread n s = Ret i (with_cache c s) ∧ fs_ok dk (n :: held) (with_cache c s) ∧
    handle i n c ∧ ∀ j m, handle j m (fs_cache s) → handle j m c.
Proof.
  intros I H0 Hn Hl. destruct (bread_ok dk held _ n (fo_cache _ _ _ I) H0 Hn Hl) as (i & c & E & I' & Hh & Hk).
  exists i, c. split_and!; [by apply (zoom_ok of_cache)|by eapply fs_ok_cache|done|done].
Qed.

Lemma cdata_ok dk held s i n :
  fs_ok dk held s → n ∈ held → handle i n (fs_cache s) → cdata i s = Ret (dk n) s.
Proof.
  intros I Hin Hh. unfold cdata.
  rewrite (zoom_ok of_cache _ _ _ _ (bdata_ok _ _ _ _ _ (fo_cache _ _ _ I) Hin Hh)). by destruct s.
Qed.

Lemma cupdate_ok dk held s i n l :
  fs_ok dk held s → n ∈ held → handle i n (fs_cache s) → good_block l →
  ∃ c, (∀ B (k : prog (fsst C) B), (cset i l ;; cwrite i ;; k) s = k (with_cache c s)) ∧
    fs_ok (upd_block n l dk) held (with_cache c s) ∧
    ∀ j m, handle j m (fs_cache s) → handle j m c.
Proof.
  intros I Hin Hh [Hl Hb].
  destruct (bupdate_ok _ _ _ _ _ l (fo_cache _ _ _ I) Hin Hh Hl Hb) as (c & E & I' & Hk).
  exists c. split_and!; [|by eapply fs_ok_cache|done]. intros B k.
  apply pbind_inv in E as ([] & c1 & E1 & E2). unfold cset, cwrite.
  rewrite (pbind_ok _ _ _ _ _ (zoom_ok of_cache _ s _ _ E1)).
  by rewrite (pbind_ok _ _ _ _ _ (zoom_ok of_cache _ (with_cache c1 s) _ _ E2)).
Qed.

Lemma cfree_ok dk held s i n :
  fs_ok dk (n :: held) s → handle i n (fs_cache s) →
  ∃ c, cfree i s = Ret tt (with_cache c s) ∧ fs_ok dk held (with_cache c s) ∧
    ∀ j m, m ∈ held → handle j m (fs_cache s) → handle j m c.
Proof.
  intros I Hh. destruct (bfree_ok _ _ _ _ _ (fo_cache _ _ _ I) Hh) as (c & E & I' & Hk).
  exists c. split_and!; [by apply (zoom_ok of_cache)|by eapply fs_ok_cache|done].
Qed.

Lemma fs_ok_perm dk held held' s : held ≡ₚ held' → fs_ok dk held s → fs_ok dk held' s.
Proof. intros Hp [I ? ?]. split; [|done..]. by eapply cached_perm. Qed.

Lemma in_data_ok s off n : 0 <= off → off + n <= BSIZE → in_data off n s = Ret tt s.
Proof.
  intros. unfold in_data. destruct (0 <=? off) eqn:E1; [|lia]. destruct (off + n <=? BSIZE) eqn:E2; [done|lia].
Qed.
End base.

(** ** Bitmaps *)

Section bits.
Implicit Types (l : bytes) (n m : Z).

(** Bit [m] of a bitmap. *)
Definition bit_of l m : bool := Z.testbit (byte_at l (Z.to_nat (m / 8))) (m mod 8).

Lemma byte_at_ok l i : Forall is_byte l → is_byte (byte_at l i).
Proof.
  intros Hl. unfold byte_at. destruct (l !! i) as [c|] eqn:E; [by eapply (Forall_lookup_1 is_byte) in E|by vm_compute].
Qed.

Lemma testbit_ff k : 0 <= k < 8 → Z.testbit 0xff k = true.
Proof. intros. change 0xff with (Z.ones 8). apply Z.ones_spec_low. lia. Qed.

(** The bytes that are all ones are skipped. *)
Lemma skip_full_spec cnt i num l :
  match skip_full cnt i num l with (chunk, num') =>
    ∃ k : nat, (k <= cnt)%nat ∧ (∀ j, (i <= j < i + k)%nat → byte_at l j = 0xff) ∧
      if chunk =? 0xff then k = cnt
      else (k < cnt)%nat ∧ num' = num + 8 * k ∧ chunk = byte_at l (i + k)
  end.
Proof.
  revert i num. induction cnt as [|cnt IH]; intros i num; simpl.
  - exists 0%nat. split_and!; [lia|lia|done].
  - destruct (byte_at l i =? 0xff) eqn:E.
    + specialize (IH (S i) (num + 8)). destruct (skip_full cnt (S i) (num + 8) l) as [chunk num'].
      destruct IH as (k & Hk & Hf & Hr). exists (S k). split_and!; [lia| |].
      * intros j Hj. destruct (decide (j = i)) as [->|]; [lia|]. apply Hf. lia.
      * destruct (chunk =? 0xff) eqn:E'; [lia|]. destruct Hr as (? & -> & ->).
        split_and!; [lia|lia|]. f_equal. lia.
    + exists 0%nat. rewrite E. split_and!; [lia|lia|lia|lia|]. by rewrite Nat.add_0_r.
Qed.

(** The number of low ones of a byte that is not all ones. *)
Lemma low_ones_spec chunk num :
  0 <= chunk < 255 →
  ∃ k, low_ones 8 chunk num = num + k ∧ 0 <= k < 8 ∧ Z.testbit chunk k = false ∧
    ∀ j, 0 <= j < k → Z.testbit chunk j = true.
Proof.
  intros Hc.
  assert (H : ∀ cnt c num0, 0 <= c → (c + 1) mod 2 ^ Z.of_nat cnt ≠ 0 →
    ∃ k, low_ones cnt c num0 = num0 + k ∧ 0 <= k < cnt ∧ Z.testbit c k = false ∧
      ∀ j, 0 <= j < k → Z.testbit c j = true).
  { induction cnt as [|cnt IH]; intros c num0 Hc0 Hne; [by rewrite Z.mod_1_r in Hne|].
    cbn [low_ones]. change 1 with (Z.ones 1) at 1. rewrite Z.land_ones by lia. change (2 ^ 1) with 2.
    unfold nz. destruct (c mod 2 =? 0) eqn:E; cbn [negb].
    - exists 0. split_and!; [lia|lia|lia| |lia].
      rewrite Z.bit0_odd, <- Z.negb_even, Zeven_mod. by rewrite E.
    - rewrite Z.shiftr_div_pow2 by lia. change (2 ^ 1) with 2.
      destruct (IH (c / 2) (num0 + 1)) as (k & E1 & Hk & Hb & Hl); [zlia| |].
      { intros Hz. apply Hne. rewrite Nat2Z.inj_succ, Z.pow_succ_r by lia.
        replace (c + 1) with (2 * (c / 2 + 1)) by zlia. rewrite Zmult_mod_distr_l. lia. }
      exists (k + 1). split_and!; [lia|lia|lia| |].
      + rewrite <- Hb. change 2 with (2 ^ 1). rewrite <- Z.shiftr_div_pow2, Z.shiftr_spec by lia. done.
      + intros j Hj. destruct (decide (j = 0)) as [->|].
        * rewrite Z.bit0_odd, <- Z.negb_even, Zeven_mod. by rewrite E.
        * replace j with (j - 1 + 1) by lia. rewrite <- Z.shiftr_spec, Z.shiftr_div_pow2 by lia. apply Hl. lia. }
  apply (H 8%nat chunk num); [lia|]. change (2 ^ 8%nat) with 256. rewrite Z.mod_small; lia.
Qed.

(** The first clear bit of a bitmap of one block. *)
Definition first_clear l (r : option Z) : Prop :=
  match r with
  | Some n => 0 <= n < 8192 ∧ bit_of l n = false ∧ ∀ m, 0 <= m < n → bit_of l m = true
  | None => ∀ m, 0 <= m < 8192 → bit_of l m = true
  end.

Lemma find_free_spec l base :
  good_block l →
  match skip_full 1024 0 base l with (chunk, num) =>
    if chunk =? 0xff then first_clear l None
    else ∃ n, low_ones 8 chunk num = base + n ∧ first_clear l (Some n)
  end.
Proof.
  intros [Hl Hb]. pose proof (skip_full_spec 1024 0 base l) as H.
  destruct (skip_full 1024 0 base l) as [chunk num]. destruct H as (k & Hk & Hf & H).
  assert (Hff : ∀ m, 0 <= m < 8 * k → bit_of l m = true).
  { intros m Hm. unfold bit_of. rewrite Hf by zlia. apply testbit_ff. zlia. }
  destruct (chunk =? 0xff) eqn:E.
  - subst k. intros m Hm. apply Hff. lia.
  - destruct H as (Hlt & -> & ->). simpl in E.
    pose proof (byte_at_ok l k Hb) as Hc. unfold is_byte in Hc.
    destruct (low_ones_spec (byte_at l k) (base + 8 * k)) as (j & Ej & Hj & Hb0 & Hb1); [lia|].
    exists (8 * k + j). rewrite Nat.add_0_l. unfold first_clear. split_and!; [rewrite Ej; lia|lia|lia| |].
    + unfold bit_of. replace (Z.to_nat ((8 * k + j) / 8)) with k by zlia.
      by replace ((8 * k + j) mod 8) with j by zlia.
    + intros m Hm. destruct (decide (m < 8 * k)); [apply Hff; lia|].
      unfold bit_of. replace (Z.to_nat (m / 8)) with k by zlia. apply Hb1. zlia.
Qed.

Lemma find_free_block_spec l :
  good_block l →
  if find_free_block 1024 l <? 0 then first_clear l None
  else first_clear l (Some (find_free_block 1024 l)).
Proof.
  intros Hl. pose proof (find_free_spec l 0 Hl) as H. unfold find_free_block.
  change (Z.to_nat 1024) with 1024%nat. destruct (skip_full 1024 0 0 l) as [chunk num].
  destruct (chunk =? 0xff); [done|]. destruct H as (n & -> & Hn).
  destruct (0 + n <? 0) eqn:E; [destruct Hn; lia|]. by rewrite Z.add_0_l.
Qed.

Lemma find_free_ino_spec l :
  good_block l →
  if find_free_ino 1024 l <? 0 then first_clear l None
  else first_clear l (Some (find_free_ino 1024 l - 1)).
Proof.
  intros Hl. pose proof (find_free_spec l 1 Hl) as H. unfold find_free_ino.
  change (Z.to_nat 1024) with 1024%nat. destruct (skip_full 1024 0 1 l) as [chunk num].
  destruct (chunk =? 0xff); [done|]. destruct H as (n & -> & Hn).
  destruct (1 + n <? 0) eqn:E; [destruct Hn; lia|]. by replace (1 + n - 1) with n by lia.
Qed.

Lemma chunk_of_spec (cnt : nat) (k b : Z) :
  0 <= b < 8 * cnt → chunk_of cnt k b = Some (k + b / 8, b mod 8).
Proof.
  revert k b. induction cnt as [|cnt IH]; intros k b Hb; [lia|]. simpl.
  destruct (b <? 8) eqn:E.
  - do 2 f_equal; zlia.
  - rewrite IH by lia. do 2 f_equal; zlia.
Qed.

(** Setting or clearing one bit of a byte. *)
Lemma put_bit_spec c b val j :
  0 <= c < 256 → 0 <= b < 8 → 0 <= j < 8 →
  is_byte (put_bit c b val) ∧
  Z.testbit (put_bit c b val) j = if decide (j = b) then nz val else Z.testbit c j.
Proof.
  intros Hc Hb Hj. split; [unfold put_bit; destruct (nz val); apply u8_bound|].
  assert (E8 : ∀ x, Z.testbit (u8 x) j = Z.testbit x j).
  { intros x. unfold u8. change 256 with (2 ^ 8). by rewrite Z.mod_pow2_bits_low by lia. }
  assert (E1 : Z.testbit (Z.shiftl 1 b) j = bool_decide (j = b)).
  { rewrite Z.shiftl_1_l, Z.pow2_bits_eqb by lia. case_bool_decide; lia. }
  unfold put_bit. destruct (nz val); rewrite E8.
  - rewrite Z.lor_spec, E1. case_bool_decide; case_decide; try done; by rewrite ?orb_true_r, ?orb_false_r.
  - rewrite Z.land_spec, Z.lnot_spec, E8, E1 by lia.
    case_bool_decide; case_decide; try done; by rewrite ?andb_false_r, ?andb_true_r.
Qed.

(** The bitmap with bit [n] set to [val]. *)
Definition set_bit l n val : bytes :=
  splice l (Z.to_nat (n / 8)) [put_bit (byte_at l (Z.to_nat (n / 8))) (n mod 8) val].

Lemma set_bit_spec l n val :
  good_block l → 0 <= n < 8192 →
  good_block (set_bit l n val) ∧
  ∀ m, 0 <= m < 8192 → bit_of (set_bit l n val) m = if decide (m = n) then nz val else bit_of l m.
Proof.
  intros [Hl Hb] Hn. unfold BSIZE in Hl.
  assert (Hi : (Z.to_nat (n / 8) + 1 <= length l)%nat) by zlia.
  assert (Hmod : ∀ m, 0 <= m mod 8 < 8) by (intros; by apply Z.mod_pos_bound).
  pose proof (byte_at_ok l (Z.to_nat (n / 8)) Hb) as Hc. unfold set_bit. split.
  - split; [by rewrite length_splice|]. apply Forall_splice; [done|].
    repeat constructor; by apply (put_bit_spec _ _ val 0).
  - intros m Hm. unfold bit_of, byte_at at 1. rewrite lookup_splice by done. simpl length.
    case_decide as E.
    + replace (Z.to_nat (m / 8) - Z.to_nat (n / 8))%nat with 0%nat by lia. cbn [lookup list_lookup].
      cbn [default from_option id]. unfold id.
      destruct (put_bit_spec (byte_at l (Z.to_nat (n / 8))) (n mod 8) val (m mod 8)) as [_ ->]; [done..|].
      replace (Z.to_nat (m / 8)) with (Z.to_nat (n / 8)) by zlia.
      repeat case_decide; try done; zlia.
    + rewrite decide_False; [done|]. intros ->. apply E. lia.
Qed.
End bits.

(** ** Allocation *)

Section alloc.
Context {C : Type} {Hc : BlockCache C} {Hok : BlockCacheOk C}.
Implicit Types (s : fsst C) (dk : Z → bytes) (n : Z).

Lemma write_bit_ok dk held s i n bit val :
  fs_ok dk held s → n ∈ held → handle i n (fs_cache s) → 0 <= bit < 8192 →
  ∃ c, write_bit i bit val s = Ret 0 (with_cache c s) ∧
    fs_ok (upd_block n (set_bit (dk n) bit val) dk) held (with_cache c s) ∧
    ∀ j m, handle j m (fs_cache s) → handle j m c.
Proof.
  intros I Hin Hh Hb. pose proof (fs_block _ _ _ n I) as Hg.
  destruct (set_bit_spec (dk n) bit val Hg Hb) as [Hg' _].
  destruct (cupdate_ok _ _ _ _ _ _ I Hin Hh Hg') as (c & E & I' & Hk).
  exists c. split_and!; [|done|done]. unfold write_bit, get_sb. prog_step.
  rewrite (fo_bsize _ _ _ I), chunk_of_spec by (change (Z.to_nat 1024) with 1024%nat; lia).
  rewrite Z.add_0_l. destruct (bit mod 8 <? 0) eqn:E0; [zlia|]. prog_step.
  rewrite (pbind_ok _ _ _ _ _ (in_data_ok s (bit / 8) 1 ltac:(zlia) ltac:(unfold BSIZE; zlia))).
  rewrite (pbind_ok _ _ _ _ _ (cdata_ok _ _ _ _ _ I Hin Hh)). exact (E _ (ret 0)).
Qed.

(** The two allocators: the bitmap [bm], and the number [bit - base] of a bit. *)
Lemma bitmap_alloc_ok dk held s bm :
  fs_ok dk held s → bm ≠ 0 → is_bno bm → (length held < NBUF)%nat →
  ∃ i c1, cread bm s = Ret i (with_cache c1 s) ∧
    fs_ok dk (bm :: held) (with_cache c1 s) ∧
    (∀ bit, 0 <= bit < 8192 → ∃ c,
      (write_bit i bit 1 ;; cfree i) (with_cache c1 s) = Ret tt (with_cache c s) ∧
      fs_ok (upd_block bm (set_bit (dk bm) bit 1) dk) held (with_cache c s)) ∧
    cdata i (with_cache c1 s) = Ret (dk bm) (with_cache c1 s).
Proof.
  intros I H0 Hn Hl. destruct (cread_ok _ _ _ _ I H0 Hn Hl) as (i & c1 & E1 & I1 & Hh & _).
  exists i, c1. split_and!; [done|done| |].
  - intros bit Hb. destruct (write_bit_ok _ _ _ i bm bit 1 I1) as (c2 & E2 & I2 & Hk2); [constructor|done|done|].
    destruct (cfree_ok _ _ _ i bm I2) as (c3 & E3 & I3 & _); [by apply Hk2|].
    exists c3. split; [|done]. rewrite (pbind_ok _ _ _ _ _ E2). exact E3.
  - apply (cdata_ok _ _ _ _ _ I1); [constructor|done].
Qed.

Lemma alloc_block_ok dk held s :
  let bm := sb_block_bitmap (sb s) in
  fs_ok dk held s → bm ≠ 0 → is_bno bm → (length held < NBUF)%nat →
  if find_free_block 1024 (dk bm) <? 0
  then ∃ c, ext2_alloc_block s = Ret (-1) (with_cache c s) ∧ fs_ok dk (bm :: held) (with_cache c s)
  else ∃ c, ext2_alloc_block s = Ret (find_free_block 1024 (dk bm)) (with_cache c s) ∧
    fs_ok (upd_block bm (set_bit (dk bm) (find_free_block 1024 (dk bm)) 1) dk) held (with_cache c s).
Proof.
  intros bm I H0 Hn Hl. destruct (bitmap_alloc_ok _ _ _ _ I H0 Hn Hl) as (i & c1 & E1 & I1 & Hw & Hd).
  pose proof (find_free_block_spec (dk bm) (fs_block _ _ _ _ I)) as Hf.
  assert (E : ∀ r s', (if find_free_block 1024 (dk bm) <? 0 then ret (-1) else
    bbmp_write_bit i (find_free_block 1024 (dk bm)) 1 ;; cfree i ;;
    ret (find_free_block 1024 (dk bm))) (with_cache c1 s) = Ret r s' → ext2_alloc_block s = Ret r s').
  { intros r s' <-. unfold ext2_alloc_block, get_sb. prog_step. fold bm.
    rewrite (pbind_ok _ _ _ _ _ E1), (fo_bsize _ _ _ I).
    rewrite (pbind_ok _ _ _ _ _ (in_data_ok _ 0 1024 ltac:(lia) ltac:(unfold BSIZE; lia))).
    by rewrite (pbind_ok _ _ _ _ _ Hd). }
  destruct (find_free_block 1024 (dk bm) <? 0) eqn:Eb.
  - exists c1. split; [by apply E|done].
  - destruct (Hw (find_free_block 1024 (dk bm))) as (c & E2 & I2); [apply Hf|].
    exists c. split; [|done]. apply E. unfold bbmp_write_bit.
    apply pbind_inv in E2 as (r & s2 & Ea & Eb'). rewrite (pbind_ok _ _ _ _ _ Ea).
    by rewrite (pbind_ok _ _ _ _ _ Eb').
Qed.

Lemma alloc_inum_ok dk held s :
  let bm := sb_inode_bitmap (sb s) in
  fs_ok dk held s → bm ≠ 0 → is_bno bm → (length held < NBUF)%nat →
  if find_free_ino 1024 (dk bm) <? 0
  then ∃ c, ext2_alloc_inum s = Ret (-1) (with_cache c s) ∧ fs_ok dk (bm :: held) (with_cache c s)
  else ∃ c, ext2_alloc_inum s = Ret (find_free_ino 1024 (dk bm)) (with_cache c s) ∧
    fs_ok (upd_block bm (set_bit (dk bm) (find_free_ino 1024 (dk bm) - 1) 1) dk) held (with_cache c s).
Proof.
  intros bm I H0 Hn Hl. destruct (bitmap_alloc_ok _ _ _ _ I H0 Hn Hl) as (i & c1 & E1 & I1 & Hw & Hd).
  pose proof (find_free_ino_spec (dk bm) (fs_block _ _ _ _ I)) as Hf.
  assert (E : ∀ r s', (if find_free_ino 1024 (dk bm) <? 0 then ret (-1) else
    ibmp_write_bit i (find_free_ino 1024 (dk bm)) 1 ;; cfree i ;;
    ret (find_free_ino 1024 (dk bm))) (with_cache c1 s) = Ret r s' → ext2_alloc_inum s = Ret r s').
  { intros r s' <-. unfold ext2_alloc_inum, get_sb. prog_step. fold bm.
    rewrite (pbind_ok _ _ _ _ _ E1), (fo_bsize _ _ _ I).
    rewrite (pbind_ok _ _ _ _ _ (in_data_ok _ 0 1024 ltac:(lia) ltac:(unfold BSIZE; lia))).
    by rewrite (pbind_ok _ _ _ _ _ Hd). }
  destruct (find_free_ino 1024 (dk bm) <? 0) eqn:Eb.
  - exists c1. split; [by apply E|done].
  - destruct (Hw (find_free_ino 1024 (dk bm) - 1)) as (c & E2 & I2); [apply Hf|].
    exists c. split; [|done]. apply E. unfold ibmp_write_bit.
    apply pbind_inv in E2 as (r & s2 & Ea & Eb'). rewrite (pbind_ok _ _ _ _ _ Ea).
    by rewrite (pbind_ok _ _ _ _ _ Eb').
Qed.
End alloc.

(** ** Inodes in their disk blocks *)

(** Every field fits its width on disk. *)
Record inode_fits (x : inode) : Prop := {
  fit_mode : 0 <= i_mode x < 2 ^ 16;
  fit_links : 0 <= i_links_count x < 2 ^ 16;
  fit_words : Forall (λ v, 0 <= v < 2 ^ 32)
    [i_size x; i_atime x; i_ctime x; i_mtime x; i_dtime x; i_blocks x];
  fit_nblock : length (i_block x) = 15%nat;
  fit_block : Forall (λ v, 0 <= v < 2 ^ 32) (i_block x)
}.

(** The inode [y] with the fields of [x] that are on disk. *)
Definition disk_fields (x y : inode) : inode :=
  Inode (i_mode x) (i_size x) (i_atime x) (i_ctime x) (i_mtime x) (i_dtime x) (i_links_count x)
    (i_blocks x) (i_block x) (i_inum y) (i_major y) (i_minor y) (i_ref y).

Section disk_inode.
Implicit Types (l : bytes) (x y : inode) (off n o : nat).

Lemma length_block_bytes x : inode_fits x → length (block_bytes x) = 60%nat.
Proof. intros F. unfold block_bytes. by rewrite length_words, (fit_nblock _ F). Qed.

(** The parts of the inode [store_inode] writes; owner, group, flags and what
    follows the block numbers are kept. *)
Definition kept off o n : Prop :=
  (o + n <= off ∨ off + 100 <= o ∨ (off + 2 <= o ∧ o + n <= off + 4) ∨
   (off + 24 <= o ∧ o + n <= off + 26) ∨ (off + 32 <= o ∧ o + n <= off + 40))%nat.

(** A field of the last store, back to the store that wrote it. *)
Ltac field_back :=
  repeat match goal with
  | K : ∀ n o, _ → slice ?l' o n = slice ?l o n |- context [fld ?n ?l' ?o] =>
      rewrite (fld_slice n l l' o (K n o ltac:(lia)))
  end;
  match goal with V : fld ?n ?l ?o = _ |- context [fld ?n ?l ?o] => rewrite V end;
  apply Z.mod_small; lia.

Lemma store_inode_facts l off x :
  inode_fits x → (off + 100 <= length l)%nat →
  length (store_inode l off x) = length l ∧
  (∀ y, load_inode (store_inode l off x) off y = disk_fields x y) ∧
  (∀ o n, kept off o n → slice (store_inode l off x) o n = slice l o n) ∧
  (Forall is_byte l → Forall is_byte (store_inode l off x)).
Proof.
  intros F Hl. pose proof (length_block_bytes x F) as Hbl. unfold store_inode.
  set (l1 := set_fld 2 l off _). set (l2 := set_fld 4 l1 _ _). set (l3 := set_fld 4 l2 _ _).
  set (l4 := set_fld 4 l3 _ _). set (l5 := set_fld 4 l4 _ _). set (l6 := set_fld 4 l5 _ _).
  set (l7 := set_fld 2 l6 _ _). set (l8 := set_fld 4 l7 _ _). set (l9 := splice l8 _ _).
  destruct (set_fld_facts 2 l off (i_mode x)) as (N1 & V1 & K1); [lia|]. fold l1 in N1, V1, K1.
  destruct (set_fld_facts 4 l1 (off + 4) (i_size x)) as (N2 & V2 & K2); [lia|]. fold l2 in N2, V2, K2.
  destruct (set_fld_facts 4 l2 (off + 8) (i_atime x)) as (N3 & V3 & K3); [lia|]. fold l3 in N3, V3, K3.
  destruct (set_fld_facts 4 l3 (off + 12) (i_ctime x)) as (N4 & V4 & K4); [lia|]. fold l4 in N4, V4, K4.
  destruct (set_fld_facts 4 l4 (off + 16) (i_mtime x)) as (N5 & V5 & K5); [lia|]. fold l5 in N5, V5, K5.
  destruct (set_fld_facts 4 l5 (off + 20) (i_dtime x)) as (N6 & V6 & K6); [lia|]. fold l6 in N6, V6, K6.
  destruct (set_fld_facts 2 l6 (off + 26) (i_links_count x)) as (N7 & V7 & K7); [lia|]. fold l7 in N7, V7, K7.
  destruct (set_fld_facts 4 l7 (off + 28) (i_blocks x)) as (N8 & V8 & K8); [lia|]. fold l8 in N8, V8, K8.
  assert (N9 : length l9 = length l8) by (apply length_splice; lia).
  assert (K9 : ∀ n o, (o + n <= off + 40 ∨ off + 100 <= o)%nat → slice l9 o n = slice l8 o n).
  { intros n o Ho. apply slice_splice_other; lia. }
  split_and!; [lia| | |].
  - intros y. unfold load_inode, disk_fields.
    pose proof (fit_mode _ F) as B1. pose proof (fit_links _ F) as B7. pose proof (fit_words _ F) as Bw.
    repeat (apply Forall_cons in Bw as [? Bw]).
    f_equal; [field_back..|].
    apply list_eq_same_length with (n := 15%nat); [apply F|by rewrite length_fmap, length_seq|].
    intros k v w Hk Hv Hw. apply list_lookup_fmap_Some in Hv as (k' & -> & [-> _]%lookup_seq).
    unfold raw_block, l9. replace (off + 40 + 4 * (0 + k))%nat with ((off + 40) + 4 * k)%nat by lia.
    rewrite fld_eq, slice_splice_in by lia. unfold block_bytes.
    rewrite (slice_words _ _ _ Hw), le_val_bytes. apply Z.mod_small.
    by apply (Forall_lookup_1 _ _ _ _ (fit_block _ F) Hw).
  - unfold kept. intros o n Ho. by rewrite K9, K8, K7, K6, K5, K4, K3, K2, K1 by lia.
  - intros Hb. apply Forall_splice; [|apply words_ok]. by repeat apply set_fld_ok.
Qed.
End disk_inode.

(** ** Where inodes are *)

Section place.
Implicit Types (b : superblock) (n : Z).

Definition per_block b : Z := 1024 / sb_inode_size b.
Definition iblk b n : Z := sb_inode_table b + (n - 1) / per_block b.
Definition ioff b n : Z := (n - 1) mod per_block b * sb_inode_size b.

(** [n] is the number of an inode whose block number is sound. *)
Record inum_ok b n : Prop := {
  io_num : 0 < n < 2 ^ 31;
  io_size : 128 <= sb_inode_size b <= 1024;
  io_table : 0 < sb_inode_table b;
  io_block : iblk b n < 2 ^ 32
}.

Lemma ioff_bound b n : inum_ok b n → 0 <= ioff b n ∧ ioff b n + 128 <= 1024.
Proof.
  intros [Hn Hs _ _]. unfold ioff, per_block. pose proof (Z.mul_div_le 1024 (sb_inode_size b)).
  assert (1 <= 1024 / sb_inode_size b) by (apply Z.div_le_lower_bound; lia).
  pose proof (Z.mod_pos_bound (n - 1) (1024 / sb_inode_size b)). nia.
Qed.

(** Two inodes do not overlap on disk. *)
Lemma inode_apart b n m :
  inum_ok b n → inum_ok b m → n ≠ m → iblk b n = iblk b m →
  ioff b n + 128 <= ioff b m ∨ ioff b m + 128 <= ioff b n.
Proof.
  intros [Hn Hs _ _] [Hm _ _ _] Hne. unfold iblk, ioff.
  assert (1 <= per_block b) by (apply Z.div_le_lower_bound; lia).
  intros E. assert (Eq : (n - 1) / per_block b = (m - 1) / per_block b) by lia.
  pose proof (Z.div_mod (n - 1) (per_block b) ltac:(lia)).
  pose proof (Z.div_mod (m - 1) (per_block b) ltac:(lia)).
  assert ((n - 1) mod per_block b ≠ (m - 1) mod per_block b) by nia. nia.
Qed.

Lemma iblk_bno b n : inum_ok b n → iblk b n ≠ 0 ∧ is_bno (iblk b n).
Proof.
  intros [Hn Hs Ht Hb]. assert (1 <= per_block b) by (apply Z.div_le_lower_bound; lia).
  assert (0 <= (n - 1) / per_block b) by (apply Z.div_pos; lia).
  unfold is_bno, iblk in *. lia.
Qed.
End place.

Lemma slice_slice l off m k n : (k + n <= m)%nat → slice (slice l off m) k n = slice l (off + k) n.
Proof.
  intros H. apply list_eq. intros i. destruct (decide (i < n)%nat) as [Hi|Hi].
  - rewrite !lookup_slice by lia. f_equal. lia.
  - rewrite !lookup_ge_None_2; [done|..].
    + Transparent slice. unfold slice. rewrite length_take. lia.
    + unfold slice. rewrite length_take. lia.
Qed.
#[global] Opaque slice.

(** An inode depends on its 100 bytes only. *)
Lemma load_inode_ext l l' off y : slice l' off 100 = slice l off 100 → load_inode l' off y = load_inode l off y.
Proof.
  intros E.
  assert (F : ∀ n k, (k + n <= 100)%nat → fld n l' (off + k) = fld n l (off + k)).
  { intros n k Hk. apply fld_slice. by rewrite <- !(slice_slice _ off 100), E. }
  pose proof (F 2%nat 0%nat) as F0. rewrite Nat.add_0_r in F0.
  unfold load_inode. rewrite F0 by lia. rewrite !F by lia. f_equal.
  apply list_fmap_ext. intros i k Hk%lookup_seq. unfold raw_block.
  replace (off + 40 + 4 * k)%nat with (off + (40 + 4 * k))%nat by lia. apply F. lia.
Qed.

Section sync.
Context {C : Type} {Hc : BlockCache C} {Hok : BlockCacheOk C}.
Implicit Types (s : fsst C) (dk : Z → bytes) (x y : inode) (n : Z).

(** The inode number [n] on the disk [dk], in an entry that was [y]. *)
Definition disk_inode dk (b : superblock) n y : inode := load_inode (dk (iblk b n)) (Z.to_nat (ioff b n)) y.

Lemma raw_inode_ok dk held s n :
  fs_ok dk held s → inum_ok (sb s) n → (length held < NBUF)%nat →
  ∃ i c, ext2_raw_inode n s = Ret (i, ioff (sb s) n) (with_cache c s) ∧
    fs_ok dk (iblk (sb s) n :: held) (with_cache c s) ∧ handle i (iblk (sb s) n) c ∧
    ∀ j m, handle j m (fs_cache s) → handle j m c.
Proof.
  intros I Hn Hl. destruct (iblk_bno _ _ Hn) as [H0 Hb]. pose proof (ioff_bound _ _ Hn) as Ho.
  destruct (cread_ok dk held s _ I H0 Hb Hl) as (i & c & E & I' & Hh & Hk).
  exists i, c. split_and!; [|done..]. destruct Hn as [Hn1 Hn2 Hn3 Hn4].
  assert (Hper : 1 <= per_block (sb s)) by (apply Z.div_le_lower_bound; lia).
  unfold ext2_raw_inode, get_sb. prog_step. rewrite (fo_bsize _ _ _ I).
  destruct (sb_inode_size (sb s) =? 0) eqn:E1; [lia|]. prog_step. fold (per_block (sb s)).
  destruct (per_block (sb s) =? 0) eqn:E2; [lia|]. prog_step.
  rewrite (u32_small (n - 1)) by lia. fold (ioff (sb s) n). rewrite (u32_small (ioff _ _)) by lia.
  rewrite u32_small by (destruct Hb; done). fold (iblk (sb s) n).
  by rewrite (pbind_ok _ _ _ _ _ E).
Qed.

Lemma inode_sync_ok dk held s i x :
  fs_ok dk held s → itable s !! i = Some x → inode_fits x → inum_ok (sb s) (i_inum x) →
  (length held < NBUF)%nat →
  let n := iblk (sb s) (i_inum x) in
  let l := store_inode (dk n) (Z.to_nat (ioff (sb s) (i_inum x))) x in
  ∃ c, inode_sync i s = Ret tt (with_cache c s) ∧ fs_ok (upd_block n l dk) held (with_cache c s) ∧
    ∀ j m, m ∈ held → handle j m (fs_cache s) → handle j m c.
Proof.
  intros I Hi F Hn Hl n l. pose proof (ioff_bound _ _ Hn) as Ho.
  destruct (raw_inode_ok dk held s _ I Hn Hl) as (b & c1 & E1 & I1 & Hh1 & Hk1). fold n in I1, Hh1.
  pose proof (fs_block _ _ _ n I) as [Hlen Hb]. unfold BSIZE in Hlen.
  destruct (store_inode_facts (dk n) (Z.to_nat (ioff (sb s) (i_inum x))) x F) as (Hlen' & _ & _ & Hb'); [lia|].
  destruct (cupdate_ok dk (n :: held) (with_cache c1 s) b n l I1) as (c2 & E2 & I2 & Hk2);
    [constructor|done|split; [etrans; [exact Hlen'|exact Hlen]|by apply Hb']|].
  destruct (cfree_ok _ held (with_cache c2 (with_cache c1 s)) b n I2) as (c3 & E3 & I3 & Hk3); [by apply Hk2|].
  exists c3. split_and!; [|done|].
  - unfold inode_sync. rewrite (pbind_ok _ _ _ _ _ (ino_at_run _ _ _ Hi)), (pbind_ok _ _ _ _ _ E1).
    cbn [fst snd]. rewrite (pbind_ok _ _ _ _ _ (in_data_ok _ (ioff (sb s) (i_inum x)) 100 ltac:(lia) ltac:(unfold BSIZE; lia))).
    rewrite (pbind_ok _ _ _ _ _ (cdata_ok _ _ _ b n I1 ltac:(constructor) Hh1)).
    rewrite E2. exact E3.
  - intros j m Hm Hj. apply Hk3; [done|]. by apply Hk2, Hk1.
Qed.

(** Writing an inode changes no other. *)
Lemma disk_inode_other dk b x m y :
  inum_ok b (i_inum x) → inum_ok b m → m ≠ i_inum x → inode_fits x →
  good_block (dk (iblk b (i_inum x))) →
  disk_inode (upd_block (iblk b (i_inum x))
    (store_inode (dk (iblk b (i_inum x))) (Z.to_nat (ioff b (i_inum x))) x) dk) b m y = disk_inode dk b m y.
Proof.
  intros Hn Hm Hne F [Hlen _]. pose proof (ioff_bound _ _ Hn). pose proof (ioff_bound _ _ Hm). unfold BSIZE in Hlen.
  destruct (store_inode_facts (dk (iblk b (i_inum x))) (Z.to_nat (ioff b (i_inum x))) x F) as (_ & _ & K & _); [lia|].
  unfold disk_inode, upd_block. case_decide as E; [|done].
  destruct (inode_apart b m (i_inum x) Hm Hn Hne E) as [Ha|Ha]; rewrite E;
    apply load_inode_ext, K; unfold kept; lia.
Qed.

Lemma disk_inode_same dk b x y :
  inum_ok b (i_inum x) → inode_fits x → good_block (dk (iblk b (i_inum x))) →
  disk_inode (upd_block (iblk b (i_inum x))
    (store_inode (dk (iblk b (i_inum x))) (Z.to_nat (ioff b (i_inum x))) x) dk) b (i_inum x) y = disk_fields x y.
Proof.
  intros Hn F [Hlen _]. pose proof (ioff_bound _ _ Hn). unfold BSIZE in Hlen.
  destruct (store_inode_facts (dk (iblk b (i_inum x))) (Z.to_nat (ioff b (i_inum x))) x F) as (_ & L & _ & _); [lia|].
  unfold disk_inode, upd_block. by rewrite decide_True.
Qed.

(** [ext2_get_inode]: the entry found, with the fields on disk. *)
Lemma get_inode_ok dk held s n i x :
  fs_ok dk held s → itable_ok (itable s) → inum_ok (sb s) n → (length held < NBUF)%nat →
  itable s !! i = Some x → (i_ref x = 0 ∨ i_inum x = n) →
  ∃ j y c, found (itable s) n j y ∧ cached dk held c ∧ ext2_get_inode n s = Ret (Some j)
      (FsSt c lock_init (<[j := disk_inode dk (sb s) n y]> (itable s)) (sb s) (fs_mem s)).
Proof.
  intros I It Hn Hl Hx Hroom. pose proof (ioff_bound _ _ Hn) as Ho.
  pose proof (cached_hart _ _ _ (fo_cache _ _ _ I)) as Hh.
  destruct (find_inode_run s n Hh (fo_lock _ _ _ I) It (io_num _ _ Hn)) as [(j & y & F & E)|[Hno _]].
  2: { exfalso. destruct (Hno _ _ Hx) as [? ?]. by destruct Hroom. }
  assert (Hlt : (j < length (itable s))%nat) by (destruct F; by eapply lookup_lt_Some).
  set (s1 := with_table _ _ s) in E.
  assert (I1 : fs_ok dk held s1).
  { split; [|done|apply I]. apply cached_set_hart; [apply I|by apply touched_ok]. }
  destruct (raw_inode_ok dk held s1 n I1 Hn Hl) as (b & c1 & E1 & I2 & Hh2 & _).
  cbn [sb with_table] in *. change (sb s1) with (sb s) in *.
  set (s2 := FsSt c1 lock_init (<[j := disk_inode dk (sb s) n y]> (itable s)) (sb s) (fs_mem s)).
  assert (I3 : fs_ok dk (iblk (sb s) n :: held) s2) by (split; [apply I2|done|apply I]).
  destruct (cfree_ok _ held s2 b _ I3 Hh2) as (c3 & E3 & I4 & _).
  exists j, y, c3. split_and!; [done|apply I4|]. unfold ext2_get_inode.
  rewrite (pbind_ok _ _ _ _ _ E), (pbind_ok _ _ _ _ _ E1). cbn [fst snd].
  rewrite (pbind_ok _ _ _ _ _ (in_data_ok _ (ioff (sb s) n) 100 ltac:(lia) ltac:(unfold BSIZE; lia))).
  rewrite (pbind_ok _ _ _ _ _ (cdata_ok _ _ _ b _ I2 ltac:(constructor) Hh2)).
  erewrite pbind_ok; [|apply upd_ino_run; cbn; by apply list_lookup_insert_eq].
  cbn [fs_cache itable_lk itable sb fs_mem with_cache s1 with_table]. rewrite list_insert_insert_eq.
  erewrite pbind_ok; [|exact E3]. done.
Qed.
End sync.

Module AllocProps.

(** The outcome of an allocation from the bitmap in block [bm]: the number
    [base] plus that of the first clear bit, which is set, nothing else on the
    disk being changed; or -1 when every bit is set. *)
Definition allocated {C} `{BlockCache C} (dk : Z → bytes) (held : list Z) (bm base : Z)
    (r : outcome (fsst C) Z) : Prop :=
  (∃ k s' dk', r = Ret (base + k) s' ∧ first_clear (dk bm) (Some k) ∧ fs_ok dk' held s' ∧
     (∀ m, m ≠ bm → dk' m = dk m) ∧
     ∀ j, 0 <= j < 8192 → bit_of (dk' bm) j = (bool_decide (j = k) || bit_of (dk bm) j)) ∨
  (first_clear (dk bm) None ∧ ∃ s', r = Ret (-1) s' ∧ fs_ok dk (bm :: held) s').

Lemma allocated_set {C} `{BlockCache C} dk held bm base k (s' : fsst C) :
  good_block (dk bm) → first_clear (dk bm) (Some k) →
  fs_ok (upd_block bm (set_bit (dk bm) k 1) dk) held s' →
  allocated dk held bm base (Ret (base + k) s').
Proof.
  intros Hg Hk I. left. exists k, s', (upd_block bm (set_bit (dk bm) k 1) dk).
  split_and!; [done|done|done| |].
  - intros m Hm. unfold upd_block. by rewrite decide_False.
  - intros j Hj. unfold upd_block. rewrite decide_True by done.
    destruct Hk as (Hk & _). destruct (set_bit_spec (dk bm) k 1 Hg Hk) as [_ ->]; [|done].
    case_decide; case_bool_decide; done.
Qed.


Lemma start_fs_ok : fs_ok (block (MemDisk ∅)) [] FsProps.start_fs.
Proof. split; [exact FsProps.empty_cached|reflexivity|reflexivity]. Qed.


(** C27: an inode survives the disk. [inode_sync] of an entry followed by
    [ext2_get_inode] of its number returns that entry, every field as it was
    and one reference more; every other inode on the disk reads as before, and
    so does every block but the one of the inode. *)
Theorem inode_roundtrip {C} `{BlockCacheOk C} (s : fsst C) dk held i x :
  fs_ok dk held s → itable_ok (itable s) → itable s !! i = Some x → i_ref x ≠ 0 → inode_fits x →
  inum_ok (sb s) (i_inum x) → (length held < NBUF)%nat →
  ∃ s1 s2 dk', inode_sync i s = Ret tt s1 ∧ fs_ok dk' held s1 ∧
    ext2_get_inode (i_inum x) s1 = Ret (Some i) s2 ∧ fs_ok dk' held s2 ∧
    itable s2 = <[i := set_iref (i_ref x + 1) x]> (itable s) ∧
    (∀ m y, inum_ok (sb s) m → m ≠ i_inum x → disk_inode dk' (sb s) m y = disk_inode dk (sb s) m y) ∧
    ∀ n, n ≠ iblk (sb s) (i_inum x) → dk' n = dk n.
Proof.
  intros I It Hi Hr F Hn Hl. pose proof (fs_block _ _ _ (iblk (sb s) (i_inum x)) I) as Hg.
  destruct (inode_sync_ok dk held s i x I Hi F Hn Hl) as (c & E & I1 & _).
  destruct (get_inode_ok _ held (with_cache c s) (i_inum x) i x I1 It Hn Hl Hi (or_intror eq_refl))
    as (j & y & c2 & Hf & I2 & E2).
  assert (Hy : j = i ∧ y = set_iref (i_ref x + 1) x).
  { destruct Hf as [j x' Hj Hx' Hr'|j Hj Hno]; [|by destruct (Hno _ _ Hi)].
    assert (j = i) as -> by (by eapply (it_uniq _ It)). cbn [itable with_cache] in Hj. by simplify_eq. }
  destruct Hy as [-> ->]. eexists _, _, _. split_and!; [exact E|exact I1|exact E2| | | |].
  - split; [exact I2|done|apply I].
  - cbn [itable with_cache sb]. f_equal.
    rewrite (disk_inode_same dk (sb s) x _ Hn F Hg). by destruct x.
  - intros m z Hm Hne. by apply disk_inode_other.
  - intros n Hne. unfold upd_block. by rewrite decide_False.
Qed.

(** Inode 12: a file of 5 bytes. *)
Definition inode12 : inode := Inode 0x81a4 5 1 2 3 0 1 2 (9 :: replicate 14 0) 12 0 0 1.
Definition sync_fs : fsst (bcache memdisk) :=
  FsSt empty_cache lock_init (<[7%nat := inode12]> (replicate NINODE inode_zero))
    (sb FsProps.start_fs) ∅.

Lemma inode_roundtrip_witness :
  ∃ s1 s2, inode_sync 7 sync_fs = Ret tt s1 ∧ ext2_get_inode 12 s1 = Ret (Some 7%nat) s2 ∧
    itable s2 !! 7%nat = Some (set_iref 2 inode12).
Proof.
  destruct (inode_roundtrip sync_fs (block (MemDisk ∅)) [] 7 inode12)
    as (s1 & s2 & dk' & E1 & _ & E2 & _ & Et & _).
  - split; [exact FsProps.empty_cached|reflexivity|reflexivity].
  - apply (itable_insert _ 7 inode_zero); [exact itable_init|reflexivity|vm_compute; congruence| |].
    + intros _. vm_compute. split; [discriminate|split; reflexivity].
    + intros _ j z _ Hz. apply lookup_replicate in Hz as [-> _]. vm_compute. discriminate.
  - reflexivity.
  - vm_compute. discriminate.
  - split; [simpl; lia|simpl; lia|repeat constructor; simpl; lia|reflexivity|].
    apply (bool_decide_unpack _). vm_compute. exact Logic.I.
  - split; [simpl; lia|simpl; lia|simpl; lia|].
    vm_compute. reflexivity.
  - unfold NBUF. simpl. lia.
  - exists s1, s2. split; [exact E1|]. split; [exact E2|]. rewrite Et. reflexivity.
Defined.

End AllocProps.
