(* ===== verification/Ext2File.v ===== *)
(** * ext2: the contents of files

    What [ext2_read_inode] and [ext2_w_inode] do, stated on the bytes of a
    file: byte [p] is byte [p mod 1024] of the file's block [p / 1024]. *)

From S2P Require Import Prelude Mem Bytes Spinlock Buf Fs Ext2 Ext2Alloc.
Import Spin.
Open Scope Z_scope.
Open Scope prog_scope.

Section content.
Implicit Types (dk : Z → bytes) (x : inode) (k n p : Z).

(** The number of the file's block [k]: direct, or from the indirect block. *)
Definition direct x k : Z := default 0 (i_block x !! Z.to_nat k).
Definition file_block dk x k : Z :=
  if k <? 12 then direct x k else fld 4 (dk (direct x 12)) (Z.to_nat (4 * (k - 12))).

Definition fbyte dk x p : Z := byte_at (dk (file_block dk x (p / 1024))) (Z.to_nat (p mod 1024)).

(** A file whose blocks are all there. *)
Record file_ok dk x : Prop := {
  fi_len : length (i_block x) = 15%nat;
  fi_few : 0 <= ext2_inode_nblock x <= 268;
  fi_block : ∀ k, 0 <= k < ext2_inode_nblock x → file_block dk x k ≠ 0 ∧ is_bno (file_block dk x k);
  fi_map : 12 < ext2_inode_nblock x → direct x 12 ≠ 0 ∧ is_bno (direct x 12);
  fi_size : 0 <= i_size x <= 1024 * ext2_inode_nblock x
}.

(** Its blocks are its own, and none of them is its map. *)
Record file_inj dk x : Prop := {
  fi_inj : ∀ j k, 0 <= j < ext2_inode_nblock x → 0 <= k < ext2_inode_nblock x →
    file_block dk x j = file_block dk x k → j = k;
  fi_nomap : ∀ k, 12 < ext2_inode_nblock x → 0 <= k < ext2_inode_nblock x →
    file_block dk x k ≠ direct x 12
}.

Lemma cp_size_eq size off : 0 <= size → 0 <= off < 1024 → cp_size size 1024 off = Z.min size (1024 - off).
Proof. intros. unfold cp_size. destruct (off + Z.min size 1024 >? 1024) eqn:E; lia. Qed.

(** Changing one data block of a file. *)
Lemma file_block_upd dk x j l k :
  file_ok dk x → file_inj dk x → 0 <= j < ext2_inode_nblock x → 0 <= k < ext2_inode_nblock x →
  file_block (upd_block (file_block dk x j) l dk) x k = file_block dk x k.
Proof.
  intros F I Hj Hk. unfold file_block at 1 3. destruct (k <? 12) eqn:E; [done|].
  unfold upd_block. rewrite decide_False; [done|]. intros E'.
  apply (fi_nomap _ _ I j); [lia|done|done].
Qed.

Lemma file_upd_ok dk x j l :
  file_ok dk x → file_inj dk x → 0 <= j < ext2_inode_nblock x →
  file_ok (upd_block (file_block dk x j) l dk) x ∧ file_inj (upd_block (file_block dk x j) l dk) x.
Proof.
  intros F I Hj. split; split; try apply F.
  - intros k Hk. rewrite file_block_upd by done. by apply F.
  - intros a b Ha Hb. rewrite !file_block_upd by done. by apply I.
  - intros k Hm Hk. rewrite file_block_upd by done. by apply I.
Qed.

Lemma fbyte_upd dk x j l p :
  file_ok dk x → file_inj dk x → 0 <= j < ext2_inode_nblock x → 0 <= p < 1024 * ext2_inode_nblock x →
  fbyte (upd_block (file_block dk x j) l dk) x p =
    if decide (p / 1024 = j) then byte_at l (Z.to_nat (p mod 1024)) else fbyte dk x p.
Proof.
  intros F I Hj Hp. assert (Hk : 0 <= p / 1024 < ext2_inode_nblock x) by zlia.
  unfold fbyte. rewrite file_block_upd by done. unfold upd_block.
  destruct (decide (p / 1024 = j)) as [->|E]; [by rewrite decide_True|].
  rewrite decide_False; [done|]. intros E'. apply E. by apply (fi_inj _ _ I).
Qed.
End content.

Section files.
Context {C : Type} {Hc : BlockCache C} {Hok : BlockCacheOk C}.
Implicit Types (s : fsst C) (dk : Z → bytes) (x : inode) (i : nat) (k p buf off size : Z).

Definition with_cm (c : C) (m : mem) s : fsst C := FsSt c (itable_lk s) (itable s) (sb s) m.

Lemma block_no_run x k s : 0 <= k → length (i_block x) = 15%nat → k < 15 → block_no x k s = Ret (direct x k) s.
Proof.
  intros H0 Hl Hk. unfold block_no, direct. destruct (k <? 0) eqn:E; [lia|].
  destruct (lookup_lt_is_Some_2 (i_block x) (Z.to_nat k)) as [n ->]; [lia|done].
Qed.

Lemma inode_block_ok dk held s i x k :
  fs_ok dk held s → itable s !! i = Some x → file_ok dk x → 0 <= k < ext2_inode_nblock x →
  (length held < 31)%nat →
  ∃ b c, ext2_inode_block i k s = Ret b (with_cache c s) ∧
    fs_ok dk (file_block dk x k :: held) (with_cache c s) ∧ handle b (file_block dk x k) c ∧
    ∀ j m, m ∈ held → handle j m (fs_cache s) → handle j m c.
Proof.
  intros I Hi F Hk Hl. destruct (fi_block _ _ F k Hk) as [H0 Hn]. pose proof (fi_few _ _ F).
  unfold ext2_inode_block. unfold file_block in *. destruct (k <? 12) eqn:E.
  - destruct (cread_ok dk held s (direct x k) I H0 Hn) as (b & c & E1 & I1 & Hh & Hkp); [unfold NBUF; lia|].
    exists b, c. split_and!; [|done|done|auto].
    rewrite (pbind_ok _ _ _ _ _ (ino_at_run _ _ _ Hi)).
    rewrite (pbind_ok _ _ _ _ _ (block_no_run x k s ltac:(lia) (fi_len _ _ F) ltac:(lia))). done.
  - destruct (fi_map _ _ F) as [M0 Mn]; [lia|].
    set (bn := fld 4 (dk (direct x 12)) (Z.to_nat (4 * (k - 12)))) in *.
    destruct (cread_ok dk held s (direct x 12) I M0 Mn) as (bm & c1 & E1 & I1 & Hh1 & Hk1); [unfold NBUF; lia|].
    destruct (cread_ok dk _ _ bn I1 H0 Hn) as (b & c2 & E2 & I2 & Hh2 & Hk2); [simpl; unfold NBUF; lia|].
    destruct (cfree_ok dk (bn :: held) (with_cache c2 (with_cache c1 s)) bm (direct x 12)) as (c3 & E3 & I3 & Hk3).
    { eapply fs_ok_perm; [apply perm_swap|exact I2]. }
    { by apply Hk2. }
    exists b, c3. split_and!; [|done|apply Hk3; [constructor|done]|].
    + rewrite (pbind_ok _ _ _ _ _ (ino_at_run _ _ _ Hi)).
      rewrite (pbind_ok _ _ _ _ _ (block_no_run x 12 s ltac:(lia) (fi_len _ _ F) ltac:(lia))).
      rewrite (pbind_ok _ _ _ _ _ E1).
      rewrite (pbind_ok _ _ _ _ _ (cdata_ok _ _ _ bm _ I1 ltac:(constructor) Hh1)).
      erewrite pbind_ok.
      2: { unfold read_indirect_block. cbv zeta.
           rewrite (pbind_ok _ _ _ _ _ (in_data_ok _ (4 * (k - 12)) 4 ltac:(lia) ltac:(unfold BSIZE; lia))).
           exact E2. }
      by rewrite (pbind_ok _ _ _ _ _ E3).
    + intros j m Hm Hj. apply Hk3; [by constructor|]. by apply Hk2, Hk1.
Qed.

(** One file block read, used, and given back. *)
Lemma read_loop_ok dk (cnt : nat) i x : ∀ held s bi off buf size,
  fs_ok dk held s → itable s !! i = Some x → file_ok dk x → (length held < 31)%nat →
  0 <= bi → bi + cnt <= ext2_inode_nblock x → 0 <= off < 1024 → 0 <= size → size + off <= 1024 * cnt →
  ∃ c m', read_loop cnt 1024 i bi off buf size s = Ret (buf + size) (with_cm c m' s) ∧
    fs_ok dk held (with_cm c m' s) ∧
    ∀ a, rd8 m' a = if decide (buf <= a < buf + size) then fbyte dk x (1024 * bi + off + (a - buf))
                    else rd8 (fs_mem s) a.
Proof.
  induction cnt as [|cnt IH]; intros held s bi off buf size I Hi F Hl Hbi Hn Ho Hs Hcov.
  - exists (fs_cache s), (fs_mem s). assert (size = 0) as -> by lia. rewrite Z.add_0_r.
    split_and!; [by destruct s|by destruct s|]. intros a. rewrite decide_False by lia. done.
  - destruct (inode_block_ok dk held s i x bi I Hi F) as (b & c1 & E1 & I1 & Hh & _); [lia|done|].
    set (n := file_block dk x bi) in *. set (cp := Z.min size (1024 - off)).
    set (m1 := mwrite (fs_mem s) buf (slice (dk n) (Z.to_nat off) (Z.to_nat cp))).
    pose proof (fs_block _ _ _ n I) as [Hbl Hby]. unfold BSIZE in Hbl.
    assert (Hsl : length (slice (dk n) (Z.to_nat off) (Z.to_nat cp)) = Z.to_nat cp) by (apply length_slice; lia).
    set (s1 := with_cm c1 m1 s).
    assert (I1' : fs_ok dk (n :: held) s1) by (split; apply I1).
    destruct (cfree_ok dk held s1 b n I1' Hh) as (c2 & E2 & I2 & _).
    destruct (IH held (with_cache c2 s1) (bi + 1) 0 (buf + cp) (size - cp) I2 Hi F Hl)
      as (c & m' & E3 & I3 & R3); [lia..|].
    exists c, m'. split_and!; [|exact I3|].
    + cbn [read_loop]. rewrite (pbind_ok _ _ _ _ _ E1). cbv zeta. rewrite cp_size_eq by lia. fold cp.
      rewrite (pbind_ok _ _ _ _ _ (in_data_ok _ off cp ltac:(lia) ltac:(unfold BSIZE; lia))).
      rewrite (pbind_ok _ _ _ _ _ (cdata_ok _ _ _ b n I1 ltac:(constructor) Hh)).
      erewrite pbind_ok; [|apply (zoom_ok of_mem); reflexivity].
      change (lset of_mem _ (with_cache c1 s)) with s1.
      rewrite (pbind_ok _ _ _ _ _ E2), E3. f_equal. lia.
    + intros a. rewrite R3. cbn [fs_mem with_cache s1 with_cm].
      destruct (decide (buf <= a < buf + size)) as [Ha|Ha].
      * destruct (decide (buf + cp <= a < buf + cp + (size - cp))) as [Hb|Hb].
        -- f_equal. lia.
        -- unfold m1. rewrite rd8_mwrite, decide_True by lia.
           unfold byte_at, fbyte. rewrite lookup_slice by lia.
           replace ((1024 * bi + off + (a - buf)) / 1024) with bi by zlia. fold n.
           replace (Z.to_nat off + Z.to_nat (a - buf))%nat
             with (Z.to_nat ((1024 * bi + off + (a - buf)) mod 1024)) by zlia.
           unfold byte_at. apply u8_small. fold (byte_at (dk n) (Z.to_nat ((1024 * bi + off + (a - buf)) mod 1024))).
           by apply byte_at_ok.
      * rewrite decide_False by lia. unfold m1. rewrite rd8_mwrite_other by lia. done.
Qed.

(** The number of turns covers what there is to move. *)
Lemma blk_turns_ok x off size :
  0 <= off → 0 <= size → 0 <= ext2_inode_nblock x <= 268 → off + size <= 1024 * ext2_inode_nblock x →
  let cnt := blk_turns x (off / 1024) ((size + off) / 1024) in
  off / 1024 + cnt <= ext2_inode_nblock x ∧ size + off mod 1024 <= 1024 * cnt.
Proof.
  intros Ho Hs Hn Hc'. cbv zeta. unfold blk_turns. generalize dependent (ext2_inode_nblock x). intros n Hn Hb.
  pose proof (Z.div_mod off 1024 ltac:(lia)). pose proof (Z.mod_pos_bound off 1024 ltac:(lia)).
  pose proof (Z.div_mod (size + off) 1024 ltac:(lia)). pose proof (Z.mod_pos_bound (size + off) 1024 ltac:(lia)).
  rewrite Z2Nat.id; lia.
Qed.

(** ** Reading *)

Lemma read_inode_ok dk held s i x buf off size :
  fs_ok dk held s → itable s !! i = Some x → file_ok dk x → (length held < 31)%nat →
  0 <= off → 0 <= size → off + size < 2 ^ 64 → i_size x < 2 ^ 31 →
  if off >? i_size x then ext2_read_inode i buf off size s = Ret (-1) s else
  ∃ c m', ext2_read_inode i buf off size s = Ret (Z.min size (i_size x - off)) (with_cm c m' s) ∧
    fs_ok dk held (with_cm c m' s) ∧
    ∀ a, rd8 m' a = if decide (buf <= a < buf + Z.min size (i_size x - off))
                    then fbyte dk x (off + (a - buf)) else rd8 (fs_mem s) a.
Proof.
  intros I Hi F Hl Ho Hs Hb Hsz. pose proof (fi_size _ _ F) as Hx. pose proof (fi_few _ _ F) as Hfew.
  assert (E : ∀ r, (if off >? i_size x then ret (-1) else
      let size := if off +u64 size >? i_size x then i_size x - off else size in
      e <- read_loop (blk_turns x (u32 (off / 1024)) (u32 ((size +u64 off) / 1024))) 1024 i
             (u32 (off / 1024)) (off mod 1024) buf size ;;
      ret (i32 (e - buf))) s = r → ext2_read_inode i buf off size s = r).
  { intros r <-. unfold ext2_read_inode, get_sb. prog_step. rewrite (fo_bsize _ _ _ I).
    by rewrite (pbind_ok _ _ _ _ _ (ino_at_run _ _ _ Hi)). }
  destruct (off >? i_size x) eqn:Eo; [by apply E|].
  set (len := Z.min size (i_size x - off)).
  assert (Elen : (if off +u64 size >? i_size x then i_size x - off else size) = len).
  { rewrite u64_small by lia. destruct (off + size >? i_size x) eqn:?; lia. }
  rewrite Elen in E. cbv zeta in E. rewrite (u64_small (len + off)) in E by lia.
  rewrite !(u32_small (_ / 1024)) in E by zlia.
  destruct (blk_turns_ok x off len) as [T1 T2]; [lia..|].
  destruct (read_loop_ok dk (blk_turns x (off / 1024) ((len + off) / 1024)) i x held s (off / 1024) (off mod 1024) buf len I Hi F Hl)
    as (c & m' & E1 & I1 & R1); [zlia|exact T1|by apply Z.mod_pos_bound|lia|lia|].
  exists c, m'. split_and!; [|done|].
  - apply E. rewrite (pbind_ok _ _ _ _ _ E1). unfold ret. f_equal.
    replace (buf + len - buf) with len by lia. apply i32_small. lia.
  - intros a. rewrite R1. by replace (1024 * (off / 1024) + off mod 1024) with off by zlia.
Qed.

(** ** Writing *)

Lemma write_loop_ok (cnt : nat) i x : ∀ dk held s bi off buf size,
  fs_ok dk held s → itable s !! i = Some x → file_ok dk x → file_inj dk x → (length held < 31)%nat →
  0 <= bi → bi + cnt <= ext2_inode_nblock x → 0 <= off < 1024 → 0 <= size → size + off <= 1024 * cnt →
  off = 0 ∨ off + size <= 1024 →
  ∃ c dk', write_loop cnt 1024 i bi off buf size s = Ret tt (with_cache c s) ∧
    fs_ok dk' held (with_cache c s) ∧ file_ok dk' x ∧ file_inj dk' x ∧
    (∀ n, (∀ k, 0 <= k < ext2_inode_nblock x → n ≠ file_block dk x k) → dk' n = dk n) ∧
    (∀ k, 0 <= k < ext2_inode_nblock x → file_block dk' x k = file_block dk x k) ∧
    ∀ p, 0 <= p < 1024 * ext2_inode_nblock x → fbyte dk' x p =
      if decide (1024 * bi + off <= p < 1024 * bi + off + size)
      then rd8 (fs_mem s) (buf + (p - (1024 * bi + off))) else fbyte dk x p.
Proof.
  induction cnt as [|cnt IH]; intros dk held s bi off buf size I Hi F J Hl Hbi Hn Ho Hs Hcov Hal.
  - exists (fs_cache s), dk. split_and!; [by destruct s|by destruct s|done|done|done|done|].
    intros p Hp. by rewrite decide_False by lia.
  - assert (Hk : 0 <= bi < ext2_inode_nblock x) by lia.
    destruct (inode_block_ok dk held s i x bi I Hi F) as (b & c1 & E1 & I1 & Hh & _); [lia|done|].
    set (n := file_block dk x bi) in *. set (cp := Z.min size (1024 - off)).
    set (src := mread (fs_mem s) buf (Z.to_nat cp)). set (l := splice (dk n) (Z.to_nat off) src).
    pose proof (fs_block _ _ _ n I) as [Hbl Hby]. unfold BSIZE in Hbl.
    assert (Hsrc : length src = Z.to_nat cp) by apply length_mread.
    assert (Hgood : good_block l).
    { split; [unfold l; rewrite length_splice by lia; exact Hbl|]. apply Forall_splice; [done|apply mread_ok]. }
    destruct (cupdate_ok dk (n :: held) (with_cache c1 s) b n l I1) as (c2 & E2 & I2 & Hk2);
      [constructor|done|done|].
    destruct (cfree_ok _ held (with_cache c2 (with_cache c1 s)) b n I2) as (c3 & E3 & I3 & _); [by apply Hk2|].
    destruct (file_upd_ok dk x bi l F J Hk) as [F' J']. fold n in F', J'.
    destruct (IH (upd_block n l dk) held (with_cache c3 s) (bi + 1) 0 (buf + cp)
      (if size >? 1024 then size - 1024 else 0)) as (c & dk' & E4 & I4 & F4 & J4 & R4 & B4 & P4);
      [exact I3|exact Hi|done|done|done|lia|lia|lia|destruct (size >? 1024) eqn:?; lia..|by left|].
    exists c, dk'. split_and!; [|exact I4|done|done| | |].
    + cbn [write_loop]. rewrite (pbind_ok _ _ _ _ _ E1). cbv zeta. rewrite cp_size_eq by lia. fold cp.
      rewrite (pbind_ok _ _ _ _ _ (in_data_ok _ off cp ltac:(lia) ltac:(unfold BSIZE; lia))).
      rewrite (pbind_ok _ _ _ _ _ (cdata_ok _ _ _ b n I1 ltac:(constructor) Hh)).
      prog_step. cbn [fs_mem with_cache]. fold src. fold l. rewrite E2.
      rewrite (pbind_ok _ _ _ _ _ E3). exact E4.
    + intros n' Hn'. rewrite R4.
      * unfold upd_block. rewrite decide_False; [done|]. by apply Hn'.
      * intros k Hk'. unfold n. rewrite file_block_upd by done. by apply Hn'.
    + intros k Hk'. rewrite B4 by done. by apply file_block_upd.
    + intros p Hp. rewrite P4 by done. unfold n at 1. rewrite fbyte_upd by done. fold n.
      cbn [fs_mem with_cache].
      destruct (decide (p / 1024 = bi)) as [Ep|Ep].
      * rewrite decide_False by zlia. unfold byte_at, l. rewrite lookup_splice by lia.
        destruct (decide (1024 * bi + off <= p < 1024 * bi + off + size)) as [Hin|Hin].
        -- rewrite decide_True by zlia. unfold src. rewrite lookup_mread by zlia. cbn. unfold id.
           f_equal. zlia.
        -- rewrite decide_False by zlia. unfold fbyte. by rewrite Ep.
      * destruct (size >? 1024) eqn:Es; repeat case_decide; try zlia; try done; f_equal; zlia.
Qed.
End files.

Section write.
Context {C : Type} {Hc : BlockCache C} {Hok : BlockCacheOk C}.
Implicit Types (s : fsst C) (dk : Z → bytes) (x : inode) (i : nat) (k p buf off size : Z).

(** The inode's own block is none of the file's. *)
Definition apart dk x (n : Z) : Prop :=
  (∀ k, 0 <= k < ext2_inode_nblock x → file_block dk x k ≠ n) ∧
  (12 < ext2_inode_nblock x → direct x 12 ≠ n).

Lemma file_block_apart dk x n l k :
  apart dk x n → 0 <= k < ext2_inode_nblock x → file_block (upd_block n l dk) x k = file_block dk x k.
Proof.
  intros [_ Hm] Hk. unfold file_block. destruct (k <? 12) eqn:E; [done|].
  unfold upd_block. rewrite decide_False; [done|]. apply Hm. lia.
Qed.

Lemma file_apart dk x n l :
  file_ok dk x → apart dk x n →
  file_ok (upd_block n l dk) x ∧
  ∀ p, 0 <= p < 1024 * ext2_inode_nblock x → fbyte (upd_block n l dk) x p = fbyte dk x p.
Proof.
  intros F A. split.
  - split; try apply F. intros k Hk. rewrite file_block_apart by done. by apply F.
  - intros p Hp. unfold fbyte. assert (Hk : 0 <= p / 1024 < ext2_inode_nblock x) by zlia.
    rewrite file_block_apart by done. unfold upd_block. rewrite decide_False; [done|].
    by apply A.
Qed.

(** The inode after a write that ends at [e]. *)
Definition grown x (e : Z) : inode := if e >? i_size x then set_size e x else x.

Lemma file_ok_grown dk x e :
  file_ok dk x → e <= 1024 * ext2_inode_nblock x → file_ok dk (grown x e).
Proof.
  intros F He. unfold grown. destruct (e >? i_size x) eqn:E; [|done].
  split; try apply F. pose proof (fi_size _ _ F). change (i_size (set_size e x)) with e.
  change (ext2_inode_nblock (set_size e x)) with (ext2_inode_nblock x). lia.
Qed.

Lemma grown_facts dk x e :
  ext2_inode_nblock (grown x e) = ext2_inode_nblock x ∧ i_inum (grown x e) = i_inum x ∧
  (∀ k, file_block dk (grown x e) k = file_block dk x k) ∧
  (∀ p, fbyte dk (grown x e) p = fbyte dk x p) ∧ i_size (grown x e) = Z.max (i_size x) e ∧
  (inode_fits x → 0 <= e < 2 ^ 32 → inode_fits (grown x e)) ∧
  (file_inj dk x → file_inj dk (grown x e)) ∧ (∀ n, apart dk x n → apart dk (grown x e) n).
Proof.
  unfold grown. destruct (e >? i_size x) eqn:E; [|split_and!; done || lia].
  split_and!; [done|done|done|done|simpl; lia| |by intros []|done].
  intros [F1 F2 F3 F4 F5] He. split; try done. cbn.
  apply Forall_cons in F3 as [_ F3]. by constructor.
Qed.

Lemma w_inode_ok dk held s i x buf off size :
  fs_ok dk held s → itable s !! i = Some x → file_ok dk x → file_inj dk x → inode_fits x →
  inum_ok (sb s) (i_inum x) → apart dk x (iblk (sb s) (i_inum x)) → (length held < 31)%nat →
  0 <= off <= i_size x → 0 <= size < 2 ^ 31 → off + size <= 1024 * ext2_inode_nblock x →
  off mod 1024 = 0 ∨ off mod 1024 + size <= 1024 →
  ∃ c dk', ext2_w_inode i buf off size s =
      Ret size (FsSt c (itable_lk s) (<[i := grown x (off + size)]> (itable s)) (sb s) (fs_mem s)) ∧
    cached dk' held c ∧ file_ok dk' (grown x (off + size)) ∧
    ∀ p, 0 <= p < 1024 * ext2_inode_nblock x → fbyte dk' x p =
      if decide (off <= p < off + size) then rd8 (fs_mem s) (buf + (p - off)) else fbyte dk x p.
Proof.
  intros I Hi F J Fit Hnum A Hl Ho Hs He Hal.
  pose proof (fi_few _ _ F) as Hfew. pose proof (fi_size _ _ F) as Hx.
  destruct (grown_facts dk x (off + size)) as (Gn & Gi & Gb & Gf & Gs & Gfit & Gj & Ga).
  set (x' := grown x (off + size)) in *.
  set (s1 := FsSt (fs_cache s) (itable_lk s) (<[i := x']> (itable s)) (sb s) (fs_mem s)).
  assert (Hi1 : itable s1 !! i = Some x') by (apply list_lookup_insert_eq; by eapply lookup_lt_Some).
  assert (I1 : fs_ok dk held s1) by (split; apply I).
  assert (F1 : file_ok dk x') by (by apply file_ok_grown).
  destruct (blk_turns_ok x' off size) as [T1 T2]; [lia|lia|lia|lia|].
  destruct (write_loop_ok (blk_turns x' (off / 1024) ((size + off) / 1024)) i x' dk held s1 (off / 1024) (off mod 1024) buf size I1 Hi1 F1 (Gj J) Hl)
    as (c & dk1 & E1 & I2 & F2 & J2 & R2 & B2 & P2); [zlia|exact T1|by apply Z.mod_pos_bound|lia|lia|done|].
  assert (A2 : apart dk1 x' (iblk (sb s) (i_inum x'))).
  { destruct (Ga _ A) as [A1 A2]. rewrite Gi. split; [|done]. intros k Hk. rewrite B2 by done. by apply A1. }
  destruct (inode_sync_ok dk1 held (with_cache c s1) i x' I2 Hi1) as (c2 & E2 & I3 & _);
    [apply Gfit; [done|lia]|by rewrite Gi|unfold NBUF; lia|].
  destruct (file_apart dk1 x' _ (store_inode (dk1 (iblk (sb s) (i_inum x'))) (Z.to_nat (ioff (sb s) (i_inum x'))) x') F2 A2)
    as [F3 P3].
  eexists c2, _. split_and!; [|apply I3|exact F3|].
  - unfold ext2_w_inode, get_sb. prog_step. rewrite (fo_bsize _ _ _ I).
    rewrite (pbind_ok _ _ _ _ _ (ino_at_run _ _ _ Hi)). destruct (off >? i_size x) eqn:E0; [lia|].
    assert (Eg : (if off +u64 size >? i_size x then upd_ino i (set_size (u32 (off + size))) else ret tt) s = Ret tt s1).
    { rewrite u64_small by lia. unfold s1, x', grown. destruct (off + size >? i_size x) eqn:E.
      - rewrite (upd_ino_run _ _ _ _ Hi). by rewrite u32_small by lia.
      - rewrite list_insert_id by done. by destruct s. }
    rewrite (pbind_ok _ _ _ _ _ Eg). cbv zeta. rewrite (u64_small (size + off)) by lia.
    rewrite !(u32_small (_ / 1024)) by zlia.
    destruct ((size + off) / 1024 >? ext2_inode_nblock x) eqn:E3; [zlia|]. prog_step.
    rewrite (pbind_ok _ _ _ _ _ (ino_at_run _ _ _ Hi1)), (pbind_ok _ _ _ _ _ E1), (pbind_ok _ _ _ _ _ E2).
    rewrite i32_small by lia. done.
  - intros p Hp. rewrite <- (Gf p), <- (proj1 (proj2 (proj2 (proj2 (grown_facts _ x (off + size))))) p).
    fold x'. rewrite P3 by lia. rewrite P2 by lia. cbn [fs_mem s1].
    replace (1024 * (off / 1024) + off mod 1024) with off by zlia. done.
Qed.
End write.

Module FileProps.


(** Inode 12 with blocks 20 and 21 and 2000 bytes, on an empty disk. *)
Definition two_blocks : inode := Inode 0x81a4 2000 1 2 3 0 1 4 (20 :: 21 :: replicate 13 0) 12 0 0 1.
Definition file_fs (x : inode) (m : mem) : fsst (bcache memdisk) :=
  FsSt empty_cache lock_init (<[7%nat := x]> (replicate NINODE inode_zero))
    (sb FsProps.start_fs) m.

Lemma two_blocks_ok dk : file_ok dk two_blocks ∧ file_inj dk two_blocks ∧ apart dk two_blocks 6.
Proof.
  assert (E : ext2_inode_nblock two_blocks = 2) by reflexivity.
  assert (B : ∀ k, 0 <= k < 2 → file_block dk two_blocks k = 20 + k).
  { intros k Hk. assert (k = 0 ∨ k = 1) as [-> | ->] by lia; reflexivity. }
  split_and!; split; rewrite ?E; try done; try lia.
  - intros k Hk. rewrite B by done. unfold is_bno. lia.
  - intros j k Hj Hk. rewrite !B by done. lia.
  - intros k Hk. rewrite B by done. lia.
Qed.



Definition hello : mem := list_to_map [(64, 104); (65, 105)].


(** A write across a block boundary that does not start on one loses its tail:
    of the 1024 bytes from offset 512 on, only the first 512 reach the disk,
    although 1024 is returned. *)
Definition ones : mem := mwrite ∅ 4096 (replicate 1024 1).

Example unaligned_write_loses :
  match ext2_w_inode 7 4096 512 1024 (file_fs two_blocks ones) with
  | Ret r s => r = 1024 ∧ byte_at (md_block (bc_disk (fs_cache s)) 20) 1023 = 1 ∧
               byte_at (md_block (bc_disk (fs_cache s)) 21) 0 = 0
  | _ => False
  end.
Proof. vm_compute. auto. Qed.

(** A write of less than a block to an empty file is lost: no block is added,
    although the size grows and 5 is returned; nothing can be read back. *)
Definition empty_file : inode := Inode 0x81a4 0 1 2 3 0 1 0 (replicate 15 0) 12 0 0 1.

Example small_write_lost :
  match ext2_w_inode 7 4096 0 5 (file_fs empty_file ones) with
  | Ret r s => r = 5 ∧ (i_size <$> itable s !! 7%nat) = Some 5 ∧ (i_blocks <$> itable s !! 7%nat) = Some 0 ∧
      match ext2_read_inode 7 8192 0 5 s with Ret r s => r = 0 | _ => False end
  | _ => False
  end.
Proof. vm_compute. auto. Qed.

End FileProps.
