(* ===== verification/Ext2Dir.v ===== *)
(** * ext2: directories and paths

    A directory block as a list of entries, the search for a name in it, the
    entry [ext2_dirlink] adds, and the resolution of paths. *)

From S2P Require Import Prelude Mem Bytes Spinlock Buf Fs Ext2 Ext2Alloc Ext2File.
Import Spin.
Open Scope Z_scope.
Open Scope prog_scope.

(** ** Elements of a path *)

(** What precedes the first slash, and what follows it. *)
Fixpoint elem (p : bytes) : bytes :=
  match p with
  | [] => []
  | c :: p => if c =? 47 then [] else c :: elem p
  end.

Fixpoint after_elem (p : bytes) : bytes :=
  match p with
  | [] => []
  | c :: p => if c =? 47 then p else after_elem p
  end.

(** ** Entries of a directory block *)

Definition entry : Type := bytes * Z.

(** The inode number of the first entry with the name. *)
Fixpoint alookup (name : bytes) (es : list entry) : option Z :=
  match es with
  | [] => None
  | (nm, ino) :: es => if decide (nm = name) then Some ino else alookup name es
  end.

(** A name that fits an entry: neither empty nor too long, without NUL. *)
Definition name_ok (nm : bytes) : Prop :=
  (0 < length nm < 255)%nat ∧ Forall is_byte nm ∧ ¬ (0 ∈ nm).

#[export] Instance name_ok_dec nm : Decision (name_ok nm).
Proof. unfold name_ok. apply _. Defined.

Definition ino_ok (n : Z) : Prop := 0 < n < 2 ^ 31.

(** The entry at [pos], whose name and number are given. *)
Record dent_at (l : bytes) (pos : Z) (nm : bytes) (ino : Z) : Prop := {
  de_pos : 0 <= pos ∧ pos mod 4 = 0;
  de_inode : d_inode l (Z.to_nat pos) = ino;
  de_len : d_name_len l (Z.to_nat pos) = length nm;
  de_name : slice l (Z.to_nat pos + 8) (length nm) = nm;
  de_ok : name_ok nm ∧ ino_ok ino
}.

(** The entries from [pos] to [q]. *)
Inductive dents (l : bytes) (q : Z) : Z → list entry → Prop :=
| dents_end : dents l q q []
| dents_cons pos nm ino es :
    dent_at l pos nm ino → 8 + length nm <= d_rec_len l (Z.to_nat pos) →
    dents l q (pos + d_rec_len l (Z.to_nat pos)) es → dents l q pos ((nm, ino) :: es).

Section entries.
Implicit Types (l nm name : bytes) (es : list entry) (pos ino : Z).

Lemma strz_id nm : ¬ (0 ∈ nm) → strz nm = nm.
Proof.
  induction nm as [|c nm IH]; intros H; [done|]. simpl.
  destruct (c =? 0) eqn:E; [exfalso; apply H; apply Z.eqb_eq in E as ->; constructor|]. f_equal. apply IH.
  intros ?. apply H. by constructor.
Qed.

Lemma strz_app nm l : ¬ (0 ∈ nm) → strz (nm ++ 0 :: l) = nm.
Proof.
  induction nm as [|c nm IH]; intros H; [done|]. simpl.
  destruct (c =? 0) eqn:E; [exfalso; apply H; apply Z.eqb_eq in E as ->; constructor|]. f_equal. apply IH.
  intros ?. apply H. by constructor.
Qed.

Lemma dents_bound l q pos es : 0 <= q → dents l q pos es → 0 <= pos <= q.
Proof. intros Hq. induction 1 as [|pos nm ino es D Hr _ IH]; [lia|]. destruct (de_pos _ _ _ _ D). lia. Qed.

Lemma alookup_app name es1 es2 :
  alookup name (es1 ++ es2) = match alookup name es1 with Some n => Some n | None => alookup name es2 end.
Proof. induction es1 as [|[nm ino] es1 IH]; simpl; [done|]. by case_decide. Qed.

Lemma alookup_ok l q pos es name ino : dents l q pos es → alookup name es = Some ino → ino_ok ino.
Proof.
  induction 1 as [|pos nm ino' es D Hr _ IH]; simpl; [done|].
  case_decide; [intros [= <-]; by apply D|done].
Qed.

(** Only the bytes of an entry matter. *)
Lemma dent_at_ext l l' pos nm ino :
  slice l' (Z.to_nat pos) 4 = slice l (Z.to_nat pos) 4 →
  slice l' (Z.to_nat pos + 6) 1 = slice l (Z.to_nat pos + 6) 1 →
  slice l' (Z.to_nat pos + 8) (length nm) = slice l (Z.to_nat pos + 8) (length nm) →
  dent_at l pos nm ino → dent_at l' pos nm ino.
Proof.
  intros E1 E2 E3 [D1 D2 D3 D4 D5]. split; try done.
  - rewrite <- D2. unfold d_inode. by apply fld_slice.
  - rewrite <- D3. unfold d_name_len. by apply fld_slice.
  - by rewrite E3.
Qed.
End entries.

Section search.
Context {C : Type} {Hc : BlockCache C} {Hok : BlockCacheOk C}.
Implicit Types (s : fsst C) (dk : Z → bytes) (l nm name path : bytes) (es : list entry) (pos ino : Z).

Lemma take_elem_run path name s :
  take_elem path name s =
    if (length name + length (elem path) <? 255)%nat
    then Ret (Some (name ++ elem path, after_elem path)) s else Fault "name[255]".
Proof.
  revert name. induction path as [|c p IH]; intros name; simpl.
  - unfold DIRENT_NAME_MAX. destruct (Z.leb_spec 255 (length name)), (Nat.ltb_spec (length name + 0) 255); try lia; [done|].
    by rewrite app_nil_r.
  - unfold DIRENT_NAME_MAX. destruct (Z.leb_spec 255 (length name)) as [Hn|Hn].
    + destruct (Nat.ltb_spec (length name + length (if c =? 47 then [] else c :: elem p)) 255); [lia|done].
    + prog_step. destruct (c =? 47) eqn:E.
      * simpl. destruct (Nat.ltb_spec (length name + 0) 255); [|lia]. by rewrite app_nil_r.
      * destruct (length name + 1 >? 255) eqn:E1; [lia|]. rewrite IH, length_app. simpl.
        rewrite <- app_assoc. simpl.
        destruct (Nat.ltb_spec (length name + 1 + length (elem p)) 255),
          (Nat.ltb_spec (length name + S (length (elem p))) 255); try lia; done.
Qed.

Lemma search_loop_ok (fuel : nat) l pos path es s :
  dents l 1024 pos es → 1024 - pos <= fuel → (length path < 255)%nat →
  search_loop fuel 1024 l pos path s = Ret (default (-1) (alookup path es)) s.
Proof.
  intros D. revert fuel. induction D as [|pos nm ino es D Hr Ds IH]; intros fuel Hf Hp; destruct fuel as [|fuel];
    try done; [pose proof (dents_bound _ 1024 _ _ ltac:(lia) Ds); destruct (de_pos _ _ _ _ D); lia|].
  pose proof (dents_bound _ 1024 _ _ ltac:(lia) Ds) as Hb. destruct D as [[P1 P2] Di Dl Dn [[[Nl1 Nl2] [Nb N0]] Io]].
  cbn [search_loop]. destruct (pos <? 1024) eqn:E; [|lia]. cbn [negb].
  rewrite (pbind_ok _ _ _ _ _ (in_data_ok s pos 8 ltac:(lia) ltac:(unfold BSIZE; lia))). cbv zeta. rewrite Dl.
  rewrite (pbind_ok _ _ _ _ _ (in_data_ok s (pos + 8) (length nm) ltac:(lia) ltac:(unfold BSIZE; lia))).
  destruct (length nm =? DIRENT_NAME_MAX) eqn:E1; [unfold DIRENT_NAME_MAX in E1; lia|]. cbn [andb]. prog_step.
  rewrite Nat2Z.id, Dn, strz_id by done. cbn [alookup]. destruct (decide (nm = path)) as [->|Hne].
  - rewrite Di. unfold ret. cbn. f_equal. unfold id. apply i32_small. unfold ino_ok in Io. lia.
  - rewrite u64_small by lia. apply IH; lia.
Qed.

Lemma search_block_ok l path es s :
  dents l 1024 0 es → (length path < 255)%nat →
  search_dirent_block 1024 l path s = Ret (default (-1) (alookup path es)) s.
Proof. intros D Hp. apply search_loop_ok; [done|simpl; lia|done]. Qed.

(** The entries of a directory, block by block. *)
Record dir_ok dk x (E : Z → list entry) : Prop := {
  do_file : file_ok dk x;
  do_block : ∀ k, 0 <= k < ext2_inode_nblock x → dents (dk (file_block dk x k)) 1024 0 (E k)
}.

(** Those of [n] blocks from the [k]-th on. *)
Fixpoint entries (E : Z → list entry) (n : nat) (k : Z) : list entry :=
  match n with O => [] | S n => E k ++ entries E n (k + 1) end.

Definition all_entries x E : list entry := entries E (Z.to_nat (ext2_inode_nblock x)) 0.

Lemma search_blocks_ok (cnt : nat) i x E name : ∀ dk held s k,
  fs_ok dk held s → itable s !! i = Some x → dir_ok dk x E → (length held < 31)%nat →
  0 <= k → k + cnt <= ext2_inode_nblock x → (length name < 255)%nat →
  ∃ c, search_blocks cnt k i name s = Ret (default (-1) (alookup name (entries E cnt k))) (with_cache c s) ∧
    fs_ok dk held (with_cache c s).
Proof.
  induction cnt as [|cnt IH]; intros dk held s k I Hi D Hl Hk Hn Hnm.
  - exists (fs_cache s). by destruct s.
  - destruct (inode_block_ok dk held s i x k I Hi (do_file _ _ _ D)) as (b & c1 & E1 & I1 & Hh & _); [lia|done|].
    pose proof (do_block _ _ _ D k ltac:(lia)) as Dk.
    destruct (cfree_ok dk held (with_cache c1 s) b _ I1 Hh) as (c2 & E2 & I2 & _).
    assert (Er : ∀ r s', (if default (-1) (alookup name (E k)) >? 0
        then ret (default (-1) (alookup name (E k))) else search_blocks cnt (k + 1) i name) (with_cache c2 s) = Ret r s' →
      search_blocks (S cnt) k i name s = Ret r s').
    { intros r s' <-. cbn [search_blocks]. rewrite (pbind_ok _ _ _ _ _ E1).
      rewrite (pbind_ok _ _ _ _ _ (cdata_ok _ _ _ b _ I1 ltac:(constructor) Hh)). unfold get_sb. prog_step.
      rewrite (fo_bsize _ _ _ I1), (pbind_ok _ _ _ _ _ (search_block_ok _ _ _ (with_cache c1 s) Dk Hnm)).
      by rewrite (pbind_ok _ _ _ _ _ E2). }
    cbn [entries]. rewrite alookup_app. destruct (alookup name (E k)) as [n|] eqn:El.
    + exists c2. split; [|exact I2]. apply Er. cbn. unfold id.
      pose proof (alookup_ok _ _ _ _ _ _ Dk El) as Hno. unfold ino_ok in Hno. by destruct (n >? 0) eqn:?; [|lia].
    + destruct (IH dk held (with_cache c2 s) (k + 1) I2 Hi D Hl) as (c & E3 & I3); [lia|lia|done|].
      exists c. split; [|exact I3]. apply Er. cbn. exact E3.
Qed.

Lemma search_dir_ok dk held s i x E name :
  fs_ok dk held s → itable s !! i = Some x → dir_ok dk x E → (length held < 31)%nat → (length name < 255)%nat →
  ∃ c, ext2_search_dir i name s = Ret (default (-1) (alookup name (all_entries x E))) (with_cache c s) ∧
    fs_ok dk held (with_cache c s).
Proof.
  intros I Hi D Hl Hn. unfold ext2_search_dir. rewrite (pbind_ok _ _ _ _ _ (ino_at_run _ _ _ Hi)).
  pose proof (fi_few _ _ (do_file _ _ _ D)).
  eapply search_blocks_ok; try done; lia.
Qed.
End search.

(** ** Adding an entry *)

Section adding.
Implicit Types (l de nm name : bytes) (es : list entry) (pos ino p q : Z).

Lemma dents_ext l l' q pos es :
  0 <= q → (∀ o (n : nat), 0 <= o → o + n <= q → slice l' (Z.to_nat o) n = slice l (Z.to_nat o) n) →
  dents l q pos es → dents l' q pos es.
Proof.
  intros Hq Hx. induction 1 as [|pos nm ino es D Hr Ds IH]; [constructor|].
  pose proof (dents_bound _ _ _ _ Hq Ds) as Hb. destruct (de_pos _ _ _ _ D) as [P _].
  assert (X : ∀ k n : nat, k + n <= d_rec_len l (Z.to_nat pos) →
    slice l' (Z.to_nat pos + k) n = slice l (Z.to_nat pos + k) n).
  { intros k n Hk. replace (Z.to_nat pos + k)%nat with (Z.to_nat (pos + k)) by lia. apply Hx; lia. }
  assert (Er : d_rec_len l' (Z.to_nat pos) = d_rec_len l (Z.to_nat pos)) by (apply fld_slice, X; lia).
  constructor; rewrite ?Er; [|done|done].
  apply (dent_at_ext l); [|apply X; lia|apply X; lia|done].
  rewrite <- (Nat.add_0_r (Z.to_nat pos)). apply X. lia.
Qed.

Lemma dents_app l p q pos es1 es2 : dents l p pos es1 → dents l q p es2 → dents l q pos (es1 ++ es2).
Proof. induction 1; intros Hq; [done|]. constructor; auto. Qed.

(** The last entry of a block: [es] before [p], then [nm] up to the end, with
    the NUL after the name. *)
Record last_at l es p nm ino : Prop := {
  la_before : dents l p 0 es;
  la_dent : dent_at l p nm ino;
  la_fits : p + 8 + length nm < 1024;
  la_rec : d_rec_len l (Z.to_nat p) = 1024 - p;
  la_nul : byte_at l (Z.to_nat p + 8 + length nm) = 0
}.

Lemma last_at_dents l es p nm ino : last_at l es p nm ino → dents l 1024 0 (es ++ [(nm, ino)]).
Proof.
  intros [B D F R _]. eapply dents_app; [exact B|]. constructor; [done|lia|].
  replace (p + d_rec_len l (Z.to_nat p)) with 1024 by lia. constructor.
Qed.

Lemma last_at_string l es p nm ino :
  length l = BSIZE → last_at l es p nm ino → c_string (drop (Z.to_nat (p + 8)) l) = Some nm.
Proof.
  intros Hl [_ D F _ N]. destruct D as [[P _] _ _ Dn [[[_ _] [_ N0]] _]]. unfold BSIZE in Hl.
  assert (E : drop (Z.to_nat (p + 8)) l = nm ++ 0 :: drop (Z.to_nat p + 8 + length nm + 1) l).
  { replace (Z.to_nat (p + 8)) with (Z.to_nat p + 8)%nat by lia.
    rewrite (drop_slice _ _ (length nm)), Dn. f_equal.
    unfold byte_at in N. destruct (l !! (Z.to_nat p + 8 + length nm)%nat) as [c|] eqn:Ec.
    - simpl in N. subst c. rewrite Nat.add_1_r. by apply drop_S.
    - apply lookup_ge_None in Ec. lia. }
  rewrite E. unfold c_string. rewrite decide_True by set_solver. by rewrite strz_app.
Qed.

(** The walk to the last entry. *)
Lemma last_dirent_ok {C} `{BlockCache C} l p nm ino (fuel : nat) pos es d (s : fsst C) :
  dents l p pos es → dent_at l p nm ino → p + 8 <= 1024 → d_rec_len l (Z.to_nat p) = 1024 - p →
  1024 - pos <= fuel → last_dirent fuel 1024 l pos d s = Ret (p, false) s.
Proof.
  intros D L Hp Hrec. destruct (de_pos _ _ _ _ L) as [P0 _].
  revert fuel d. induction D as [|pos nm' ino' es D Hr Ds IH]; intros fuel d Hf.
  - destruct fuel as [|fuel]; [lia|]. cbn [last_dirent]. destruct (p <? 1024) eqn:E; [|lia]. cbn [negb].
    rewrite (pbind_ok _ _ _ _ _ (in_data_ok s p 8 ltac:(lia) ltac:(unfold BSIZE; lia))). cbv zeta. rewrite Hrec.
    destruct (1024 - p =? 0) eqn:E2; [lia|]. replace (p + (1024 - p)) with 1024 by lia.
    by destruct fuel.
  - pose proof (dents_bound _ _ _ _ P0 Ds). destruct (de_pos _ _ _ _ D) as [P1 _].
    destruct fuel as [|fuel]; [lia|]. cbn [last_dirent]. destruct (pos <? 1024) eqn:E; [|lia]. cbn [negb].
    rewrite (pbind_ok _ _ _ _ _ (in_data_ok s pos 8 ltac:(lia) ltac:(unfold BSIZE; lia))). cbv zeta.
    destruct (d_rec_len l (Z.to_nat pos) =? 0) eqn:E2; [lia|]. rewrite u64_small by lia. apply IH. lia.
Qed.

Lemma roundup_4byte_spec n : 0 <= n < 2 ^ 63 → let r := roundup_4byte n in n <= r < n + 4 ∧ r mod 4 = 0.
Proof.
  intros Hn. cbv zeta. unfold roundup_4byte. rewrite u64_small by lia.
  pose proof (land_lnot_low (n + 3) 2 ltac:(lia)) as E. change (2 ^ 2 - 1) with 3 in E. change (2 ^ 2) with 4 in E.
  rewrite E. zlia.
Qed.

(** What [make_dirent] builds: the header, the name and its NUL. *)
Record is_dirent de name ino ft : Prop := {
  id_len : length de = BSIZE;
  id_byte : Forall is_byte de;
  id_inode : d_inode de 0 = ino mod 2 ^ 32;
  id_rec : d_rec_len de 0 = roundup_4byte (8 + length name);
  id_nlen : d_name_len de 0 = length name;
  id_type : d_file_type de 0 = ft mod 256;
  id_name : slice de 8 (length name + 1) = name ++ [0]
}.

Lemma make_dirent_run {C} `{BlockCache C} ino name ft (s : fsst C) :
  sb_bsize (sb s) = 1024 → name_ok name →
  ∃ de, make_dirent ino name ft s = Ret de s ∧ is_dirent de name ino ft.
Proof.
  intros Hb [[N1 N2] [Nb N0]]. eexists. split.
  { unfold make_dirent, get_sb. prog_step. rewrite Hb. change (1024 >? BSIZE) with false. reflexivity. }
  pose proof (roundup_4byte_spec (8 + length name) ltac:(lia)) as R. cbv zeta in R. destruct R as [R _].
  rewrite (u8_small (length name)), u16_small by lia.
  rewrite take_ge by (rewrite length_app; simpl; lia).
  set (l0 := replicate BSIZE 0).
  destruct (set_fld_facts 4 l0 0 ino) as (L1 & F1 & K1); [unfold l0, BSIZE; rewrite length_replicate; lia|].
  change (length l0) with BSIZE in L1. set (l1 := set_fld 4 l0 0 ino) in *.
  destruct (set_fld_facts 1 l1 7 ft) as (L2 & F2 & K2); [rewrite L1; unfold BSIZE; lia|].
  rewrite L1 in L2. set (l2 := set_fld 1 l1 7 ft) in *.
  destruct (set_fld_facts 1 l2 6 (length name)) as (L3 & F3 & K3); [rewrite L2; unfold BSIZE; lia|].
  rewrite L2 in L3. set (l3 := set_fld 1 l2 6 (length name)) in *.
  assert (Hn : (8 + length (name ++ [0%Z]) <= length l3)%nat) by (rewrite L3, length_app; unfold BSIZE; simpl; lia).
  pose proof (length_splice l3 8 (name ++ [0%Z]) Hn) as L4. rewrite L3 in L4.
  pose proof (slice_splice l3 8 (name ++ [0%Z]) Hn) as F4.
  assert (K4 : ∀ o n, (o + n <= 8)%nat → slice (splice l3 8 (name ++ [0%Z])) o n = slice l3 o n)
    by (intros; apply slice_splice_other; [done|lia]).
  set (l4 := splice l3 8 (name ++ [0%Z])) in *.
  destruct (set_fld_facts 2 l4 4 (roundup_4byte (8 + length name))) as (L5 & F5 & K5); [rewrite L4; unfold BSIZE; lia|].
  rewrite L4 in L5. split.
  - exact L5.
  - apply set_fld_ok, Forall_splice; [apply set_fld_ok, set_fld_ok, set_fld_ok|].
    + apply Forall_replicate. by vm_compute.
    + apply Forall_app. split; [done|]. apply Forall_cons. split; [by vm_compute|constructor].
  - unfold d_inode. rewrite (fld_slice _ l4) by (apply K5; lia). rewrite (fld_slice _ l3) by (apply K4; lia).
    rewrite (fld_slice _ l2) by (apply K3; lia). rewrite (fld_slice _ l1) by (apply K2; lia). exact F1.
  - unfold d_rec_len. etrans; [exact F5|]. apply Z.mod_small. change (256 ^ 2%nat) with 65536. lia.
  - unfold d_name_len. rewrite (fld_slice _ l4) by (apply K5; lia). rewrite (fld_slice _ l3) by (apply K4; lia).
    etrans; [exact F3|]. apply Z.mod_small. change (256 ^ 1%nat) with 256. lia.
  - unfold d_file_type. rewrite (fld_slice _ l4) by (apply K5; lia). rewrite (fld_slice _ l3) by (apply K4; lia).
    rewrite (fld_slice _ l2) by (apply K3; lia). exact F2.
  - rewrite K5 by lia. rewrite <- F4. by rewrite length_app.
Qed.

Lemma is_dirent_string de name ino ft : name_ok name → is_dirent de name ino ft → c_string (drop 8 de) = Some name.
Proof.
  intros (_ & _ & N0) D. rewrite (drop_slice _ _ (length name + 1)), (id_name _ _ _ _ D), <- app_assoc.
  unfold c_string. rewrite decide_True by set_solver. f_equal. simpl. by apply strz_app.
Qed.

(** The stores of [ext2_dirlink] for the new entry at [q]. *)
Lemma put_dirent_run {C} `{BlockCache C} l de name ino ft q r (s : fsst C) :
  good_block l → is_dirent de name ino ft → name_ok name → ino_ok ino →
  0 <= q → q mod 4 = 0 → q + 9 + length name <= 1024 → 0 <= r < 65536 →
  ∃ l', put_dirent l q r de s = Ret l' s ∧ good_block l' ∧ dent_at l' q name ino ∧
    d_rec_len l' (Z.to_nat q) = r ∧ byte_at l' (Z.to_nat q + 8 + length name) = 0 ∧
    ∀ o n, (o + n <= Z.to_nat q)%nat → slice l' o n = slice l o n.
Proof.
  intros [Hl Hby] D Hn Hi Q0 Q4 Hq Hr. destruct Hn as [[N1 N2] [Nb N0]] eqn:HN. unfold ino_ok in Hi. unfold BSIZE in Hl.
  eexists. split.
  { unfold put_dirent. rewrite (id_nlen _ _ _ _ D).
    rewrite (pbind_ok _ _ _ _ _ (in_data_ok s q (8 + length name + 1) ltac:(lia) ltac:(unfold BSIZE; lia))). reflexivity. }
  rewrite (id_inode _ _ _ _ D), (id_type _ _ _ _ D).
  replace (Z.to_nat (length name + 1)) with (length name + 1)%nat by lia. rewrite (id_name _ _ _ _ D).
  set (o := Z.to_nat q).
  destruct (set_fld_facts 4 l o (ino mod 2 ^ 32)) as (L1 & F1 & K1); [lia|]. rewrite Hl in L1.
  set (l1 := set_fld 4 l o _) in *.
  destruct (set_fld_facts 2 l1 (o + 4) r) as (L2 & F2 & K2); [lia|]. rewrite L1 in L2.
  set (l2 := set_fld 2 l1 _ _) in *.
  destruct (set_fld_facts 1 l2 (o + 6) (length name)) as (L3 & F3 & K3); [lia|]. rewrite L2 in L3.
  set (l3 := set_fld 1 l2 _ _) in *.
  destruct (set_fld_facts 1 l3 (o + 7) (ft mod 256)) as (L4 & F4 & K4); [lia|]. rewrite L3 in L4.
  set (l4 := set_fld 1 l3 _ _) in *.
  assert (Hsp : (o + 8 + length (name ++ [0%Z]) <= length l4)%nat) by (rewrite length_app; simpl; lia).
  pose proof (length_splice l4 (o + 8) _ Hsp) as L5. rewrite L4 in L5.
  assert (K5 : ∀ a n, (a + n <= o + 8)%nat → slice (splice l4 (o + 8) (name ++ [0%Z])) a n = slice l4 a n)
    by (intros; apply slice_splice_other; [done|lia]).
  assert (F5 : slice (splice l4 (o + 8) (name ++ [0%Z])) (o + 8) (length name) = name).
  { rewrite <- (Nat.add_0_r (o + 8)) at 2. rewrite slice_splice_in by (rewrite ?length_app; simpl; lia).
    Transparent slice. unfold slice. rewrite drop_0. by rewrite take_app_le, take_ge by lia. Opaque slice. }
  assert (F6 : byte_at (splice l4 (o + 8) (name ++ [0%Z])) (o + 8 + length name) = 0).
  { unfold byte_at. rewrite lookup_splice, decide_True by (rewrite ?length_app; simpl; lia).
    replace (o + 8 + length name - (o + 8))%nat with (length name) by lia.
    rewrite lookup_app_r by lia. by rewrite Nat.sub_diag. }
  set (l5 := splice l4 _ _) in *. split_and!.
  - split; [exact L5|]. apply Forall_splice; [by do 4 apply set_fld_ok|].
    apply Forall_app. split; [done|]. apply Forall_cons. split; [by vm_compute|constructor].
  - split; [done| | |done|].
    + unfold d_inode. rewrite (fld_slice _ l4) by (apply K5; lia). rewrite (fld_slice _ l3) by (apply K4; lia).
      rewrite (fld_slice _ l2) by (apply K3; lia). rewrite (fld_slice _ l1) by (apply K2; lia).
      etrans; [exact F1|]. change (256 ^ 4%nat) with (2 ^ 32). rewrite Zmod_mod. apply Z.mod_small. lia.
    + unfold d_name_len. rewrite (fld_slice _ l4) by (apply K5; lia). rewrite (fld_slice _ l3) by (apply K4; lia).
      etrans; [exact F3|]. apply Z.mod_small. change (256 ^ 1%nat) with 256. lia.
    + split; [exact (conj (conj N1 N2) (conj Nb N0))|exact Hi].
  - unfold d_rec_len. rewrite (fld_slice _ l4) by (apply K5; lia). rewrite (fld_slice _ l3) by (apply K4; lia).
    rewrite (fld_slice _ l2) by (apply K3; lia). etrans; [exact F2|]. apply Z.mod_small. exact Hr.
  - exact F6.
  - intros a n Ha. rewrite K5, K4, K3, K2, K1 by lia. done.
Qed.

(** Where the new entry starts. *)
Definition new_at p nm : Z := roundup_4byte (p + 8 + length nm).

Lemma new_at_spec p nm : 0 <= p <= 1024 → (length nm < 255)%nat →
  p + 8 + length nm <= new_at p nm < p + 8 + length nm + 4 ∧ new_at p nm mod 4 = 0.
Proof. intros Hp Hn. apply roundup_4byte_spec. lia. Qed.

(** The block with the entry put after its last one. *)
Lemma put_after {C} `{BlockCache C} l es p nm ino0 de name ino ft (s : fsst C) :
  good_block l → last_at l es p nm ino0 → is_dirent de name ino ft → name_ok name → ino_ok ino →
  let q := new_at p nm in q + 9 + length name <= 1024 →
  ∃ l', put_dirent (set_fld 2 l (Z.to_nat (p + 4)) (q - p)) q (1024 - q) de s = Ret l' s ∧
    good_block l' ∧ last_at l' (es ++ [(nm, ino0)]) q name ino.
Proof.
  intros [Hl Hby] L D Hn Hi q Hq. unfold BSIZE in Hl. pose proof (la_fits _ _ _ _ _ L) as Hp.
  pose proof (la_dent _ _ _ _ _ L) as L0. destruct (de_pos _ _ _ _ L0) as [P0 P4].
  destruct (de_ok _ _ _ _ L0) as [[[Nm1 Nm2] _] _].
  destruct (new_at_spec p nm ltac:(lia) Nm2) as [Q1 Q4]. fold q in Q1, Q4.
  set (o := Z.to_nat (p + 4)).
  destruct (set_fld_facts 2 l o (q - p)) as (L1 & F1 & K1); [lia|].
  set (l1 := set_fld 2 l o (q - p)) in *.
  assert (G1 : good_block l1) by (split; [etrans; [exact L1|exact Hl]|by apply set_fld_ok]).
  destruct (put_dirent_run l1 de name ino ft q (1024 - q) s G1 D Hn Hi) as (l' & E & G' & D' & R' & N' & K'); [lia..|].
  exists l'. split_and!; [exact E|done|]. destruct Hn as [[? ?] _].
  assert (X : ∀ (a n : nat), (a + n <= Z.to_nat q)%nat → (a + n <= o ∨ o + 2 <= a)%nat → slice l' a n = slice l a n)
    by (intros; rewrite K', K1 by lia; done).
  assert (Er : d_rec_len l' (Z.to_nat p) = q - p).
  { unfold d_rec_len. replace (Z.to_nat p + 4)%nat with o by lia. rewrite (fld_slice _ l1) by (apply K'; lia).
    etrans; [exact F1|]. apply Z.mod_small. change (256 ^ 2%nat) with 65536. lia. }
  split; [|done|lia|done|done].
  eapply (dents_app _ p).
  - eapply dents_ext; [done|intros b n Hb0 Hb; apply X; lia|apply L].
  - constructor.
    + apply (dent_at_ext l); [apply X; lia|apply X; lia|apply X; lia|done].
    + rewrite Er. lia.
    + replace (p + d_rec_len l' (Z.to_nat p)) with q by lia. constructor.
Qed.
End adding.

Section dirlink.
Context {C : Type} {Hc : BlockCache C} {Hok : BlockCacheOk C}.
Implicit Types (s : fsst C) (dk : Z → bytes) (l de nm name : bytes) (es : list entry) (p ino : Z) (x : inode).

(** The first block of the directory has room for the name. *)
Record dir_room dk x es p nm ino0 name : Prop := {
  dr_last : last_at (dk (file_block dk x 0)) es p nm ino0;
  dr_room : new_at p nm + 9 + length name <= 1024;
  dr_gap : roundup_4byte (8 + length name) < 1024 - (p + 8 + length nm)
}.

Lemma find_place_ok dk held s i x es p nm ino0 name :
  fs_ok dk held s → itable s !! i = Some x → file_ok dk x → 0 < ext2_inode_nblock x → (length held < 31)%nat →
  dir_room dk x es p nm ino0 name →
  ∃ b c, find_place (Z.to_nat (ext2_inode_nblock x)) 0 i (roundup_4byte (8 + length name)) s =
      Ret (PlaceAfter b p (p + 8 + length nm)) (with_cache c s) ∧
    fs_ok dk (file_block dk x 0 :: held) (with_cache c s) ∧ handle b (file_block dk x 0) c.
Proof.
  intros I Hi F Hn Hl [L Hr Hg].
  destruct (inode_block_ok dk held s i x 0 I Hi F) as (b & c & E & I1 & Hh & _); [lia|done|].
  exists b, c. split_and!; [|done|done]. pose proof (fs_block _ _ _ (file_block dk x 0) I) as [Hlen _].
  pose proof (la_dent _ _ _ _ _ L) as D. pose proof (la_fits _ _ _ _ _ L). destruct (de_pos _ _ _ _ D) as [P0 _].
  replace (Z.to_nat (ext2_inode_nblock x)) with (S (Z.to_nat (ext2_inode_nblock x - 1))) by lia.
  cbn [find_place]. rewrite (pbind_ok _ _ _ _ _ E).
  rewrite (pbind_ok _ _ _ _ _ (cdata_ok _ _ _ b _ I1 ltac:(constructor) Hh)). unfold get_sb. prog_step.
  rewrite (fo_bsize _ _ _ I1). change (Z.to_nat 1024) with 1024%nat.
  erewrite pbind_ok; [|eapply (last_dirent_ok _ p nm ino0); [apply L|exact D|lia|apply L|lia]].
  cbv beta iota zeta. rewrite (last_at_string _ es p nm ino0 Hlen L). rewrite u64_small by lia.
  destruct (1024 - (p + 8 + length nm) >? roundup_4byte (8 + length name)) eqn:E2; [done|lia].
Qed.

Lemma dir_blocks_distinct dk x k : file_ok dk x → file_inj dk x → 0 < ext2_inode_nblock x →
  0 <= k < ext2_inode_nblock x → k ≠ 0 → file_block dk x k ≠ file_block dk x 0.
Proof. intros F J Hn Hk H0 E. apply H0. apply (fi_inj _ _ J); [done|lia|done]. Qed.

(** The entries of the directory with one more in its first block. *)
Definition add_entry (E : Z → list entry) (e : entry) : Z → list entry :=
  λ k, if decide (k = 0) then E 0 ++ [e] else E k.

Lemma alookup_entries (E : Z → list entry) (n0 : Z) (cnt : nat) k name :
  alookup name (entries E cnt k) = Some n0 → ∃ j, k <= j < k + cnt ∧ alookup name (E j) = Some n0.
Proof.
  revert k. induction cnt as [|cnt IH]; intros k; [done|]. cbn [entries]. rewrite alookup_app.
  destruct (alookup name (E k)) eqn:Ek; [intros [= <-]; exists k; split; [lia|done]|].
  intros Hs. destruct (IH _ Hs) as (j & Hj & Ej). exists j. split; [lia|done].
Qed.

Lemma all_entries_ok dk x (E : Z → list entry) name (n : Z) : dir_ok dk x E → alookup name (all_entries x E) = Some n → ino_ok n.
Proof.
  intros D Hn. apply alookup_entries in Hn as (j & Hj & Ej).
  pose proof (fi_few _ _ (do_file _ _ _ D)). eapply alookup_ok; [|exact Ej]. eapply (do_block _ _ _ D). lia.
Qed.

Lemma entries_ext (E E' : Z → list entry) (cnt : nat) k : (∀ j, k <= j → E j = E' j) → entries E cnt k = entries E' cnt k.
Proof. revert k. induction cnt as [|cnt IH]; intros k Hx; [done|]. cbn [entries]. rewrite Hx, IH; [done|intros; apply Hx; lia|lia]. Qed.

Lemma alookup_add x (E : Z → list entry) name n nm :
  0 < ext2_inode_nblock x → alookup name (all_entries x E) = None →
  alookup nm (all_entries x (add_entry E (name, n))) =
    if decide (nm = name) then Some n else alookup nm (all_entries x E).
Proof.
  intros Hn. unfold all_entries.
  replace (Z.to_nat (ext2_inode_nblock x)) with (S (Z.to_nat (ext2_inode_nblock x - 1))) by lia.
  cbn [entries]. rewrite (entries_ext (add_entry E (name, n)) E).
  2: { intros j Hj. unfold add_entry. by rewrite decide_False by lia. }
  change (add_entry E (name, n) 0) with (E 0 ++ [(name, n)]). rewrite !alookup_app. intros Hno.
  destruct (alookup name (E 0)) eqn:E0; [done|]. cbn [alookup].
  destruct (decide (nm = name)) as [->|Hne].
  - rewrite E0. by rewrite decide_True.
  - destruct (alookup nm (E 0)); [done|]. by rewrite decide_False.
Qed.

Lemma dirlink_ok dk held s i x E es p nm ino0 de name ino ft :
  fs_ok dk held s → itable s !! i = Some x → dir_ok dk x E → file_inj dk x → 0 < ext2_inode_nblock x →
  (length held < 31)%nat → is_dirent de name ino ft → name_ok name → ino_ok ino →
  alookup name (all_entries x E) = None → dir_room dk x es p nm ino0 name → E 0 = es ++ [(nm, ino0)] →
  ∃ c l', ext2_dirlink i de s = Ret 0 (with_cache c s) ∧
    let dk' := upd_block (file_block dk x 0) l' dk in
    fs_ok dk' held (with_cache c s) ∧ dir_ok dk' x (add_entry E (name, ino)) ∧ file_inj dk' x.
Proof.
  intros I Hi D J Hnb Hl Hde Hn Ho Hno Hr HE. pose proof (do_file _ _ _ D) as F. pose proof (fi_few _ _ F) as Hfew.
  destruct (search_dir_ok dk held s i x E name I Hi D Hl) as (c1 & E1 & I1); [apply Hn|].
  destruct (find_place_ok dk held (with_cache c1 s) i x es p nm ino0 name I1 Hi F Hnb Hl Hr) as (b & c2 & E2 & I2 & Hh).
  set (n := file_block dk x 0) in *.
  destruct (put_after (dk n) es p nm ino0 de name ino ft (with_cache c2 (with_cache c1 s)))
    as (l' & E3 & G' & L'); [by apply (fs_block _ _ _ n I)|apply Hr|done|done|done|apply Hr|].
  destruct (cupdate_ok dk (n :: held) (with_cache c2 (with_cache c1 s)) b n l' I2) as (c3 & E4 & I3 & Hk3);
    [constructor|done|done|].
  destruct (cfree_ok _ held (with_cache c3 (with_cache c2 (with_cache c1 s))) b n I3) as (c4 & E5 & I4 & _); [by apply Hk3|].
  destruct (file_upd_ok dk x 0 l' F J) as [F' J']; [lia|]. fold n in F', J'.
  exists c4, l'. split; [|split_and!; [exact I4|split; [exact F'|]|exact J']].
  - unfold ext2_dirlink. rewrite (is_dirent_string _ _ _ _ Hn Hde), (pbind_ok _ _ _ _ _ E1), Hno.
    change (default (-1) None >? 0) with false. cbv iota.
    rewrite (pbind_ok _ _ _ _ _ (ino_at_run _ _ (with_cache c1 s) Hi)).
    rewrite (id_rec _ _ _ _ Hde), (pbind_ok _ _ _ _ _ E2).
    unfold put_place, get_sb. prog_step. rewrite (fo_bsize _ _ _ I2). cbv zeta. fold (new_at p nm).
    rewrite (pbind_ok _ _ _ _ _ (cdata_ok _ _ _ b n I2 ltac:(constructor) Hh)), (pbind_ok _ _ _ _ _ E3), E4.
    by rewrite (pbind_ok _ _ _ _ _ E5).
  - intros k Hk. unfold n. rewrite file_block_upd by (done || lia). fold n. unfold add_entry, upd_block.
    destruct (decide (k = 0)) as [->|Hk0].
    + rewrite decide_True by done. rewrite HE. by eapply last_at_dents.
    + rewrite decide_False by (by apply dir_blocks_distinct). by apply D.
Qed.
End dirlink.

(** ** Paths *)

(** The elements of a path: what stands between its slashes. *)
Fixpoint comps (cur : bytes) (p : bytes) : list bytes :=
  let flush := match cur with [] => [] | _ => [cur] end in
  match p with
  | [] => flush
  | c :: p => if c =? 47 then flush ++ comps [] p else comps (cur ++ [c]) p
  end.

(** Where a directory is depends on three fields. *)
Lemma dir_ok_ext dk x x' (E : Z → list entry) :
  i_block x' = i_block x → i_blocks x' = i_blocks x → i_size x' = i_size x → dir_ok dk x E → dir_ok dk x' E.
Proof.
  destruct x, x'. cbn. intros -> -> -> [[? ? ? ? ?] ?]. split; [by split|done].
Qed.

Section comps.
Implicit Types (p cur : bytes).

Lemma comps_step cur p :
  comps cur p = match cur ++ elem p with [] => [] | w => [w] end ++ comps [] (after_elem p).
Proof.
  revert cur. induction p as [|c p IH]; intros cur; cbn [comps elem after_elem].
  - rewrite !app_nil_r. by destruct cur.
  - destruct (c =? 47); [rewrite app_nil_r; by destruct cur|]. rewrite IH. by rewrite <- app_assoc.
Qed.

Lemma comps_drop p : comps [] (drop_slashes p) = comps [] p.
Proof. induction p as [|c p IH]; [done|]. cbn [drop_slashes]. destruct (c =? 47) eqn:E; [|done]. cbn [comps]. by rewrite E. Qed.

Lemma elem_nil p : elem (drop_slashes p) = [] → drop_slashes p = [].
Proof.
  induction p as [|c p IH]; [done|]. cbn [drop_slashes]. destruct (c =? 47) eqn:E; [done|].
  cbn [elem]. by rewrite E.
Qed.

Lemma after_shorter p : drop_slashes p ≠ [] → (length (after_elem (drop_slashes p)) < length p)%nat.
Proof.
  assert (A : ∀ q, (length (after_elem q) <= length q)%nat).
  { intros q. induction q as [|c q IH]; cbn [after_elem length]; [lia|]. destruct (c =? 47); lia. }
  induction p as [|c p IH]; [done|]. cbn [drop_slashes]. destruct (c =? 47) eqn:E.
  - intros H. specialize (IH H). simpl. lia.
  - intros _. cbn [after_elem length]. rewrite E. pose proof (A p). lia.
Qed.
End comps.

(** The inode of number [n] as the disk [dk] describes it. *)
Definition raw dk (b : superblock) (n : Z) : inode := disk_inode dk b n inode_zero.

(** What [traverse_inode] looks for, [E n] being the entries of directory [n]:
    an element under something that is no directory is that something. *)
Fixpoint resolve (dk : Z → bytes) (b : superblock) (E : Z → Z → list entry) (n : Z) (cs : list bytes) : option Z :=
  match cs with
  | [] => Some n
  | name :: cs =>
      if negb (S_ISDIR (i_mode (raw dk b n))) then Some n else
      match alookup name (all_entries (raw dk b n) (E n)) with
      | None => None
      | Some m => resolve dk b E m cs
      end
  end.

(** The inodes [N] of a disk: each is there, and directories lead to others. *)
Record tree (dk : Z → bytes) (b : superblock) (N : Z → Prop) (E : Z → Z → list entry) : Prop := {
  tr_num : ∀ n, N n → inum_ok b n;
  tr_dir : ∀ n, N n → S_ISDIR (i_mode (raw dk b n)) = true → dir_ok dk (raw dk b n) (E n);
  tr_entry : ∀ n name m, N n → S_ISDIR (i_mode (raw dk b n)) = true →
    alookup name (all_entries (raw dk b n) (E n)) = Some m → N m
}.

Definition nfree (t : list inode) : nat := length (filter (λ x, i_ref x = 0) t).

Lemma nfree_insert t (i : nat) y : (nfree t <= nfree (<[i := y]> t) + 1)%nat.
Proof.
  unfold nfree. revert i. induction t as [|x t IH]; intros i; [simpl; lia|]. destruct i as [|i]; simpl.
  - rewrite !filter_cons. repeat case_decide; simpl; lia.
  - rewrite !filter_cons. specialize (IH i). case_decide; simpl; lia.
Qed.

Lemma nfree_some t : (0 < nfree t)%nat → ∃ i x, t !! i = Some x ∧ i_ref x = 0.
Proof.
  unfold nfree. intros Hn. destruct (filter _ t) as [|x l] eqn:E; [simpl in Hn; lia|].
  assert (Hx : x ∈ filter (λ x, i_ref x = 0) t) by (rewrite E; constructor).
  apply list_elem_of_filter in Hx as [Hr [i Hi]%list_elem_of_lookup]. eauto.
Qed.

Section paths.
Context {C : Type} {Hc : BlockCache C} {Hok : BlockCacheOk C}.
Implicit Types (s : fsst C) (path : bytes) (n : Z) (i k : nat) (cs : list bytes).
Context (dk : Z → bytes) (b : superblock) (N : Z → Prop) (E : Z → Z → list entry) (held : list Z).
Context (T : tree dk b N E) (Hheld : (length held < 31)%nat).

(** A state from which [k] more inodes can be loaded. *)
Record walk k s : Prop := {
  wk_fs : fs_ok dk held s;
  wk_sb : sb s = b;
  wk_table : itable_ok (itable s);
  wk_room : (k <= nfree (itable s))%nat;
  wk_ref : ∀ i x, itable s !! i = Some x → i_ref x < 2 ^ 31 - k
}.

(** Entry [i] of the table holds inode [n]. *)
Definition holds s i n : Prop :=
  ∃ y, itable s !! i = Some (disk_inode dk b n y) ∧ i_inum y = n ∧ i_ref y ≠ 0 ∧ N n.

Lemma walk_cache k s c : walk k s → fs_ok dk held (with_cache c s) → walk k (with_cache c s).
Proof. intros [] ?. by split. Qed.

Lemma get_inode_walk k s n :
  walk (S k) s → N n → ∃ i s', ext2_get_inode n s = Ret (Some i) s' ∧ walk k s' ∧ holds s' i n.
Proof.
  intros [I Hb It Hr Href] Hn. pose proof (tr_num _ _ _ _ T n Hn) as Hio.
  destruct (nfree_some (itable s) ltac:(lia)) as (i & x & Hi & Hx).
  destruct (get_inode_ok dk held s n i x I It) as (j & y & c & F & Ic & Eg);
    [by rewrite Hb|unfold NBUF; lia|done|by left|]. rewrite Hb in Eg.
  destruct (found_ok (itable s) n j y It (io_num _ _ Hio) F) as (It' & Yn & Yr);
    [intros z Hz; specialize (Href _ _ Hz); lia|].
  assert (Hlt : (j < length (itable s))%nat) by (destruct F; by eapply lookup_lt_Some).
  assert (Hj : <[j := y]> (itable s) !! j = Some y) by (by apply list_lookup_insert_eq).
  eexists j, _. split; [exact Eg|]. split.
  - split; cbn [sb itable]; [split; [exact Ic|done|cbn [sb]; rewrite <- Hb; apply I]|done| | |].
    + rewrite <- (list_insert_insert_eq (itable s) j (disk_inode dk b n y) y).
      eapply itable_insert; [exact It'|exact Hj|..].
      * intros Hz. by destruct (Yr Hz).
      * intros _. by apply (it_used _ It' _ _ Hj).
      * intros _ j' z Hne Hz Ez. apply Hne. symmetry. eapply (it_uniq _ It' _ _ _ _ Hj Hz Yr). done.
    + pose proof (nfree_insert (itable s) j (disk_inode dk b n y)). lia.
    + intros a z Hz. destruct (decide (a = j)) as [->|Ha].
      * rewrite list_lookup_insert_eq in Hz by done. injection Hz as <-.
        cbn [disk_inode load_inode i_ref]. destruct F as [j' x' Hj' _ _|j' Hj' _]; cbn [set_iref set_inum i_ref].
        -- specialize (Href _ _ Hj'). lia.
        -- specialize (Href _ _ Hj'). simpl in Href. lia.
      * rewrite list_lookup_insert_ne in Hz by done. specialize (Href _ _ Hz). lia.
  - exists y. cbn [itable]. by rewrite list_lookup_insert_eq.
Qed.

Lemma raw_dir n y Es : dir_ok dk (raw dk b n) Es → dir_ok dk (disk_inode dk b n y) Es.
Proof. by apply dir_ok_ext. Qed.

Lemma walk_less k k' s : (k' <= k)%nat → walk k s → walk k' s.
Proof. intros Hk [I Hb It Hr Href]. split; [done..|lia|]. intros i x Hi. specialize (Href _ _ Hi). lia. Qed.

(** One element of the path. *)
Lemma step_ok k s i n name :
  walk (S k) s → holds s i n → (length name < 255)%nat → S_ISDIR (i_mode (raw dk b n)) = true →
  let ms := alookup name (all_entries (raw dk b n) (E n)) in
  ∃ s1, ext2_search_dir i name s = Ret (default (-1) ms) s1 ∧
    match ms with
    | None => walk (S k) s1
    | Some m => 0 < m ∧ ∃ j s2, ext2_get_inode m s1 = Ret (Some j) s2 ∧ walk k s2 ∧ holds s2 j m
    end.
Proof.
  intros W (y & Hi & Hy & Hyr & Hn) Hname Hd ms.
  destruct (search_dir_ok dk held s i _ (E n) name (wk_fs _ _ W) Hi) as (c & E1 & I1);
    [apply raw_dir, (tr_dir _ _ _ _ T n Hn Hd)|done|done|].
  exists (with_cache c s). split; [exact E1|]. pose proof (walk_cache _ _ _ W I1) as W1. unfold ms.
  destruct (alookup name (all_entries (raw dk b n) (E n))) as [m|] eqn:El; [|done].
  pose proof (tr_entry _ _ _ _ T n name m Hn Hd El) as Hm. pose proof (io_num _ _ (tr_num _ _ _ _ T m Hm)).
  split; [lia|]. destruct (get_inode_walk k _ m W1 Hm) as (j & s2 & E2 & W2 & H2). by exists j, s2.
Qed.

Lemma traverse_ok (fuel : nat) : ∀ path k s i n,
  (length path < fuel)%nat → Forall (λ c, (length c < 255)%nat) (comps [] path) →
  walk (length (comps [] path) + k) s → holds s i n →
  ∃ r s', traverse_inode fuel (Some i) path s = Ret r s' ∧ walk k s' ∧
    match resolve dk b E n (comps [] path) with
    | None => r = None
    | Some m => ∃ j, r = Some j ∧ holds s' j m
    end.
Proof.
  induction fuel as [|fuel IH]; intros path k s i n Hf Hc' W Hh; [lia|].
  cbn [traverse_inode]. unfold skippath. rewrite <- comps_drop in *.
  pose proof (after_shorter path) as Hlt. pose proof (elem_nil path) as Hnil.
  set (p := drop_slashes path) in *. pose proof (comps_step [] p) as Ec. simpl in Ec.
  assert (Hlen : (length (elem p) < 255)%nat).
  { rewrite Ec in Hc'. destruct (elem p); [simpl; lia|]. by apply Forall_cons in Hc' as [? _]. }
  erewrite pbind_ok.
  2: { rewrite take_elem_run. destruct (Nat.ltb_spec (length ([] : bytes) + length (elem p)) 255); [|simpl in *; lia]. reflexivity. }
  cbv beta iota zeta. change ([] ++ elem p) with (elem p).
  destruct (elem p) as [|c0 nm] eqn:Ee.
  - rewrite (Hnil eq_refl) in *. cbn [after_elem comps resolve]. exists (Some i), s. split; [done|].
    cbn [comps length] in W. split; [by eapply walk_less, W; lia|by exists i].
  - set (name := c0 :: nm) in *. assert (Hp : p ≠ []) by (by intros Hp; rewrite Hp in Ee).
    specialize (Hlt Hp). set (rest := after_elem p) in *. cbn [app] in Ec. rewrite Ec in Hc', W |- *.
    apply Forall_cons in Hc' as [Hn1 Hn2]. cbn [length] in W. cbn [resolve].
    destruct Hh as (y & Hi & Hy & Hyr & HN).
    assert (Eq : ∀ m : prog (fsst C) (option nat), match rest with [] => m | _ :: _ => m end = m)
      by (intros; by destruct rest).
    rewrite Eq. cbn [not_null]. prog_step. rewrite (pbind_ok _ _ _ _ _ (ino_at_run _ _ _ Hi)).
    change (i_mode (disk_inode dk b n y)) with (i_mode (raw dk b n)).
    destruct (S_ISDIR (i_mode (raw dk b n))) eqn:Ed; cbn [negb].
    2: { exists (Some i), s. split; [done|]. split; [eapply walk_less, W; lia|]. exists i. split; [done|]. by exists y. }
    destruct (step_ok (length (comps [] rest) + k) s i n name W) as (s1 & E1 & S1); [by exists y|done|done|].
    rewrite (pbind_ok _ _ _ _ _ E1).
    destruct (alookup name (all_entries (raw dk b n) (E n))) as [m|].
    + destruct S1 as (Hm & j & s2 & E2 & W2 & H2). cbn [default]. unfold id. destruct (m <? 0) eqn:E0; [lia|].
      rewrite (pbind_ok _ _ _ _ _ E2). apply IH; [lia|done|done|done].
    + exists None, s1. split; [done|]. split; [eapply walk_less, S1; lia|done].
Qed.

(** The starting point of a path, and its resolution. *)
Lemma path2inode_ok path k s cwd n :
  walk (S (length (comps [] path)) + k) s → Forall (λ c, (length c < 255)%nat) (comps [] path) →
  N EXT2_ROOT_INO → holds s cwd n →
  ∃ r s', ext2_path2inode (Some cwd) path s = Ret r s' ∧ walk k s' ∧
    match resolve dk b E (if decide (head path = Some 47) then EXT2_ROOT_INO else n) (comps [] path) with
    | None => r = None
    | Some m => ∃ j, r = Some j ∧ holds s' j m
    end.
Proof.
  intros W Hc' Hroot Hh. unfold ext2_path2inode.
  assert (A : ∃ i0 s0, start_inode (Some cwd) path s = Ret (Some i0) s0 ∧ walk (length (comps [] path) + k) s0 ∧
    holds s0 i0 (if decide (head path = Some 47) then EXT2_ROOT_INO else n)).
  { assert (A0 : ∃ i0 s0, ret (Some cwd) s = Ret (Some i0) s0 ∧ walk (length (comps [] path) + k) s0 ∧ holds s0 i0 n).
    { exists cwd, s. split; [done|]. split; [by eapply walk_less, W; lia|done]. }
    destruct path as [|c p]; [exact A0|]. cbn [start_inode head]. destruct (c =? 47) eqn:E0.
    - rewrite decide_True by (f_equal; lia). destruct (get_inode_walk _ s EXT2_ROOT_INO W Hroot) as (i0 & s0 & E1 & W1 & H1).
      by exists i0, s0.
    - rewrite decide_False by (intros [=]; lia). exact A0. }
  destruct A as (i0 & s0 & E1 & W1 & H1). rewrite (pbind_ok _ _ _ _ _ E1).
  apply traverse_ok; [lia|done|done|done].
Qed.
End paths.

Module DirProps.

(** C22: a name added to a directory is found there. [make_dirent] followed by
    [ext2_dirlink] refuses a name the directory has, and leaves the disk as it
    was; a new name goes after the last entry of the first block when there is
    room, and afterwards [ext2_search_dir] returns the new number for it and
    what it returned before for every other name. No buffer is kept. *)
Theorem dirlink_correct {C} `{BlockCacheOk C} (s : fsst C) dk held i x E name ino ft :
  fs_ok dk held s → itable s !! i = Some x → dir_ok dk x E → file_inj dk x → 0 < ext2_inode_nblock x →
  (length held < 31)%nat → name_ok name → ino_ok ino →
  let run := (de <- make_dirent ino name ft ;; ext2_dirlink i de) s in
  (alookup name (all_entries x E) ≠ None → ∃ s', run = Ret (-1) s' ∧ fs_ok dk held s' ∧ itable s' = itable s) ∧
  (alookup name (all_entries x E) = None →
   ∀ es p nm ino0, E 0 = es ++ [(nm, ino0)] → dir_room dk x es p nm ino0 name →
   ∃ s' dk', run = Ret 0 s' ∧ fs_ok dk' held s' ∧ itable s' = itable s ∧
     dir_ok dk' x (add_entry E (name, ino)) ∧
     ∀ nm', (length nm' < 255)%nat → ∃ s'', ext2_search_dir i nm' s' =
       Ret (if decide (nm' = name) then ino else default (-1) (alookup nm' (all_entries x E))) s'').
Proof.
  intros I Hi D J Hnb Hl Hn Ho run.
  destruct (make_dirent_run ino name ft s (fo_bsize _ _ _ I) Hn) as (de & E1 & Hde).
  unfold run. rewrite (pbind_ok _ _ _ _ _ E1). split.
  - destruct (alookup name (all_entries x E)) as [n|] eqn:El; [|done]. intros _.
    destruct (search_dir_ok dk held s i x E name I Hi D Hl) as (c & E2 & I2); [apply Hn|].
    exists (with_cache c s). split; [|done]. unfold ext2_dirlink.
    rewrite (is_dirent_string _ _ _ _ Hn Hde), (pbind_ok _ _ _ _ _ E2), El. cbn. unfold id.
    pose proof (all_entries_ok dk x E name n D El) as Hno. unfold ino_ok in Hno. by destruct (n >? 0) eqn:?; [|lia].
  - intros Hno es p nm ino0 HE Hr.
    destruct (dirlink_ok dk held s i x E es p nm ino0 de name ino ft I Hi D J Hnb Hl Hde Hn Ho Hno Hr HE)
      as (c & l' & E2 & I2 & D2 & _).
    eexists _, _. split_and!; [exact E2|exact I2|done|exact D2|]. intros nm' Hnm'.
    destruct (search_dir_ok _ held (with_cache c s) i x _ nm' I2 Hi D2 Hl Hnm') as (c' & E3 & _).
    exists (with_cache c' (with_cache c s)). rewrite E3. f_equal.
    rewrite alookup_add by done. by case_decide.
Qed.

(** A disk whose root (inode 2, block 20) has the entries [.], [..] and [a],
    the last one being the file of inode 12. *)
Definition put_entry (l : bytes) (off : nat) (ino rec ft : Z) (name : bytes) : bytes :=
  splice (set_fld 1 (set_fld 1 (set_fld 2 (set_fld 4 l off ino) (off + 4) rec) (off + 6) (length name)) (off + 7) ft)
    (off + 8) name.
Definition zeros : bytes := replicate BSIZE 0.
Definition root_block : bytes :=
  put_entry (put_entry (put_entry zeros 0 2 12 2 [46]) 12 2 12 2 [46; 46]) 24 12 1000 1 [97].
Definition root_inode : inode := Inode 0x41ed 1024 1 2 3 0 2 2 (20 :: replicate 14 0) 2 0 0 1.
Definition file_inode : inode := Inode 0x81a4 5 1 2 3 0 1 2 (21 :: replicate 14 0) 12 0 0 1.
Definition small_disk : memdisk :=
  MemDisk (list_to_map [(5, store_inode zeros 128 root_inode); (6, store_inode zeros 384 file_inode); (20, root_block)]).
Definition small_fs : fsst (bcache memdisk) :=
  FsSt (BCache (Hart 0 0 false true) lock_init (replicate NBUF buf_zero) small_disk) lock_init
    (<[0%nat := root_inode]> (replicate NINODE inode_zero)) (Superblock 0 0 0 0 0 0 0 0 128 1024 3 4 5) ∅.
Definition root_entries : list entry := [([46], 2); ([46; 46], 2); ([97], 12)].

Lemma small_disk_ok : dev_ok small_disk.
Proof. apply (bool_decide_unpack _). vm_compute. exact Logic.I. Qed.

Lemma small_fs_ok : fs_ok (block small_disk) [] small_fs.
Proof.
  split; [|reflexivity|reflexivity].
  apply buf_init_inv with (lk := lock_init) (bs := []); [by vm_compute|exact small_disk_ok|done].
Qed.

Lemma dent_at_intro l pos nm ino :
  (0 <= pos ∧ pos mod 4 = 0) ∧ d_inode l (Z.to_nat pos) = ino ∧ d_name_len l (Z.to_nat pos) = length nm ∧
  slice l (Z.to_nat pos + 8) (length nm) = nm ∧ name_ok nm ∧ 0 < ino < 2 ^ 31 → dent_at l pos nm ino.
Proof. intros (? & ? & ? & ? & ? & ?). by split. Qed.

Lemma root_first : dents root_block 24 0 [([46], 2); ([46; 46], 2)].
Proof.
  constructor; [apply dent_at_intro, (bool_decide_unpack _); vm_compute; exact Logic.I|by vm_compute|].
  change (dents root_block 24 12 [([46; 46], 2)]).
  constructor; [apply dent_at_intro, (bool_decide_unpack _); vm_compute; exact Logic.I|by vm_compute|constructor].
Qed.

Lemma root_last : last_at root_block [([46], 2); ([46; 46], 2)] 24 [97] 12.
Proof.
  split; [exact root_first|apply dent_at_intro, (bool_decide_unpack _); vm_compute; exact Logic.I| | |];
    by vm_compute.
Qed.

Lemma root_file : file_ok (block small_disk) root_inode ∧ file_inj (block small_disk) root_inode.
Proof.
  assert (E : ext2_inode_nblock root_inode = 1) by reflexivity.
  assert (B : ∀ k, 0 <= k < 1 → k = 0) by lia.
  split; split; rewrite ?E; try done; try lia. intros k Hk. by rewrite (B k Hk).
Qed.

Lemma root_dir : dir_ok (block small_disk) root_inode (λ _, root_entries).
Proof.
  split; [apply root_file|]. intros k Hk. change (ext2_inode_nblock root_inode) with 1 in Hk.
  assert (k = 0) as -> by lia. exact (last_at_dents _ _ _ _ _ root_last).
Qed.

Lemma dirlink_correct_witness :
  ∃ s' s'', (de <- make_dirent 14 [98; 98] 1 ;; ext2_dirlink 0 de) small_fs = Ret 0 s' ∧
    ext2_search_dir 0 [98; 98] s' = Ret 14 s''.
Proof.
  destruct (dirlink_correct small_fs (block small_disk) [] 0 root_inode (λ _, root_entries) [98; 98] 14 1)
    as [_ L].
  - exact small_fs_ok.
  - reflexivity.
  - exact root_dir.
  - apply root_file.
  - vm_compute. reflexivity.
  - simpl. lia.
  - apply (bool_decide_unpack _). vm_compute. exact Logic.I.
  - unfold ino_ok. lia.
  - destruct (L eq_refl [([46], 2); ([46; 46], 2)] 24 [97] 12 eq_refl) as (s' & dk' & E & _ & _ & _ & F).
    + split; [exact root_last|by vm_compute|by vm_compute].
    + destruct (F [98; 98]) as [s'' E2]; [simpl; lia|]. exists s', s''. split; [exact E|exact E2].
Defined.

(** An entry that ends with its block: the last entry ends at 777, so the new
    one of 247 characters starts there. The copy of its NUL goes one byte past
    [b->data], to the low byte of [b->bno]. *)
Definition tight_block : bytes :=
  put_entry (put_entry (put_entry (put_entry zeros 0 2 256 2 (replicate 240 98)) 256 2 256 2 (replicate 240 99))
    512 2 256 2 (replicate 240 100)) 768 2 256 2 [101].
Definition tight_disk : memdisk :=
  MemDisk (list_to_map [(20, tight_block)]).

Example nul_past_block :
  (de <- make_dirent 14 (replicate 236 102) 1 ;; ext2_dirlink 0 de)
    (FsSt (BCache (Hart 0 0 false true) lock_init (replicate NBUF buf_zero) tight_disk) lock_init
      (<[0%nat := root_inode]> (replicate NINODE inode_zero)) (sb small_fs) ∅) = Fault "outside b->data".
Proof. vm_compute. reflexivity. Qed.


(** Every path of the small disk from its root. *)
Definition small_inodes (n : Z) : Prop := n = 2 ∨ n = 12.

Lemma small_tree : tree (block small_disk) (sb small_fs) small_inodes (λ _ _, root_entries).
Proof.
  split.
  - intros n [-> | ->]; (split; [lia|simpl; lia|simpl; lia|vm_compute; reflexivity]).
  - intros n [-> | ->] Hd; [|vm_compute in Hd; discriminate].
    apply (dir_ok_ext _ root_inode); [by vm_compute|by vm_compute|by vm_compute|exact root_dir].
  - intros n name m [-> | ->] Hd; [|vm_compute in Hd; discriminate].
    change (all_entries _ _) with root_entries. unfold root_entries. cbn [alookup].
    repeat (case_decide; [intros [= <-]; unfold small_inodes; auto|]). done.
Qed.


(** An element under a file is the file: [/a/x] names what [/a] names. *)
Example under_a_file :
  match ext2_path2inode (Some 0%nat) [47; 97; 47; 120] small_fs with
  | Ret (Some j) s => (i_inum <$> itable s !! j) = Some 12
  | _ => False
  end.
Proof. vm_compute. reflexivity. Qed.

(** An element of 255 characters makes [skippath] store past [name]. *)
Example long_element :
  skippath (C := bcache memdisk) (replicate 255 97) small_fs = Fault "name[255]".
Proof. vm_compute. reflexivity. Qed.

End DirProps.
