(* ===== verification/Uaccess.v ===== *)
(** * Copies to and from user memory (copyin, copyout of kernel/proc.c, and the
      data abort of kernel/trap.c)

    While the copy runs, [p->fault_handler] is set; a byte the translation
    does not map raises a data abort, whose handler then makes the copy return
    -1.  The copy loops are those of [memmove], stopped at the first fault. *)

From S2P Require Import Prelude Mem KString.
Open Scope Z_scope.
Open Scope prog_scope.

(** Memory as the CPU addresses it, the bytes that are mapped, and whether
    [p->fault_handler] is [copyio_fault] (else NULL). *)
Record ust := Ust { u_mem : mem; u_mapped : Z → bool; u_handler : bool }.

Definition set_handler (h : bool) : prog ust unit := modify (λ s, Ust (u_mem s) (u_mapped s) h).

(** [copyio_fault], entered by the exception return: its result is the copy's. *)
Definition copyio_fault : prog ust Z := set_handler false ;; ret (-1).

(** [handle_data_abort] for an access of the kernel. *)
Definition handle_data_abort : prog ust Z :=
  h <- gets u_handler ;;
  if h : bool then copyio_fault else panic "data abort EL1".

(** One byte. *)
Definition ld_user (a : Z) (k : Z → prog ust Z) : prog ust Z :=
  s <- get ;;
  if u_mapped s a then k (rd8 (u_mem s) a) else handle_data_abort.
Definition st_user (a v : Z) (k : prog ust Z) : prog ust Z :=
  s <- get ;;
  if u_mapped s a then put (Ust (wr8 (u_mem s) a v) (u_mapped s) (u_handler s)) ;; k
  else handle_data_abort.

(** [p->fault_handler = NULL; return 0;] *)
Definition copy_done : prog ust Z := set_handler false ;; ret 0.

Fixpoint ucopy_fwd (n : nat) (d s : Z) : prog ust Z :=
  match n with
  | O => copy_done
  | S n => ld_user s (λ c, st_user d c (ucopy_fwd n (d + 1) (s + 1)))
  end.

Fixpoint ucopy_bwd (n : nat) (d s : Z) : prog ust Z :=
  match n with
  | O => copy_done
  | S n => ld_user (s - 1) (λ c, st_user (d - 1) c (ucopy_bwd n (d - 1) (s - 1)))
  end.

Definition copyout (udst src sz : Z) : prog ust Z :=
  set_handler true ;;
  if src >? udst then ucopy_fwd (Z.to_nat sz) udst src
  else ucopy_bwd (Z.to_nat sz) (udst + sz) (src + sz).

Definition copyin (dst usrc sz : Z) : prog ust Z :=
  set_handler true ;;
  if usrc >? dst then ucopy_fwd (Z.to_nat sz) dst usrc
  else ucopy_bwd (Z.to_nat sz) (dst + sz) (usrc + sz).

Section copies.
Implicit Types (d s a : Z) (n : nat) (M : Z → bool) (m : mem).

(** Every byte of both ranges is mapped. *)
Definition all_mapped M d s n : Prop := ∀ i, 0 <= i < n → M (d + i) = true ∧ M (s + i) = true.

Lemma ucopy_fwd_ok n M m d s :
  all_mapped M d s n → ucopy_fwd n d s (Ust m M true) = Ret 0 (Ust (copy_fwd n m d s) M false).
Proof.
  revert m d s. induction n as [|n IH]; intros m d s HM; [done|].
  cbn [ucopy_fwd copy_fwd]. unfold ld_user, st_user. prog_steps. cbn [u_mapped u_mem u_handler].
  destruct (HM 0 ltac:(lia)) as [Hd Hs]. rewrite Z.add_0_r in Hd, Hs. rewrite Hs. prog_steps.
  cbn [u_mapped u_mem u_handler]. rewrite Hd. prog_steps. apply IH.
  intros i Hi. specialize (HM (i + 1) ltac:(lia)). by rewrite !(Z.add_comm i 1), !Z.add_assoc in HM.
Qed.

Lemma ucopy_bwd_ok n M m d s :
  all_mapped M (d - n) (s - n) n → ucopy_bwd n d s (Ust m M true) = Ret 0 (Ust (copy_bwd n m d s) M false).
Proof.
  revert m d s. induction n as [|n IH]; intros m d s HM; [done|].
  cbn [ucopy_bwd copy_bwd]. unfold ld_user, st_user. prog_steps. cbn [u_mapped u_mem u_handler].
  destruct (HM n ltac:(lia)) as [Hd Hs].
  replace (d - S n + n) with (d - 1) in Hd by lia. replace (s - S n + n) with (s - 1) in Hs by lia.
  rewrite Hs. prog_steps. cbn [u_mapped u_mem u_handler]. rewrite Hd. prog_steps. apply IH.
  intros i Hi. specialize (HM i ltac:(lia)).
  by replace (d - 1 - n) with (d - S n) by lia; replace (s - 1 - n) with (s - S n) by lia.
Qed.

(** With the handler set a copy never panics, and always clears it. *)
Lemma ucopy_fwd_total n M m d s :
  ∃ r m', ucopy_fwd n d s (Ust m M true) = Ret r (Ust m' M false) ∧ (r = 0 ∨ r = -1) ∧
    (r = 0 → all_mapped M d s n) ∧ ∀ a, ¬ (d <= a < d + n) → rd8 m' a = rd8 m a.
Proof.
  revert m d s. induction n as [|n IH]; intros m d s.
  - exists 0, m. split_and!; [done|by left|by intros _ i ?; lia|done].
  - cbn [ucopy_fwd]. unfold ld_user, st_user. prog_steps. cbn [u_mapped u_mem u_handler].
    destruct (M s) eqn:Es; [|exists (-1), m; split_and!; [done|by right|done|done]].
    prog_steps. cbn [u_mapped u_mem u_handler].
    destruct (M d) eqn:Ed; [|exists (-1), m; split_and!; [done|by right|done|done]]. prog_steps.
    destruct (IH (wr8 m d (rd8 m s)) (d + 1) (s + 1)) as (r & m' & E & Hr & H0 & Hm).
    exists r, m'. split_and!; [exact E|done| |].
    + intros Hz i Hi. destruct (decide (i = 0)) as [->|]; [by rewrite !Z.add_0_r|].
      specialize (H0 Hz (i - 1) ltac:(lia)). by rewrite <- !Z.add_assoc in H0; replace (1 + (i - 1)) with i in H0 by lia.
    + intros a Ha. rewrite Hm by lia. apply rd8_wr8_ne. lia.
Qed.

Lemma ucopy_bwd_total n M m d s :
  ∃ r m', ucopy_bwd n d s (Ust m M true) = Ret r (Ust m' M false) ∧ (r = 0 ∨ r = -1) ∧
    (r = 0 → all_mapped M (d - n) (s - n) n) ∧ ∀ a, ¬ (d - n <= a < d) → rd8 m' a = rd8 m a.
Proof.
  revert m d s. induction n as [|n IH]; intros m d s.
  - exists 0, m. split_and!; [done|by left|by intros _ i ?; lia|done].
  - cbn [ucopy_bwd]. unfold ld_user, st_user. prog_steps. cbn [u_mapped u_mem u_handler].
    destruct (M (s - 1)) eqn:Es; [|exists (-1), m; split_and!; [done|by right|done|done]].
    prog_steps. cbn [u_mapped u_mem u_handler].
    destruct (M (d - 1)) eqn:Ed; [|exists (-1), m; split_and!; [done|by right|done|done]]. prog_steps.
    destruct (IH (wr8 m (d - 1) (rd8 m (s - 1))) (d - 1) (s - 1)) as (r & m' & E & Hr & H0 & Hm).
    exists r, m'. split_and!; [exact E|done| |].
    + intros Hz i Hi. destruct (decide (i = n)) as [->|].
      * by replace (d - S n + n) with (d - 1) by lia; replace (s - S n + n) with (s - 1) by lia.
      * specialize (H0 Hz i ltac:(lia)).
        by replace (d - S n) with (d - 1 - n) by lia; replace (s - S n) with (s - 1 - n) by lia.
    + intros a Ha. rewrite Hm by lia. apply rd8_wr8_ne. lia.
Qed.

Lemma copyout_ok d s n M m h :
  all_mapped M d s n →
  ∃ m', copyout d s n (Ust m M h) = Ret 0 (Ust m' M false) ∧
    ∀ a, rd8 m' a = if decide (d <= a < d + n) then rd8 m (s + (a - d)) else rd8 m a.
Proof.
  intros HM. unfold copyout, set_handler. prog_step. cbn [u_mapped u_mem u_handler]. rewrite Nat2Z.id.
  destruct (s >? d) eqn:E.
  - exists (copy_fwd n m d s). rewrite ucopy_fwd_ok by done. split; [done|]. intros a. apply rd8_copy_fwd. lia.
  - exists (copy_bwd n m (d + n) (s + n)). rewrite ucopy_bwd_ok.
    + split; [done|]. intros a. rewrite rd8_copy_bwd by lia. replace (d + n - n) with d by lia.
      case_decide; [f_equal; lia|done].
    + by replace (d + n - n) with d by lia; replace (s + n - n) with s by lia.
Qed.
End copies.

Module CopyProps.

(** C30: a copy to user memory cannot stop the kernel. [copyout] returns 0 when
    every byte of both ranges is mapped, and the destination then holds the
    source's bytes even if the ranges overlap; it returns -1 otherwise, by way
    of the data abort. Either way nothing outside the destination is written,
    and the fault handler is cleared, so that a later fault is not taken for
    one of this copy; without the handler the same access panics. *)
Theorem copyout_correct (s : ust) (udst src sz : Z) :
  0 <= sz →
  (∃ r s', copyout udst src sz s = Ret r s' ∧ u_handler s' = false ∧
     (r = 0 ↔ all_mapped (u_mapped s) udst src (Z.to_nat sz)) ∧ (r = 0 ∨ r = -1) ∧
     (∀ a, ¬ (udst <= a < udst + sz) → rd8 (u_mem s') a = rd8 (u_mem s) a) ∧
     (r = 0 → ∀ i, 0 <= i < sz → rd8 (u_mem s') (udst + i) = rd8 (u_mem s) (src + i))) ∧
  (∀ n, u_handler s = false → u_mapped s src = false →
     ucopy_fwd (S n) udst src s = Panic "data abort EL1").
Proof.
  intros Hsz. destruct s as [m M h]. cbn [u_mapped u_mem u_handler]. split.
  - unfold copyout, set_handler. prog_step. cbn [u_mapped u_mem u_handler].
    set (n := Z.to_nat sz). assert (Hn : (n : Z) = sz) by lia. rewrite <- Hn.
    destruct (src >? udst) eqn:E.
    + destruct (ucopy_fwd_total n M m udst src) as (r & m' & E1 & Hr & H0 & Hm).
      exists r, (Ust m' M false). split_and!; try done.
      * split; [done|]. intros HM. rewrite (ucopy_fwd_ok n M m udst src HM) in E1. by injection E1.
      * intros Hz i Hi. rewrite (ucopy_fwd_ok n M m udst src (H0 Hz)) in E1. injection E1 as _ <-.
        cbn [u_mem]. rewrite rd8_copy_fwd, decide_True by lia. f_equal. lia.
    + destruct (ucopy_bwd_total n M m (udst + n) (src + n)) as (r & m' & E1 & Hr & H0 & Hm).
      assert (E2 : udst + n - n = udst) by lia. assert (E3 : src + n - n = src) by lia.
      rewrite E2, E3 in H0. exists r, (Ust m' M false). split_and!; try done.
      * split; [done|]. intros HM. rewrite ucopy_bwd_ok in E1 by (by rewrite E2, E3). by injection E1.
      * intros a Ha. apply Hm. lia.
      * intros Hz i Hi. rewrite ucopy_bwd_ok in E1 by (rewrite E2, E3; auto). injection E1 as _ <-.
        cbn [u_mem]. rewrite rd8_copy_bwd, decide_True by lia. f_equal. lia.
  - intros n -> HM. cbn [ucopy_fwd]. unfold ld_user. prog_steps. cbn [u_mapped u_mem u_handler]. by rewrite HM.
Qed.

Lemma copyout_correct_witness :
  ∃ r s', copyout 0 8 4 (Ust (list_to_map [(8, 1); (11, 7)]) (λ a, a <? 16) false) = Ret r s' ∧ r = 0 ∧
    rd8 (u_mem s') 3 = 7.
Proof.
  destruct (copyout_correct (Ust (list_to_map [(8, 1); (11, 7)]) (λ a, a <? 16) false) 0 8 4 ltac:(lia))
    as [(r & s' & E & _ & H0 & _ & _ & H) _].
  assert (Hr : r = 0).
  { apply H0. intros i Hi. change (Z.to_nat 4 : Z) with 4 in Hi. split; apply Z.ltb_lt; lia. }
  exists r, s'. split; [exact E|]. split; [exact Hr|]. exact (H Hr 3 ltac:(lia)).
Defined.

End CopyProps.
