(* ===== verification/File.v ===== *)
(** * Open files and descriptors (kernel/file.c, kernel/cdev.c)

    The file table, the descriptors of the process that runs, and the calls on
    them.  Memory is addressed as the CPU sees it, user and kernel alike. *)

From S2P Require Import Prelude Mem Bytes KString Spinlock Buf Fs Ext2 Ext2Alloc Ext2File Uaccess.
Import Spin.
Open Scope Z_scope.
Open Scope prog_scope.

Definition NFILE : nat := 128.
Definition NOFILE : nat := 16.
Definition NCDEV : nat := 32.

(** fcntl.h (the values are octal). *)
Definition O_RDONLY : Z := 0.
Definition O_WRONLY : Z := 1.
Definition O_RDWR : Z := 2.
Definition O_ACCMODE : Z := 3.
Definition O_DIRECTORY : Z := 0x4000.

(** [struct file]; [f_ino] is an index of the inode table, [None] for NULL. *)
Record file := File { f_ref : Z; f_ino : option nat; f_off : Z; f_readable : Z; f_writable : Z }.

#[export] Instance file_eq_dec : EqDecision file.
Proof. solve_decision. Defined.

Definition file_zero : file := File 0 None 0 0 0.

Definition set_fref (v : Z) (f : file) : file := File v (f_ino f) (f_off f) (f_readable f) (f_writable f).
Definition set_off (v : Z) (f : file) : file := File (f_ref f) (f_ino f) v (f_readable f) (f_writable f).

(** The file system, [ftable], and what [file.c] uses of [myproc()]: its
    descriptors, its working directory and its fault handler; [fl_mapped] is
    the memory its page table maps. *)
Record filest (C : Type) := FileSt {
  fl_fs : fsst C;
  ftable_lk : spinlock;
  ftable : list file;
  ofile : list (option nat);
  cwd : option nat;
  fl_mapped : Z → bool;
  fl_handler : bool
}.
Arguments FileSt {C}.
Arguments fl_fs {C}.
Arguments ftable_lk {C}.
Arguments ftable {C}.
Arguments ofile {C}.
Arguments cwd {C}.
Arguments fl_mapped {C}.
Arguments fl_handler {C}.

Section ops.
Context {C : Type} `{BlockCache C}.

Definition of_fs : lens (filest C) (fsst C) :=
  Lens fl_fs (λ f s, FileSt f (ftable_lk s) (ftable s) (ofile s) (cwd s) (fl_mapped s) (fl_handler s)).

Definition set_chart (h : hart) (f : fsst C) : fsst C :=
  FsSt (lset chart h (fs_cache f)) (itable_lk f) (itable f) (sb f) (fs_mem f).

Definition of_ftlk : lens (filest C) lockst :=
  Lens (λ s, (lget chart (fs_cache (fl_fs s)), ftable_lk s))
       (λ t s, FileSt (set_chart (fst t) (fl_fs s)) (snd t) (ftable s) (ofile s) (cwd s) (fl_mapped s) (fl_handler s)).

Definition of_user : lens (filest C) ust :=
  Lens (λ s, Ust (fs_mem (fl_fs s)) (fl_mapped s) (fl_handler s))
       (λ u s, FileSt (FsSt (fs_cache (fl_fs s)) (itable_lk (fl_fs s)) (itable (fl_fs s)) (sb (fl_fs s)) (u_mem u))
                 (ftable_lk s) (ftable s) (ofile s) (cwd s) (u_mapped u) (u_handler u)).

Definition set_ftable (t : list file) (s : filest C) : filest C :=
  FileSt (fl_fs s) (ftable_lk s) t (ofile s) (cwd s) (fl_mapped s) (fl_handler s).
Definition set_ofile (o : list (option nat)) (s : filest C) : filest C :=
  FileSt (fl_fs s) (ftable_lk s) (ftable s) o (cwd s) (fl_mapped s) (fl_handler s).

(** [*f] *)
Definition file_at (f : nat) : prog (filest C) file := λ s,
  match ftable s !! f with Some x => Ret x s | None => Fault "file pointer" end.
Definition upd_file (f : nat) (g : file → file) : prog (filest C) unit :=
  modify (λ s, set_ftable (alter g f (ftable s)) s).
Definition put_fd (fd : nat) (f : option nat) : prog (filest C) unit :=
  modify (λ s, set_ofile (<[fd := f]> (ofile s)) s).

Definition alloc_file : prog (filest C) (option nat) :=
  zoom of_ftlk acquire ;;
  r <- gets (λ s, fst <$> list_find (λ f, f_ref f = 0) (ftable s)) ;;
  match r with
  | Some i => upd_file i (set_fref 1) ;; zoom of_ftlk release ;; ret (Some i)
  | None => zoom of_ftlk release ;; ret None
  end.

(** [(u32)fd >= NOFILE] *)
Definition fget (fd : Z) : prog (filest C) (option nat) :=
  if u32 fd >=? NOFILE then ret None else
  gets (λ s, default None (ofile s !! Z.to_nat (u32 fd))).

Definition allocfd : prog (filest C) Z :=
  r <- gets (λ s, fst <$> list_find (λ o, o = None) (ofile s)) ;;
  ret (match r with Some fd => Z.of_nat fd | None => -1 end).

(** [struct cdevsw]: the driver's functions, [None] for NULL. *)
Record cdev := Cdev {
  cd_read : option (nat → Z → Z → prog (filest C) Z);
  cd_write : option (nat → Z → Z → prog (filest C) Z)
}.

Definition register_cdev (major : nat) (d : cdev) (cdevsw : list cdev) : list cdev := <[major := d]> cdevsw.

Section devices.
(** [cdevsw], which is set up once. *)
Context (cdevsw : list cdev).

(** [cdevsw[major].op(f, buf, sz)] *)
Definition cdev_call (op : cdev → option (nat → Z → Z → prog (filest C) Z)) (major : Z) (f : nat) (buf sz : Z)
    : prog (filest C) Z :=
  match cdevsw !! Z.to_nat major with
  | None => fault "cdevsw[]"
  | Some d => match op d with None => fault "NULL function" | Some g => g f buf sz end
  end.

Definition read_file (f : option nat) (buf sz : Z) : prog (filest C) Z :=
  match f with
  | None => ret (-1)
  | Some f =>
      x <- file_at f ;;
      if negb (nz (f_readable x)) then ret (-1) else
      match f_ino x with
      | None => ret (-1)
      | Some i =>
          ino <- zoom of_fs (ino_at i) ;;
          let fmt := Z.land (i_mode ino) S_IFMT in
          if (fmt =? S_IFREG) || (fmt =? S_IFDIR) then
            n <- zoom of_fs (ext2_read_inode i buf (f_off x) sz) ;;
            if n <? 0 then ret (-1) else
            upd_file f (λ x, set_off (f_off x +u64 n) x) ;;
            ret n
          else if fmt =? S_IFCHR then cdev_call cd_read (i_major ino) f buf sz
          else panic "unknown ftype"
      end
  end.

Definition write_file (f : option nat) (buf sz : Z) : prog (filest C) Z :=
  match f with
  | None => ret (-1)
  | Some f =>
      x <- file_at f ;;
      if negb (nz (f_writable x)) then ret (-1) else
      match f_ino x with
      | None => ret (-1)
      | Some i =>
          ino <- zoom of_fs (ino_at i) ;;
          let fmt := Z.land (i_mode ino) S_IFMT in
          if (fmt =? S_IFREG) || (fmt =? S_IFDIR) then
            n <- zoom of_fs (ext2_w_inode i buf (f_off x) sz) ;;
            if n <? 0 then ret (-1) else
            upd_file f (λ x, set_off (f_off x +u64 n) x) ;;
            ret n
          else if fmt =? S_IFCHR then cdev_call cd_write (i_major ino) f buf sz
          else panic "unknown ftype"
      end
  end.

Definition read (fd buf sz : Z) : prog (filest C) Z :=
  f <- fget fd ;;
  match f with None => ret (-1) | Some f => read_file (Some f) buf sz end.

Definition write (fd buf sz : Z) : prog (filest C) Z :=
  f <- fget fd ;;
  match f with None => ret (-1) | Some f => write_file (Some f) buf sz end.
End devices.

Definition dup_file (f : nat) : prog (filest C) nat :=
  zoom of_ftlk acquire ;;
  upd_file f (λ x, set_fref (i32 (f_ref x + 1)) x) ;;
  zoom of_ftlk release ;;
  ret f.

(** The bytes of [struct stat st1]; [pad] is what the stack holds between
    [st_mode] and [st_size]. *)
Definition stat_bytes (pad : Z) (x : inode) (b : superblock) : bytes :=
  le_bytes 4 0 ++ le_bytes 4 (i_inum x) ++ le_bytes 2 (i_mode x) ++ le_bytes 2 pad ++
  le_bytes 4 (i_size x) ++ le_bytes 4 (i_links_count x) ++ le_bytes 4 (sb_bsize b).

(** [st1] is on the kernel stack, at [st1]. *)
Definition fstat (st1 pad fd st : Z) : prog (filest C) Z :=
  f <- fget fd ;;
  match f with
  | None => ret (-1)
  | Some f =>
      x <- file_at f ;;
      match f_ino x with
      | None => ret (-1)
      | Some i =>
          ino <- zoom of_fs (ino_at i) ;;
          b <- zoom of_fs get_sb ;;
          zoom of_fs (zoom of_mem (modify (λ m, mwrite m st1 (stat_bytes pad ino b)))) ;;
          zoom of_user (copyout st st1 24)
      end
  end.

Definition set_open (i : nat) (flags : Z) (f : file) : file :=
  let acc := Z.land flags O_ACCMODE in
  File (f_ref f) (Some i) 0
    (if (acc =? O_RDONLY) || (acc =? O_RDWR) then 1 else f_readable f)
    (if (acc =? O_WRONLY) || (acc =? O_RDWR) then 1 else f_writable f).

Definition open (path : bytes) (flags : Z) : prog (filest C) Z :=
  cwd <- gets cwd ;;
  ino <- zoom of_fs (ext2_path2inode cwd path) ;;
  match ino with
  | None => ret (-1)
  | Some i =>
      f <- alloc_file ;;
      match f with
      | None => ret (-1)
      | Some f =>
          upd_file f (set_open i flags) ;;
          ino <- zoom of_fs (ino_at i) ;;
          if nz (Z.land flags O_DIRECTORY) && negb (S_ISDIR (i_mode ino)) then ret (-1) else
          fd <- allocfd ;;
          if fd <? 0 then ret (-1) else
          put_fd (Z.to_nat fd) (Some f) ;;
          ret fd
      end
  end.

Definition close (fd : Z) : prog (filest C) Z :=
  f <- fget fd ;;
  match f with
  | None => ret (-1)
  | Some f =>
      zoom of_ftlk acquire ;;
      x <- file_at f ;;
      if f_ref x =? 0 then zoom of_ftlk release ;; ret (-1) else
      upd_file f (λ x, set_fref (i32 (f_ref x - 1)) x) ;;
      x <- file_at f ;;
      if f_ref x >? 0 then zoom of_ftlk release ;; ret 0 else
      zoom of_ftlk release ;;
      put_fd (Z.to_nat (u32 fd)) None ;;
      upd_file f (λ _, file_zero) ;;
      ret 0
  end.

Definition mknod (path : bytes) (mode dev : Z) : prog (filest C) Z :=
  cwd <- gets cwd ;;
  ino <- zoom of_fs (ext2_mknod cwd path mode dev) ;;
  ret (match ino with None => -1 | Some _ => 0 end).

Definition mkdir (path : bytes) : prog (filest C) Z :=
  cwd <- gets cwd ;;
  ino <- zoom of_fs (ext2_mkdir cwd path) ;;
  ret (match ino with None => -1 | Some _ => 0 end).

Definition dup (fd : Z) : prog (filest C) Z :=
  f <- fget fd ;;
  match f with
  | None => ret (-1)
  | Some f =>
      newfd <- allocfd ;;
      if newfd <? 0 then ret (-1) else
      f <- dup_file f ;;
      put_fd (Z.to_nat newfd) (Some f) ;;
      ret newfd
  end.

(** chdir of kernel/proc.c. *)
Definition chdir (path : bytes) : prog (filest C) Z :=
  c <- gets cwd ;;
  ino <- zoom of_fs (ext2_path2inode c path) ;;
  match ino with
  | None => ret (-1)
  | Some i =>
      x <- zoom of_fs (ino_at i) ;;
      if negb (S_ISDIR (i_mode x)) then ret (-1) else
      modify (λ s, FileSt (fl_fs s) (ftable_lk s) (ftable s) (ofile s) (Some i) (fl_mapped s) (fl_handler s)) ;;
      ret 0
  end.

Definition file_init : prog (filest C) unit :=
  modify (λ s, FileSt (fl_fs s) lock_init (replicate NFILE file_zero) (ofile s) (cwd s) (fl_mapped s) (fl_handler s)).
End ops.

Arguments cdev : clear implicits.

(** ** The table's invariant *)

(** A file nobody references is cleared, so that the next [open] finds neither
    mode set. *)
Record ftable_ok (t : list file) : Prop := {
  ft_len : length t = NFILE;
  ft_free : ∀ i x, t !! i = Some x → f_ref x = 0 → x = file_zero;
  ft_ref : ∀ i x, t !! i = Some x → 0 <= f_ref x < 2 ^ 31 - 1
}.

Lemma ftable_init : ftable_ok (replicate NFILE file_zero).
Proof.
  split.
  - apply length_replicate.
  - by intros i x [-> _]%lookup_replicate.
  - intros i x [-> _]%lookup_replicate. simpl. lia.
Qed.

Lemma ftable_insert t i y :
  ftable_ok t → (f_ref y = 0 → y = file_zero) → 0 <= f_ref y < 2 ^ 31 - 1 → ftable_ok (<[i := y]> t).
Proof.
  intros [L Z B] Hz Hb. split; [by rewrite length_insert|..]; intros j x Hj;
    apply list_lookup_insert_Some in Hj as [(-> & <- & _)|[_ Hj]]; eauto.
Qed.

Lemma alter_insert {A} (g : A → A) (l : list A) (i : nat) x : l !! i = Some x → alter g i l = <[i := g x]> l.
Proof.
  intros Hi. apply list_eq. intros j. rewrite list_lookup_alter, list_lookup_insert.
  repeat case_decide; subst; try done.
  - by rewrite Hi.
  - apply lookup_lt_Some in Hi. tauto.
  - tauto.
Qed.

Section runs.
Context {C : Type} {Hc : BlockCache C} {Hok : BlockCacheOk C}.
Implicit Types (s : filest C) (dk : Z → bytes) (x : file) (f fd : nat) (t : list file).

Record fl_ok dk held s : Prop := {
  fl_fsok : fs_ok dk held (fl_fs s);
  fl_lock : free_lock (ftable_lk s);
  fl_table : ftable_ok (ftable s);
  fl_fds : length (ofile s) = NOFILE
}.

Definition hart_of_fl s : hart := lget chart (fs_cache (fl_fs s)).

Lemma fl_hart dk held s : fl_ok dk held s → hart_ok (hart_of_fl s).
Proof. intros [I _ _ _]. apply (cached_hart _ _ _ (fo_cache _ _ _ I)). Qed.

(** The lock free and the table [t]. *)
Definition with_ft (h : hart) t s : filest C :=
  FileSt (set_chart h (fl_fs s)) lock_init t (ofile s) (cwd s) (fl_mapped s) (fl_handler s).
(** The lock taken. *)
Definition in_ft (h : hart) t s : filest C :=
  FileSt (set_chart (entered h) (fl_fs s)) (Lock 1 (cpuid h)) t (ofile s) (cwd s) (fl_mapped s) (fl_handler s).

Lemma acquire_ft s : hart_ok (hart_of_fl s) → free_lock (ftable_lk s) →
  zoom of_ftlk acquire s = Ret tt (in_ft (hart_of_fl s) (ftable s) s).
Proof. intros Hh Hl. unfold zoom. simpl. unfold hart_of_fl in *. by rewrite acquire_free. Qed.

Lemma release_ft h t s : hart_ok h → zoom of_ftlk release (in_ft h t s) = Ret tt (with_ft (touched h) t s).
Proof.
  intros Hh. unfold zoom, in_ft, with_ft.
  cbn [lget lset of_ftlk fl_fs ftable_lk ftable ofile cwd fl_mapped fl_handler set_chart fs_cache itable_lk itable sb fs_mem].
  rewrite (lget_lset (l := chart)), release_held by done. cbn [fst snd].
  unfold set_chart. cbn [fs_cache itable_lk itable sb fs_mem]. by rewrite (lset_lset (l := chart)).
Qed.

Lemma fl_ok_ft dk held s h t : fl_ok dk held s → hart_ok h → ftable_ok t → fl_ok dk held (with_ft h t s).
Proof.
  intros [[I L B] _ _ Hf] Hh Ht. split; [|done|done|done]. split; [|done|done]. by apply cached_set_hart.
Qed.

Lemma file_at_run f x s : ftable s !! f = Some x → file_at f s = Ret x s.
Proof. unfold file_at. by intros ->. Qed.

Lemma upd_file_run f g x s : ftable s !! f = Some x → upd_file f g s = Ret tt (set_ftable (<[f := g x]> (ftable s)) s).
Proof. intros Hf. unfold upd_file, modify. by rewrite (alter_insert _ _ _ _ Hf). Qed.

(** [alloc_file] takes the first file without references. *)
Lemma alloc_file_run s :
  hart_ok (hart_of_fl s) → free_lock (ftable_lk s) →
  alloc_file s = match list_find (λ x, f_ref x = 0) (ftable s) with
    | Some (i, x) => Ret (Some i) (with_ft (touched (hart_of_fl s)) (<[i := set_fref 1 x]> (ftable s)) s)
    | None => Ret None (with_ft (touched (hart_of_fl s)) (ftable s) s)
    end.
Proof.
  intros Hh Hl. unfold alloc_file. rewrite (pbind_ok _ _ _ _ _ (acquire_ft s Hh Hl)). prog_step. cbn [ftable in_ft].
  destruct (list_find _ (ftable s)) as [[i x]|] eqn:E; cbn [fmap option_fmap option_map fst].
  - apply list_find_Some in E as (Hi & _ & _).
    rewrite (pbind_ok _ _ _ _ _ (upd_file_run i _ x (in_ft (hart_of_fl s) (ftable s) s) Hi)).
    cbn [ftable in_ft]. change (set_ftable ?t (in_ft ?h _ ?s)) with (in_ft h t s).
    by rewrite (pbind_ok _ _ _ _ _ (release_ft _ _ _ Hh)).
  - by rewrite (pbind_ok _ _ _ _ _ (release_ft _ _ _ Hh)).
Qed.

Lemma dup_file_run f x s :
  hart_ok (hart_of_fl s) → free_lock (ftable_lk s) → ftable s !! f = Some x → -1 <= f_ref x < 2 ^ 31 - 1 →
  dup_file f s = Ret f (with_ft (touched (hart_of_fl s)) (<[f := set_fref (f_ref x + 1) x]> (ftable s)) s).
Proof.
  intros Hh Hl Hf Hr. unfold dup_file. rewrite (pbind_ok _ _ _ _ _ (acquire_ft s Hh Hl)).
  rewrite (pbind_ok _ _ _ _ _ (upd_file_run f _ x (in_ft (hart_of_fl s) (ftable s) s) Hf)).
  cbn [ftable in_ft]. change (set_ftable ?t (in_ft ?h _ ?s)) with (in_ft h t s). rewrite i32_small by lia.
  by rewrite (pbind_ok _ _ _ _ _ (release_ft _ _ _ Hh)).
Qed.

Lemma fget_run fd s : (fd < NOFILE)%nat → fget fd s = Ret (default None (ofile s !! fd)) s.
Proof.
  intros Hfd. unfold fget, NOFILE in *. rewrite u32_small by lia.
  assert (Hz : (fd : Z) < 16) by lia. change (Z.of_nat 16) with 16.
  destruct (Z.of_nat fd >=? 16) eqn:E; [lia|]. unfold gets. by rewrite Nat2Z.id.
Qed.

Lemma fget_bad (fd : Z) s : ¬ (0 <= fd < 16) → - 2 ^ 31 <= fd < 2 ^ 31 → fget fd s = Ret None s.
Proof.
  intros Hfd Hr. unfold fget, NOFILE, u32. assert (16 <= fd mod 2 ^ 32); [|change (Z.of_nat 16) with 16; by destruct (fd mod 2 ^ 32 >=? 16) eqn:?; [|lia]].
  destruct (decide (fd < 0)); zlia.
Qed.

Lemma allocfd_run s : allocfd s = Ret (from_option Z.of_nat (-1) (fst <$> list_find (λ o, o = None) (ofile s))) s.
Proof. unfold allocfd. prog_step. by destruct (fst <$> list_find _ (ofile s)). Qed.

(** [close]: one reference less, and the slot and the file cleared with the last. *)
Lemma close_run s fd f x :
  hart_ok (hart_of_fl s) → free_lock (ftable_lk s) → (fd < NOFILE)%nat → ofile s !! fd = Some (Some f) →
  ftable s !! f = Some x → 0 < f_ref x < 2 ^ 31 →
  close fd s = Ret 0 (if decide (f_ref x = 1)
    then set_ofile (<[fd := None]> (ofile s)) (with_ft (touched (hart_of_fl s)) (<[f := file_zero]> (ftable s)) s)
    else with_ft (touched (hart_of_fl s)) (<[f := set_fref (f_ref x - 1) x]> (ftable s)) s).
Proof.
  intros Hh Hl Hfd Ho Hf Hr. assert (Hlt : (f < length (ftable s))%nat) by (by eapply lookup_lt_Some).
  unfold close. rewrite (pbind_ok _ _ _ _ _ (fget_run fd s Hfd)), Ho. cbn [default]. unfold id.
  rewrite (pbind_ok _ _ _ _ _ (acquire_ft s Hh Hl)). set (s1 := in_ft (hart_of_fl s) (ftable s) s).
  rewrite (pbind_ok _ _ _ _ _ (file_at_run f x s1 Hf)). destruct (f_ref x =? 0) eqn:E0; [lia|].
  rewrite (pbind_ok _ _ _ _ _ (upd_file_run f _ x s1 Hf)). cbn [ftable in_ft s1].
  change (set_ftable ?t (in_ft ?h _ ?s)) with (in_ft h t s). rewrite i32_small by lia.
  set (t1 := <[f := set_fref (f_ref x - 1) x]> (ftable s)).
  assert (Hf1 : t1 !! f = Some (set_fref (f_ref x - 1) x)) by (by apply list_lookup_insert_eq).
  rewrite (pbind_ok _ _ _ _ _ (file_at_run f _ (in_ft (hart_of_fl s) t1 s) Hf1)). cbn [set_fref f_ref].
  destruct (f_ref x - 1 >? 0) eqn:E1.
  - rewrite decide_False by lia. by rewrite (pbind_ok _ _ _ _ _ (release_ft _ _ _ Hh)).
  - rewrite decide_True by lia. rewrite (pbind_ok _ _ _ _ _ (release_ft _ _ _ Hh)).
    unfold put_fd. prog_step. rewrite u32_small by (unfold NOFILE in Hfd; lia). rewrite Nat2Z.id.
    rewrite (pbind_ok _ _ _ _ _ (upd_file_run f _ (set_fref (f_ref x - 1) x)
      (set_ofile (<[fd := None]> (ofile s)) (with_ft (touched (hart_of_fl s)) t1 s)) Hf1)).
    cbn [ftable set_ofile with_ft]. unfold t1. by rewrite list_insert_insert_eq.
Qed.
End runs.

(** ** Reading through a descriptor *)

Section reads.
Context {C : Type} {Hc : BlockCache C} {Hok : BlockCacheOk C}.
Implicit Types (s : filest C) (dk : Z → bytes) (f fd : nat) (buf sz : Z) (x : file).

(** Descriptor [fd] is an open file [f] of inode entry [i], readable, at [off]. *)
Record reading dk s fd f i (ino : inode) (off : Z) : Prop := {
  rg_fd : (fd < NOFILE)%nat;
  rg_ofile : ofile s !! fd = Some (Some f);
  rg_file : ∃ x, ftable s !! f = Some x ∧ f_readable x ≠ 0 ∧ f_ino x = Some i ∧ f_off x = off ∧ f_ref x ≠ 0;
  rg_ino : itable (fl_fs s) !! i = Some ino;
  rg_reg : S_ISREG (i_mode ino) || S_ISDIR (i_mode ino) = true;
  rg_fileok : file_ok dk ino;
  rg_size : i_size ino < 2 ^ 31;
  rg_off : 0 <= off <= i_size ino
}.

Lemma read_ok devs dk held s fd f i ino off buf sz :
  fl_ok dk held s → (length held < 31)%nat → reading dk s fd f i ino off → 0 <= sz < 2 ^ 63 →
  let r := Z.min sz (i_size ino - off) in
  ∃ s', read devs fd buf sz s = Ret r s' ∧ fl_ok dk held s' ∧ reading dk s' fd f i ino (off + r) ∧
    ofile s' = ofile s ∧
    ∀ a, rd8 (fs_mem (fl_fs s')) a =
      if decide (buf <= a < buf + r) then fbyte dk ino (off + (a - buf)) else rd8 (fs_mem (fl_fs s)) a.
Proof.
  intros I Hl R Hsz r. destruct R as [Rf Ro (x & Rx & Rr & Ri & Roff & Rref) Rino Rreg Rok Rsz Rb].
  pose proof (read_inode_ok dk held (fl_fs s) i ino buf off sz (fl_fsok _ _ _ I) Rino Rok Hl ltac:(lia) ltac:(lia) ltac:(lia) Rsz) as E.
  destruct (off >? i_size ino) eqn:E0; [lia|]. destruct E as (c & m' & E1 & I1 & M1). fold r in E1, M1.
  set (fs1 := with_cm c m' (fl_fs s)) in *.
  set (s1 := lset of_fs fs1 s).
  exists (set_ftable (<[f := set_off (off + r) x]> (ftable s)) s1). split_and!; [| | |done|exact M1].
  - unfold read. rewrite (pbind_ok _ _ _ _ _ (fget_run fd s Rf)), Ro. cbn [default]. unfold id, read_file.
    rewrite (pbind_ok _ _ _ _ _ (file_at_run f x s Rx)).
    destruct (negb (nz (f_readable x))) eqn:E2; [apply negb_true_iff, nz_false in E2; done|]. rewrite Ri.
    rewrite (pbind_ok _ _ _ _ _ (zoom_ok of_fs _ s _ _ (ino_at_run _ _ (fl_fs s) Rino))).
    replace (lset of_fs (fl_fs s) s) with s by (by destruct s). cbv zeta.
    unfold S_ISREG, S_ISDIR in Rreg. rewrite Rreg, Roff.
    rewrite (pbind_ok _ _ _ _ _ (zoom_ok of_fs _ s _ _ E1)). fold fs1. fold s1.
    destruct (r <? 0) eqn:E3; [lia|].
    rewrite (pbind_ok _ _ _ _ _ (upd_file_run f _ x s1 Rx)). rewrite Roff, u64_small by lia. done.
  - destruct I as [If L T O]. split; [exact I1|done| |done].
    apply ftable_insert; [done|intros ?; by destruct x|]. destruct T as [_ _ B]. apply (B f x Rx).
  - split; try done; [|lia]. exists (set_off (off + r) x). split; [|done].
    apply list_lookup_insert_eq. by eapply lookup_lt_Some.
Qed.
End reads.

(** A file found and a descriptor free: what [open] has done. *)
Lemma open_run {C} `{BlockCacheOk C} (s : filest C) path flags fs1 (i k d : nat) ino :
  let s1 := lset of_fs fs1 s in let h1 := touched (hart_of_fl s1) in
  hart_ok (lget chart (fs_cache fs1)) → free_lock (ftable_lk s) →
  ext2_path2inode (cwd s) path (fl_fs s) = Ret (Some i) fs1 → itable fs1 !! i = Some ino →
  (nz (Z.land flags O_DIRECTORY) = true → S_ISDIR (i_mode ino) = true) →
  list_find (λ x, f_ref x = 0) (ftable s) = Some (k, file_zero) → list_find (λ o, o = None) (ofile s) = Some (d, None) →
  (k < length (ftable s))%nat →
  open path flags s = Ret (d : Z) (set_ofile (<[d := Some k]> (ofile s))
    (with_ft h1 (<[k := set_open i flags (set_fref 1 file_zero)]> (ftable s)) s1)).
Proof.
  intros s1 h1 Hh1 L Ep Hi Hdir Ek Ed Hklt. set (x1 := set_open i flags (set_fref 1 file_zero)).
  unfold open. prog_step. rewrite (pbind_ok _ _ _ _ _ (zoom_ok of_fs _ s _ _ Ep)). fold s1.
  pose proof (alloc_file_run s1 Hh1 L) as Ea. change (ftable s1) with (ftable s) in Ea. rewrite Ek in Ea.
  rewrite (pbind_ok _ _ _ _ _ Ea). fold h1.
  rewrite (pbind_ok _ _ _ _ _ (upd_file_run k _ (set_fref 1 file_zero) (with_ft h1 _ s1)
    (list_lookup_insert_eq (ftable s) k (set_fref 1 file_zero) Hklt))).
  cbn [ftable with_ft]. rewrite list_insert_insert_eq. fold x1.
  set (s3 := set_ftable _ _). assert (Hi3 : itable (fl_fs s3) !! i = Some ino) by exact Hi.
  rewrite (pbind_ok _ _ _ _ _ (zoom_ok of_fs _ s3 _ _ (ino_at_run _ _ (fl_fs s3) Hi3))).
  change (lset of_fs (fl_fs s3) s3) with s3.
  destruct (nz (Z.land flags O_DIRECTORY)) eqn:Ef; [rewrite Hdir by done|]; cbn [andb negb].
  all: rewrite (pbind_ok _ _ _ _ _ (allocfd_run s3)); change (ofile s3) with (ofile s); rewrite Ed;
    cbn [fmap option_fmap option_map from_option fst]; rewrite (proj2 (Z.ltb_ge (Z.of_nat d) 0)) by apply Nat2Z.is_nonneg;
    unfold put_fd; prog_step; by rewrite Nat2Z.id.
Qed.

(** The state it leaves is in order, and its file is at offset 0. *)
Lemma open_ok {C} `{BlockCacheOk C} (s : filest C) dk held path flags fs1 (i k d : nat) ino :
  fl_ok dk held s → fs_ok dk held fs1 →
  ext2_path2inode (cwd s) path (fl_fs s) = Ret (Some i) fs1 → itable fs1 !! i = Some ino →
  (nz (Z.land flags O_DIRECTORY) = true → S_ISDIR (i_mode ino) = true) →
  fst <$> list_find (λ x, f_ref x = 0) (ftable s) = Some k →
  fst <$> list_find (λ o, o = None) (ofile s) = Some d →
  let x1 := set_open i flags (set_fref 1 file_zero) in
  ∃ s1, open path flags s = Ret (d : Z) s1 ∧ fl_ok dk held s1 ∧
    ofile s1 = <[d := Some k]> (ofile s) ∧ ftable s1 = <[k := x1]> (ftable s) ∧
    itable (fl_fs s1) = itable fs1 ∧ sb (fl_fs s1) = sb fs1 ∧ fl_mapped s1 = fl_mapped s ∧
    (d < NOFILE)%nat ∧ (k < length (ftable s))%nat ∧ ofile s !! d = Some None ∧ ftable s !! k = Some file_zero.
Proof.
  intros I I1 Ep Hi Hdir Ek Ed x1. destruct I as [If L T O].
  assert (Hh1 : hart_ok (lget chart (fs_cache fs1))) by apply (cached_hart _ _ _ (fo_cache _ _ _ I1)).
  apply fmap_Some in Ek as ([k' x] & Ek & ->). apply fmap_Some in Ed as ([d' o] & Ed & ->). cbn [fst].
  pose proof Ek as (Hk & Hx & _)%list_find_Some. pose proof Ed as (Hd & -> & _)%list_find_Some.
  pose proof (ft_free _ T _ _ Hk Hx) as ->.
  assert (Hdlt : (d' < NOFILE)%nat) by (rewrite <- O; by eapply lookup_lt_Some).
  assert (Hklt : (k' < length (ftable s))%nat) by (by eapply lookup_lt_Some).
  eexists. split; [by apply (open_run s path flags fs1 i k' d' ino)|]. split; [|by split_and!]. split.
  - split; [|apply I1|apply I1]. apply cached_set_hart; [apply I1|by apply touched_ok].
  - done.
  - apply ftable_insert; [done|done|simpl; lia].
  - cbn [ofile set_ofile]. by rewrite length_insert.
Qed.

Module FileCallProps.

(** One process with descriptor 0 on the file of [two_blocks], and with the same
    inode as its working directory. *)
Definition one_file : filest (bcache memdisk) :=
  FileSt (FileProps.file_fs FileProps.two_blocks ∅) lock_init
    (<[0%nat := File 1 (Some 7%nat) 0 1 0]> (replicate NFILE file_zero))
    (<[0%nat := Some 0%nat]> (replicate NOFILE None)) (Some 7%nat) (λ _, true) false.

Lemma one_file_ok : fl_ok (block (MemDisk ∅)) [] one_file.
Proof.
  split; [split; [exact FsProps.empty_cached|reflexivity|reflexivity]|reflexivity| |reflexivity].
  apply ftable_insert; [exact ftable_init|done|simpl; lia].
Qed.

Lemma one_file_reading : reading (block (MemDisk ∅)) one_file 0 0 7 FileProps.two_blocks 0.
Proof.
  split; [unfold NOFILE; lia|reflexivity| |reflexivity|reflexivity|apply FileProps.two_blocks_ok| |].
  - eexists. split; [reflexivity|]. by vm_compute.
  - by vm_compute.
  - by vm_compute.
Qed.

(** C29: descriptors. When the path leads to an inode and a file and a
    descriptor are free, [open] returns the lowest free descriptor, on a file
    at offset 0 whose modes are those of the flags and nothing of an earlier
    user of the slot; [close] of it gives back both tables as they were. *)
Theorem open_close {C} `{BlockCacheOk C} (s : filest C) dk held path flags fs1 (i : nat) ino (k d : nat) :
  fl_ok dk held s → fs_ok dk held fs1 →
  ext2_path2inode (cwd s) path (fl_fs s) = Ret (Some i) fs1 → itable fs1 !! i = Some ino →
  (nz (Z.land flags O_DIRECTORY) = true → S_ISDIR (i_mode ino) = true) →
  fst <$> list_find (λ x, f_ref x = 0) (ftable s) = Some k →
  fst <$> list_find (λ o, o = None) (ofile s) = Some d →
  ∃ s1 s2, open path flags s = Ret (d : Z) s1 ∧
    ofile s1 = <[d := Some k]> (ofile s) ∧ (d < NOFILE)%nat ∧
    ftable s1 = <[k := File 1 (Some i) 0
      (if decide (Z.land flags O_ACCMODE = O_RDONLY ∨ Z.land flags O_ACCMODE = O_RDWR) then 1 else 0)
      (if decide (Z.land flags O_ACCMODE = O_WRONLY ∨ Z.land flags O_ACCMODE = O_RDWR) then 1 else 0)]> (ftable s) ∧
    fl_ok dk held s1 ∧
    close d s1 = Ret 0 s2 ∧ ofile s2 = ofile s ∧ ftable s2 = ftable s.
Proof.
  intros I I1 Ep Hi Hdir Ek Ed.
  destruct (open_ok s dk held path flags fs1 i k d ino I I1 Ep Hi Hdir Ek Ed)
    as (s1 & E1 & I2 & O1 & T1 & _ & _ & _ & Hdlt & Hklt & Hd & Hk). set (x1 := set_open i flags (set_fref 1 file_zero)) in *.
  assert (Hf2 : ftable s1 !! k = Some x1) by (rewrite T1; by apply list_lookup_insert_eq).
  assert (Ho2 : ofile s1 !! d = Some (Some k)).
  { rewrite O1. apply list_lookup_insert_eq. by eapply lookup_lt_Some. }
  exists s1. eexists. split_and!; [done|done|done| |done| | |].
  - rewrite T1. f_equal. unfold x1, set_open. cbn [f_ref set_fref f_readable f_writable file_zero].
    f_equal; destruct (Z.eqb_spec (Z.land flags O_ACCMODE) O_RDONLY),
      (Z.eqb_spec (Z.land flags O_ACCMODE) O_RDWR), (Z.eqb_spec (Z.land flags O_ACCMODE) O_WRONLY);
      cbn [orb]; destruct (decide _); try done; exfalso; tauto.
  - apply (close_run s1 d k x1 (fl_hart _ _ _ I2) (fl_lock _ _ _ I2) Hdlt Ho2 Hf2). simpl. lia.
  - rewrite decide_True by done. cbn [ofile set_ofile]. rewrite O1, list_insert_insert_eq. by apply list_insert_id.
  - rewrite decide_True by done. cbn [ftable set_ofile with_ft]. rewrite T1, list_insert_insert_eq. by apply list_insert_id.
Qed.

Lemma open_close_witness :
  ∃ s1 s2, open [] O_RDWR one_file = Ret 1 s1 ∧ close 1 s1 = Ret 0 s2 ∧ ftable s2 = ftable one_file.
Proof.
  destruct (open_close one_file (block (MemDisk ∅)) [] [] O_RDWR (fl_fs one_file) 7 FileProps.two_blocks 1 1)
    as (s1 & s2 & E1 & _ & _ & _ & _ & E2 & _ & E3).
  - exact one_file_ok.
  - apply one_file_ok.
  - reflexivity.
  - reflexivity.
  - vm_compute. discriminate.
  - vm_compute. reflexivity.
  - vm_compute. reflexivity.
  - exists s1, s2. exact (conj E1 (conj E2 E3)).
Defined.

(** Reading goes on where it stopped. Two reads through a descriptor, the
    second storing behind the first, return together what one read of both
    sizes would, cut at the end of the file; memory then holds these bytes of
    the file in order, and the offset has moved by their number. *)
Theorem sequential_reads {C} `{BlockCacheOk C} devs (s : filest C) dk held (fd f i : nat) ino off buf sz1 sz2 :
  fl_ok dk held s → (length held < 31)%nat → reading dk s fd f i ino off →
  0 <= sz1 → 0 <= sz2 → sz1 + sz2 < 2 ^ 63 →
  ∃ r1 s1 r2 s2, read devs fd buf sz1 s = Ret r1 s1 ∧ read devs fd (buf + r1) sz2 s1 = Ret r2 s2 ∧
    r1 + r2 = Z.min (sz1 + sz2) (i_size ino - off) ∧
    fl_ok dk held s2 ∧ reading dk s2 fd f i ino (off + (r1 + r2)) ∧
    (∀ j, 0 <= j < r1 + r2 → rd8 (fs_mem (fl_fs s2)) (buf + j) = fbyte dk ino (off + j)) ∧
    ∀ a, ¬ (buf <= a < buf + (r1 + r2)) → rd8 (fs_mem (fl_fs s2)) a = rd8 (fs_mem (fl_fs s)) a.
Proof.
  intros I Hl R H1 H2 Hb. pose proof (rg_off _ _ _ _ _ _ _ R).
  destruct (read_ok devs dk held s fd f i ino off buf sz1 I Hl R ltac:(lia)) as (s1 & E1 & I1 & R1 & _ & M1).
  set (r1 := Z.min sz1 (i_size ino - off)) in *.
  destruct (read_ok devs dk held s1 fd f i ino (off + r1) (buf + r1) sz2 I1 Hl R1 ltac:(lia)) as (s2 & E2 & I2 & R2 & _ & M2).
  set (r2 := Z.min sz2 (i_size ino - (off + r1))) in *.
  exists r1, s1, r2, s2. split_and!; [done|done|lia|done|by rewrite Z.add_assoc| |].
  - intros j Hj. rewrite M2. case_decide as D2.
    + f_equal. lia.
    + rewrite M1, decide_True by lia. f_equal. lia.
  - intros a Ha. rewrite M2, decide_False by lia. by rewrite M1, decide_False by lia.
Qed.

Lemma sequential_reads_witness :
  ∃ r1 s1 r2 s2, read [] 0 4096 1500 one_file = Ret r1 s1 ∧ read [] 0 (4096 + r1) 1500 s1 = Ret r2 s2 ∧ r1 + r2 = 2000.
Proof.
  destruct (sequential_reads [] one_file (block (MemDisk ∅)) [] 0 0 7 FileProps.two_blocks 0 4096 1500 1500)
    as (r1 & s1 & r2 & s2 & E1 & E2 & E3 & _).
  - exact one_file_ok.
  - simpl. lia.
  - exact one_file_reading.
  - lia.
  - lia.
  - lia.
  - exists r1, s1, r2, s2. split; [exact E1|]. split; [exact E2|]. exact E3.
Defined.

(** Closing a duplicate. [dup] gives the lowest free descriptor the same
    file, so that both share its offset. But [close] of either does not clear
    its descriptor while the other is open: it returns 0 with the descriptors
    as they were, and a second [close] of the same one succeeds too, clearing
    the file the other still refers to, which from then on cannot be read. *)
Theorem dup_close {C} `{BlockCacheOk C} devs (s : filest C) dk held (fd f : nat) x (d : nat) buf sz :
  fl_ok dk held s → (fd < NOFILE)%nat → ofile s !! fd = Some (Some f) → ftable s !! f = Some x → f_ref x = 1 →
  fst <$> list_find (λ o, o = None) (ofile s) = Some d →
  ∃ s1 s2 s3, dup fd s = Ret (d : Z) s1 ∧ ofile s1 = <[d := Some f]> (ofile s) ∧
    ftable s1 = <[f := set_fref 2 x]> (ftable s) ∧
    close d s1 = Ret 0 s2 ∧ ofile s2 !! d = Some (Some f) ∧ ftable s2 = ftable s ∧
    close d s2 = Ret 0 s3 ∧ ofile s3 !! fd = Some (Some f) ∧ ftable s3 !! f = Some file_zero ∧
    read devs fd buf sz s3 = Ret (-1) s3.
Proof.
  intros I Hfd Ho Hf Hr Ed. pose proof (fl_hart _ _ _ I) as Hh. destruct I as [If L T O].
  apply fmap_Some in Ed as ([d' o] & Ed & ->). cbn [fst]. pose proof Ed as (Hd & -> & _)%list_find_Some.
  assert (Hdlt : (d' < NOFILE)%nat) by (rewrite <- O; by eapply lookup_lt_Some).
  assert (Hflt : (f < length (ftable s))%nat) by (by eapply lookup_lt_Some).
  assert (Hne : d' ≠ fd) by (by intros ->; rewrite Hd in Ho).
  set (h1 := touched (hart_of_fl s)).
  set (s1 := set_ofile (<[d' := Some f]> (ofile s)) (with_ft h1 (<[f := set_fref 2 x]> (ftable s)) s)).
  assert (Hg : ∀ h, lget chart (lset chart h (fs_cache (fl_fs s))) = h) by (intros; apply (lget_lset (l := chart))).
  assert (Hh1 : hart_of_fl s1 = h1) by apply Hg.
  assert (Hf1 : ftable s1 !! f = Some (set_fref 2 x)) by (by apply list_lookup_insert_eq).
  assert (Ho1 : ofile s1 !! d' = Some (Some f)) by (apply list_lookup_insert_eq; by rewrite O).
  pose proof (close_run s1 d' f _ ltac:(by rewrite Hh1) eq_refl Hdlt Ho1 Hf1 ltac:(simpl; lia)) as E2.
  rewrite decide_False in E2 by (simpl; lia). set (s2 := with_ft _ _ s1) in E2.
  assert (Hf2 : ftable s2 !! f = Some x).
  { cbn [s2 ftable with_ft s1 set_ofile]. rewrite list_insert_insert_eq, list_lookup_insert_eq by done.
    cbn [set_fref f_ref f_ino f_off f_readable f_writable]. replace (2 - 1) with (f_ref x) by lia. by destruct x. }
  assert (Hh2 : hart_ok (hart_of_fl s2)).
  { assert (E : hart_of_fl s2 = touched (hart_of_fl s1)) by apply (lget_lset (l := chart)). by rewrite E, Hh1. }
  pose proof (close_run s2 d' f x Hh2 eq_refl Hdlt Ho1 Hf2 ltac:(lia)) as E3.
  rewrite decide_True in E3 by done. set (s3 := set_ofile _ _) in E3.
  assert (Hf3 : ftable s3 !! f = Some file_zero).
  { apply list_lookup_insert_eq. cbn [s2 ftable with_ft s1 set_ofile]. by rewrite !length_insert. }
  assert (Ho3 : ofile s3 !! fd = Some (Some f)).
  { cbn [s3 ofile set_ofile s2 with_ft s1]. by rewrite !list_lookup_insert_ne. }
  exists s1, s2, s3. split_and!; try done.
  - unfold dup. rewrite (pbind_ok _ _ _ _ _ (fget_run fd s Hfd)), Ho. cbn [default]. unfold id.
    rewrite (pbind_ok _ _ _ _ _ (allocfd_run s)), Ed. cbn [fmap option_fmap option_map from_option fst].
    destruct (Z.of_nat d' <? 0) eqn:E0; [lia|].
    rewrite (pbind_ok _ _ _ _ _ (dup_file_run f x s Hh L Hf ltac:(lia))). unfold put_fd. prog_step.
    rewrite Nat2Z.id. unfold s1. by rewrite Hr.
  - cbn [s2 ftable with_ft s1 set_ofile]. rewrite list_insert_insert_eq. apply list_insert_id. rewrite Hf. f_equal.
    cbn [set_fref f_ref f_ino f_off f_readable f_writable]. replace (2 - 1) with (f_ref x) by lia. by destruct x.
  - unfold read. rewrite (pbind_ok _ _ _ _ _ (fget_run fd s3 Hfd)), Ho3. cbn [default]. unfold id, read_file.
    by rewrite (pbind_ok _ _ _ _ _ (file_at_run f _ s3 Hf3)).
Qed.

Lemma dup_close_witness :
  ∃ s1 s2 s3, dup 0 one_file = Ret 1 s1 ∧ close 1 s1 = Ret 0 s2 ∧ close 1 s2 = Ret 0 s3 ∧
    read [] 0 4096 5 s3 = Ret (-1) s3.
Proof.
  destruct (dup_close [] one_file (block (MemDisk ∅)) [] 0 0 (File 1 (Some 7%nat) 0 1 0) 1 4096 5)
    as (s1 & s2 & s3 & E1 & _ & _ & E2 & _ & _ & E3 & _ & _ & E4).
  - exact one_file_ok.
  - unfold NOFILE. lia.
  - reflexivity.
  - reflexivity.
  - reflexivity.
  - vm_compute. reflexivity.
  - exists s1, s2, s3. exact (conj E1 (conj E2 (conj E3 E4))).
Defined.

(** [open] of a path that is no directory with [O_DIRECTORY] keeps the file it
    took: the slot is never free again. *)
Example open_leaks_file :
  match open [] (Z.lor O_RDONLY O_DIRECTORY) one_file with
  | Ret r s => r = -1 ∧ (f_ref <$> ftable s !! 1%nat) = Some 1 ∧ ofile s = ofile one_file
  | _ => False
  end.
Proof. vm_compute. auto. Qed.

End FileCallProps.
