(* ===== verification/Proc.v ===== *)
(** * Processes (kernel/proc.c, load_prg of kernel/mm.c): the routines

    The state of the kernel as the process that runs on this CPU sees it.  A
    [struct proc *] is an index of [proctable.procs].  [cswitch] (cswitch.S)
    is a parameter: what the rest of the system does until this process is
    switched to again.  The table operations that more than one routine
    performs under [proctable.lk] are functions on the table; the file Sched
    builds the transition system of all processes from the same functions. *)

From S2P Require Import Prelude Mem Bytes KString Spinlock Layout Kalloc PageTable Buf Fs Ext2 Uaccess File.
Import Spin.
Open Scope Z_scope.
Open Scope prog_scope.

Definition NPROC : nat := 256.

Inductive procstate := UNUSED | CREATED | RUNNING | RUNNABLE | SLEEPING | ZOMBIE.

#[export] Instance procstate_eq_dec : EqDecision procstate.
Proof. solve_decision. Defined.

(** [void *chan]: NULL, a [struct proc], or any other object. *)
Inductive chan := NoChan | ChanProc (i : nat) | ChanAddr (a : Z).

#[export] Instance chan_eq_dec : EqDecision chan.
Proof. solve_decision. Defined.

(** The members of [struct context] that proc.c sets; cswitch.S keeps the rest. *)
Record context := Context { ctx_x0 : Z; ctx_lr : Z; ctx_sp : Z }.

#[export] Instance context_eq_dec : EqDecision context.
Proof. solve_decision. Defined.

(** [struct proc]; [p_tf] is the address of the trap frame, [p_handler] whether
    [fault_handler] is set. *)
Record proc := Proc {
  p_state : procstate; p_ret : Z; p_pid : Z; p_size : Z; p_chan : chan; p_context : context;
  p_tf : Z; p_parent : option nat; p_kstack : Z; p_pgt : Z; p_cwd : option nat;
  p_ofile : list (option nat); p_name : bytes; p_th : Z; p_handler : bool; p_sig : Z
}.

#[export] Instance proc_eq_dec : EqDecision proc.
Proof. solve_decision. Defined.

Definition proc_zero : proc :=
  Proc UNUSED 0 0 0 NoChan (Context 0 0 0) 0 None 0 0 None (replicate NOFILE None) [] 0 false 0.

Definition set_state (v : procstate) (p : proc) : proc :=
  Proc v (p_ret p) (p_pid p) (p_size p) (p_chan p) (p_context p) (p_tf p) (p_parent p) (p_kstack p)
    (p_pgt p) (p_cwd p) (p_ofile p) (p_name p) (p_th p) (p_handler p) (p_sig p).
Definition set_ret (v : Z) (p : proc) : proc :=
  Proc (p_state p) v (p_pid p) (p_size p) (p_chan p) (p_context p) (p_tf p) (p_parent p) (p_kstack p)
    (p_pgt p) (p_cwd p) (p_ofile p) (p_name p) (p_th p) (p_handler p) (p_sig p).
Definition set_pid (v : Z) (p : proc) : proc :=
  Proc (p_state p) (p_ret p) v (p_size p) (p_chan p) (p_context p) (p_tf p) (p_parent p) (p_kstack p)
    (p_pgt p) (p_cwd p) (p_ofile p) (p_name p) (p_th p) (p_handler p) (p_sig p).
Definition set_psize (v : Z) (p : proc) : proc :=
  Proc (p_state p) (p_ret p) (p_pid p) v (p_chan p) (p_context p) (p_tf p) (p_parent p) (p_kstack p)
    (p_pgt p) (p_cwd p) (p_ofile p) (p_name p) (p_th p) (p_handler p) (p_sig p).
Definition set_chan (v : chan) (p : proc) : proc :=
  Proc (p_state p) (p_ret p) (p_pid p) (p_size p) v (p_context p) (p_tf p) (p_parent p) (p_kstack p)
    (p_pgt p) (p_cwd p) (p_ofile p) (p_name p) (p_th p) (p_handler p) (p_sig p).
Definition set_context (v : context) (p : proc) : proc :=
  Proc (p_state p) (p_ret p) (p_pid p) (p_size p) (p_chan p) v (p_tf p) (p_parent p) (p_kstack p)
    (p_pgt p) (p_cwd p) (p_ofile p) (p_name p) (p_th p) (p_handler p) (p_sig p).
Definition set_parent (v : option nat) (p : proc) : proc :=
  Proc (p_state p) (p_ret p) (p_pid p) (p_size p) (p_chan p) (p_context p) (p_tf p) v (p_kstack p)
    (p_pgt p) (p_cwd p) (p_ofile p) (p_name p) (p_th p) (p_handler p) (p_sig p).
Definition set_kstack (k t : Z) (p : proc) : proc :=
  Proc (p_state p) (p_ret p) (p_pid p) (p_size p) (p_chan p) (p_context p) t (p_parent p) k
    (p_pgt p) (p_cwd p) (p_ofile p) (p_name p) (p_th p) (p_handler p) (p_sig p).
Definition set_pgt (v : Z) (p : proc) : proc :=
  Proc (p_state p) (p_ret p) (p_pid p) (p_size p) (p_chan p) (p_context p) (p_tf p) (p_parent p) (p_kstack p)
    v (p_cwd p) (p_ofile p) (p_name p) (p_th p) (p_handler p) (p_sig p).
Definition set_files (c : option nat) (o : list (option nat)) (h : bool) (p : proc) : proc :=
  Proc (p_state p) (p_ret p) (p_pid p) (p_size p) (p_chan p) (p_context p) (p_tf p) (p_parent p) (p_kstack p)
    (p_pgt p) c o (p_name p) (p_th p) h (p_sig p).
Definition set_name (v : bytes) (p : proc) : proc :=
  Proc (p_state p) (p_ret p) (p_pid p) (p_size p) (p_chan p) (p_context p) (p_tf p) (p_parent p) (p_kstack p)
    (p_pgt p) (p_cwd p) (p_ofile p) v (p_th p) (p_handler p) (p_sig p).
Definition set_th (v : Z) (p : proc) : proc :=
  Proc (p_state p) (p_ret p) (p_pid p) (p_size p) (p_chan p) (p_context p) (p_tf p) (p_parent p) (p_kstack p)
    (p_pgt p) (p_cwd p) (p_ofile p) (p_name p) v (p_handler p) (p_sig p).
Definition set_sig (v : Z) (p : proc) : proc :=
  Proc (p_state p) (p_ret p) (p_pid p) (p_size p) (p_chan p) (p_context p) (p_tf p) (p_parent p) (p_kstack p)
    (p_pgt p) (p_cwd p) (p_ofile p) (p_name p) (p_th p) (p_handler p) v.

(** ** Operations on the table *)

Section table.
Implicit Types (t : list proc).

Definition first_proc (P : proc → Prop) `{∀ p, Decision (P p)} t : option nat := fst <$> list_find P t.

(** [wakeup_acquired] *)
Definition wake (ch : chan) (p : proc) : proc :=
  if decide (p_state p = SLEEPING ∧ p_chan p = ch) then set_state RUNNABLE p else p.
Definition wakeup_acquired (ch : chan) t : list proc := wake ch <$> t.

(** [reparent(pp)] *)
Definition adopt (init : option nat) (pp : nat) (p : proc) : proc :=
  if decide (p_parent p = Some pp) then set_parent init p else p.
Definition reparent (init : option nat) (pp : nat) t : list proc := adopt init pp <$> t.

(** What [exitproc] does to the table: [wakeup_acquired(p->parent)] wakes
    nobody when [p] has no parent, as [chan] of a sleeping process is not NULL. *)
Definition exit_table (init : option nat) (i : nat) t : list proc :=
  let t := reparent init i t in
  let t := match p_parent <$> t !! i with
           | Some (Some par) => wakeup_acquired (ChanProc par) t
           | _ => wakeup_acquired NoChan t
           end in
  alter (set_state ZOMBIE) i t.

(** The first zombie that [cond] selects. *)
Definition find_zombie (cond : proc → Prop) `{∀ p, Decision (cond p)} t : option nat :=
  first_proc (λ p, cond p ∧ p_state p = ZOMBIE) t.
End table.

(** ** The state *)

Record kst (C : Type) := Kst {
  k_fs : fsst C;
  k_ftlk : spinlock;
  k_ftable : list file;
  k_klk : spinlock;
  k_freelist : Z;
  ptlk : spinlock;            (* proctable.lk *)
  procs : list proc;          (* proctable.procs *)
  pidlk : spinlock;           (* pidalloc.lk *)
  nextpid : Z;                (* pidalloc.pid *)
  k_cur : option nat;         (* mycpu()->proc *)
  k_mmu : mmuregs;
  initproc : option nat;
  firstcall : bool;
  k_mapped : Z → bool
}.
Arguments Kst {C}.
Arguments k_fs {C}.
Arguments k_ftlk {C}.
Arguments k_ftable {C}.
Arguments k_klk {C}.
Arguments k_freelist {C}.
Arguments ptlk {C}.
Arguments procs {C}.
Arguments pidlk {C}.
Arguments nextpid {C}.
Arguments k_cur {C}.
Arguments k_mmu {C}.
Arguments initproc {C}.
Arguments firstcall {C}.
Arguments k_mapped {C}.

Section state.
Context {C : Type} `{BlockCache C}.
Implicit Types (s : kst C).

Definition put_fs (f : fsst C) s : kst C :=
  Kst f (k_ftlk s) (k_ftable s) (k_klk s) (k_freelist s) (ptlk s) (procs s) (pidlk s) (nextpid s) (k_cur s)
    (k_mmu s) (initproc s) (firstcall s) (k_mapped s).
Definition put_procs (t : list proc) s : kst C :=
  Kst (k_fs s) (k_ftlk s) (k_ftable s) (k_klk s) (k_freelist s) (ptlk s) t (pidlk s) (nextpid s) (k_cur s)
    (k_mmu s) (initproc s) (firstcall s) (k_mapped s).
Definition put_ptlk (l : spinlock) s : kst C :=
  Kst (k_fs s) (k_ftlk s) (k_ftable s) (k_klk s) (k_freelist s) l (procs s) (pidlk s) (nextpid s) (k_cur s)
    (k_mmu s) (initproc s) (firstcall s) (k_mapped s).
Definition put_pidlk (l : spinlock) s : kst C :=
  Kst (k_fs s) (k_ftlk s) (k_ftable s) (k_klk s) (k_freelist s) (ptlk s) (procs s) l (nextpid s) (k_cur s)
    (k_mmu s) (initproc s) (firstcall s) (k_mapped s).
Definition put_nextpid (v : Z) s : kst C :=
  Kst (k_fs s) (k_ftlk s) (k_ftable s) (k_klk s) (k_freelist s) (ptlk s) (procs s) (pidlk s) v (k_cur s)
    (k_mmu s) (initproc s) (firstcall s) (k_mapped s).
Definition put_cur (v : option nat) s : kst C :=
  Kst (k_fs s) (k_ftlk s) (k_ftable s) (k_klk s) (k_freelist s) (ptlk s) (procs s) (pidlk s) (nextpid s) v
    (k_mmu s) (initproc s) (firstcall s) (k_mapped s).
Definition put_mmu (v : mmuregs) s : kst C :=
  Kst (k_fs s) (k_ftlk s) (k_ftable s) (k_klk s) (k_freelist s) (ptlk s) (procs s) (pidlk s) (nextpid s) (k_cur s)
    v (initproc s) (firstcall s) (k_mapped s).
Definition put_init (v : option nat) s : kst C :=
  Kst (k_fs s) (k_ftlk s) (k_ftable s) (k_klk s) (k_freelist s) (ptlk s) (procs s) (pidlk s) (nextpid s) (k_cur s)
    (k_mmu s) v (firstcall s) (k_mapped s).
Definition put_first (v : bool) s : kst C :=
  Kst (k_fs s) (k_ftlk s) (k_ftable s) (k_klk s) (k_freelist s) (ptlk s) (procs s) (pidlk s) (nextpid s) (k_cur s)
    (k_mmu s) (initproc s) v (k_mapped s).

Definition k_hart s : hart := lget chart (fs_cache (k_fs s)).
Definition put_hart (h : hart) s : kst C := put_fs (set_chart h (k_fs s)) s.

Definition k_mem s : mem := fs_mem (k_fs s).
Definition put_mem (m : mem) s : kst C :=
  put_fs (FsSt (fs_cache (k_fs s)) (itable_lk (k_fs s)) (itable (k_fs s)) (sb (k_fs s)) m) s.

Definition of_kfs : lens (kst C) (fsst C) := Lens k_fs put_fs.
Definition of_mmu : lens (kst C) mmuregs := Lens k_mmu put_mmu.
Definition of_kmemory : lens (kst C) mem := Lens k_mem put_mem.
Definition of_ptlk : lens (kst C) lockst :=
  Lens (λ s, (k_hart s, ptlk s)) (λ t s, put_ptlk (snd t) (put_hart (fst t) s)).
Definition of_pidlk : lens (kst C) lockst :=
  Lens (λ s, (k_hart s, pidlk s)) (λ t s, put_pidlk (snd t) (put_hart (fst t) s)).

(** The page allocator. *)
Definition of_kmem : lens (kst C) kmem :=
  Lens (λ s, KMem (k_hart s) (k_klk s) (k_freelist s) (k_mem s))
       (λ k s, Kst (FsSt (lset chart (km_hart k) (fs_cache (k_fs s))) (itable_lk (k_fs s)) (itable (k_fs s))
                      (sb (k_fs s)) (km_mem k))
          (k_ftlk s) (k_ftable s) (kallocator_lk k) (freelist k) (ptlk s) (procs s) (pidlk s) (nextpid s) (k_cur s)
          (k_mmu s) (initproc s) (firstcall s) (k_mapped s)).

(** The file layer as process [i] uses it. *)
Definition of_files (i : nat) : lens (kst C) (filest C) :=
  Lens (λ s, let p := default proc_zero (procs s !! i) in
          FileSt (k_fs s) (k_ftlk s) (k_ftable s) (p_ofile p) (p_cwd p) (k_mapped s) (p_handler p))
       (λ f s, Kst (fl_fs f) (ftable_lk f) (ftable f) (k_klk s) (k_freelist s) (ptlk s)
          (alter (set_files (cwd f) (ofile f) (fl_handler f)) i (procs s)) (pidlk s) (nextpid s) (k_cur s)
          (k_mmu s) (initproc s) (firstcall s) (fl_mapped f)).
End state.

(** ** The routines *)

Definition SIZEOF_TRAPFRAME : Z := 272.
(** Indices of the 8-byte members of [struct trapframe]. *)
Definition TF_X0 : Z := 0.
Definition TF_X1 : Z := 1.
Definition TF_X6 : Z := 6.
Definition TF_ELR : Z := 31.
Definition TF_SPSR : Z := 32.
Definition TF_SP : Z := 33.

Section routines.
Context {C : Type} `{BlockCache C}.

Abbreviation kprog := (prog (kst C)).

(** [cswitch] away from the process and back; the addresses of [forkret] and of
    a [struct proc]; how far [strlen] looks for a NUL. *)
Context (cswitch : kprog unit) (forkret : Z) (proc_addr : nat → Z) (fuel : nat).

Definition proc_at (i : nat) : kprog proc := λ s,
  match procs s !! i with Some p => Ret p s | None => Fault "proc pointer" end.
Definition upd_proc (i : nat) (f : proc → proc) : kprog unit :=
  modify (λ s, put_procs (alter f i (procs s)) s).
Definition upd_table (f : list proc → list proc) : kprog unit :=
  modify (λ s, put_procs (f (procs s)) s).

Definition lock_procs : kprog unit := zoom of_ptlk acquire.
Definition unlock_procs : kprog unit := zoom of_ptlk release.

(** [myproc()], dereferenced. *)
Definition myproc : kprog nat := λ s,
  match k_cur s with Some i => Ret i s | None => Fault "NULL proc" end.

Definition tf_set (tf k v : Z) : kprog unit :=
  zoom of_kmemory (modify (λ m, st64 m (tf + 8 * k) v)).
Definition tf_get (tf k : Z) : kprog Z := gets (λ s, ld64 (k_mem s) (tf + 8 * k)).
(** [*new->tf = *p->tf] *)
Definition tf_copy (new p : Z) : kprog unit :=
  _ <- zoom of_kmemory (memcpy new p SIZEOF_TRAPFRAME) ;; ret tt.

Definition newpid : kprog Z :=
  zoom of_pidlk acquire ;;
  pid <- gets nextpid ;;
  modify (λ s, put_nextpid (i32 (pid + 1)) s) ;;
  zoom of_pidlk release ;;
  ret pid.

Definition pget (pid : Z) : kprog (option nat) :=
  lock_procs ;;
  r <- gets (λ s, first_proc (λ p, p_pid p = pid) (procs s)) ;;
  unlock_procs ;;
  ret r.

Definition newproc : kprog (option nat) :=
  lock_procs ;;
  r <- gets (λ s, first_proc (λ p, p_state p = UNUSED) (procs s)) ;;
  match r with
  | None => unlock_procs ;; ret None
  | Some i =>
      upd_proc i (set_state CREATED) ;;
      unlock_procs ;;
      pid <- newpid ;;
      upd_proc i (set_pid pid) ;;
      upd_proc i (set_context (Context 0 0 0)) ;;
      kstack <- zoom of_kmem kalloc ;;
      upd_proc i (λ p, set_kstack kstack (p_tf p) p) ;;
      if kstack =? 0 then ret None else
      let sp := kstack + PAGESIZE - SIZEOF_TRAPFRAME in
      upd_proc i (set_kstack kstack sp) ;;
      _ <- zoom of_kmemory (memset sp 0 SIZEOF_TRAPFRAME) ;;
      pgt <- zoom of_kmem kalloc ;;
      upd_proc i (set_pgt pgt) ;;
      if pgt =? 0 then ret None else
      upd_proc i (set_context (Context (proc_addr i) forkret sp)) ;;
      ret (Some i)
  end.

Definition freeproc (i : nat) : kprog unit :=
  s <- get ;;
  (if holding (k_hart s) (ptlk s) then ret tt else panic "freeproc") ;;
  p <- proc_at i ;;
  zoom of_kmem (kfree (p_kstack p)) ;;
  upd_proc i (λ _, proc_zero).

(** [ustart] and [size] are the symbols of the embedded program. *)
Definition userproc_init (ustart size : Z) : kprog unit :=
  r <- newproc ;;
  modify (put_init r) ;;
  match r with
  | None => panic "initproc"
  | Some i =>
      p <- proc_at i ;;
      zoom of_kmem (init_userspace (p_pgt p) 0x1000 ustart size) ;;
      upd_proc i (set_psize size) ;;
      _ <- zoom of_kmem (map_ustack (p_pgt p)) ;;
      upd_proc i (set_name [112; 114; 111; 99; 48]) ;; (* proc0 *)
      tf_set (p_tf p) TF_ELR 0x1000 ;;
      tf_set (p_tf p) TF_SPSR 0 ;;
      tf_set (p_tf p) TF_SP USTACKTOP ;;
      lock_procs ;;
      upd_proc i (set_state RUNNABLE) ;;
      unlock_procs
  end.

Definition getpid : kprog Z := i <- myproc ;; p <- proc_at i ;; ret (p_pid p).

(** First thing a new process runs, with [proctable.lk] taken by the scheduler. *)
Definition schedule_tail (i : nat) : kprog unit :=
  unlock_procs ;;
  first <- gets firstcall ;;
  (if first : bool then zoom of_kfs ext2_init ;; modify (put_first false) else ret tt) ;;
  p <- proc_at i ;;
  match p_cwd p with
  | Some _ => ret tt
  | None =>
      d <- zoom of_kfs (ext2_path2inode None [47]) ;;
      upd_proc i (λ p, set_files d (p_ofile p) (p_handler p) p) ;;
      match d with None => panic "no filesystem" | Some _ => ret tt end
  end.

(** The scheduler's loop body for entry [i], up to the switch to the process,
    and after the switch back: false when the entry is skipped. *)
Definition schedule_in (i : nat) : kprog bool :=
  p <- proc_at i ;;
  if decide (p_state p = RUNNABLE) then
    upd_proc i (set_state RUNNING) ;;
    modify (put_cur (Some i)) ;;
    zoom of_mmu (load_userspace (p_pgt p)) ;;
    ret true
  else ret false.
Definition schedule_out : kprog unit :=
  zoom of_mmu forget_userspace ;;
  modify (put_cur None).

(** The loop over the table, and one turn of [for(;;)]; [cswitch] is here the
    switch to the process and back. *)
Fixpoint schedule_loop (cnt i : nat) : kprog unit :=
  match cnt with
  | O => ret tt
  | S cnt =>
      b <- schedule_in i ;;
      (if b : bool then cswitch ;; schedule_out else ret tt) ;;
      schedule_loop cnt (S i)
  end.
Definition schedule_turn : kprog unit :=
  modify (λ s, put_hart (Hart (cpuid (k_hart s)) (cli_depth (k_hart s)) (intr_enabled (k_hart s)) true) s) ;;
  lock_procs ;;
  schedule_loop NPROC 0 ;;
  unlock_procs.

Definition yield : kprog unit :=
  i <- myproc ;;
  lock_procs ;;
  upd_proc i (set_state RUNNABLE) ;;
  cswitch ;;
  unlock_procs.

(** [for(fd) if(p->ofile[fd]) new->ofile[fd] = dup_file(p->ofile[fd]);] *)
Fixpoint dup_files (cnt fd : nat) (p new : nat) : kprog unit :=
  match cnt with
  | O => ret tt
  | S cnt =>
      x <- proc_at p ;;
      (match default None (p_ofile x !! fd) with
       | None => ret tt
       | Some f =>
           f <- zoom (of_files p) (dup_file f) ;;
           upd_proc new (λ y, set_files (p_cwd y) (<[fd := Some f]> (p_ofile y)) (p_handler y) y)
       end) ;;
      dup_files cnt (S fd) p new
  end.

Definition clone (fn stack : Z) : kprog Z :=
  p <- myproc ;;
  r <- newproc ;;
  match r with
  | None => ret (-1)
  | Some new =>
      x <- proc_at p ;;
      upd_proc new (set_pgt (p_pgt x)) ;;
      upd_proc new (set_psize (p_size x)) ;;
      y <- proc_at new ;;
      tf_copy (p_tf y) (p_tf x) ;;
      tf_set (p_tf y) TF_ELR fn ;;
      tf_set (p_tf y) TF_SP (stack +u64 PAGESIZE) ;;
      upd_proc new (λ y, set_files (p_cwd x) (p_ofile y) (p_handler y) y) ;;
      dup_files NOFILE 0 p new ;;
      upd_proc new (set_name (p_name x)) ;;
      lock_procs ;;
      upd_proc new (set_state RUNNABLE) ;;
      upd_proc new (set_parent (Some p)) ;;
      upd_proc new (set_th 1) ;;
      unlock_procs ;;
      y <- proc_at new ;;
      ret (p_pid y)
  end.

Definition fork : kprog Z :=
  p <- myproc ;;
  r <- newproc ;;
  match r with
  | None => ret (-1)
  | Some new =>
      x <- proc_at p ;;
      y <- proc_at new ;;
      ok <- zoom of_kmem (cp_userspace (p_pgt y) (p_pgt x) 0x1000 (p_size x)) ;;
      if ok <? 0 then
        lock_procs ;;
        freeproc new ;;
        unlock_procs ;;
        ret (-1)
      else
      upd_proc new (set_psize (p_size x)) ;;
      tf_copy (p_tf y) (p_tf x) ;;
      tf_set (p_tf y) TF_X0 0 ;;
      upd_proc new (λ y, set_files (p_cwd x) (p_ofile y) (p_handler y) y) ;;
      dup_files NOFILE 0 p new ;;
      upd_proc new (set_name (p_name x)) ;;
      lock_procs ;;
      upd_proc new (set_state RUNNABLE) ;;
      upd_proc new (set_parent (Some p)) ;;
      unlock_procs ;;
      y <- proc_at new ;;
      ret (p_pid y)
  end.

Definition killproc (p : option nat) (sig : Z) : kprog Z :=
  match p with
  | None => ret (-1)
  | Some i =>
      upd_proc i (set_sig sig) ;;
      lock_procs ;;
      x <- proc_at i ;;
      (if decide (p_state x = SLEEPING) then upd_proc i (set_state RUNNABLE) else ret tt) ;;
      unlock_procs ;;
      ret 0
  end.

Definition kill (pid sig : Z) : kprog Z := p <- pget pid ;; killproc p sig.

(** [for(i = 0; i < NOFILE; i++) close(i);] *)
Fixpoint close_all (cnt : nat) (fd : Z) (i : nat) : kprog unit :=
  match cnt with
  | O => ret tt
  | S cnt => _ <- zoom (of_files i) (close fd) ;; close_all cnt (fd + 1) i
  end.

(** [exitproc]: does not return. *)
Definition exitproc {A} (i : nat) (r : Z) : kprog A :=
  p <- proc_at i ;;
  (if p_pid p =? 0 then panic "init exit" else ret tt) ;;
  (if nz (p_th p) then ret tt else zoom of_kmem (free_userspace (p_pgt p) (p_size p))) ;;
  close_all NOFILE 0 i ;;
  upd_proc i (set_ret r) ;;
  lock_procs ;;
  init <- gets initproc ;;
  upd_table (exit_table init i) ;;
  cswitch ;;
  panic "unreachable".

Definition exit {A} (r : Z) : kprog A := i <- myproc ;; exitproc i r.

Definition sigcheck (i : nat) : kprog unit :=
  p <- proc_at i ;;
  if nz (p_sig p) then upd_proc i (set_sig 0) ;; exitproc i 1 else ret tt.

(** [sleep(chan, lk)] for a lock other than [proctable.lk], given by its lens,
    and for [proctable.lk] itself. *)
Definition sleep_on (lk : lens (kst C) lockst) (ch : chan) : kprog unit :=
  i <- myproc ;;
  lock_procs ;;
  zoom lk release ;;
  upd_proc i (set_chan ch) ;;
  upd_proc i (set_state SLEEPING) ;;
  cswitch ;;
  upd_proc i (set_chan NoChan) ;;
  unlock_procs ;;
  zoom lk acquire ;;
  sigcheck i.

Definition sleep_procs (ch : chan) : kprog unit :=
  i <- myproc ;;
  upd_proc i (set_chan ch) ;;
  upd_proc i (set_state SLEEPING) ;;
  cswitch ;;
  upd_proc i (set_chan NoChan) ;;
  unlock_procs ;;
  sigcheck i.

(** What [wait] and [waitpid] do with the zombie [j]; [&cp->ret] is in the
    process table, from which the four bytes are copied. *)
Definition reap (i j : nat) (status : Z) : kprog Z :=
  cp <- proc_at j ;;
  r <- (if status =? 0 then ret (p_pid cp) else
        zoom of_kmemory (modify (λ m, mwrite m (proc_addr j + 4) (le_bytes 4 (p_ret cp)))) ;;
        ok <- zoom (of_files i) (zoom of_user (copyout status (proc_addr j + 4) 4)) ;;
        ret (if ok <? 0 then -1 else p_pid cp)) ;;
  freeproc j ;;
  unlock_procs ;;
  ret r.

(** [turns] bounds the times the caller sleeps. *)
Fixpoint wait_loop (turns : nat) (cond : proc → bool) (i : nat) (status : Z) : kprog Z :=
  lock_procs ;;
  z <- gets (λ s, find_zombie (λ p, cond p = true) (procs s)) ;;
  match z with
  | Some j => reap i j status
  | None =>
      match turns with
      | O => λ _, Hang
      | S turns => sleep_procs (ChanProc i) ;; wait_loop turns cond i status
      end
  end.

Definition waitpid (turns : nat) (pid status : Z) : kprog Z :=
  i <- myproc ;;
  wait_loop turns (λ p, p_pid p =? pid) i status.

Definition wait (turns : nat) (status : Z) : kprog Z :=
  i <- myproc ;;
  wait_loop turns (λ p, bool_decide (p_parent p = Some i)) i status.

Definition wakeup (ch : chan) : kprog unit :=
  lock_procs ;;
  upd_table (wakeup_acquired ch) ;;
  unlock_procs.

Definition sbrk (incr : Z) : kprog Z :=
  i <- myproc ;;
  p <- proc_at i ;;
  h <- (if incr >? 0
        then zoom of_kmem (grow_userspace (p_pgt p) 0x1000 (p_size p) (p_size p +u64 incr))
        else ret 0) ;;
  upd_proc i (λ p, set_psize (p_size p +u64 incr) p) ;;
  ret h.

Definition proc_init : kprog unit :=
  modify (put_cur None) ;;
  modify (put_pidlk lock_init) ;;
  modify (put_nextpid 0) ;;
  modify (put_ptlk lock_init) ;;
  modify (put_procs (replicate NPROC proc_zero)).

(** ** exec *)

(** load_prg of mm.c: one turn per page of the file's segment. *)
Fixpoint load_loop (n : nat) (pgt va : Z) (i : nat) (srcoff filesz p : Z) : kprog Z :=
  match n with
  | O => ret 0
  | S n =>
      ka <- zoom of_kmem (uva2ka pgt (va +u64 p)) ;;
      if ka =? 0 then ret (-1) else
      let cpsz := if filesz - p <? PAGESIZE then filesz - p else PAGESIZE in
      r <- zoom of_kfs (ext2_read_inode i ka (srcoff +u64 p) cpsz) ;;
      if negb (u64 r =? cpsz) then ret (-1) else
      load_loop n pgt va i srcoff filesz (p + PAGESIZE)
  end.

Definition load_prg (pgt va : Z) (i : nat) (srcoff filesz : Z) : kprog Z :=
  if nz (va mod PAGESIZE) then ret (-1) else
  load_loop (page_turns 0 filesz) pgt va i srcoff filesz 0.

(** elf.h: offsets in [struct ehdr] and [struct phdr]. *)
Definition SIZEOF_EHDR : Z := 64.
Definition SIZEOF_PHDR : Z := 56.
Definition ET_EXEC : Z := 2.
Definition PT_LOAD : Z := 1.

Definition is_elf (m : mem) (e : Z) : bool :=
  (rd8 m e =? 0x7f) && (rd8 m (e + 1) =? 69) && (rd8 m (e + 2) =? 76) && (rd8 m (e + 3) =? 70).

(** The loop over the program headers: [None] for [goto fail], else the sum of
    the sizes. [ph] is the address of the local variable. *)
Fixpoint load_segments (n : nat) (ph pgt : Z) (i : nat) (off memsize : Z) : kprog (option Z) :=
  match n with
  | O => ret (Some memsize)
  | S n =>
      r <- zoom of_kfs (ext2_read_inode i ph off SIZEOF_PHDR) ;;
      if negb (r =? SIZEOF_PHDR) then ret None else
      m <- gets k_mem ;;
      if negb (ld32 m ph =? PT_LOAD) then load_segments n ph pgt i (off +u64 SIZEOF_PHDR) memsize else
      sz <- zoom of_kmem (alloc_userspace pgt (ld64 m (ph + 16)) (ld64 m (ph + 40))) ;;
      if sz <? 0 then ret None else
      r <- load_prg pgt (ld64 m (ph + 16)) i (ld64 m (ph + 8)) (ld64 m (ph + 32)) ;;
      if r <? 0 then ret None else
      load_segments n ph pgt i (off +u64 SIZEOF_PHDR) (memsize +u64 sz)
  end.

(** The arguments, copied to the new stack from its top down: [None] for
    [goto fail], else the number of arguments, their new addresses and the
    stack pointer. At most eight arguments fit, so nine turns are enough. *)
Fixpoint push_args (turns : nat) (argv stackbase top sp argc : Z) (ustack : list Z) : kprog (option (Z * list Z * Z)) :=
  match turns with
  | O => λ _, Hang
  | S turns =>
      a <- (if argv =? 0 then ret 0 else gets (λ s, ld64 (k_mem s) (argv + 8 * argc))) ;;
      if a =? 0 then ret (Some (argc, ustack, sp)) else
      n <- zoom of_kmemory (strlen fuel a) ;;
      let sp := Z.land (sp -u64 (n + 1)) (Z.lnot 0xf) in
      if argc >=? 8 then ret None else
      if sp <? stackbase then ret None else
      n <- zoom of_kmemory (strlen fuel a) ;;
      _ <- zoom of_kmemory (memcpy sp a n) ;;
      push_args turns argv stackbase top sp (argc + 1) (ustack ++ [USTACKTOP - (top - sp)])
  end.

(** [kfree(pgt)] when it was allocated, and -1. *)
Definition exec_fail (pgt : Z) : kprog Z :=
  (if pgt =? 0 then ret tt else zoom of_kmem (kfree pgt)) ;;
  ret (-1).

(** [eh] and [ph] are the addresses of the local variables. *)
Definition exec (eh ph : Z) (path : bytes) (argv : Z) : kprog Z :=
  i <- myproc ;;
  x <- proc_at i ;;
  ino <- zoom of_kfs (ext2_path2inode (p_cwd x) path) ;;
  match ino with
  | None => exec_fail 0
  | Some ino =>
      r <- zoom of_kfs (ext2_read_inode ino eh 0 SIZEOF_EHDR) ;;
      if negb (r =? SIZEOF_EHDR) then exec_fail 0 else
      m <- gets k_mem ;;
      if negb (is_elf m eh) then exec_fail 0 else
      if negb (ld16 m (eh + 16) =? ET_EXEC) then exec_fail 0 else
      let entry := ld64 m (eh + 24) in
      pgt <- zoom of_kmem kalloc ;;
      if pgt =? 0 then exec_fail 0 else
      size <- load_segments (Z.to_nat (ld16 m (eh + 56))) ph pgt ino (ld64 m (eh + 32)) 0 ;;
      match size with
      | None => exec_fail pgt
      | Some memsize =>
          stackbase <- zoom of_kmem (map_ustack pgt) ;;
          let top := stackbase + PAGESIZE in
          r <- push_args 9 argv stackbase top top 0 [] ;;
          match r with
          | None => exec_fail pgt
          | Some (argc, ustack, sp) =>
              let ustack := ustack ++ [0] in
              let sp := Z.land (sp -u64 8 * (argc + 1)) (Z.lnot 0xf) in
              if sp <? stackbase then exec_fail pgt else
              zoom of_kmemory (modify (λ m, mwrite m sp (concat (le_bytes 8 <$> ustack)))) ;;
              x <- proc_at i ;;
              zoom of_kmem (free_userspace (p_pgt x) (p_size x)) ;;
              upd_proc i (set_psize memsize) ;;
              tf_set (p_tf x) TF_X1 (USTACKTOP - (top - sp)) ;;
              tf_set (p_tf x) TF_ELR entry ;;
              tf_set (p_tf x) TF_SPSR 0 ;;
              tf_set (p_tf x) TF_SP (USTACKTOP - (top - sp)) ;;
              upd_proc i (set_pgt pgt) ;;
              zoom of_mmu (load_userspace pgt) ;;
              ret argc
          end
      end
  end.
End routines.
