(* ===== verification/ProcSpec.v ===== *)
(** * Processes: what the routines do

    Run from a state in which this CPU holds no lock. *)

From S2P Require Import Prelude Mem Bytes KString Spinlock Layout Kalloc PageTable Reclaim Buf Fs Ext2 Ext2Alloc Uaccess File Proc.
Import Spin.
Open Scope Z_scope.
Open Scope prog_scope.

Section base.
Context {C : Type} {Hc : BlockCache C} {Hok : BlockCacheOk C}.
Implicit Types (s : kst C) (h : hart) (t : list proc) (p : proc) (i j : nat).

(** This CPU is between critical sections. *)
Record ready s : Prop := {
  rd_hart : hart_ok (k_hart s);
  rd_ptlk : free_lock (ptlk s);
  rd_pidlk : free_lock (pidlk s);
  rd_ftlk : free_lock (k_ftlk s)
}.

Lemma k_hart_put h s : k_hart (put_hart h s) = h.
Proof. apply (lget_lset (l := chart)). Qed.

Lemma put_hart_hart h h' s : put_hart h (put_hart h' s) = put_hart h s.
Proof.
  unfold put_hart, put_fs, set_chart. cbn. by rewrite (lset_lset (l := chart)).
Qed.

(** [proctable.lk] taken, and given back. *)
Definition in_pt s : kst C := put_ptlk (Lock 1 (cpuid (k_hart s))) (put_hart (entered (k_hart s)) s).
Definition settle s : kst C := put_ptlk lock_init (put_hart (touched (k_hart s)) s).

Lemma lock_procs_run s : hart_ok (k_hart s) → free_lock (ptlk s) → lock_procs s = Ret tt (in_pt s).
Proof. intros Hh Hl. unfold lock_procs, zoom. simpl. by rewrite acquire_free. Qed.

Lemma unlock_procs_run h s :
  hart_ok h → k_hart s = entered h → ptlk s = Lock 1 (cpuid h) →
  unlock_procs s = Ret tt (put_ptlk lock_init (put_hart (touched h) s)).
Proof.
  intros Hh E1 E2. unfold unlock_procs, zoom. cbn [lget lset of_ptlk]. by rewrite E1, E2, release_held.
Qed.

(** Leaving the critical section after the table became [t]. *)
Lemma unlock_table t s :
  hart_ok (k_hart s) → unlock_procs (put_procs t (in_pt s)) = Ret tt (put_procs t (settle s)).
Proof.
  intros Hh. rewrite (unlock_procs_run (k_hart s)); [|done|apply k_hart_put|done].
  f_equal. unfold settle, in_pt. cbn. unfold put_hart, put_fs, put_procs, put_ptlk, set_chart. cbn.
  by rewrite (lset_lset (l := chart)).
Qed.

Lemma in_pt_procs s : put_procs (procs s) (in_pt s) = in_pt s.
Proof. by destruct s. Qed.

Lemma unlock_same s : hart_ok (k_hart s) → unlock_procs (in_pt s) = Ret tt (settle s).
Proof. intros Hh. rewrite <- in_pt_procs, unlock_table by done. by destruct s. Qed.

Lemma settle_ready s : ready s → ready (settle s).
Proof. intros [? ? ? ?]. split; [|done..].
  change (hart_ok (k_hart (put_hart (touched (k_hart s)) s))). rewrite k_hart_put. by apply touched_ok.
Qed.

Lemma ready_procs t s : ready s → ready (put_procs t s).
Proof. by intros []. Qed.

Lemma proc_at_run i p s : procs s !! i = Some p → proc_at i s = Ret p s.
Proof. unfold proc_at. by intros ->. Qed.

Lemma upd_proc_run i f p s : procs s !! i = Some p → upd_proc i f s = Ret tt (put_procs (<[i := f p]> (procs s)) s).
Proof. intros Hi. unfold upd_proc, modify. by rewrite (alter_insert _ _ _ _ Hi). Qed.

Lemma put_procs_procs t t' s : put_procs t (put_procs t' s) = put_procs t s.
Proof. done. Qed.

Lemma myproc_run i s : k_cur s = Some i → myproc s = Ret i s.
Proof. unfold myproc. by intros ->. Qed.

(** *** wakeup and kill *)

Lemma wakeup_run ch s : ready s → wakeup ch s = Ret tt (put_procs (wakeup_acquired ch (procs s)) (settle s)).
Proof.
  intros R. unfold wakeup. rewrite (pbind_ok _ _ _ _ _ (lock_procs_run s (rd_hart _ R) (rd_ptlk _ R))).
  unfold upd_table. prog_step. apply unlock_table, R.
Qed.

Lemma pget_run pid s : ready s → pget pid s = Ret (first_proc (λ p, p_pid p = pid) (procs s)) (settle s).
Proof.
  intros R. unfold pget. rewrite (pbind_ok _ _ _ _ _ (lock_procs_run s (rd_hart _ R) (rd_ptlk _ R))). prog_step.
  by rewrite (pbind_ok _ _ _ _ _ (unlock_same s (rd_hart _ R))).
Qed.

Lemma killproc_run i p sig s :
  ready s → procs s !! i = Some p →
  killproc (Some i) sig s = Ret 0 (put_procs (<[i := set_state (if decide (p_state p = SLEEPING) then RUNNABLE else p_state p)
    (set_sig sig p)]> (procs s)) (settle s)).
Proof.
  intros R Hi. unfold killproc. rewrite (pbind_ok _ _ _ _ _ (upd_proc_run i _ p s Hi)).
  assert (Hlt : (i < length (procs s))%nat) by (by eapply lookup_lt_Some).
  set (t1 := <[i := set_sig sig p]> (procs s)). set (s1 := put_procs t1 s).
  assert (Hi1 : procs (in_pt s1) !! i = Some (set_sig sig p)) by (by apply list_lookup_insert_eq).
  rewrite (pbind_ok _ _ _ _ _ (lock_procs_run s1 (rd_hart _ R) (rd_ptlk _ R))).
  rewrite (pbind_ok _ _ _ _ _ (proc_at_run i _ _ Hi1)). change (p_state (set_sig sig p)) with (p_state p).
  case_decide as Hs.
  - rewrite (pbind_ok _ _ _ _ _ (upd_proc_run i _ _ _ Hi1)).
    rewrite (pbind_ok _ _ _ _ _ (unlock_table _ s1 (rd_hart _ R))). cbn [procs in_pt s1 put_procs put_ptlk put_hart put_fs].
    unfold t1. by rewrite list_insert_insert_eq.
  - prog_step. rewrite (pbind_ok _ _ _ _ _ (unlock_same s1 (rd_hart _ R))). unfold s1, t1.
    replace (set_state (p_state p) (set_sig sig p)) with (set_sig sig p) by by destruct p. done.
Qed.
End base.

(** ** Making a process *)

Section making.
Context {C : Type} {Hc : BlockCache C} {Hok : BlockCacheOk C}.
Context (forkret : Z) (proc_addr : nat → Z).
Implicit Types (s : kst C) (h : hart) (t : list proc) (p : proc) (i j : nat) (k g : Z) (fl : list Z).

Abbreviation pages_of s := (lget (of_kmem (C := C)) s).

Lemma kmem_get_set km s : pages_of (lset of_kmem km s) = km.
Proof.
  destruct km. cbn. unfold k_hart, k_mem. cbn. by rewrite (lget_lset (l := chart)).
Qed.

Lemma kinv_hart fl s s' :
  hart_ok (k_hart s') → k_klk s' = k_klk s → k_freelist s' = k_freelist s → k_mem s' = k_mem s →
  kinv fl (pages_of s) → kinv fl (pages_of s').
Proof. intros Hh E1 E2 E3 [_ I2 I3 I4 I5]. split; cbn in *; [done|by rewrite E1|by rewrite E2, E3|done|done]. Qed.

Lemma ready_kmem km s : ready s → hart_ok (km_hart km) → ready (lset of_kmem km s).
Proof. intros [? ? ? ?] Hh. split; [|done..]. by rewrite <- (kmem_get_set km s) in Hh. Qed.

(** One page from the allocator. *)
Lemma kalloc_kst k fl s :
  ready s → kinv (k :: fl) (pages_of s) →
  ∃ km, zoom of_kmem kalloc s = Ret k (lset of_kmem km s) ∧ ready (lset of_kmem km s) ∧
    kinv fl (pages_of (lset of_kmem km s)) ∧ page_ok k ∧ ¬ (k ∈ fl) ∧
    ∀ a, rd8 (km_mem km) a = if decide (in_page k a) then 0 else rd8 (k_mem s) a.
Proof.
  intros R I. destruct (kalloc_spec k fl _ I) as (km & E & I1 & Hn & Hp & Hh & Hm). exists km.
  split_and!; [by apply zoom_ok|by apply ready_kmem, I1|by rewrite kmem_get_set|done|done|done].
Qed.

Lemma newpid_run s :
  ready s → 0 <= nextpid s < 2 ^ 31 - 1 →
  ∃ s', newpid s = Ret (nextpid s) s' ∧ ready s' ∧ procs s' = procs s ∧ nextpid s' = nextpid s + 1 ∧
    k_cur s' = k_cur s ∧ k_mem s' = k_mem s ∧ k_klk s' = k_klk s ∧ k_freelist s' = k_freelist s ∧
    k_ftable s' = k_ftable s ∧ firstcall s' = firstcall s.
Proof.
  intros R Hn. pose proof (rd_hart _ R) as Hh.
  set (s1 := put_pidlk (Lock 1 (cpuid (k_hart s))) (put_hart (entered (k_hart s)) s)).
  assert (E1 : zoom of_pidlk acquire s = Ret tt s1).
  { unfold zoom. cbn [lget lset of_pidlk]. by rewrite acquire_free by (done || apply R). }
  set (s2 := put_nextpid (nextpid s + 1) s1).
  assert (E2 : zoom of_pidlk release s2 = Ret tt (put_pidlk lock_init (put_hart (touched (k_hart s)) s2))).
  { unfold zoom. cbn [lget lset of_pidlk].
    assert (Ek : k_hart s2 = entered (k_hart s)) by apply k_hart_put.
    rewrite Ek. change (pidlk s2) with (Lock 1 (cpuid (k_hart s))). by rewrite release_held. }
  eexists. split_and!.
  - unfold newpid. rewrite (pbind_ok _ _ _ _ _ E1). prog_steps. rewrite i32_small by (cbn; lia).
    change (put_nextpid (nextpid s1 + 1) s1) with s2. by rewrite (pbind_ok _ _ _ _ _ E2).
  - destruct R as [? ? ? ?]. split; [|done..].
    change (hart_ok (k_hart (put_hart (touched (k_hart s)) s2))). rewrite k_hart_put. by apply touched_ok.
  - done.
  - done.
  - done.
  - done.
  - done.
  - done.
  - done.
  - done.
Qed.

(** The entry [newproc] makes. *)
Definition fresh_proc (i : nat) (pid k g : Z) : proc :=
  Proc CREATED 0 pid 0 NoChan (Context (proc_addr i) forkret (k + PAGESIZE - SIZEOF_TRAPFRAME))
    (k + PAGESIZE - SIZEOF_TRAPFRAME) None k g None (replicate NOFILE None) [] 0 false 0.

(** What stays as it was in memory while pages leave the free list. *)
Definition mem_kept s s' (fl : list Z) : Prop :=
  ∀ a, (∀ q, q ∈ fl → ¬ in_page q a) → rd8 (k_mem s') a = rd8 (k_mem s) a.

Lemma newproc_run i k g fl s :
  ready s → kinv (k :: g :: fl) (pages_of s) → 0 <= nextpid s < 2 ^ 31 - 1 →
  first_proc (λ p, p_state p = UNUSED) (procs s) = Some i → procs s !! i = Some proc_zero →
  ∃ s', newproc forkret proc_addr s = Ret (Some i) s' ∧ ready s' ∧ kinv fl (pages_of s') ∧
    procs s' = <[i := fresh_proc i (nextpid s) k g]> (procs s) ∧ nextpid s' = nextpid s + 1 ∧
    k_cur s' = k_cur s ∧ k_ftable s' = k_ftable s ∧ page_ok k ∧ page_ok g ∧ k ≠ g ∧
    (∀ a, in_page k a ∨ in_page g a → rd8 (k_mem s') a = 0) ∧ mem_kept s s' [k; g].
Proof.
  intros R I Hn Hf Hi. assert (Hlt : (i < length (procs s))%nat) by (by eapply lookup_lt_Some).
  set (t1 := <[i := set_state CREATED proc_zero]> (procs s)). set (s1 := put_procs t1 (settle s)).
  assert (R1 : ready s1) by (by apply ready_procs, settle_ready).
  assert (I1 : kinv (k :: g :: fl) (pages_of s1)) by (by eapply kinv_hart; [apply R1|..|exact I]).
  destruct (newpid_run s1 R1 Hn) as (s2 & E2 & R2 & P2 & N2 & C2 & M2 & L2 & F2 & T2 & _).
  change (procs s1) with t1 in P2. change (nextpid s1) with (nextpid s) in *.
  set (p3 := set_context (Context 0 0 0) (set_pid (nextpid s) (set_state CREATED proc_zero))).
  set (s3 := put_procs (<[i := p3]> (procs s)) s2).
  assert (R3 : ready s3) by (by apply ready_procs).
  assert (I3 : kinv (k :: g :: fl) (pages_of s3)) by (by eapply (kinv_hart _ s1); [apply R3|..|exact I1]).
  destruct (kalloc_kst k (g :: fl) s3 R3 I3) as (km4 & E4 & R4 & I4 & Pk & Nk & Hm4).
  set (s4 := lset of_kmem km4 s3) in *. set (sp := k + PAGESIZE - SIZEOF_TRAPFRAME).
  set (s5 := put_procs (<[i := set_kstack k sp p3]> (procs s)) s4).
  set (m6 := fill (Z.to_nat SIZEOF_TRAPFRAME) (k_mem s5) sp 0). set (s6 := put_mem m6 s5).
  assert (Hm6 : ∀ a, rd8 m6 a = rd8 (k_mem s5) a).
  { intros a. unfold m6. rewrite rd8_fill. case_decide as Ha; [|done]. change (k_mem s5) with (km_mem km4).
    rewrite Hm4, decide_True; [done|]. unfold in_page, sp, SIZEOF_TRAPFRAME, PAGESIZE in *. lia. }
  assert (R6 : ready s6) by (by destruct R4; split).
  assert (I6 : kinv (g :: fl) (pages_of s6)).
  { pose proof (kinv_mem (g :: fl) (pages_of s4) m6 I4) as X. apply X. intros q a _ _. apply Hm6. }
  destruct (kalloc_kst g fl s6 R6 I6) as (km7 & E7 & R7 & I7 & Pg & Ng & Hm7).
  set (s7 := lset of_kmem km7 s6) in *.
  exists (put_procs (<[i := fresh_proc i (nextpid s) k g]> (procs s)) s7).
  assert (Hkg : k ≠ g) by (intros ->; apply Nk; by constructor).
  pose proof (page_nonzero _ Pk). pose proof (page_nonzero _ Pg).
  assert (Hmem : ∀ a, rd8 (km_mem km7) a = if decide (in_page g a) then 0 else if decide (in_page k a) then 0 else rd8 (k_mem s) a).
  { intros a. rewrite Hm7. case_decide; [done|]. change (k_mem s6) with m6. rewrite Hm6. change (k_mem s5) with (km_mem km4).
    rewrite Hm4. case_decide; [done|]. change (k_mem s3) with (k_mem s2). by rewrite M2. }
  split_and!; try done.
  - unfold newproc. rewrite (pbind_ok _ _ _ _ _ (lock_procs_run s (rd_hart _ R) (rd_ptlk _ R))). prog_step.
    change (procs (in_pt s)) with (procs s). rewrite Hf.
    rewrite (pbind_ok _ _ _ _ _ (upd_proc_run i _ _ (in_pt s) Hi)). fold t1.
    rewrite (pbind_ok _ _ _ _ _ (unlock_table t1 s (rd_hart _ R))). fold s1. rewrite (pbind_ok _ _ _ _ _ E2).
    assert (Hget : ∀ p t s', procs s' = <[i := p]> (procs s) → procs s' !! i = Some p) by (intros p t s' ->; by apply list_lookup_insert_eq).
    assert (Hup : ∀ p f s', procs s' = <[i := p]> (procs s) → upd_proc i f s' = Ret tt (put_procs (<[i := f p]> (procs s)) s')).
    { intros p f s' E. rewrite (upd_proc_run i f p s' (Hget p t1 s' E)), E. by rewrite list_insert_insert_eq. }
    rewrite (pbind_ok _ _ _ _ _ (Hup _ _ s2 P2)).
    erewrite pbind_ok; [|by apply Hup]. rewrite put_procs_procs. fold p3. fold s3.
    rewrite (pbind_ok _ _ _ _ _ E4). erewrite pbind_ok; [|by apply Hup].
    destruct (k =? 0) eqn:E0; [lia|]. cbv zeta. fold sp.
    erewrite pbind_ok; [|by apply Hup]. rewrite put_procs_procs.
    change (put_procs (<[i:=_]> (procs s)) s4) with s5.
    erewrite pbind_ok; [|apply (zoom_ok of_kmemory); reflexivity]. change (lset of_kmemory _ s5) with s6.
    rewrite (pbind_ok _ _ _ _ _ E7). erewrite pbind_ok; [|by apply Hup].
    destruct (g =? 0) eqn:E1; [lia|]. erewrite pbind_ok; [|by apply Hup]. by rewrite put_procs_procs.
  - by apply ready_procs.
  - intros a Ha. change (k_mem _) with (km_mem km7). rewrite Hmem. repeat case_decide; try done. tauto.
  - intros a Ha. change (k_mem (put_procs _ s7)) with (km_mem km7). rewrite Hmem, !decide_False;
      [done|apply Ha; rewrite !elem_of_cons; auto..].
Qed.
End making.

(** ** The descriptors of a process *)

(** How many descriptors name the file [f]. *)
Definition n_refs (o : list (option nat)) (f : nat) : nat := length (filter (λ x, x = Some f) o).

(** The file after [n] of its references are dropped, or taken. *)
Definition less (n : nat) (x : file) : file :=
  if decide (n = 0%nat) then x else if decide (f_ref x = n) then file_zero else set_fref (f_ref x - n) x.
Definition more (n : nat) (x : file) : file := set_fref (f_ref x + n) x.

Definition dropped (o : list (option nat)) (t : list file) : list file := imap (λ f x, less (n_refs o f) x) t.
Definition shared (o : list (option nat)) (t : list file) : list file := imap (λ f x, more (n_refs o f) x) t.

(** The table counts at least these references. *)
Definition counted (o : list (option nat)) (t : list file) : Prop :=
  ∀ f, Some f ∈ o → ∃ x, t !! f = Some x ∧ n_refs o f <= f_ref x < 2 ^ 31 - 16.

Section descriptors.
Implicit Types (o : list (option nat)) (t : list file) (x : file) (f : nat).

Lemma n_refs_cons y o f : n_refs (y :: o) f = ((if decide (y = Some f) then 1 else 0) + n_refs o f)%nat.
Proof. unfold n_refs. rewrite filter_cons. by case_decide. Qed.

Lemma n_refs_0 o f : ¬ (Some f ∈ o) → n_refs o f = 0%nat.
Proof.
  intros H. induction o as [|y o IH]; [done|]. rewrite n_refs_cons, decide_False, IH; [done|..].
  - intros ?. apply H. by constructor.
  - intros ->. apply H. constructor.
Qed.

Lemma n_refs_le o f : (n_refs o f <= length o)%nat.
Proof. apply length_filter. Qed.

Lemma less_step n x : S n <= f_ref x → less n (less 1 x) = less (S n) x.
Proof.
  intros Hn. unfold less. destruct (decide (1%nat = 0%nat)) as [|_]; [done|].
  destruct (decide (S n = 0%nat)) as [|_]; [lia|]. destruct (decide (f_ref x = 1%nat)) as [E1|E1].
  - assert (n = 0%nat) as -> by lia. by rewrite !decide_True by done.
  - destruct (decide (n = 0%nat)) as [->|]; [by rewrite decide_False|]. cbn [f_ref set_fref].
    repeat case_decide; try lia; [done|]. unfold set_fref. cbn. f_equal. lia.
Qed.

Lemma dropped_nil t : dropped [] t = t.
Proof. apply list_eq. intros i. unfold dropped. rewrite list_lookup_imap. by destruct (t !! i). Qed.

Lemma dropped_none o t : dropped (None :: o) t = dropped o t.
Proof. apply list_eq. intros i. unfold dropped. by rewrite !list_lookup_imap, n_refs_cons, decide_False. Qed.

Lemma dropped_some f x o t :
  t !! f = Some x → S (n_refs o f) <= f_ref x →
  dropped o (<[f := less 1 x]> t) = dropped (Some f :: o) t.
Proof.
  intros Hf Hr. apply list_eq. intros i. unfold dropped. rewrite !list_lookup_imap, n_refs_cons, list_lookup_insert.
  assert (Hlt : (f < length t)%nat) by (by eapply lookup_lt_Some).
  destruct (decide (f = i)) as [->|Hne].
  - rewrite !decide_True by done. rewrite Hf. simpl. f_equal. by apply less_step.
  - rewrite (decide_False (P := f = i ∧ _)) by (by intros [? _]).
    by rewrite (decide_False (P := Some f = Some i)) by (by intros [=]).
Qed.

Lemma counted_tail f x o t :
  counted (Some f :: o) t → t !! f = Some x → counted o (<[f := less 1 x]> t) ∧ S (n_refs o f) <= f_ref x < 2 ^ 31.
Proof.
  intros Hc Hf. assert (Hlt : (f < length t)%nat) by (by eapply lookup_lt_Some).
  assert (Hx : S (n_refs o f) <= f_ref x < 2 ^ 31 - 16).
  { destruct (Hc f) as (y & Hy & Hb); [constructor|]. rewrite n_refs_cons, decide_True in Hb by done.
    rewrite Hf in Hy. injection Hy as <-. lia. }
  split; [|lia]. intros g Hg. destruct (decide (f = g)) as [->|Hne].
  - exists (less 1 x). rewrite list_lookup_insert_eq by done. split; [done|]. unfold less.
    destruct (decide (1%nat = 0%nat)); [done|]. case_decide as E; cbn [f_ref set_fref file_zero]; [|lia].
    assert (n_refs o g ≠ 0%nat); [|lia]. clear -Hg. induction o as [|y o IH]; [by apply elem_of_nil in Hg|].
    rewrite n_refs_cons. apply elem_of_cons in Hg as [->|Hg]; [by rewrite decide_True|]. specialize (IH Hg). lia.
  - destruct (Hc g) as (y & Hy & Hb); [by constructor|]. exists y. rewrite list_lookup_insert_ne by done.
    rewrite n_refs_cons in Hb. split; [done|]. destruct (decide (Some f = Some g)); simpl in *; lia.
Qed.

Lemma counted_none o t : counted (None :: o) t → counted o t.
Proof.
  intros Hc f Hf. destruct (Hc f) as (x & Hx & Hb); [by constructor|]. exists x. rewrite n_refs_cons in Hb. split; [done|].
  destruct (decide (None = Some f)); simpl in *; lia.
Qed.
End descriptors.

Section closing.
Context {C : Type} {Hc : BlockCache C} {Hok : BlockCacheOk C}.
Implicit Types (s : kst C) (h : hart) (t : list file) (p : proc) (i fd : nat) (o : list (option nat)).

(** The state after calls of the file layer by process [i]. *)
Definition filed i h t p s : kst C :=
  Kst (set_chart h (k_fs s)) (k_ftlk s) t (k_klk s) (k_freelist s) (ptlk s) (<[i := p]> (procs s)) (pidlk s)
    (nextpid s) (k_cur s) (k_mmu s) (initproc s) (firstcall s) (k_mapped s).

Lemma filed_ready i h t p s : ready s → hart_ok h → ready (filed i h t p s).
Proof. intros [? ? ? ?] Hh. split; [|done..]. unfold k_hart, filed. cbn. by rewrite (lget_lset (l := chart)). Qed.

Lemma filed_filed i h t p h' t' p' s : filed i h t p (filed i h' t' p' s) = filed i h t p s.
Proof. unfold filed, set_chart. cbn. by rewrite (lset_lset (l := chart)), list_insert_insert_eq. Qed.

Lemma filed_same i p s : procs s !! i = Some p → filed i (k_hart s) (k_ftable s) p s = s.
Proof.
  intros Hi. destruct s as [[c ? ? ? ?]]. unfold filed, set_chart, k_hart in *. cbn in *.
  by rewrite (lset_lget (l := chart)), (list_insert_id _ _ _ Hi).
Qed.

Lemma filed_mem i h t p s : k_mem (filed i h t p s) = k_mem s.
Proof. done. Qed.

Lemma filed_proc i h t p s : (i < length (procs s))%nat → procs (filed i h t p s) !! i = Some p.
Proof. intros Hi. by apply list_lookup_insert_eq. Qed.

(** [p] with descriptors [o]. *)
Definition with_fds o p : proc := set_files (p_cwd p) o (p_handler p) p.

Lemma of_files_get i p s : procs s !! i = Some p →
  lget (of_files i) s = FileSt (k_fs s) (k_ftlk s) (k_ftable s) (p_ofile p) (p_cwd p) (k_mapped s) (p_handler p).
Proof. intros Hi. cbn. by rewrite Hi. Qed.

Lemma of_files_set i p s f : procs s !! i = Some p →
  lset (of_files i) f s = Kst (fl_fs f) (ftable_lk f) (ftable f) (k_klk s) (k_freelist s) (ptlk s)
    (<[i := set_files (cwd f) (ofile f) (fl_handler f) p]> (procs s)) (pidlk s) (nextpid s) (k_cur s)
    (k_mmu s) (initproc s) (firstcall s) (fl_mapped f).
Proof. intros Hi. cbn. by rewrite (alter_insert _ _ _ _ Hi). Qed.

Lemma close_fd_run i p fd s :
  ready s → procs s !! i = Some p → (fd < NOFILE)%nat → length (p_ofile p) = NOFILE →
  counted (drop fd (p_ofile p)) (k_ftable s) →
  ∃ r h t o, zoom (of_files i) (close fd) s = Ret r (filed i h t (with_fds o p) s) ∧ hart_ok h ∧
    length o = NOFILE ∧ drop (S fd) o = drop (S fd) (p_ofile p) ∧ counted (drop (S fd) o) t ∧
    dropped (drop (S fd) o) t = dropped (drop fd (p_ofile p)) (k_ftable s).
Proof.
  intros R Hi Hfd Hlen Hcn. pose proof (rd_hart _ R) as Hh. pose proof (rd_ftlk _ R) as Hl.
  destruct (p_ofile p !! fd) as [y|] eqn:Ey; [|apply lookup_ge_None in Ey; lia].
  rewrite (drop_S _ _ _ Ey) in *. destruct y as [f|].
  - destruct (Hcn f) as (x & Hx & _); [constructor|]. destruct (counted_tail f x _ _ Hcn Hx) as [Hcn' Hr].
    pose proof (close_run (lget (of_files i) s) fd f x) as E. rewrite (of_files_get i p s Hi) in E.
    specialize (E Hh Hl Hfd Ey Hx ltac:(lia)). unfold hart_of_fl in E. cbn [fl_fs ftable ofile with_ft set_ofile] in E.
    set (o := if decide (f_ref x = 1) then <[fd := None]> (p_ofile p) else p_ofile p).
    assert (Ho : drop (S fd) o = drop (S fd) (p_ofile p)) by (unfold o; case_decide; [rewrite drop_insert_lt by lia; done|done]).
    eexists 0, (touched (k_hart s)), (<[f := less 1 x]> (k_ftable s)), o. split_and!.
    + rewrite (zoom_ok (of_files i) _ s _ _ ltac:(rewrite (of_files_get i p s Hi); exact E)).
      f_equal. rewrite (of_files_set i p s _ Hi). unfold filed, less, o, with_fds, free_lock in *.
      destruct (decide (1%nat = 0%nat)) as [|_]; [done|]. change (Z.of_nat 1) with 1.
      by destruct (decide (f_ref x = 1)); cbn; rewrite Hl.
    + by apply touched_ok.
    + unfold o. case_decide; [by rewrite length_insert|done].
    + done.
    + by rewrite Ho.
    + rewrite Ho. apply dropped_some; [done|lia].
  - eexists (-1), (k_hart s), (k_ftable s), (p_ofile p). split_and!; try done.
    + assert (E : close fd (lget (of_files i) s) = Ret (-1) (lget (of_files i) s)).
      { unfold close. rewrite (pbind_ok _ _ _ _ _ (fget_run fd _ Hfd)), (of_files_get i p s Hi). cbn [ofile]. by rewrite Ey. }
      rewrite (zoom_ok _ _ _ _ _ E), (of_files_get i p s Hi), (of_files_set i p s _ Hi). cbn. f_equal.
      unfold filed, set_chart, k_hart. rewrite (lset_lget (l := chart)). by destruct s as [[] ? ? ? ? ? ? ? ? ? ? ? ? ?].
    + by apply counted_none.
Qed.

Lemma close_all_run cnt fd i p s :
  ready s → procs s !! i = Some p → (fd + cnt = NOFILE)%nat → length (p_ofile p) = NOFILE →
  counted (drop fd (p_ofile p)) (k_ftable s) →
  ∃ h o, close_all cnt fd i s = Ret tt (filed i h (dropped (drop fd (p_ofile p)) (k_ftable s)) (with_fds o p) s) ∧ hart_ok h.
Proof.
  revert fd p s. induction cnt as [|cnt IH]; intros fd p s R Hi Hcnt Hlen Hcn.
  - exists (k_hart s), (p_ofile p). split; [|apply R]. rewrite drop_ge by lia. rewrite dropped_nil.
    replace (with_fds (p_ofile p) p) with p by by destruct p. by rewrite filed_same.
  - destruct (close_fd_run i p fd s R Hi ltac:(lia) Hlen Hcn) as (r & h & t & o & E & Hh & Ho & Hd & Hcn' & Ht).
    assert (Hlt : (i < length (procs s))%nat) by (by eapply lookup_lt_Some).
    destruct (IH (S fd) (with_fds o p) (filed i h t (with_fds o p) s)) as (h' & o' & E' & Hh');
      [by apply filed_ready|by apply filed_proc|lia|done|done|].
    exists h', o'. split; [|done]. cbn [close_all]. rewrite (pbind_ok _ _ _ _ _ E).
    replace (fd + 1) with (Z.of_nat (S fd)) by lia. rewrite E'. f_equal. rewrite filed_filed.
    cbn [with_fds p_ofile set_files k_ftable filed]. rewrite Ht. done.
Qed.
End closing.

(** ** Exit *)

Section exiting.
Context {C : Type} {Hc : BlockCache C} {Hok : BlockCacheOk C}.
Implicit Types (s : kst C) (h : hart) (t : list proc) (p : proc) (i : nat) (fl : list Z) (G : Z → Prop).

(** The pages [G] go with process [p]: those of its address space, none for a thread. *)
Definition owns s p fl G : Prop :=
  (p_th p ≠ 0 ∧ kinv fl (lget of_kmem s) ∧ ∀ x, ¬ G x) ∨
  (p_th p = 0 ∧ ∃ T qs q, mm_ok (p_pgt p) T fl (lget of_kmem s) ∧ space (p_pgt p) T fl qs q (k_mem s) ∧
     PAGEROUNDUP (p_size p) = PAGESIZE * length qs ∧ ∀ x, G x ↔ x ∈ q :: qs ∨ ∃ π, T !! π = Some x).

(** Nothing but the allocator has changed. *)
Definition same_procs s s' : Prop :=
  procs s' = procs s ∧ k_ftable s' = k_ftable s ∧ initproc s' = initproc s ∧ ptlk s' = ptlk s ∧ k_cur s' = k_cur s ∧
  k_mapped s' = k_mapped s ∧ k_mmu s' = k_mmu s ∧ nextpid s' = nextpid s.

Lemma end_space s p fl G :
  ready s → owns s p fl G →
  ∃ fl' s', (if nz (p_th p) then ret tt else zoom of_kmem (free_userspace (p_pgt p) (p_size p))) s = Ret tt s' ∧
    ready s' ∧ same_procs s s' ∧ kinv fl' (lget of_kmem s') ∧ (∀ x, x ∈ fl' ↔ x ∈ fl ∨ G x) ∧
    ∀ a, (∀ x, G x → ¬ in_page x a) → rd8 (k_mem s') a = rd8 (k_mem s) a.
Proof.
  intros R [(Ht & I & HG)|(Ht & T & qs & q & M & Sp & Hsz & HG)].
  - exists fl, s. rewrite (proj2 (nz_true _) Ht). split_and!; try done. intros x. specialize (HG x). tauto.
  - rewrite Ht. change (nz 0) with false. cbv iota.
    destruct (free_userspace_spec _ _ _ _ _ _ _ M Sp Hsz) as (fl' & km & E & I & Hfl & Hm).
    exists fl', (lset of_kmem km s). split_and!; [by apply zoom_ok|by apply ready_kmem, I|done|by rewrite kmem_get_set| |].
    + intros x. by rewrite Hfl, HG.
    + intros a Ha. apply Hm. intros x Hx. by apply Ha, HG.
Qed.

Lemma exitproc_run {A} cswitch i r p s fl G :
  ready s → procs s !! i = Some p → p_pid p ≠ 0 → length (p_ofile p) = NOFILE →
  counted (p_ofile p) (k_ftable s) → owns s p fl G →
  ∃ s' o h fl', exitproc (A := A) cswitch i r s = (cswitch ;; panic "unreachable") s' ∧
    hart_ok h ∧ k_hart s' = entered h ∧ ptlk s' = Lock 1 (cpuid h) ∧
    procs s' = exit_table (initproc s) i (<[i := set_ret r (with_fds o p)]> (procs s)) ∧
    k_ftable s' = dropped (p_ofile p) (k_ftable s) ∧
    chain (k_mem s') (k_freelist s') fl' ∧ NoDup fl' ∧ (∀ x, x ∈ fl' ↔ x ∈ fl ∨ G x) ∧
    (∀ a, (∀ x, G x → ¬ in_page x a) → rd8 (k_mem s') a = rd8 (k_mem s) a).
Proof.
  intros R Hi Hpid Hlen Hcn Hown. assert (Hlt : (i < length (procs s))%nat) by (by eapply lookup_lt_Some).
  destruct (end_space s p fl G R Hown) as (fl' & s1 & E1 & R1 & (P1 & F1 & N1 & L1 & _) & I1 & Hfl & Hm).
  destruct (close_all_run NOFILE 0 i p s1 R1) as (h & o & E2 & Hh);
    [by rewrite P1|done|done|by rewrite F1|]. rewrite drop_0, F1 in E2.
  set (s2 := filed i h _ _ s1) in *. assert (R2 : ready s2) by (by apply filed_ready).
  assert (P2 : procs s2 = <[i := with_fds o p]> (procs s)) by (unfold s2; cbn; by rewrite P1).
  assert (Hi2 : procs s2 !! i = Some (with_fds o p)) by (rewrite P2; by apply list_lookup_insert_eq).
  set (s3 := put_procs (<[i := set_ret r (with_fds o p)]> (procs s)) s2).
  assert (R3 : ready s3) by (by apply ready_procs).
  exists (put_procs (exit_table (initproc s) i (procs s3)) (in_pt s3)), o, (k_hart s3), fl'. split_and!; try done.
  - unfold exitproc. rewrite (pbind_ok _ _ _ _ _ (proc_at_run i p s Hi)).
    destruct (p_pid p =? 0) eqn:E0; [lia|]. prog_step. rewrite (pbind_ok _ _ _ _ _ E1), (pbind_ok _ _ _ _ _ E2).
    rewrite (pbind_ok _ _ _ _ _ (upd_proc_run i _ _ s2 Hi2)). rewrite P2, list_insert_insert_eq. fold s3.
    rewrite (pbind_ok _ _ _ _ _ (lock_procs_run s3 (rd_hart _ R3) (rd_ptlk _ R3))). prog_step.
    change (initproc (in_pt s3)) with (initproc s1). rewrite N1. unfold upd_table. by prog_step.
  - apply (rd_hart _ R3).
  - apply k_hart_put.
  - apply I1.
  - apply I1.
Qed.
End exiting.

(** ** Wait *)

Section waiting.
Context {C : Type} {Hc : BlockCache C} {Hok : BlockCacheOk C}.
Context (cswitch : prog (kst C) unit) (proc_addr : nat → Z).
Implicit Types (s : kst C) (h : hart) (t : list proc) (p cp : proc) (i j : nat) (fl : list Z).

(** This CPU, at rest before, holds [proctable.lk] and no other lock. *)
Record inside h s : Prop := {
  is_hart : k_hart s = entered h;
  is_ok : hart_ok h;
  is_rest : cli_depth h = 0;
  is_ptlk : ptlk s = Lock 1 (cpuid h);
  is_pidlk : free_lock (pidlk s);
  is_ftlk : free_lock (k_ftlk s)
}.

Lemma inside_in_pt s : ready s → cli_depth (k_hart s) = 0 → inside (k_hart s) (in_pt s).
Proof. intros [? ? ? ?] Hd. split; try done. apply k_hart_put. Qed.

Lemma inside_entered h s : inside h s → hart_ok (k_hart s) ∧ touched (k_hart s) = k_hart s.
Proof.
  intros [E (A & B & D) Hr _ _ _]. rewrite E. split.
  - split; [cbn; rewrite Hr; lia|]. split; [exact B|done].
  - unfold touched, entered. cbn [cli_depth cpuid intr_enabled irq_on]. by rewrite Hr.
Qed.

Lemma inside_procs h t s : inside h s → inside h (put_procs t s).
Proof. by intros []. Qed.

(** The critical section left. *)
Definition left_pt h s : kst C := put_ptlk lock_init (put_hart (touched h) s).

Lemma left_ready h s : inside h s → ready (left_pt h s) ∧ cli_depth (k_hart (left_pt h s)) = 0.
Proof.
  intros [_ Hh Hr _ Hp Hf]. assert (E : k_hart (left_pt h s) = touched h) by apply k_hart_put.
  split; [|by rewrite E]. split; [|done..]. rewrite E. by apply touched_ok.
Qed.

Lemma unlock_inside h s : inside h s → unlock_procs s = Ret tt (left_pt h s).
Proof. intros [E Hh _ L _ _]. by apply unlock_procs_run. Qed.

(** [freeproc]: the kernel stack is a free page and the entry is cleared. *)
Lemma freeproc_run h j cp fl s :
  inside h s → procs s !! j = Some cp → kinv fl (lget of_kmem s) → page_ok (p_kstack cp) → ¬ (p_kstack cp ∈ fl) →
  ∃ s', freeproc j s = Ret tt s' ∧ inside h s' ∧ procs s' = <[j := proc_zero]> (procs s) ∧ k_cur s' = k_cur s ∧
    kinv (p_kstack cp :: fl) (lget of_kmem s') ∧ ∀ a, ¬ in_page (p_kstack cp) a → rd8 (k_mem s') a = rd8 (k_mem s) a.
Proof.
  intros In Hj I Hp Hn. destruct (inside_entered h s In) as [Hok' Htt].
  destruct (kfree_spec _ fl _ I Hp Hn) as (km & E & I' & Eh & Hm). set (s1 := lset of_kmem km s).
  assert (Hk : k_hart s1 = k_hart s).
  { unfold s1, k_hart. cbn. rewrite (lget_lset (l := chart)), Eh. exact Htt. }
  exists (put_procs (<[j := proc_zero]> (procs s)) s1). split_and!; [|..|done|done| |exact Hm].
  - assert (Hold : holding (k_hart s) (ptlk s) = true).
    { destruct In as [-> _ _ -> _ _]. unfold holding. cbn. by rewrite Z.eqb_refl. }
    unfold freeproc. prog_step. rewrite Hold. prog_step. rewrite (pbind_ok _ _ _ _ _ (proc_at_run j cp s Hj)).
    rewrite (pbind_ok _ _ _ _ _ (zoom_ok _ _ _ _ _ E)). fold s1. by apply (upd_proc_run j (λ _, proc_zero) cp s1).
  - destruct In as [Eh' ? ? ? ? ?]. split; try done. by rewrite <- Eh', <- Hk.
  - eapply (kinv_hart _ s1); [|done|done|done|unfold s1; by rewrite kmem_get_set].
    change (hart_ok (k_hart s1)). by rewrite Hk.
Qed.

(** What [wait] needs to hand out the four bytes at [&cp->ret]. *)
Record status_ok (status : Z) j s (fl : list Z) : Prop := {
  st_mapped : status ≠ 0 → all_mapped (k_mapped s) status (proc_addr j + 4) 4;
  st_apart : status ≠ 0 → ∀ a q, status <= a < status + 4 ∨ proc_addr j + 4 <= a < proc_addr j + 8 → q ∈ fl → ¬ in_page q a
}.

Lemma copyout_kst i p d src n s :
  procs s !! i = Some p → p_handler p = false → all_mapped (k_mapped s) d src n →
  ∃ m', zoom (of_files i) (zoom of_user (copyout d src n)) s = Ret 0 (put_mem m' s) ∧
    ∀ a, rd8 m' a = if decide (d <= a < d + n) then rd8 (k_mem s) (src + (a - d)) else rd8 (k_mem s) a.
Proof.
  intros Hi Hp HM. destruct (copyout_ok d src n (k_mapped s) (k_mem s) false HM) as (m' & E & Hm).
  exists m'. split; [|done]. unfold zoom at 1. rewrite (of_files_get i p s Hi). unfold zoom.
  cbn [lget of_user fl_fs fl_mapped fl_handler]. rewrite Hp.
  change (fs_mem (k_fs s)) with (k_mem s). rewrite E. f_equal. rewrite (of_files_set i p s _ Hi).
  cbn [lset of_user u_mem u_mapped u_handler fl_fs ftable_lk ftable ofile cwd fl_mapped fl_handler].
  replace (set_files (p_cwd p) (p_ofile p) false p) with p by (rewrite <- Hp; by destruct p).
  by rewrite (list_insert_id _ _ _ Hi).
Qed.

(** The child's status, in memory as the caller reads it. *)
Definition status_in (status : Z) cp s : Prop := status ≠ 0 → mread (k_mem s) status 4 = le_bytes 4 (p_ret cp).

Lemma reap_run h i j p cp status fl s :
  inside h s → procs s !! i = Some p → p_handler p = false → procs s !! j = Some cp → kinv fl (lget of_kmem s) →
  page_ok (p_kstack cp) → ¬ (p_kstack cp ∈ fl) → status_ok status j s (p_kstack cp :: fl) →
  ∃ s', reap proc_addr i j status s = Ret (p_pid cp) s' ∧ ready s' ∧ cli_depth (k_hart s') = 0 ∧
    procs s' = <[j := proc_zero]> (procs s) ∧ k_cur s' = k_cur s ∧ kinv (p_kstack cp :: fl) (lget of_kmem s') ∧
    status_in status cp s'.
Proof.
  intros In Hi Hph Hj I Hp Hn [HM Hap].
  assert (Hmid : ∃ m', (if status =? 0 then ret (p_pid cp) else
        zoom of_kmemory (modify (λ m, mwrite m (proc_addr j + 4) (le_bytes 4 (p_ret cp)))) ;;
        ok <- zoom (of_files i) (zoom of_user (copyout status (proc_addr j + 4) 4)) ;;
        ret (if ok <? 0 then -1 else p_pid cp)) s = Ret (p_pid cp) (put_mem m' s) ∧
      (status ≠ 0 → mread m' status 4 = le_bytes 4 (p_ret cp)) ∧
      ∀ a q, q ∈ p_kstack cp :: fl → in_page q a → rd8 m' a = rd8 (k_mem s) a).
  { destruct (status =? 0) eqn:E0.
    - exists (k_mem s). split_and!; [|lia|done]. unfold ret. f_equal. by destruct s as [[]].
    - set (m1 := mwrite (k_mem s) (proc_addr j + 4) (le_bytes 4 (p_ret cp))).
      destruct (copyout_kst i p status (proc_addr j + 4) 4 (put_mem m1 s) Hi Hph (HM ltac:(lia))) as (m' & E & Hm).
      exists m'. split_and!.
      + rewrite (pbind_ok _ _ _ _ _ (zoom_ok of_kmemory _ s tt m1 eq_refl)). change (lset of_kmemory m1 s) with (put_mem m1 s).
        by rewrite (pbind_ok _ _ _ _ _ E).
      + intros _. rewrite <- (mread_mwrite (k_mem s) (proc_addr j + 4) (le_bytes 4 (p_ret cp)) (le_bytes_ok _ _)).
        rewrite length_le_bytes. fold m1. apply list_eq. intros k. destruct (decide (k < 4)%nat) as [Hk|Hk].
        * rewrite !lookup_mread by done. rewrite Hm, decide_True by lia. f_equal. change (k_mem (put_mem m1 s)) with m1. f_equal. lia.
        * rewrite !lookup_ge_None_2 by (rewrite length_mread; lia). done.
      + intros a q Hq Ha. rewrite Hm. destruct (decide _) as [Hd|Hd].
        { exfalso. apply (Hap ltac:(lia) a q); [left; lia|done|done]. }
        apply rd8_mwrite_other. rewrite length_le_bytes. intros Hb. apply (Hap ltac:(lia) a q); [right; lia|done|done]. }
  destruct Hmid as (m' & E & Hst & Hm). set (s1 := put_mem m' s) in *.
  assert (In1 : inside h s1) by (by destruct In; split).
  assert (I1 : kinv fl (lget of_kmem s1)).
  { apply (kinv_mem fl (lget of_kmem s) m' I). intros q a Hq Ha. apply (Hm a q); [by constructor|done]. }
  destruct (freeproc_run h j cp fl s1 In1 Hj I1 Hp Hn) as (s2 & E2 & In2 & P2 & C2 & I2 & M2).
  destruct (left_ready h s2 In2) as [R3 D3]. exists (left_pt h s2). split_and!; [|done|done|done|done| |].
  - unfold reap. rewrite (pbind_ok _ _ _ _ _ (proc_at_run j cp s Hj)), (pbind_ok _ _ _ _ _ E).
    rewrite (pbind_ok _ _ _ _ _ E2). by rewrite (pbind_ok _ _ _ _ _ (unlock_inside h s2 In2)).
  - eapply (kinv_hart _ s2); [apply R3|done|done|done|exact I2].
  - intros Hz. change (k_mem (left_pt h s2)) with (k_mem s2). rewrite <- (Hst Hz). apply mread_ext.
    intros a Ha. rewrite M2; [done|]. intros Hin. apply (Hap Hz a (p_kstack cp)); [left; lia|by constructor|done].
Qed.

(** The table a sleeper leaves to the others, and the state it goes on from when
    it was woken and nobody sent it a signal. *)
Definition asleep i s : kst C := put_procs (alter (set_state SLEEPING) i (alter (set_chan (ChanProc i)) i (procs s))) s.
Definition woken h i s : kst C := left_pt h (put_procs (alter (set_chan NoChan) i (procs s)) s).

(** [waits cond i n s s']: process [i] looks for a zombie in [s], sleeps, and
    finds one when it has been woken [n] times, in [s'].  What the others do in
    between is a run of [cswitch]. *)
Inductive waits (cond : proc → bool) i : nat → kst C → kst C → Prop :=
| waits_done s : is_Some (find_zombie (λ p, cond p = true) (procs s)) → waits cond i 0 s s
| waits_more n h p s s1 s' :
    ready s → cli_depth (k_hart s) = 0 → find_zombie (λ p, cond p = true) (procs s) = None → k_cur s = Some i →
    cswitch (asleep i (in_pt s)) = Ret tt s1 → inside h s1 → procs s1 !! i = Some p → p_sig p = 0 →
    waits cond i n (woken h i s1) s' → waits cond i (S n) s s'.

Lemma sleep_procs_run h i p s s1 :
  k_cur s = Some i → cswitch (asleep i s) = Ret tt s1 → inside h s1 → procs s1 !! i = Some p → p_sig p = 0 →
  sleep_procs cswitch (ChanProc i) s = Ret tt (woken h i s1).
Proof.
  intros Hcur Hsw In Hi Hsig. unfold sleep_procs. rewrite (pbind_ok _ _ _ _ _ (myproc_run i s Hcur)).
  unfold upd_proc. prog_steps. change (put_procs _ (put_procs _ s)) with (asleep i s).
  rewrite (pbind_ok _ _ _ _ _ Hsw). prog_step.
  rewrite (pbind_ok _ _ _ _ _ (unlock_inside h _ (inside_procs h _ s1 In))). fold (woken h i s1).
  unfold sigcheck. erewrite pbind_ok; [|eapply proc_at_run; cbn; by rewrite (alter_insert _ _ _ _ Hi), list_lookup_insert_eq by (by eapply lookup_lt_Some)].
  cbn [p_sig set_chan]. by rewrite Hsig.
Qed.

Lemma wait_loop_waits cond i n turns status s s' :
  waits cond i n s s' →
  wait_loop cswitch proc_addr (n + turns) cond i status s = wait_loop cswitch proc_addr turns cond i status s'.
Proof.
  intros W. induction W as [|n h p s s1 s' R Hd Hz Hcur Hsw In Hi Hsig W IH]; [done|].
  rewrite <- IH. cbn [wait_loop Nat.add]. rewrite (pbind_ok _ _ _ _ _ (lock_procs_run s (rd_hart _ R) (rd_ptlk _ R))).
  prog_step. change (procs (in_pt s)) with (procs s). rewrite Hz.
  by rewrite (pbind_ok _ _ _ _ _ (sleep_procs_run h i p (in_pt s) s1 Hcur Hsw In Hi Hsig)).
Qed.

Lemma waits_end cond i n s s' : waits cond i n s s' → is_Some (find_zombie (λ p, cond p = true) (procs s')).
Proof. by induction 1. Qed.

(** When the zombie is found it is reaped. *)
Lemma wait_loop_reap turns cond i j p cp status fl s :
  ready s → cli_depth (k_hart s) = 0 → find_zombie (λ p, cond p = true) (procs s) = Some j →
  procs s !! i = Some p → p_handler p = false → procs s !! j = Some cp → kinv fl (lget of_kmem s) →
  page_ok (p_kstack cp) → ¬ (p_kstack cp ∈ fl) → status_ok status j s (p_kstack cp :: fl) →
  ∃ s', wait_loop cswitch proc_addr turns cond i status s = Ret (p_pid cp) s' ∧ ready s' ∧ cli_depth (k_hart s') = 0 ∧
    procs s' = <[j := proc_zero]> (procs s) ∧ k_cur s' = k_cur s ∧ kinv (p_kstack cp :: fl) (lget of_kmem s') ∧
    status_in status cp s'.
Proof.
  intros R Hd Hz Hi Hh Hj I Hp Hn Hst. pose proof (inside_in_pt s R Hd) as In.
  assert (I' : kinv fl (lget of_kmem (in_pt s))).
  { eapply (kinv_hart _ s); [|done..]. apply (inside_entered _ _ In). }
  destruct (reap_run (k_hart s) i j p cp status fl (in_pt s) In Hi Hh Hj I' Hp Hn) as (s' & E & H);
    [by destruct Hst|].
  exists s'. split; [|exact H]. destruct turns; cbn [wait_loop];
    rewrite (pbind_ok _ _ _ _ _ (lock_procs_run s (rd_hart _ R) (rd_ptlk _ R))); prog_step;
    change (procs (in_pt s)) with (procs s); rewrite Hz; exact E.
Qed.
End waiting.
