(* ===== verification/ProcRun.v ===== *)
(** * Processes: theorems on the routines of proc.c

    What a new process looks like, what exit leaves behind, what wait returns
    and what kill and wakeup change, with a machine to try them on. *)

From S2P Require Import Prelude Mem Bytes KString Spinlock Layout Kalloc PageTable Reclaim Buf Fs Ext2 Ext2Alloc Ext2File Uaccess File Proc ProcSpec.
Import Spin.
Open Scope Z_scope.
Open Scope prog_scope.

(** The entry [j] of the table after [exit_table] for process [i], child of [par]. *)
Definition exit_entry (init : option nat) (i : nat) (par : option nat) (j : nat) (q : proc) : proc :=
  let q := wake (match par with Some k => ChanProc k | None => NoChan end) (adopt init i q) in
  if decide (j = i) then set_state ZOMBIE q else q.

Lemma adopt_other init i q : p_parent q ≠ Some i → adopt init i q = q.
Proof. intros H. unfold adopt. by rewrite decide_False. Qed.

Lemma exit_table_lookup init i p t j q :
  t !! i = Some p → p_parent p ≠ Some i → t !! j = Some q →
  exit_table init i t !! j = Some (exit_entry init i (p_parent p) j q).
Proof.
  intros Hi Hne Hj. unfold exit_table, exit_entry. cbv zeta.
  assert (Hr : reparent init i t !! i = Some p).
  { unfold reparent. rewrite list_lookup_fmap, Hi. cbn. by rewrite adopt_other. }
  rewrite Hr. cbn [fmap option_fmap option_map].
  set (t' := match p_parent p with Some par => wakeup_acquired (ChanProc par) (reparent init i t)
             | None => wakeup_acquired NoChan (reparent init i t) end).
  assert (Hj' : t' !! j = Some (wake (match p_parent p with Some k => ChanProc k | None => NoChan end) (adopt init i q))).
  { unfold t', wakeup_acquired, reparent. destruct (p_parent p); by rewrite !list_lookup_fmap, Hj. }
  rewrite list_lookup_alter. destruct (decide (i = j)) as [->|Hn].
  - rewrite decide_True by done. by rewrite Hj'.
  - by rewrite (decide_False (P := j = i)).
Qed.

Lemma exit_entry_facts init i par j q :
  p_parent (exit_entry init i par j q) = (if decide (p_parent q = Some i) then init else p_parent q) ∧
  p_ret (exit_entry init i par j q) = p_ret q ∧ p_pid (exit_entry init i par j q) = p_pid q ∧
  p_state (exit_entry init i par j q) =
    (if decide (j = i) then ZOMBIE else
     if decide (p_state q = SLEEPING ∧ p_chan q = match par with Some k => ChanProc k | None => NoChan end)
     then RUNNABLE else p_state q).
Proof.
  unfold exit_entry, wake, adopt.
  destruct (decide (j = i)), (decide (p_parent q = Some i)); cbv zeta; cbn [set_parent p_state p_chan];
    case_decide; done.
Qed.

(** ** A machine *)

(** One CPU at rest, with the allocator of [km] and the table [t], running [i]. *)
Definition machine (km : kmem) (t : list proc) (i : nat) : kst (bcache memdisk) :=
  Kst (FsSt (fs_cache (fl_fs FileCallProps.one_file)) lock_init [] (sb (fl_fs FileCallProps.one_file)) (km_mem km))
    lock_init (ftable FileCallProps.one_file) (kallocator_lk km) (freelist km) lock_init t lock_init 7 (Some i)
    (Mmu 0 0) (Some 0%nat) false (λ _, true).

Lemma machine_ready km t i : ready (machine km t i) ∧ cli_depth (k_hart (machine km t i)) = 0.
Proof. split; [|done]. split; [by vm_compute|done..]. Qed.

Lemma machine_inv fl km t i : kinv fl km → kinv fl (lget of_kmem (machine km t i)).
Proof. by intros [_ ? ? ? ?]; split. Qed.

Lemma machine_mm root T fl km t i : mm_ok root T fl km → mm_ok root T fl (lget of_kmem (machine km t i)).
Proof. intros [I ? ?]. split; try done. by apply machine_inv. Qed.

(** A process with its descriptor 0 on the file of the table, and others without files. *)
Definition entry_of (st : procstate) (pid : Z) (par : option nat) (k : Z) : proc :=
  Proc st 0 pid 0 NoChan (Context 0 0 0) (k + PAGESIZE - SIZEOF_TRAPFRAME) par k 0 None (replicate NOFILE None) [] 1 false 0.
Definition rest : list proc := replicate 5 proc_zero.

Module ProcProps.

Section claims.
Context {C : Type} {Hc : BlockCache C} {Hok : BlockCacheOk C}.
Implicit Types (s : kst C) (p cp : proc) (i j k : nat) (fl : list Z) (G : Z → Prop).

(** A new process. With two pages and a slot free, [newproc] returns the
    first unused slot, now CREATED, with the next number, a cleared kernel stack
    whose top is its trap frame, an empty page table, no files, and the context
    with which the scheduler will enter [forkret] on that stack; no other entry
    and no byte outside the two pages changes. With no slot it returns NULL and
    changes nothing. *)
Theorem newproc_correct forkret proc_addr i (kp g : Z) fl s :
  ready s → kinv (kp :: g :: fl) (lget of_kmem s) → 0 <= nextpid s < 2 ^ 31 - 1 →
  (first_proc (λ p, p_state p = UNUSED) (procs s) = Some i → procs s !! i = Some proc_zero →
   ∃ s', newproc forkret proc_addr s = Ret (Some i) s' ∧ ready s' ∧ kinv fl (lget of_kmem s') ∧
     procs s' = <[i := fresh_proc forkret proc_addr i (nextpid s) kp g]> (procs s) ∧ nextpid s' = nextpid s + 1 ∧
     (∀ a, in_page kp a ∨ in_page g a → rd8 (k_mem s') a = 0) ∧
     ∀ a, ¬ in_page kp a → ¬ in_page g a → rd8 (k_mem s') a = rd8 (k_mem s) a) ∧
  (first_proc (λ p, p_state p = UNUSED) (procs s) = None →
   ∃ s', newproc forkret proc_addr s = Ret None s' ∧ ready s' ∧ procs s' = procs s ∧ nextpid s' = nextpid s).
Proof.
  intros R I Hn. split.
  - intros Hf Hi. destruct (newproc_run forkret proc_addr i kp g fl s R I Hn Hf Hi)
      as (s' & E & R' & I' & P & N & _ & _ & _ & _ & _ & Z & K).
    exists s'. split_and!; try done. intros a Hk Hg. apply K. intros q [->|[->|[]%elem_of_nil]%elem_of_cons]%elem_of_cons; done.
  - intros Hf. exists (settle s). split_and!; [|by apply settle_ready|done|done]. unfold newproc.
    rewrite (pbind_ok _ _ _ _ _ (lock_procs_run s (rd_hart _ R) (rd_ptlk _ R))). prog_step.
    change (procs (in_pt s)) with (procs s). rewrite Hf.
    by rewrite (pbind_ok _ _ _ _ _ (unlock_same s (rd_hart _ R))).
Qed.


(** C20: wait. If the caller is woken [n] times before one of its children is a
    ZOMBIE, and no signal was sent to it, [wait] returns the number of the first
    zombie child, with its status in the four bytes at [status] if that is not
    NULL; the child's slot is free and cleared, its kernel stack is back in the
    free list and no other entry changed since the scan. *)
Theorem wait_correct cswitch proc_addr turns n i j p cp status fl s s1 :
  k_cur s = Some i → waits cswitch (λ q, bool_decide (p_parent q = Some i)) i n s s1 → (n <= turns)%nat →
  ready s1 → cli_depth (k_hart s1) = 0 →
  find_zombie (λ q, bool_decide (p_parent q = Some i) = true) (procs s1) = Some j →
  procs s1 !! i = Some p → p_handler p = false → procs s1 !! j = Some cp → kinv fl (lget of_kmem s1) →
  page_ok (p_kstack cp) → ¬ (p_kstack cp ∈ fl) → status_ok proc_addr status j s1 (p_kstack cp :: fl) →
  ∃ s', wait cswitch proc_addr turns status s = Ret (p_pid cp) s' ∧ ready s' ∧
    p_parent cp = Some i ∧ p_state cp = ZOMBIE ∧ procs s' = <[j := proc_zero]> (procs s1) ∧
    kinv (p_kstack cp :: fl) (lget of_kmem s') ∧ (status ≠ 0 → mread (k_mem s') status 4 = le_bytes 4 (p_ret cp)).
Proof.
  intros Hcur W Hn R Hd Hz Hi Hph Hj I Hp Hnf Hst.
  destruct (wait_loop_reap cswitch proc_addr (turns - n) _ i j p cp status fl s1 R Hd Hz Hi Hph Hj I Hp Hnf Hst)
    as (s' & E & R' & _ & P & _ & I' & M).
  assert (Hcp : p_parent cp = Some i ∧ p_state cp = ZOMBIE).
  { unfold find_zombie, first_proc in Hz. apply fmap_Some in Hz as ([j' q] & Hq & ->).
    apply list_find_Some in Hq as (Hq & [Hb Hs] & _). cbn in Hj. rewrite Hq in Hj. injection Hj as ->.
    split; [by apply bool_decide_eq_true in Hb|done]. }
  exists s'. split_and!; try done; [|apply Hcp|apply Hcp].
  unfold wait. rewrite (pbind_ok _ _ _ _ _ (myproc_run i s Hcur)).
  replace turns with (n + (turns - n))%nat by lia. by rewrite (wait_loop_waits _ _ _ _ _ _ _ _ _ W).
Qed.

(** Kill. [kill] of a number in use records the signal and makes the
    process runnable if it sleeps, whatever it sleeps on; it changes no other
    entry, and nothing if no process has the number, when it returns -1. *)
Theorem kill_correct pid sig s :
  ready s →
  (∀ i p, first_proc (λ p, p_pid p = pid) (procs s) = Some i → procs s !! i = Some p →
     ∃ s', kill pid sig s = Ret 0 s' ∧ ready s' ∧
       procs s' = <[i := set_state (if decide (p_state p = SLEEPING) then RUNNABLE else p_state p) (set_sig sig p)]> (procs s)) ∧
  (first_proc (λ p, p_pid p = pid) (procs s) = None → ∃ s', kill pid sig s = Ret (-1) s' ∧ ready s' ∧ procs s' = procs s).
Proof.
  intros R. unfold kill. rewrite (pbind_ok _ _ _ _ _ (pget_run pid s R)). split.
  - intros i p Hf Hi. rewrite Hf. pose proof (settle_ready s R) as R1.
    eexists. split; [by apply (killproc_run i p sig (settle s) R1)|]. split; [by apply ready_procs, settle_ready|done].
  - intros Hf. rewrite Hf. exists (settle s). split_and!; [done|by apply settle_ready|done].
Qed.
End claims.


(** *** Witnesses *)

Definition idle_table : list proc := [entry_of RUNNING 0 None root1; proc_zero].

Lemma free16_inv : kinv free16 (start free16).
Proof. exact (mm_alloc _ _ _ _ (start_ok1 root1 (or_introl eq_refl))). Qed.

Lemma newproc_correct_witness :
  ∃ s', newproc 0x40 (λ i, 0x2000 + 512 * Z.of_nat i) (machine (start free16) idle_table 0) = Ret (Some 1%nat) s' ∧
    p_state <$> procs s' !! 1%nat = Some CREATED.
Proof.
  pose proof (machine_inv free16 _ idle_table 0 free16_inv) as I.
  destruct (newproc_correct 0x40 (λ i, 0x2000 + 512 * Z.of_nat i) 1 (KERNBASE + 2 * PAGESIZE) (KERNBASE + 3 * PAGESIZE)
    (pages (KERNBASE + 4 * PAGESIZE) 14) (machine (start free16) idle_table 0)
    (proj1 (machine_ready _ _ _)) I ltac:(split; [done|reflexivity])) as [(s' & E & _ & _ & P & _) _].
  - vm_compute. reflexivity.
  - reflexivity.
  - exists s'. split; [exact E|]. by rewrite P.
Defined.

(** Process 1, child of process 0, which waits. *)
Definition exiting_table (pgt size : Z) : list proc :=
  [set_chan (ChanProc 0) (entry_of SLEEPING 0 None root1);
   with_fds (<[0%nat := Some 0%nat]> (replicate NOFILE None))
     (set_th 0 (set_pgt pgt (set_psize size (entry_of RUNNING 5 (Some 0%nat) root1))))].

Lemma exiting_counted : counted (<[0%nat := Some 0%nat]> (replicate NOFILE None)) (ftable FileCallProps.one_file).
Proof.
  intros f Hf. change (<[0%nat := Some 0%nat]> (replicate NOFILE None)) with (Some 0%nat :: replicate 15 (None (A := nat))) in Hf.
  apply elem_of_cons in Hf as [[= ->]|[E _]%elem_of_replicate]; [|done].
  exists (File 1 (Some 7%nat) 0 1 0). split; [reflexivity|by vm_compute].
Qed.


(** Process 0 waits for process 1, which exits with status 3 meanwhile. *)
Definition wait_table : list proc :=
  [entry_of RUNNING 0 None root1; entry_of RUNNABLE 5 (Some 0%nat) root2].
Definition child_exits : prog (kst (bcache memdisk)) unit :=
  modify (λ s, put_procs (alter (set_state RUNNING) 0%nat (exit_table (initproc s) 1 (alter (set_ret 3) 1%nat (procs s)))) s).
Definition where_proc (i : nat) : Z := 0x2000 + 512 * Z.of_nat i.

Lemma wait_correct_witness :
  ∃ s', wait child_exits where_proc 3 0x1000 (machine (start free16) wait_table 0) = Ret 5 s' ∧
    mread (k_mem s') 0x1000 4 = [3; 0; 0; 0] ∧ root2 ∈ root2 :: free16.
Proof.
  set (s0 := machine (start free16) wait_table 0). set (h := k_hart s0).
  set (s1 := woken h 0 (put_procs [set_chan (ChanProc 0) (entry_of RUNNING 0 None root1);
    set_ret 3 (entry_of ZOMBIE 5 (Some 0%nat) root2)] (asleep 0 (in_pt s0)))).
  assert (W : waits child_exits (λ q, bool_decide (p_parent q = Some 0%nat)) 0 1 s0 s1).
  { apply (waits_more child_exits _ 0 0 h (set_chan (ChanProc 0) (entry_of RUNNING 0 None root1)) s0
      (put_procs [set_chan (ChanProc 0) (entry_of RUNNING 0 None root1);
        set_ret 3 (entry_of ZOMBIE 5 (Some 0%nat) root2)] (asleep 0 (in_pt s0))));
      [apply machine_ready|reflexivity|vm_compute; reflexivity|reflexivity| | |reflexivity|reflexivity|].
    - unfold child_exits, modify. f_equal.
    - apply inside_procs. apply (inside_procs h), inside_in_pt; [apply machine_ready|reflexivity].
    - apply waits_done. vm_compute. eexists. reflexivity. }
  assert (Hfree : ∀ q, q ∈ root2 :: free16 → page_ok q).
  { intros q [->|Hq]%elem_of_cons; [by vm_compute|].
    exact (proj1 (Forall_forall _ _) (kinv_pages _ _ free16_inv) q Hq). }
  destruct (wait_correct child_exits where_proc 3 1 0 1 (entry_of RUNNING 0 None root1)
    (set_ret 3 (entry_of ZOMBIE 5 (Some 0%nat) root2)) 0x1000 free16 s0 s1) as (s' & E & _ & _ & _ & _ & _ & Hs).
  - reflexivity.
  - exact W.
  - lia.
  - apply left_ready, inside_procs, inside_procs, (inside_procs h), inside_in_pt; [apply machine_ready|reflexivity].
  - reflexivity.
  - vm_compute. reflexivity.
  - reflexivity.
  - reflexivity.
  - reflexivity.
  - eapply (kinv_hart _ s0); [by vm_compute|reflexivity|reflexivity|reflexivity|apply machine_inv, free16_inv].
  - apply Hfree. constructor.
  - exact (mm_disj _ _ _ _ (start_ok1 root2 (or_intror eq_refl)) [] root2 (lookup_singleton_eq _ _)).
  - split; [intros _ k _; done|]. intros _ a q Ha Hq Hin. destruct (Hfree q Hq) as [[Hk _] _].
    revert Hk Hin Ha. unfold in_page, where_proc. unfold_layout. lia.
  - exists s'. split; [exact E|]. split; [|constructor]. rewrite (Hs ltac:(lia)). reflexivity.
Defined.

Lemma kill_correct_witness :
  ∃ s', kill 0 9 (machine (start free16) (exiting_table 0 0) 1) = Ret 0 s' ∧ p_state <$> procs s' !! 0%nat = Some RUNNABLE.
Proof.
  destruct (kill_correct 0 9 (machine (start free16) (exiting_table 0 0) 1) (proj1 (machine_ready _ _ _))) as [K _].
  destruct (K 0%nat (set_chan (ChanProc 0) (entry_of SLEEPING 0 None root1))) as (s' & E & _ & P).
  - vm_compute. reflexivity.
  - reflexivity.
  - exists s'. split; [exact E|]. by rewrite P.
Defined.

End ProcProps.
