(* ===== verification/Fork.v ===== *)
(** * Fork (kernel/proc.c, cp_userspace of kernel/mm.c)

    A second process with an address space of its own that holds the same
    bytes, the same open files and the same registers but for the result. *)

From S2P Require Import Prelude Mem Bytes KString Spinlock Layout Kalloc PageTable Reclaim Buf Fs Ext2 Ext2Alloc Ext2File Uaccess File Proc ProcSpec ProcRun.
Import Spin.
Open Scope Z_scope.
Open Scope prog_scope.

(** ** The copy of a whole address space *)

Section spaces.
Implicit Types (s : kmem) (m : mem) (va p q root : Z) (T : tree) (fl ps qs : list Z).

Lemma vdist_step va0 va : 0 <= va → vdist va0 va + 1 < NPAGE → vdist va0 (va +u64 PAGESIZE) = vdist va0 va + 1.
Proof.
  intros Hva. unfold vdist. rewrite vpage_next by done. pose proof (vpage_bound va0). pose proof (vpage_bound va).
  unfold NPAGE in *. intros. zlia.
Qed.

(** Pages that the entries from [va0] on lead to. *)
Lemma mapped_leaves m T va0 ps0 attr : ∀ ps va (k : nat),
  0 <= va0 → 0 <= va → vdist va0 va = k → drop k ps0 = ps → (k + length ps <= length ps0)%nat → length ps0 < NPAGE →
  PTE_PA attr = 0 → Forall page_ok ps0 →
  (∀ va', 0 <= va' → vdist va0 va' < length ps0 → leaf m T va' = mapped_leaf ps0 attr va0 va' 0) → mapped m T va ps.
Proof.
  intros ps. induction ps as [|p ps IH]; intros va k H0 Hva Hd Hps Hlen Hn Ha Hpok Hl; [done|].
  assert (Hk : ps0 !! k = Some p) by (rewrite <- (Nat.add_0_r k), <- lookup_drop, Hps; done).
  cbn [mapped length] in *.
  assert (Hv : leaf m T va = leaf_pte (V2P p) attr).
  { rewrite Hl by (done || lia). unfold mapped_leaf. by rewrite Hd, Nat2Z.id, Hk. }
  rewrite Hv. split_and!; [apply leaf_pte_nonzero| |].
  - apply leaf_pte_page; [|done]. by eapply (Forall_lookup_1 page_ok).
  - destruct ps as [|p' ps]; [done|]. apply (IH _ (S k)); try done.
    + apply u64_bound.
    + rewrite vdist_step by (cbn [length] in *; lia). lia.
    + rewrite <- Nat.add_1_r, <- drop_drop, Hps. done.
    + cbn [length] in *. lia.
Qed.

(** A cleared page is a table without entries. *)
Lemma empty_table m g : page_ok g → (∀ a, in_page g a → rd8 m a = 0) → pt_ok m g {[ [] := g ]}.
Proof.
  intros Hg Hz. split.
  - apply lookup_singleton_eq.
  - intros π p [<- <-]%lookup_singleton_Some. split; [done|]. simpl. lia.
  - by intros π π' p [<- <-]%lookup_singleton_Some [<- _]%lookup_singleton_Some.
  - intros π i q [E _]%lookup_singleton_Some. by destruct π.
  - intros π p i [<- <-]%lookup_singleton_Some _ Hi. rewrite lookup_singleton_ne by done.
    rewrite ld_zero; [done|]. intros a Ha. apply Hz. by eapply slot_in_page.
Qed.

(** A stack page and the pages below it: no two of their addresses meet. *)
Lemma stack_apart n va : 0 <= n → n <= vdist 0x1000 USTACKBOTTOM → vdist USTACKBOTTOM va = 0 → ¬ vdist 0x1000 va < n.
Proof.
  intros Hn Hf H. assert (E : vpage va = vpage USTACKBOTTOM) by (by apply vdist_0).
  unfold vdist in *. rewrite E. lia.
Qed.

Lemma same_page_trans m3 m2 m1 root T T' fl (s2 : kmem) p q :
  mm_ok root T fl s2 → m2 = km_mem s2 → mm_ext T T' fl m2 m3 → user_page T fl p → same_page m2 m1 p q → same_page m3 m1 p q.
Proof.
  intros M -> X U B i Hi. rewrite (user_page_rest root T T' fl s2 m3 p (p + i) M X U) by (by apply page_byte). by apply B.
Qed.

Lemma cp_space rnew rold size qs q To fl s :
  two_ok rnew rold {[ [] := rnew ]} To fl s → (∀ va, leaf (km_mem s) {[ [] := rnew ]} va = 0) →
  space rold To fl qs q (km_mem s) → Forall (user_page {[ [] := rnew ]} fl) (q :: qs) →
  page_turns 0 size = length qs → (3 * (length qs + 1) <= length fl)%nat →
  ∃ ps p Tn' fl' s', cp_userspace rnew rold 0x1000 size s = Ret 0 s' ∧ two_ok rnew rold Tn' To fl' s' ∧
    mm_ext {[ [] := rnew ]} Tn' fl (km_mem s) (km_mem s') ∧ suffix fl' fl ∧
    space rnew Tn' fl' ps p (km_mem s') ∧ Forall (λ x, x ∈ fl) (p :: ps) ∧
    Forall2 (same_page (km_mem s') (km_mem s)) (p :: ps) (q :: qs) ∧
    ∀ va, leaf (km_mem s') To va = leaf (km_mem s) To va.
Proof.
  intros W Hz [Hmp Hst Hus Hnd Hfit Honly] Hun Hsz Hf. pose proof Hst as [Hl [Hq _]].
  assert (Hn : length qs < NPAGE) by (pose proof (vdist_bound 0x1000 USTACKBOTTOM); lia).
  assert (Hold : Forall (old_page {[ [] := rnew ]} To fl) (q :: qs)).
  { apply Forall_forall. intros x Hx. split; by eapply Forall_forall. }
  apply Forall_cons in Hold as [Hq0 Hold].
  destruct (cp_loop_spec rnew rold qs 0x1000 {[ [] := rnew ]} To fl s W ltac:(lia) Hn ltac:(lia) eq_refl Hmp Hold)
    as (ps & T1 & fl1 & s1 & E1 & W1 & X1 & S1 & N1 & D1 & U1 & B1 & Lo1 & L1); [intros; by rewrite Hz|].
  destruct fl1 as [|p fl1]; [simpl in N1; lia|]. simpl in N1. pose proof (Forall2_length _ _ _ B1) as Hlen.
  assert (Hun1 : leaf (km_mem s1) T1 USTACKBOTTOM = 0).
  { rewrite L1, Hz by done. unfold mapped_leaf. by rewrite lookup_ge_None_2 by lia. }
  destruct (cp_page_spec rnew rold USTACKBOTTOM q PTE_USER_XN T1 To fl1 p s1 W1 ltac:(lia))
    as (T2 & fl2 & s2 & E2 & W2 & X2 & S2 & N2 & U2 & B2 & Lo2 & L2);
    [done|done|done|by rewrite Lo1|by rewrite Lo1|by eapply old_page_next|by rewrite Hun1|].
  assert (S2' : suffix fl2 (p :: fl1)) by by apply suffix_cons_r.
  assert (Hups : Forall (user_page T2 fl2) (p :: ps)).
  { constructor; [done|]. eapply Forall_impl; [exact U1|]. intros x [_ Hx]. by eapply user_page_ext. }
  assert (Hleaf : ∀ va, 0 <= va → leaf (km_mem s2) T2 va =
    if decide (vpage va = vpage USTACKBOTTOM) then leaf_pte (V2P p) PTE_USER_XN else mapped_leaf ps PTE_USER 0x1000 va 0).
  { intros va Hva. rewrite L2, L1, Hz by done. done. }
  exists ps, p, T2, fl2, s2. split_and!; [|done| | | | | |].
  - unfold cp_userspace. rewrite Hsz, (pbind_ok _ _ _ _ _ E1). cbn [negb]. by rewrite (pbind_ok _ _ _ _ _ E2).
  - by eapply mm_ext_trans.
  - by etrans.
  - split; [| |done| |by rewrite Hlen|].
    + apply (mapped_leaves (km_mem s2) T2 0x1000 ps PTE_USER ps 0x1000 0); try done; try lia.
      { apply Forall_cons in Hups as [_ Hu]. eapply Forall_impl; [exact Hu|]. by intros x []. }
      intros va Hva Hd. rewrite Hleaf, decide_False; [done| |done]. rewrite <- vdist_0.
      intros H. revert Hd. apply (stack_apart (length ps)); [lia|lia|done].
    + cbn [mapped]. rewrite Hleaf, decide_True by done. split_and!; [apply leaf_pte_nonzero|apply leaf_pte_page; [apply U2|done]|done].
    + constructor; [|done]. intros Hin. eapply Forall_forall in U1 as [_ (_ & Hni & _)]; [|exact Hin]. apply Hni. constructor.
    + intros va Hva H1 H2. rewrite (hw_walk_leaf _ rnew T2) by apply W2. rewrite Hleaf, decide_False by (by rewrite <- ?vdist_0).
      unfold mapped_leaf. rewrite lookup_ge_None_2; [done|]. pose proof (vdist_bound 0x1000 va). lia.
  - constructor; [|eapply Forall_impl; [exact U1|]; by intros x []]. eapply suffix_in; [exact S1|constructor].
  - constructor.
    + intros k Hk. rewrite B2 by done. eapply user_page_rest; [apply W|exact X1|apply Hq0|by apply page_byte].
    + apply Forall2_same_length_lookup_2; [done|]. intros k x y Hx Hy.
      eapply (same_page_trans (km_mem s2) (km_mem s1) (km_mem s) rnew T1 T2 (p :: fl1) s1 x y); [apply W1|done|done| |].
      * by eapply (Forall_lookup_1 _ _ _ _ U1 Hx).
      * by eapply Forall2_lookup_lr.
  - intros va. by rewrite Lo2, Lo1.
Qed.
End spaces.

(** ** The descriptors of the child *)

(** The table has room for one more reference from each of these descriptors. *)
Definition addable (o : list (option nat)) (t : list file) : Prop :=
  ∀ f, Some f ∈ o → ∃ x, t !! f = Some x ∧ 0 <= f_ref x ∧ f_ref x + n_refs o f < 2 ^ 31.

Section sharing.
Implicit Types (o : list (option nat)) (t : list file) (x : file) (f : nat).

Lemma counted_addable o t : (length o <= NOFILE)%nat → counted o t → addable o t.
Proof.
  intros Hl Hc f Hf. destruct (Hc f Hf) as (x & Hx & Hb). exists x. pose proof (n_refs_le o f). unfold NOFILE in *.
  split_and!; [done|lia|lia].
Qed.

Lemma shared_nil t : shared [] t = t.
Proof.
  apply list_eq. intros i. unfold shared. rewrite list_lookup_imap. destruct (t !! i) as [x|]; [|done]. cbn. f_equal.
  destruct x. unfold more, set_fref, n_refs. cbn. f_equal. lia.
Qed.

Lemma shared_none o t : shared (None :: o) t = shared o t.
Proof. apply list_eq. intros i. unfold shared. by rewrite !list_lookup_imap, n_refs_cons, decide_False. Qed.

Lemma more_more n x : more n (set_fref (f_ref x + 1) x) = more (S n) x.
Proof. unfold more, set_fref. cbn. f_equal. lia. Qed.

Lemma shared_some f x o t : t !! f = Some x →
  shared o (<[f := set_fref (f_ref x + 1) x]> t) = shared (Some f :: o) t.
Proof.
  intros Hf. assert (Hlt : (f < length t)%nat) by (by eapply lookup_lt_Some).
  apply list_eq. intros i. unfold shared. rewrite !list_lookup_imap, n_refs_cons, list_lookup_insert.
  destruct (decide (f = i)) as [->|Hne].
  - rewrite !decide_True by done. rewrite Hf. cbn. f_equal. apply more_more.
  - rewrite (decide_False (P := f = i ∧ _)) by (by intros [? _]).
    by rewrite (decide_False (P := Some f = Some i)) by (by intros [=]).
Qed.

Lemma addable_none o t : addable (None :: o) t → addable o t.
Proof.
  intros H f Hf. destruct (H f) as (x & Hx & H0 & Hb); [by constructor|]. exists x. rewrite n_refs_cons in Hb.
  split_and!; [done|done|]. destruct (decide (None = Some f)); simpl in *; lia.
Qed.

Lemma addable_some f x o t : addable (Some f :: o) t → t !! f = Some x →
  (0 <= f_ref x < 2 ^ 31 - 1) ∧ addable o (<[f := set_fref (f_ref x + 1) x]> t).
Proof.
  intros H Hf. assert (Hlt : (f < length t)%nat) by (by eapply lookup_lt_Some).
  assert (Hx : 0 <= f_ref x ∧ f_ref x + S (n_refs o f) < 2 ^ 31).
  { destruct (H f) as (y & Hy & H0 & Hb); [constructor|]. rewrite n_refs_cons, decide_True in Hb by done.
    rewrite Hf in Hy. injection Hy as <-. lia. }
  split; [lia|]. intros g Hg. destruct (decide (f = g)) as [->|Hne].
  - exists (set_fref (f_ref x + 1) x). rewrite list_lookup_insert_eq by done. cbn. split_and!; [done|lia|lia].
  - destruct (H g) as (y & Hy & H0 & Hb); [by constructor|]. exists y. rewrite list_lookup_insert_ne by done.
    rewrite n_refs_cons in Hb. split_and!; [done|done|]. destruct (decide (Some f = Some g)); simpl in *; lia.
Qed.
End sharing.

Section dup.
Context {C : Type} {Hc : BlockCache C} {Hok : BlockCacheOk C}.
Implicit Types (s : kst C) (h : hart) (t : list file) (x y : proc) (i j fd : nat) (o : list (option nat)).

(** Only the hart and the file table have changed. *)
Definition refiled h t s : kst C :=
  Kst (set_chart h (k_fs s)) (k_ftlk s) t (k_klk s) (k_freelist s) (ptlk s) (procs s) (pidlk s)
    (nextpid s) (k_cur s) (k_mmu s) (initproc s) (firstcall s) (k_mapped s).

Lemma refiled_ready h t s : ready s → hart_ok h → ready (refiled h t s).
Proof. intros [? ? ? ?] Hh. split; [|done..]. unfold k_hart, refiled. cbn. by rewrite (lget_lset (l := chart)). Qed.

Lemma refiled_same s : refiled (k_hart s) (k_ftable s) s = s.
Proof. destruct s as [[c ? ? ? ?]]. unfold refiled, set_chart, k_hart. cbn. by rewrite (lset_lget (l := chart)). Qed.


Lemma dup_one i f x z s :
  ready s → procs s !! i = Some x → k_ftable s !! f = Some z → 0 <= f_ref z < 2 ^ 31 - 1 →
  zoom (of_files i) (dup_file f) s = Ret f (refiled (touched (k_hart s)) (<[f := set_fref (f_ref z + 1) z]> (k_ftable s)) s).
Proof.
  intros R Hi Hf Hr. pose proof (dup_file_run f z (lget (of_files i) s)) as E. rewrite (of_files_get i x s Hi) in E.
  specialize (E (rd_hart _ R) (rd_ftlk _ R) Hf ltac:(lia)).
  rewrite (zoom_ok (of_files i) _ s _ _ ltac:(rewrite (of_files_get i x s Hi); exact E)), (of_files_set i x s _ Hi).
  f_equal. unfold refiled, with_ft, hart_of_fl. pose proof (rd_ftlk _ R) as Hl. unfold free_lock in Hl. cbn. rewrite Hl.
  replace (set_files (p_cwd x) (p_ofile x) (p_handler x) x) with x by (by destruct x). by rewrite (list_insert_id _ _ _ Hi).
Qed.

Lemma dup_files_run cnt : ∀ fd i j x y s,
  ready s → i ≠ j → procs s !! i = Some x → procs s !! j = Some y → (fd + cnt = NOFILE)%nat →
  length (p_ofile x) = NOFILE → length (p_ofile y) = NOFILE → drop fd (p_ofile y) = replicate cnt None →
  addable (drop fd (p_ofile x)) (k_ftable s) →
  ∃ h, hart_ok h ∧ dup_files cnt fd i j s =
    Ret tt (put_procs (<[j := with_fds (take fd (p_ofile y) ++ drop fd (p_ofile x)) y]> (procs s))
             (refiled h (shared (drop fd (p_ofile x)) (k_ftable s)) s)).
Proof.
  induction cnt as [|cnt IH]; intros fd i j x y s R Hij Hi Hj Hcnt Hlx Hly Hy Had.
  - exists (k_hart s). split; [apply R|]. rewrite !drop_ge by lia. rewrite shared_nil, app_nil_r, take_ge by lia. rewrite refiled_same.
    replace (with_fds (p_ofile y) y) with y by (by destruct y). rewrite (list_insert_id _ _ _ Hj). by destruct s.
  - destruct (p_ofile x !! fd) as [e|] eqn:Ee; [|apply lookup_ge_None in Ee; unfold NOFILE in *; lia].
    rewrite (drop_S _ _ _ Ee) in *. cbn [dup_files]. rewrite (pbind_ok _ _ _ _ _ (proc_at_run i x s Hi)), Ee. cbn [default].
    assert (Hfy : p_ofile y !! fd = Some None).
    { rewrite <- (Nat.add_0_r fd), <- lookup_drop, Hy. done. }
    assert (Hdy : drop (S fd) (p_ofile y) = replicate cnt None) by (rewrite <- Nat.add_1_r, <- drop_drop, Hy; done).
    destruct e as [f|].
    + destruct (Had f) as (z & Hz & _); [constructor|]. destruct (addable_some f z _ _ Had Hz) as [Hr Had'].
      unfold id. cbn [default]. rewrite pbind_assoc, (pbind_ok _ _ _ _ _ (dup_one i f x z s R Hi Hz Hr)).
      set (s1 := refiled _ _ s). rewrite (pbind_ok _ _ _ _ _ (upd_proc_run j _ y s1 Hj)).
      set (y1 := set_files (p_cwd y) (<[fd:=Some f]> (p_ofile y)) (p_handler y) y).
      set (s2 := put_procs (<[j := y1]> (procs s1)) s1).
      assert (Hlj : (j < length (procs s))%nat) by (by eapply lookup_lt_Some).
      destruct (IH (S fd) i j x y1 s2) as (h & Hh & E); try done.
      * apply ready_procs, refiled_ready; [done|apply touched_ok, R].
      * cbn. by rewrite list_lookup_insert_ne.
      * cbn. by apply list_lookup_insert_eq.
      * lia.
      * cbn. by rewrite length_insert.
      * cbn. rewrite drop_insert_lt by lia. done.
      * exists h. split; [done|]. rewrite E. f_equal. cbn [s2 procs put_procs k_ftable s1 refiled y1 set_files p_ofile].
        rewrite list_insert_insert_eq, (shared_some f z _ _ Hz).
        replace (take (S fd) (<[fd := Some f]> (p_ofile y)) ++ drop (S fd) (p_ofile x)) with (take fd (p_ofile y) ++ Some f :: drop (S fd) (p_ofile x)).
        -- unfold refiled, put_procs, set_chart. cbn. by rewrite (lset_lset (l := chart)).
        -- rewrite (take_S_r _ _ (Some f)) by (apply list_lookup_insert_eq; unfold NOFILE in *; lia).
           rewrite take_insert_ge by lia. by rewrite <- app_assoc.
    + unfold id. cbn [default]. prog_step. destruct (IH (S fd) i j x y s) as (h & Hh & E); try done; [lia|by apply addable_none|].
      exists h. split; [done|]. rewrite E, shared_none. do 4 f_equal. rewrite (take_S_r _ _ None Hfy). by rewrite <- app_assoc.
Qed.
End dup.

(** ** Fork *)

Section space_kept.
Implicit Types (m : mem) (root q : Z) (T : tree) (fl qs : list Z).

(** An address space whose tables are untouched, with fewer free pages. *)
Lemma space_ext root T fl fl' qs q m m' :
  pt_ok m root T → (∀ a, in_tree T a → rd8 m' a = rd8 m a) →
  (∀ x, user_page T fl x → x ∈ q :: qs → user_page T fl' x) →
  space root T fl qs q m → space root T fl' qs q m'.
Proof.
  intros Hok Hm Hfl [Hmp Hst Hus Hnd Hfit Honly].
  assert (Hl : ∀ va, leaf m' T va = leaf m T va) by (intros; by apply leaf_ext).
  split; try done.
  - eapply (mapped_ext m); [done|intros; apply Hl| |done]. pose proof (vdist_bound 0x1000 USTACKBOTTOM). lia.
  - eapply (mapped_ext m); [done|intros; apply Hl|by vm_compute|done].
  - apply Forall_forall. intros x Hx. apply Hfl; [|done]. by eapply Forall_forall in Hus.
  - intros va H0 H1 H2. rewrite (hw_walk_leaf m' root T va) by (by eapply pt_ok_ext).
    rewrite Hl, <- (hw_walk_leaf m root T va) by done. by apply Honly.
Qed.

(** Pages that were not free are the same after [newproc], [cp_userspace] and
    the writes to the child's kernel stack. *)
Lemma kept_through kp g fl Tn (km1 : kmem) (m0 m2 m3 : mem) :
  mm_ok g {[ [] := g ]} fl km1 → mm_ext {[ [] := g ]} Tn fl (km_mem km1) m2 → page_ok kp → page_ok g →
  (∀ a, (∀ z, z ∈ [kp; g] → ¬ in_page z a) → rd8 (km_mem km1) a = rd8 m0 a) →
  (∀ a, ¬ in_page kp a → rd8 m3 a = rd8 m2 a) →
  ∀ y a, page_ok y → ¬ (y ∈ kp :: g :: fl) → in_page y a → rd8 m3 a = rd8 m0 a.
Proof.
  intros M X2 Hkp Hg K1 T3 y a Hy Hny Ha. rewrite !not_elem_of_cons in Hny. destruct Hny as (Y1 & Y2 & Y3).
  rewrite T3 by (intros Hb; apply Y1; by apply (page_disjoint y kp a)).
  transitivity (rd8 (km_mem km1) a).
  - apply (user_page_rest g {[ [] := g ]} Tn fl km1 _ y a); [done|exact X2| |done].
    split_and!; [done|done|]. by intros π [_ <-]%lookup_singleton_Some.
  - apply K1. intros z [->|[->|[]%elem_of_nil]%elem_of_cons]%elem_of_cons Hb; [apply Y1|apply Y2]; by apply (page_disjoint y _ a).
Qed.

(** The child's pages hold in the end what the parent's held at first. *)
Lemma copied_through kp g fl (ps qs : list Z) (m0 m1 m2 m3 : mem) :
  page_ok kp → page_ok g → NoDup (kp :: g :: fl) → Forall page_ok ps → Forall (λ y, y ∈ fl) ps →
  Forall (λ z, page_ok z ∧ ¬ (z ∈ kp :: g :: fl)) qs →
  (∀ a, (∀ z, z ∈ [kp; g] → ¬ in_page z a) → rd8 m1 a = rd8 m0 a) →
  (∀ a, ¬ in_page kp a → rd8 m3 a = rd8 m2 a) →
  Forall2 (same_page m2 m1) ps qs → Forall2 (same_page m3 m0) ps qs.
Proof.
  intros Hkp Hg Hnd Hps Hin Hqs K1 T3 Hsame. apply NoDup_cons in Hnd as [Hn1 _].
  apply Forall2_same_length_lookup_2; [by eapply Forall2_length|]. intros k y z Hy Hz b Hb.
  pose proof (Forall_lookup_1 _ _ _ _ Hps Hy) as Y1. pose proof (Forall_lookup_1 _ _ _ _ Hin Hy) as Hyf.
  pose proof (Forall_lookup_1 _ _ _ _ Hqs Hz) as [Z2 Z3]. cbn beta in *.
  assert (Hky : ¬ in_page kp (y + b)).
  { intros Hkb. apply Hn1. right. assert (kp = y) as ->; [|done]. apply (page_disjoint kp y (y + b)); try done. by apply page_byte. }
  rewrite (T3 _ Hky), (Forall2_lookup_lr _ _ _ _ _ _ Hsame Hy Hz b Hb).
  apply K1. intros w Hw Hwb. apply Z3. assert (w = z) as ->.
  { apply (page_disjoint w z (z + b)); try done; [|by apply page_byte].
    apply elem_of_cons in Hw as [->|[->|[]%elem_of_nil]%elem_of_cons]; done. }
  rewrite !elem_of_cons in *. rewrite elem_of_nil in Hw. tauto.
Qed.
(** The parent's trap frame, as it is when the child's is copied from it. *)
Lemma frame_kept kp g fl To ks tf d (m0 m2 m3 : mem) :
  user_page To (kp :: g :: fl) ks → tf = ks + PAGESIZE - SIZEOF_TRAPFRAME → 8 <= d < SIZEOF_TRAPFRAME → page_ok kp →
  (∀ a, ¬ in_page kp a → rd8 m3 a = rd8 m2 a) →
  (∀ y a, page_ok y → ¬ (y ∈ kp :: g :: fl) → in_page y a → rd8 m3 a = rd8 m0 a) → rd8 m2 (tf + d) = rd8 m0 (tf + d).
Proof.
  intros (K1 & K2 & K3) -> Hd Hkp T3 Hkeep. set (a := ks + PAGESIZE - SIZEOF_TRAPFRAME + d).
  assert (Ha : in_page ks a) by (unfold a, in_page, SIZEOF_TRAPFRAME, PAGESIZE in *; lia).
  etransitivity; [|by apply (Hkeep ks)]. symmetry. apply T3. intros Hb. apply K2.
  assert (ks = kp) as ->; [|constructor]. by apply (page_disjoint _ _ a).
Qed.

(** The child's kernel stack belongs to neither address space. *)
Lemma stack_pages kp g rold fl fl' To Tn (s : kmem) m1 m2 :
  mm_ok rold To (kp :: g :: fl) s → mm_ext {[ [] := g ]} Tn fl m1 m2 → suffix fl' fl → page_ok kp → kp ≠ g →
  user_page Tn fl' kp ∧ user_page To fl' kp.
Proof.
  intros M X2 S2 Hkp Hkg. pose proof (kinv_nodup _ _ (mm_alloc _ _ _ _ M)) as Hnd. apply NoDup_cons in Hnd as [Hn1 _].
  rewrite not_elem_of_cons in Hn1. destruct Hn1 as [_ Hn1]. assert (Hf : ¬ (kp ∈ fl')) by (intros Hf; by eapply Hn1, suffix_in).
  split; (split_and!; [done|done|]).
  - intros π [[_ E]%lookup_singleton_Some|Hin]%(ext_from _ _ _ _ _ X2); [by subst|done].
  - intros π Hπ. apply (mm_disj _ _ _ _ M _ _ Hπ). constructor.
Qed.

End space_kept.

Section forking.
Context {C : Type} {Hc : BlockCache C} {Hok : BlockCacheOk C}.
Context (forkret : Z) (proc_addr : nat → Z).
Implicit Types (s : kst C) (x : proc) (i j : nat) (kp g q : Z) (fl qs : list Z) (To : tree).

(** Process [i], which runs, can fork into slot [j] with the free pages [kp]
    and [g] for a kernel stack and a root table. *)
Record forkable s i j x kp g fl To qs q : Prop := {
  fk_ready : ready s;
  fk_cur : k_cur s = Some i;
  fk_proc : procs s !! i = Some x;
  fk_running : p_state x = RUNNING;
  fk_slot : first_proc (λ p, p_state p = UNUSED) (procs s) = Some j;
  fk_unused : procs s !! j = Some proc_zero;
  fk_pid : 0 <= nextpid s < 2 ^ 31 - 1;
  fk_files : length (p_ofile x) = NOFILE;
  fk_counted : counted (p_ofile x) (k_ftable s);
  fk_mm : mm_ok (p_pgt x) To (kp :: g :: fl) (lget of_kmem s);
  fk_space : space (p_pgt x) To (kp :: g :: fl) qs q (k_mem s);
  fk_size : page_turns 0 (p_size x) = length qs;
  fk_memory : (3 * (length qs + 1) <= length fl)%nat;
  fk_stack : user_page To (kp :: g :: fl) (p_kstack x);
  fk_frame : p_tf x = p_kstack x + PAGESIZE - SIZEOF_TRAPFRAME
}.

(** The child's entry. *)
Definition child i j x (pid kp g : Z) : proc :=
  Proc RUNNABLE 0 pid (p_size x) NoChan (Context (proc_addr j) forkret (kp + PAGESIZE - SIZEOF_TRAPFRAME))
    (kp + PAGESIZE - SIZEOF_TRAPFRAME) (Some i) kp g (p_cwd x) (p_ofile x) (p_name x) 0 false 0.

(** After [newproc]: the two address spaces, the child's still empty. *)
Lemma fork_spaces s s1 i j x kp g fl To qs q :
  forkable s i j x kp g fl To qs q → ready s1 → kinv fl (lget of_kmem s1) → page_ok g →
  (∀ a, in_page kp a ∨ in_page g a → rd8 (k_mem s1) a = 0) → mem_kept s s1 [kp; g] →
  two_ok g (p_pgt x) {[ [] := g ]} To fl (lget of_kmem s1) ∧ space (p_pgt x) To fl qs q (k_mem s1) ∧
  Forall (user_page {[ [] := g ]} fl) (q :: qs).
Proof.
  intros F R1 I1 Hg Hz Hk. destruct F as [_ _ _ _ _ _ _ _ _ M Sp _ _ _ _].
  pose proof (kinv_nodup _ _ (mm_alloc _ _ _ _ M)) as Hnd. apply NoDup_cons in Hnd as [Hn1 [Hn2 Hnd]%NoDup_cons].
  assert (Hin : ∀ a, in_tree To a → rd8 (k_mem s1) a = rd8 (k_mem s) a).
  { intros a Ha. apply Hk. intros y Hy. eapply (in_tree_free To (kp :: g :: fl) y a); [by eapply mm_page|apply M|apply M| |done].
    rewrite !elem_of_cons in *. rewrite elem_of_nil in Hy. tauto. }
  assert (Hd : pt_disj To fl).
  { intros π y Hy Hf. eapply (mm_disj _ _ _ _ M); [exact Hy|]. by do 2 constructor. }
  assert (Hsub : ∀ y, user_page To (kp :: g :: fl) y → user_page To fl y).
  { intros y (Y1 & Y2 & Y3). split_and!; [done| |done]. intros Hf. apply Y2. by do 2 constructor. }
  split_and!.
  - split.
    + split; [done|by apply empty_table; [|intros a Ha; apply Hz; right]|]. by intros π y [<- <-]%lookup_singleton_Some.
    + by apply (mm_ok_mem (p_pgt x) To (kp :: g :: fl) fl (lget of_kmem s) (lget of_kmem s1)).
    + intros π π' y [<- <-]%lookup_singleton_Some Hy. apply (mm_disj _ _ _ _ M _ _ Hy). by do 2 constructor.
  - eapply space_ext; [apply M|exact Hin| |exact Sp]. intros y Hy _. by apply Hsub.
  - apply Forall_forall. intros y Hy. pose proof (proj1 (Forall_forall _ _) (sp_pages _ _ _ _ _ _ Sp) y Hy) as (Y1 & Y2 & Y3).
    split_and!; [done|intros Hf; apply Y2; by do 2 constructor|]. intros π [_ <-]%lookup_singleton_Some. apply Y2. constructor. constructor.
Qed.

(** Writing to a kernel stack disturbs neither space. *)
Lemma two_ok_stack rnew rold Tn To fl (km km' : kmem) kp :
  two_ok rnew rold Tn To fl km → hart_ok (km_hart km') → kallocator_lk km' = kallocator_lk km → freelist km' = freelist km →
  (∀ a, ¬ in_page kp a → rd8 (km_mem km') a = rd8 (km_mem km) a) → user_page Tn fl kp → user_page To fl kp →
  two_ok rnew rold Tn To fl km' ∧ (∀ a, in_tree Tn a ∨ in_tree To a → rd8 (km_mem km') a = rd8 (km_mem km) a).
Proof.
  intros [Mn Mo D] Hh El Ef Hm Un Uo.
  assert (I : kinv fl km').
  { destruct (mm_alloc _ _ _ _ Mn) as [_ I2 I3 I4 I5]. split; [done|by rewrite El| |done|done]. rewrite Ef.
    eapply chain_ext; [|exact I3]. intros y a Hy Ha. apply Hm. intros Hka.
    by apply (user_page_free rnew Tn fl km kp y a Mn Un Hy Hka). }
  assert (Hn : ∀ a, in_tree Tn a → rd8 (km_mem km') a = rd8 (km_mem km) a)
    by (intros a Ha; apply Hm; exact (user_page_tree _ _ _ _ _ _ Mn Un Ha)).
  assert (Ho : ∀ a, in_tree To a → rd8 (km_mem km') a = rd8 (km_mem km) a)
    by (intros a Ha; apply Hm; exact (user_page_tree _ _ _ _ _ _ Mo Uo Ha)).
  split; [|intros a [?|?]; auto]. split; [|by apply (mm_ok_mem rold To fl fl km km' Mo I (mm_disj _ _ _ _ Mo) Ho)|done].
  by apply (mm_ok_mem rnew Tn fl fl km km' Mn I (mm_disj _ _ _ _ Mn) Hn).
Qed.

(** A copy between kernel stacks. *)
Lemma tf_copy_run d a s : ∃ m, tf_copy d a s = Ret tt (put_mem m s) ∧
  ∀ b, rd8 m b = if decide (d <= b < d + SIZEOF_TRAPFRAME) then rd8 (k_mem s) (a + (b - d)) else rd8 (k_mem s) b.
Proof.
  destruct (memmove_run d a SIZEOF_TRAPFRAME (k_mem s) ltac:(done)) as (m & E & Hm). exists m. split; [|exact Hm].
  unfold tf_copy, memcpy. by rewrite (pbind_ok _ _ _ _ _ (zoom_ok of_kmemory _ s _ _ E)).
Qed.

(** From the copy of the address space on. *)
Lemma fork_finish i j x pid kp g s :
  ready s → i ≠ j → procs s !! i = Some x → procs s !! j = Some (fresh_proc forkret proc_addr j pid kp g) →
  length (p_ofile x) = NOFILE → counted (p_ofile x) (k_ftable s) →
  ∃ s' m, (
      upd_proc j (set_psize (p_size x)) ;;
      tf_copy (kp + PAGESIZE - SIZEOF_TRAPFRAME) (p_tf x) ;;
      tf_set (kp + PAGESIZE - SIZEOF_TRAPFRAME) TF_X0 0 ;;
      upd_proc j (λ y, set_files (p_cwd x) (p_ofile y) (p_handler y) y) ;;
      dup_files NOFILE 0 i j ;;
      upd_proc j (set_name (p_name x)) ;;
      lock_procs ;;
      upd_proc j (set_state RUNNABLE) ;;
      upd_proc j (set_parent (Some i)) ;;
      unlock_procs ;;
      y <- proc_at j ;;
      ret (p_pid y))%prog s = Ret pid s' ∧ ready s' ∧
    procs s' = <[j := child i j x pid kp g]> (procs s) ∧ k_ftable s' = shared (p_ofile x) (k_ftable s) ∧
    k_klk s' = k_klk s ∧ k_freelist s' = k_freelist s ∧ k_mem s' = m ∧ nextpid s' = nextpid s ∧ k_cur s' = k_cur s ∧
    let sp := kp + PAGESIZE - SIZEOF_TRAPFRAME in
    ld64 m sp = 0 ∧ (∀ d, 8 <= d < SIZEOF_TRAPFRAME → rd8 m (sp + d) = rd8 (k_mem s) (p_tf x + d)) ∧
    ∀ a, ¬ in_page kp a → rd8 m a = rd8 (k_mem s) a.
Proof.
  intros R Hij Hi Hj Hlen Hcn. assert (Hlt : (j < length (procs s))%nat) by (by eapply lookup_lt_Some).
  set (sp := kp + PAGESIZE - SIZEOF_TRAPFRAME). set (y0 := fresh_proc forkret proc_addr j pid kp g) in *.
  assert (Hup : ∀ p f s0, procs s0 = <[j := p]> (procs s) → upd_proc j f s0 = Ret tt (put_procs (<[j := f p]> (procs s)) s0)).
  { intros p f s0 E. rewrite (upd_proc_run j f p s0) by (rewrite E; by apply list_lookup_insert_eq).
    by rewrite E, list_insert_insert_eq. }
  assert (P0 : procs s = <[j := y0]> (procs s)) by (by rewrite list_insert_id).
  set (y1 := set_psize (p_size x) y0). set (s1' := put_procs (<[j := y1]> (procs s)) s).
  destruct (tf_copy_run sp (p_tf x) s1') as (m & E2 & Hm). set (s2 := put_mem m s1') in E2.
  set (m' := st64 m (sp + 8 * TF_X0) 0). set (s3 := put_mem m' s2).
  assert (E3 : tf_set sp TF_X0 0 s2 = Ret tt s3) by done.
  set (y2 := set_files (p_cwd x) (p_ofile y1) (p_handler y1) y1). set (s4 := put_procs (<[j := y2]> (procs s)) s3).
  assert (R4 : ready s4) by (apply ready_procs; by destruct R; split).
  destruct (dup_files_run NOFILE 0 i j x y2 s4 R4 Hij) as (h & Hh & E5);
    [cbn; by rewrite list_lookup_insert_ne|by apply list_lookup_insert_eq|done|done|done|done|by apply counted_addable; [rewrite drop_0; lia|]|].
  rewrite drop_0 in E5. cbn [take app] in E5. change (procs s4) with (<[j := y2]> (procs s)) in E5.
  rewrite list_insert_insert_eq in E5. set (y3 := with_fds (p_ofile x) y2) in E5. change (k_ftable s4) with (k_ftable s) in E5.
  set (s5 := put_procs _ _) in E5.
  assert (R5 : ready s5) by (by apply ready_procs, refiled_ready).
  set (y4 := set_name (p_name x) y3). set (s6 := put_procs (<[j := y4]> (procs s)) s5).
  assert (R6 : ready s6) by (by apply ready_procs).
  exists (put_procs (<[j := child i j x pid kp g]> (procs s)) (settle s6)), m'. cbv zeta.
  assert (Hin : ∀ b, ¬ in_page kp b → ¬ (sp <= b < sp + SIZEOF_TRAPFRAME)).
  { intros b Hb. unfold in_page, sp, SIZEOF_TRAPFRAME, PAGESIZE in *. lia. }
  split_and!; try done.
  - rewrite (pbind_ok _ _ _ _ _ (Hup y0 _ s P0)). fold y1 s1'. rewrite (pbind_ok _ _ _ _ _ E2), (pbind_ok _ _ _ _ _ E3).
    rewrite (pbind_ok _ _ _ _ _ (Hup y1 _ s3 eq_refl)). fold y2 s4. rewrite (pbind_ok _ _ _ _ _ E5).
    rewrite (pbind_ok _ _ _ _ _ (Hup y3 _ s5 eq_refl)). fold y4 s6.
    rewrite (pbind_ok _ _ _ _ _ (lock_procs_run s6 (rd_hart _ R6) (rd_ptlk _ R6))).
    rewrite (pbind_ok _ _ _ _ _ (Hup y4 _ (in_pt s6) eq_refl)).
    erewrite pbind_ok; [|by apply Hup]. rewrite put_procs_procs, (pbind_ok _ _ _ _ _ (unlock_table _ s6 (rd_hart _ R6))).
    change (set_parent (Some i) (set_state RUNNABLE y4)) with (child i j x pid kp g).
    erewrite pbind_ok; [|apply proc_at_run; by apply list_lookup_insert_eq]. done.
  - by apply ready_procs, settle_ready.
  - unfold m'. change (8 * TF_X0) with 0. rewrite Z.add_0_r. apply ld_st_eq.
  - intros d Hd. unfold m'. change (8 * TF_X0) with 0. rewrite Z.add_0_r, rd8_st_other by lia.
    rewrite Hm, decide_True by (unfold SIZEOF_TRAPFRAME in *; lia). f_equal. fold sp. lia.
  - intros a Ha. specialize (Hin a Ha). unfold m'. change (8 * TF_X0) with 0. rewrite Z.add_0_r.
    rewrite rd8_st_other by (unfold SIZEOF_TRAPFRAME in *; lia). rewrite Hm, decide_False by done. done.
Qed.
End forking.

Module ForkProps.

Section claims.
Context {C : Type} {Hc : BlockCache C} {Hok : BlockCacheOk C}.
Implicit Types (s : kst C) (x : proc) (i j : nat) (kp g q : Z) (fl qs : list Z) (To : tree).

(** C5: fork. With a slot and the memory for it, [fork] returns the number of
    the child to the parent. The child has an address space of its own, whose
    program and stack pages were free and hold the bytes of the parent's; the
    parent's registers, except that its call returns 0; the parent's descriptors,
    each file having as many references more; and it is RUNNABLE, its parent the
    caller. The parent's address space is as it was, and so is every other entry
    of the table; nothing is leaked: the two spaces are complete and disjoint. *)
Theorem fork_correct forkret proc_addr s i j x kp g fl To qs q :
  forkable s i j x kp g fl To qs q →
  ∃ s' ps p Tn fl', fork forkret proc_addr s = Ret (nextpid s) s' ∧ ready s' ∧
    procs s' = <[j := child forkret proc_addr i j x (nextpid s) kp g]> (procs s) ∧
    k_ftable s' = shared (p_ofile x) (k_ftable s) ∧
    two_ok g (p_pgt x) Tn To fl' (lget of_kmem s') ∧
    space g Tn fl' ps p (k_mem s') ∧ space (p_pgt x) To fl' qs q (k_mem s') ∧
    Forall (λ y, y ∈ fl) (p :: ps) ∧
    Forall2 (same_page (k_mem s') (k_mem s)) (p :: ps) (q :: qs) ∧
    Forall (λ y, same_page (k_mem s') (k_mem s) y y) (q :: qs) ∧
    ld64 (k_mem s') (kp + PAGESIZE - SIZEOF_TRAPFRAME) = 0 ∧
    (∀ d, 8 <= d < SIZEOF_TRAPFRAME →
       rd8 (k_mem s') (kp + PAGESIZE - SIZEOF_TRAPFRAME + d) = rd8 (k_mem s) (p_tf x + d)).
Proof.
  intros F. pose proof F as [R Hcur Hi Hrun Hslot Hun Hpid Hlen Hcn M Sp Hsz Hmem Hst Hfr].
  destruct (newproc_run forkret proc_addr j kp g fl s R (mm_alloc _ _ _ _ M) Hpid Hslot Hun)
    as (s1 & E1 & R1 & I1 & P1 & N1 & C1 & F1 & Hkp & Hg & Hkg & Z1 & K1).
  destruct (fork_spaces proc_addr s s1 i j x kp g fl To qs q F R1 I1 Hg Z1 K1) as (W1 & Sp1 & U1).
  destruct (cp_space g (p_pgt x) (p_size x) qs q To fl (lget of_kmem s1) W1) as
    (ps & p & Tn & fl' & km & E2 & W2 & X2 & S2 & Sn & Hin & Hsame & _);
    [intros va; unfold leaf; by rewrite lookup_singleton_ne|exact Sp1|exact U1|done|done|].
  pose proof (kinv_nodup _ _ (mm_alloc _ _ _ _ M)) as Hnd. apply NoDup_cons in Hnd as [Hn1 [Hn2 Hnd]%NoDup_cons].
  set (s2 := lset of_kmem km s1). assert (R2 : ready s2) by (apply ready_kmem, (Kalloc.kinv_hart _ _ (mm_alloc _ _ _ _ (two_new _ _ _ _ _ _ W2))); done).
  assert (Hlt : (j < length (procs s))%nat) by (by eapply lookup_lt_Some).
  assert (Hij : i ≠ j) by (intros ->; rewrite Hun in Hi; by injection Hi as <-).
  set (y0 := fresh_proc forkret proc_addr j (nextpid s) kp g) in *.
  assert (Hi2 : procs s2 !! i = Some x) by (change (procs s1 !! i = Some x); rewrite P1; by rewrite list_lookup_insert_ne).
  assert (Hj2 : procs s2 !! j = Some y0) by (change (procs s1 !! j = Some y0); rewrite P1; by apply list_lookup_insert_eq).
  destruct (fork_finish forkret proc_addr i j x (nextpid s) kp g s2 R2 Hij Hi2 Hj2 Hlen) as
    (s' & m & E3 & R3 & P3 & F3 & K3 & L3 & M3 & _ & _ & T1 & T2 & T3); [change (k_ftable s2) with (k_ftable s1); by rewrite F1|].
  change (k_mem s2) with (km_mem km) in T2, T3. change (procs s2) with (procs s1) in P3. change (k_ftable s2) with (k_ftable s1) in F3.
  exists s', ps, p, Tn, fl'.
  assert (Hst3 : ∀ a, ¬ in_page kp a → rd8 (k_mem s') a = rd8 (km_mem km) a) by (intros a Ha; rewrite M3; by apply T3).
  pose proof (kept_through kp g fl Tn _ (k_mem s) _ _ (two_new _ _ _ _ _ _ W1) X2 Hkp Hg K1 Hst3) as Hkeep.
  destruct (stack_pages kp g (p_pgt x) fl fl' To Tn _ _ _ M X2 S2 Hkp Hkg) as [Hkn Hko].
  destruct (two_ok_stack g (p_pgt x) Tn To fl' km (lget of_kmem s') kp W2) as [W3 Ht]; try done.
  { apply R3. }
  assert (Sp3 : space (p_pgt x) To fl' qs q (k_mem s')).
  { eapply (space_ext _ _ (kp :: g :: fl) fl' qs q (k_mem s)); [apply M| | |exact Sp].
    - intros a (π & y & Hy & Ha). apply (Hkeep y); [by eapply mm_page| |done]. by eapply (mm_disj _ _ _ _ M).
    - intros y (Y1 & Y2 & Y3) _. split_and!; [done| |done]. intros Hf. apply Y2. do 2 constructor. by eapply suffix_in. }
  split_and!; try done.
  - unfold fork. rewrite (pbind_ok _ _ _ _ _ (myproc_run i s Hcur)), (pbind_ok _ _ _ _ _ E1).
    rewrite (pbind_ok _ _ _ _ _ (proc_at_run i x s1 Hi2)), (pbind_ok _ _ _ _ _ (proc_at_run j y0 s1 Hj2)).
    rewrite (pbind_ok _ _ _ _ _ (zoom_ok of_kmem _ s1 _ _ E2)). exact E3.
  - rewrite P3, P1, list_insert_insert_eq. done.
  - by rewrite F3, F1.
  - eapply (space_ext g Tn fl' fl' ps p (km_mem km)); [apply W2| |done|done]. intros a Ha. apply Ht. by left.
  - apply (copied_through kp g fl _ _ _ (k_mem s1) (km_mem km)); try done; [by apply (mm_alloc _ _ _ _ M)| |].
    + eapply Forall_impl; [exact (sp_pages _ _ _ _ _ _ Sn)|by intros ? []].
    + eapply Forall_impl; [exact (sp_pages _ _ _ _ _ _ Sp)|by intros ? (? & ? & _)].
  - apply Forall_forall. intros y Hy b Hb. pose proof (proj1 (Forall_forall _ _) (sp_pages _ _ _ _ _ _ Sp) y Hy) as (Y1 & Y2 & _).
    apply (Hkeep y); [done|done|by apply page_byte].
  - by rewrite M3.
  - intros d Hd. rewrite M3, T2 by done. by apply (frame_kept kp g fl To (p_kstack x) _ d _ (km_mem km) (k_mem s')).
Qed.
End claims.

(** *** Witness *)

(** A process with one open file, and a free slot. *)
Definition forking_proc : proc :=
  with_fds (<[0%nat := Some 0%nat]> (replicate NOFILE None)) (set_pgt root2 (set_psize 0x800 (entry_of RUNNING 5 None root1))).

Lemma fork_correct_witness :
  ∃ km, let s := machine km [forking_proc; proc_zero] 0 in
    ∃ s', fork 0x40 (λ i, 0x2000 + 512 * Z.of_nat i) s = Ret 7 s' ∧
      p_state <$> procs s' !! 1%nat = Some RUNNABLE ∧ p_parent <$> procs s' !! 1%nat = Some (Some 0%nat).
Proof.
  destruct two_space_beside as (To & fl & km & q & r & M & Sp & H8 & Hu).
  destruct fl as [|kp [|g fl]]; [simpl in H8; lia..|]. exists km. cbv zeta.
  destruct (fork_correct 0x40 (λ i, 0x2000 + 512 * Z.of_nat i) (machine km [forking_proc; proc_zero] 0) 0 1 forking_proc
    kp g fl To [q] r) as (s' & ps & p & Tn & fl' & E & _ & P & _).
  - split.
    + exact (proj1 (machine_ready _ _ _)).
    + reflexivity.
    + reflexivity.
    + reflexivity.
    + vm_compute. reflexivity.
    + reflexivity.
    + cbn. lia.
    + reflexivity.
    + exact ProcProps.exiting_counted.
    + exact (machine_mm _ _ _ _ _ _ M).
    + exact Sp.
    + vm_compute. reflexivity.
    + simpl in *. lia.
    + exact Hu.
    + reflexivity.
  - exists s'. split; [exact E|]. rewrite P. split; reflexivity.
Defined.

End ForkProps.
