(* ===== verification/FirstProc.v ===== *)
(** * The first process (userproc_init of kernel/proc.c, init_userspace of kernel/mm.c)

    The program embedded in the kernel image gets a process of its own: a page
    with its bytes at 0x1000, a stack page, and a trap frame that enters it. *)

From S2P Require Import Prelude Mem Bytes KString Spinlock Layout Kalloc PageTable Reclaim Buf Fs Ext2 Ext2Alloc Ext2File Uaccess File Proc ProcSpec ProcRun Fork.
Import Spin.
Open Scope Z_scope.
Open Scope prog_scope.

Section first_space.
Implicit Types (s : kmem) (m : mem) (va p q g u w code size : Z) (T : tree) (fl : list Z).

Lemma one_turn size : 0 < size <= PAGESIZE → page_turns 0 size = 1%nat.
Proof. unfold page_turns, PAGESIZE. intros. replace ((size - 0 + (4096 - 1)) / 4096) with 1; [done|zlia]. Qed.

Lemma init_page size code u T fl g s :
  mm_ok g T (u :: fl) s → (2 <= length fl)%nat → 0 < size <= PAGESIZE →
  Z.land (leaf (km_mem s) T 0x1000) PTE_AF = 0 →
  (∀ a, code <= a < code + size → ¬ in_page u a) →
  ∃ T' fl' s', init_userspace g 0x1000 code size s = Ret tt s' ∧ mm_ok g T' fl' s' ∧
    mm_ext T T' (u :: fl) (km_mem s) (km_mem s') ∧ suffix fl' fl ∧ (length fl <= length fl' + 2)%nat ∧ user_page T' fl' u ∧
    (∀ k, 0 <= k < PAGESIZE → rd8 (km_mem s') (u + k) = if decide (k < size) then rd8 (km_mem s) (code + k) else 0) ∧
    ∀ va, 0 <= va → leaf (km_mem s') T' va =
      if decide (vpage va = vpage 0x1000) then leaf_pte (V2P u) PTE_USER else leaf (km_mem s) T va.
Proof.
  intros M Hf Hsz Haf Hcode.
  destruct (map_fresh g 0x1000 PTE_USER T fl u s M Hf) as (s1 & K & Hu0 & Hu & R1 & P); [done|done|by vm_compute|done|].
  destruct (memmove_run u code size (km_mem s1) ltac:(lia)) as (m2 & E2 & Hm2).
  destruct (P m2) as (T' & fl' & s3 & E3 & M3 & X3 & S3 & N3 & U3 & B3 & L3).
  { intros a Ha. rewrite Hm2, decide_False; [done|]. unfold in_page, PAGESIZE in *. lia. }
  exists T', fl', s3. split_and!; try done.
  - unfold init_userspace. rewrite one_turn by done. cbn [init_userspace_loop].
    rewrite (pbind_ok _ _ _ _ _ K), (proj2 (Z.eqb_neq _ _) Hu0). prog_step.
    rewrite (pbind_ok _ _ _ _ _ (zoom_ok kmem_mem _ s1 _ _ E2)). cbn [lset kmem_mem].
    by rewrite (pbind_ok _ _ _ _ _ E3).
  - intros k Hk. rewrite B3, Hm2 by (by apply page_byte). case_decide as H1; case_decide as H2; try lia.
    + rewrite R1, decide_False; [f_equal; lia|]. apply Hcode. lia.
    + rewrite R1, decide_True; [done|by apply page_byte].
Qed.

Lemma stack_page T fl w g s :
  mm_ok g T (w :: fl) s → (2 <= length fl)%nat → Z.land (leaf (km_mem s) T USTACKBOTTOM) PTE_AF = 0 →
  ∃ T' fl' s', map_ustack g s = Ret w s' ∧ mm_ok g T' fl' s' ∧
    mm_ext T T' (w :: fl) (km_mem s) (km_mem s') ∧ suffix fl' fl ∧ (length fl <= length fl' + 2)%nat ∧ user_page T' fl' w ∧
    (∀ a, in_page w a → rd8 (km_mem s') a = 0) ∧
    ∀ va, 0 <= va → leaf (km_mem s') T' va =
      if decide (vpage va = vpage USTACKBOTTOM) then leaf_pte (V2P w) PTE_USER_XN else leaf (km_mem s) T va.
Proof.
  intros M Hf Haf.
  destruct (map_fresh g USTACKBOTTOM PTE_USER_XN T fl w s M Hf) as (s1 & K & Hw0 & Hw & R1 & P); [done|done|by vm_compute|done|].
  destruct (P (km_mem s1)) as (T' & fl' & s3 & E3 & M3 & X3 & S3 & N3 & U3 & B3 & L3); [done|].
  exists T', fl', s3. split_and!; try done.
  - unfold map_ustack. rewrite (pbind_ok _ _ _ _ _ K), (proj2 (Z.eqb_neq _ _) Hw0).
    replace (KMem _ _ _ _) with s1 in E3 by by destruct s1. by rewrite (pbind_ok _ _ _ _ _ E3).
  - intros a Ha. by rewrite B3, R1, decide_True.
Qed.

(** The address space of the first process. *)
Lemma first_space size code g fl s :
  mm_ok g {[ [] := g ]} fl s → (∀ va, leaf (km_mem s) {[ [] := g ]} va = 0) → (6 <= length fl)%nat → 0 < size <= PAGESIZE →
  (∀ a p, code <= a < code + size → p ∈ fl → ¬ in_page p a) →
  ∃ u w T fl' s1 s2, init_userspace g 0x1000 code size s = Ret tt s1 ∧ map_ustack g s1 = Ret w s2 ∧
    mm_ok g T fl' s2 ∧ space g T fl' [u] w (km_mem s2) ∧ mm_ext {[ [] := g ]} T fl (km_mem s) (km_mem s2) ∧
    suffix fl' fl ∧ u ∈ fl ∧ w ∈ fl ∧
    (∀ k, 0 <= k < PAGESIZE → rd8 (km_mem s2) (u + k) = if decide (k < size) then rd8 (km_mem s) (code + k) else 0) ∧
    (∀ a, in_page w a → rd8 (km_mem s2) a = 0) ∧
    hw_walk (km_mem s2) g 0x1000 = leaf_pte (V2P u) PTE_USER ∧
    hw_walk (km_mem s2) g USTACKBOTTOM = leaf_pte (V2P w) PTE_USER_XN.
Proof.
  intros M Hz Hl Hsz Hcode. destruct fl as [|u fl]; [simpl in Hl; lia|]. simpl in Hl.
  destruct (init_page size code u _ fl g s M ltac:(lia) Hsz) as (T1 & fl1 & s1 & E1 & M1 & X1 & S1 & N1 & U1 & B1 & L1);
    [by rewrite Hz|intros a Ha; apply Hcode; [done|constructor]|].
  destruct fl1 as [|w fl1]; [simpl in N1; lia|]. simpl in N1.
  destruct (stack_page T1 fl1 w g s1 M1 ltac:(lia)) as (T2 & fl2 & s2 & E2 & M2 & X2 & S2 & N2 & U2 & B2 & L2).
  { rewrite L1 by done. by rewrite Hz. }
  assert (S2' : suffix fl2 (w :: fl1)) by by apply suffix_cons_r.
  assert (U1' : user_page T2 fl2 u) by by eapply user_page_ext.
  assert (Huw : w ≠ u) by (intros ->; destruct U1 as (_ & Hn & _); apply Hn; constructor).
  assert (Hleaf : ∀ va, 0 <= va → leaf (km_mem s2) T2 va =
    if decide (vpage va = vpage USTACKBOTTOM) then leaf_pte (V2P w) PTE_USER_XN
    else if decide (vpage va = vpage 0x1000) then leaf_pte (V2P u) PTE_USER else 0).
  { intros va Hva. by rewrite L2, L1, Hz. }
  assert (Lu : leaf (km_mem s2) T2 0x1000 = leaf_pte (V2P u) PTE_USER) by by rewrite Hleaf.
  assert (Lw : leaf (km_mem s2) T2 USTACKBOTTOM = leaf_pte (V2P w) PTE_USER_XN) by by rewrite Hleaf.
  exists u, w, T2, fl2, s1, s2. split_and!; try done.
  - split; [| |by apply Forall_cons, conj, Forall_singleton| |by vm_compute|].
    + cbn [mapped]. rewrite Lu. split_and!; [apply leaf_pte_nonzero|by apply leaf_pte_page; [apply U1|]|done].
    + cbn [mapped]. rewrite Lw. split_and!; [apply leaf_pte_nonzero|by apply leaf_pte_page; [apply U2|]|done].
    + constructor; [by rewrite list_elem_of_singleton|apply NoDup_singleton].
    + intros va Hva H1 H2. rewrite (hw_walk_leaf _ g T2), Hleaf by (done || apply M2).
      rewrite vdist_0 in H2. rewrite !decide_False; [done| |done]. rewrite <- vdist_0. simpl in H1. lia.
  - eapply (mm_ext_trans _ _ _ _ (w :: fl1)); [by apply suffix_cons_r|exact X1|exact X2].
  - etrans; [exact S2'|]. by apply suffix_cons_r.
  - constructor.
  - constructor. eapply suffix_in; [exact S1|constructor].
  - intros k Hk. rewrite <- B1 by done. eapply user_page_rest; [exact M1|exact X2|exact U1|by apply page_byte].
  - by rewrite (hw_walk_leaf _ g T2) by apply M2.
  - by rewrite (hw_walk_leaf _ g T2) by apply M2.
Qed.
End first_space.

Section first.
Context {C : Type} {Hc : BlockCache C} {Hok : BlockCacheOk C}.
Context (forkret : Z) (proc_addr : nat → Z).
Implicit Types (s : kst C) (i : nat) (k g u w size code : Z) (fl : list Z) (T : tree).

(** The entry of the first process. *)
Definition first_entry (i : nat) (pid k g size : Z) : proc :=
  Proc RUNNABLE 0 pid size NoChan (Context (proc_addr i) forkret (k + PAGESIZE - SIZEOF_TRAPFRAME))
    (k + PAGESIZE - SIZEOF_TRAPFRAME) None k g None (replicate NOFILE None) [112; 114; 111; 99; 48] 0 false 0.

(** The trap frame that enters the program. *)
Definition enter_frame (tf : Z) (m : mem) : mem :=
  st64 (st64 (st64 m (tf + 8 * TF_ELR) 0x1000) (tf + 8 * TF_SPSR) 0) (tf + 8 * TF_SP) USTACKTOP.

Lemma enter_frame_other tf m a : ¬ (tf <= a < tf + SIZEOF_TRAPFRAME) → rd8 (enter_frame tf m) a = rd8 m a.
Proof.
  intros Ha. unfold enter_frame, TF_ELR, TF_SPSR, TF_SP, SIZEOF_TRAPFRAME in *. by rewrite !rd8_st_other by lia.
Qed.

Lemma enter_frame_word tf m j : 0 <= j < 34 → (∀ a, tf <= a < tf + SIZEOF_TRAPFRAME → rd8 m a = 0) →
  ld64 (enter_frame tf m) (tf + 8 * j) = if decide (j = TF_ELR) then 0x1000 else if decide (j = TF_SP) then USTACKTOP else 0.
Proof.
  intros Hj Hz. unfold enter_frame.
  assert (D : ∀ (i : Z) m v, i ≠ j → ld64 (st64 m (tf + 8 * i) v) (tf + 8 * j) = ld64 m (tf + 8 * j)) by (intros i m' v Hne; apply ld_st_disj; lia).
  assert (Q : ∀ m (i v : Z), 0 <= v < 2 ^ 64 → ld64 (st64 m (tf + 8 * i) v) (tf + 8 * i) = v) by (intros m' i v Hv; rewrite ld_st_eq; by apply Z.mod_small).
  destruct (decide (j = TF_SP)) as [->|H3]; [rewrite decide_False by done; by apply Q|]. rewrite D by done.
  destruct (decide (j = TF_SPSR)) as [->|H2]; [rewrite Q, decide_False by done; done|]. rewrite D by done.
  destruct (decide (j = TF_ELR)) as [->|H1]; [by apply Q|]. rewrite D by done.
  apply ld_zero. intros a Ha. apply Hz. unfold SIZEOF_TRAPFRAME. lia.
Qed.

Lemma tf_set_run tf k v s : tf_set tf k v s = Ret tt (put_mem (st64 (k_mem s) (tf + 8 * k) v) s).
Proof. done. Qed.

(** From the address space on. *)
Lemma first_finish i pid k g size s :
  ready s → procs s !! i = Some (fresh_proc forkret proc_addr i pid k g) →
  ∃ s', (
      upd_proc i (set_name [112; 114; 111; 99; 48]) ;;
      tf_set (k + PAGESIZE - SIZEOF_TRAPFRAME) TF_ELR 0x1000 ;;
      tf_set (k + PAGESIZE - SIZEOF_TRAPFRAME) TF_SPSR 0 ;;
      tf_set (k + PAGESIZE - SIZEOF_TRAPFRAME) TF_SP USTACKTOP ;;
      lock_procs ;;
      upd_proc i (set_state RUNNABLE) ;;
      unlock_procs)%prog (put_procs (<[i := set_psize size (fresh_proc forkret proc_addr i pid k g)]> (procs s)) s) = Ret tt s' ∧
    ready s' ∧ procs s' = <[i := first_entry i pid k g size]> (procs s) ∧ initproc s' = initproc s ∧ nextpid s' = nextpid s ∧
    k_klk s' = k_klk s ∧ k_freelist s' = k_freelist s ∧ k_cur s' = k_cur s ∧
    k_mem s' = enter_frame (k + PAGESIZE - SIZEOF_TRAPFRAME) (k_mem s).
Proof.
  intros R Hi. assert (Hlt : (i < length (procs s))%nat) by (by eapply lookup_lt_Some).
  set (y0 := fresh_proc forkret proc_addr i pid k g) in *. set (sp := k + PAGESIZE - SIZEOF_TRAPFRAME).
  assert (Hup : ∀ p f s0, procs s0 = <[i := p]> (procs s) → upd_proc i f s0 = Ret tt (put_procs (<[i := f p]> (procs s)) s0)).
  { intros p f s0 E. rewrite (upd_proc_run i f p s0) by (rewrite E; by apply list_lookup_insert_eq).
    by rewrite E, list_insert_insert_eq. }
  set (s1 := put_procs (<[i := set_psize size y0]> (procs s)) s).
  set (y2 := set_name [112; 114; 111; 99; 48] (set_psize size y0)). set (s2 := put_procs (<[i := y2]> (procs s)) s1).
  set (s3 := put_mem (enter_frame sp (k_mem s)) s2). assert (R3 : ready s3) by (by destruct R; split).
  exists (put_procs (<[i := first_entry i pid k g size]> (procs s)) (settle s3)). split_and!; try done.
  - rewrite (pbind_ok _ _ _ _ _ (Hup _ _ s1 eq_refl)). fold y2 s2.
    rewrite (pbind_ok _ _ _ _ _ (tf_set_run sp TF_ELR 0x1000 s2)). rewrite (pbind_ok _ _ _ _ _ (tf_set_run sp TF_SPSR 0 _)).
    rewrite (pbind_ok _ _ _ _ _ (tf_set_run sp TF_SP USTACKTOP _)).
    change (put_mem _ (put_mem _ (put_mem _ s2))) with s3.
    rewrite (pbind_ok _ _ _ _ _ (lock_procs_run s3 (rd_hart _ R3) (rd_ptlk _ R3))).
    rewrite (pbind_ok _ _ _ _ _ (Hup y2 _ (in_pt s3) eq_refl)). by apply (unlock_table _ s3), R3.
  - by apply ready_procs, settle_ready.
Qed.
End first.

Module FirstProps.

Section claims.
Context {C : Type} {Hc : BlockCache C} {Hok : BlockCacheOk C}.
Implicit Types (s : kst C) (i : nat) (k g u w size ustart : Z) (fl : list Z) (T : tree).

(** The first process. With a slot, and eight free pages none of which holds
    the embedded program, [userproc_init] makes process [i], the one that
    [initproc] points to: RUNNABLE, with the next number and no parent; its
    address space is one page at 0x1000 that begins with the program and is
    zero after it, a stack page, and nothing else; its trap frame enters the
    program at 0x1000 in user mode with the stack pointer at the top of the
    stack. No byte outside the free pages has changed. *)
Theorem userproc_init_correct forkret proc_addr ustart size i k g fl s :
  ready s → kinv (k :: g :: fl) (lget of_kmem s) → 0 <= nextpid s < 2 ^ 31 - 1 →
  first_proc (λ p, p_state p = UNUSED) (procs s) = Some i → procs s !! i = Some proc_zero →
  (6 <= length fl)%nat → 0 < size <= PAGESIZE →
  (∀ a p, ustart <= a < ustart + size → p ∈ k :: g :: fl → ¬ in_page p a) →
  ∃ s' u w T fl', userproc_init forkret proc_addr ustart size s = Ret tt s' ∧ ready s' ∧
    initproc s' = Some i ∧ procs s' = <[i := first_entry forkret proc_addr i (nextpid s) k g size]> (procs s) ∧
    nextpid s' = nextpid s + 1 ∧ k_cur s' = k_cur s ∧
    mm_ok g T fl' (lget of_kmem s') ∧ space g T fl' [u] w (k_mem s') ∧ suffix fl' fl ∧
    (∀ j, 0 <= j < PAGESIZE → rd8 (k_mem s') (u + j) = if decide (j < size) then rd8 (k_mem s) (ustart + j) else 0) ∧
    hw_walk (k_mem s') g 0x1000 = leaf_pte (V2P u) PTE_USER ∧
    hw_walk (k_mem s') g USTACKBOTTOM = leaf_pte (V2P w) PTE_USER_XN ∧
    (∀ j, 0 <= j < 34 → ld64 (k_mem s') (k + PAGESIZE - SIZEOF_TRAPFRAME + 8 * j) =
       if decide (j = TF_ELR) then 0x1000 else if decide (j = TF_SP) then USTACKTOP else 0) ∧
    mem_kept s s' (k :: g :: fl) ∧ ∀ π p, T !! π = Some p → p = g ∨ p ∈ fl.
Proof.
  intros R I Hn Hf Hi Hl Hsz Hcode.
  pose proof (kinv_nodup _ _ I) as [Hk1 [Hg1 Hnd]%NoDup_cons]%NoDup_cons. rewrite not_elem_of_cons in Hk1.
  destruct (newproc_run forkret proc_addr i k g fl s R I Hn Hf Hi)
    as (s1 & E1 & R1 & I1 & P1 & N1 & C1 & F1 & Hk & Hg & Hkg & Z1 & K1).
  set (s1' := put_init (Some i) s1). set (km := lget of_kmem s1').
  assert (Hlt : (i < length (procs s))%nat) by (by eapply lookup_lt_Some).
  assert (M : mm_ok g {[ [] := g ]} fl km).
  { split; [exact I1|by apply empty_table; [|intros a Ha; apply Z1; right]|]. by intros π p [<- <-]%lookup_singleton_Some. }
  assert (Hold : ∀ a, (∀ p, p ∈ k :: g :: fl → ¬ in_page p a) → rd8 (k_mem s1) a = rd8 (k_mem s) a).
  { intros a Ha. apply K1. intros p Hp. apply Ha. rewrite !elem_of_cons, elem_of_nil in *. tauto. }
  destruct (first_space size ustart g fl km M) as (u & w & T & fl' & km1 & km2 & E2 & E3 & M2 & Sp2 & X2 & S2 & Hu & Hw & B2 & _ & Lu & Lw).
  { intros va. unfold leaf. by rewrite lookup_singleton_ne. }
  { done. }
  { done. }
  { intros a p Ha Hp. apply Hcode; [done|]. by do 2 constructor. }
  set (s2 := lset of_kmem km1 s1'). set (s3 := lset of_kmem km2 s2).
  assert (R3 : ready s3).
  { destruct R1 as [_ ? ? ?]. split; [|done..]. change (k_hart s3) with (km_hart (lget of_kmem (lset of_kmem km2 s2))).
    rewrite kmem_get_set. apply M2. }
  set (y0 := fresh_proc forkret proc_addr i (nextpid s) k g) in *.
  assert (Hi3 : procs s3 !! i = Some y0) by (change (procs s1 !! i = Some y0); rewrite P1; by apply list_lookup_insert_eq).
  destruct (first_finish forkret proc_addr i (nextpid s) k g size s3 R3 Hi3) as (s' & E4 & R4 & P4 & J4 & N4 & L4 & F4 & C4 & M4).
  assert (Pu : page_ok u) by (eapply (Forall_forall page_ok fl); [apply I1|done]).
  assert (Hoff : ∀ a, ¬ in_page k a → rd8 (k_mem s') a = rd8 (km_mem km2) a).
  { intros a Ha. rewrite M4. apply enter_frame_other. intros Ht. apply Ha.
    unfold in_page, SIZEOF_TRAPFRAME, PAGESIZE in *. lia. }
  assert (Hin : ∀ π p, T !! π = Some p → p = g ∨ p ∈ fl).
  { intros π p [H|H]%(ext_from _ _ _ _ _ X2); [left|by right]. by apply lookup_singleton_Some in H as [_ <-]. }
  assert (Hkp : ∀ p a, page_ok p → p = g ∨ p ∈ fl → in_page p a → ¬ in_page k a).
  { intros p a Hp Hpf Ha Hka. pose proof (page_disjoint k p a Hk Hp Hka Ha) as <-. destruct Hpf; tauto. }
  assert (Htree : ∀ a, in_tree T a → rd8 (k_mem s') a = rd8 (km_mem km2) a).
  { intros a (π & p & Hp & Ha). apply Hoff. eapply Hkp; [by eapply mm_page|by eapply Hin|done]. }
  assert (I4 : kinv fl' (lget of_kmem s')).
  { destruct (mm_alloc _ _ _ _ M2) as [_ J2 J3 J5 J6]. split; [apply R4| | |done|done].
    - change (free_lock (k_klk s')). by rewrite L4.
    - change (chain (k_mem s') (k_freelist s') fl'). rewrite F4. eapply chain_ext; [|exact J3].
      intros q a Hq Ha. apply Hoff. eapply (Hkp q); [by eapply Forall_forall|right; by eapply suffix_in|done]. }
  destruct (mm_ok_mem g T fl' fl' km2 (lget of_kmem s') M2 I4 (mm_disj _ _ _ _ M2) Htree) as [M5 L5].
  exists s', u, w, T, fl'. split_and!; try done.
  - unfold userproc_init. rewrite (pbind_ok _ _ _ _ _ E1). prog_step. fold s1'.
    rewrite (pbind_ok _ _ _ _ _ (proc_at_run i y0 s1' (eq_trans (f_equal (.!! i) P1) (list_lookup_insert_eq _ _ _ Hlt)))).
    rewrite (pbind_ok _ _ _ _ _ (zoom_ok of_kmem _ s1' _ _ E2)). fold s2.
    assert (Hi2 : procs s2 !! i = Some y0) by exact Hi3.
    rewrite (pbind_ok _ _ _ _ _ (upd_proc_run i _ y0 s2 Hi2)).
    assert (E3' : zoom of_kmem (map_ustack g) (put_procs (<[i := set_psize size y0]> (procs s2)) s2) =
      Ret w (put_procs (<[i := set_psize size y0]> (procs s3)) s3)).
    { erewrite (zoom_ok of_kmem); [reflexivity|].
      change (lget of_kmem (put_procs _ s2)) with (lget of_kmem (lset of_kmem km1 s1')). by rewrite kmem_get_set. }
    rewrite (pbind_ok _ _ _ _ _ E3'). exact E4.
  - rewrite P4. change (procs s3) with (procs s1). by rewrite P1, list_insert_insert_eq.
  - rewrite N4. exact N1.
  - rewrite C4. exact C1.
  - eapply (space_ext g T fl' fl' [u] w (km_mem km2)); [apply M2|done|done|done].
  - intros j Hj. rewrite Hoff by (apply (Hkp u); [done|by right|by apply page_byte]). rewrite B2 by done.
    case_decide; [|done]. apply Hold. intros p Hp. apply Hcode; [lia|done].
  - by rewrite (hw_walk_leaf _ g T), L5, <- (hw_walk_leaf _ g T) by (apply M5 || apply M2).
  - by rewrite (hw_walk_leaf _ g T), L5, <- (hw_walk_leaf _ g T) by (apply M5 || apply M2).
  - intros j Hj. rewrite M4. apply enter_frame_word; [done|]. intros a Ha. change (k_mem s3) with (km_mem km2).
    assert (Hka : in_page k a) by (unfold in_page, SIZEOF_TRAPFRAME, PAGESIZE in *; lia).
    rewrite (ext_rest _ _ _ _ _ X2); [by apply Z1; left| |].
    + intros (π & p & [_ <-]%lookup_singleton_Some & Ha'). by eapply (Hkp g a Hg (or_introl eq_refl)).
    + intros p Hp Ha'. eapply (Hkp p a); [eapply Forall_forall; [apply I1|done]|by right|done|done].
  - intros a Ha. rewrite Hoff by (apply Ha; constructor). rewrite (ext_rest _ _ _ _ _ X2); [by apply Hold| |].
    + intros (π & p & [_ <-]%lookup_singleton_Some & Ha'). eapply Ha; [|exact Ha']. do 2 constructor.
    + intros p Hp. apply Ha. by do 2 constructor.
Qed.
End claims.

(** *** Witness *)

Lemma userproc_init_correct_witness :
  ∃ s', userproc_init 0x40 ProcProps.where_proc 0x5000 64 (machine (start free16) ProcProps.idle_table 0) = Ret tt s' ∧
    initproc s' = Some 1%nat ∧ p_state <$> procs s' !! 1%nat = Some RUNNABLE.
Proof.
  destruct (userproc_init_correct 0x40 ProcProps.where_proc 0x5000 64 1 (KERNBASE + 2 * PAGESIZE) (KERNBASE + 3 * PAGESIZE)
    (pages (KERNBASE + 4 * PAGESIZE) 14) (machine (start free16) ProcProps.idle_table 0)) as (s' & u & w & T & fl' & E & _ & Hi & P & _).
  - exact (proj1 (machine_ready _ _ _)).
  - exact (machine_inv _ _ _ _ (mm_alloc _ _ _ _ (start_ok1 root1 (or_introl eq_refl)))).
  - vm_compute. split; [discriminate|reflexivity].
  - reflexivity.
  - reflexivity.
  - vm_compute. repeat constructor.
  - unfold PAGESIZE. lia.
  - intros a p Ha Hp Hin. assert (Hpp : p ∈ pages (KERNBASE + 2 * PAGESIZE) 16) by exact Hp.
    apply elem_of_pages in Hpp as (j & Hj & ->). revert Ha Hin Hj. unfold_layout. lia.
  - exists s'. split; [exact E|]. split; [exact Hi|]. rewrite P. reflexivity.
Defined.
End FirstProps.
