(* ===== verification/Syscall.v ===== *)
(** * System calls (kernel/syscall.c, kernel/uname.c)

    A system call finds its number and its arguments in the trap frame and
    leaves its result there.  The functions it calls are those of the files
    File and Proc, run for the current process. *)

From S2P Require Import Prelude Mem Bytes KString Spinlock Layout Kalloc PageTable Buf Fs Ext2 Uaccess File Proc ProcSpec ProcRun.
Import Spin.
Open Scope Z_scope.
Open Scope prog_scope.

Definition NSYSCALL : Z := 19.
Definition SYS_getpid : Z := 0.
Definition SYS_write : Z := 1.
Definition SYS_read : Z := 2.
Definition SYS_exit : Z := 3.
Definition SYS_fork : Z := 4.
Definition SYS_wait : Z := 5.
Definition SYS_exec : Z := 6.
Definition SYS_open : Z := 7.
Definition SYS_close : Z := 8.
Definition SYS_fstat : Z := 9.
Definition SYS_uname : Z := 10.
Definition SYS_chdir : Z := 11.
Definition SYS_mkdir : Z := 12.
Definition SYS_mknod : Z := 13.
Definition SYS_dup : Z := 14.
Definition SYS_clone : Z := 15.
Definition SYS_waitpid : Z := 16.
Definition SYS_sbrk : Z := 17.
Definition SYS_kill : Z := 18.

(** [sizeof(struct utsname)] *)
Definition SIZEOF_UTSNAME : Z := 320.

Section syscalls.
Context {C : Type} `{BlockCache C}.

Abbreviation kprog := (prog (kst C)).

(** As in the file Proc, with [cdevsw], the bound of [wait], and the addresses
    of the locals of [exec] and [fstat] and of [aarch64_os]. *)
Context (cswitch : kprog unit) (forkret : Z) (proc_addr : nat → Z) (fuel turns : nat).
Context (cdevsw : list (cdev C)) (eh ph st1 pad aarch64_os : Z).

(** [char *] as the functions that take a path see it: its characters. *)
Definition string_at (a : Z) : kprog bytes :=
  n <- zoom of_kmemory (strlen fuel a) ;;
  gets (λ s, mread (k_mem s) a (Z.to_nat n)).

(** A call of the file layer by the current process. *)
Definition by_me {A} (m : prog (filest C) A) : kprog A := i <- myproc ;; zoom (of_files i) m.

Definition uname (u : Z) : kprog Z :=
  if u =? 0 then ret (-1) else
  r <- by_me (zoom of_user (copyout u aarch64_os SIZEOF_UTSNAME)) ;;
  if r <? 0 then ret (-1) else ret 0.

Definition sysarg (tf n : Z) : kprog Z :=
  if n =? 0 then tf_get tf 0
  else if n =? 1 then tf_get tf 1
  else if n =? 2 then tf_get tf 2
  else if n =? 3 then tf_get tf 3
  else panic "invalid sysarg".

Definition sys_getpid (tf : Z) : kprog Z := getpid.
Definition sys_write (tf : Z) : kprog Z :=
  fd <- sysarg tf 0 ;; buf <- sysarg tf 1 ;; size <- sysarg tf 2 ;;
  by_me (write cdevsw (i32 fd) buf size).
Definition sys_read (tf : Z) : kprog Z :=
  fd <- sysarg tf 0 ;; buf <- sysarg tf 1 ;; size <- sysarg tf 2 ;;
  by_me (read cdevsw (i32 fd) buf size).
Definition sys_exit (tf : Z) : kprog Z :=
  r <- sysarg tf 0 ;;
  exit cswitch (i32 r).
Definition sys_fork (tf : Z) : kprog Z := fork forkret proc_addr.
Definition sys_clone (tf : Z) : kprog Z :=
  fn <- sysarg tf 0 ;; stack <- sysarg tf 1 ;;
  clone forkret proc_addr fn stack.
Definition sys_wait (tf : Z) : kprog Z :=
  addr <- sysarg tf 0 ;;
  wait cswitch proc_addr turns addr.
Definition sys_exec (tf : Z) : kprog Z :=
  path <- sysarg tf 0 ;; argv <- sysarg tf 1 ;;
  path <- string_at path ;;
  exec fuel eh ph path argv.
Definition sys_open (tf : Z) : kprog Z :=
  path <- sysarg tf 0 ;; flags <- sysarg tf 1 ;;
  path <- string_at path ;;
  by_me (open path (i32 flags)).
Definition sys_close (tf : Z) : kprog Z :=
  fd <- sysarg tf 0 ;;
  by_me (close (i32 fd)).
Definition sys_fstat (tf : Z) : kprog Z :=
  fd <- sysarg tf 0 ;; addr <- sysarg tf 1 ;;
  by_me (fstat st1 pad (i32 fd) addr).
Definition sys_uname (tf : Z) : kprog Z := addr <- sysarg tf 0 ;; uname addr.
Definition sys_chdir (tf : Z) : kprog Z :=
  path <- sysarg tf 0 ;;
  path <- string_at path ;;
  by_me (chdir path).
Definition sys_mkdir (tf : Z) : kprog Z :=
  path <- sysarg tf 0 ;;
  path <- string_at path ;;
  by_me (mkdir path).
Definition sys_mknod (tf : Z) : kprog Z :=
  path <- sysarg tf 0 ;; mode <- sysarg tf 1 ;; dev <- sysarg tf 2 ;;
  path <- string_at path ;;
  by_me (mknod path (i32 mode) (i32 dev)).
Definition sys_dup (tf : Z) : kprog Z :=
  fd <- sysarg tf 0 ;;
  by_me (dup (i32 fd)).
Definition sys_waitpid (tf : Z) : kprog Z :=
  pid <- sysarg tf 0 ;; status <- sysarg tf 1 ;;
  waitpid cswitch proc_addr turns (i32 pid) status.
Definition sys_sbrk (tf : Z) : kprog Z :=
  incr <- sysarg tf 0 ;;
  sbrk (i32 incr).
Definition sys_kill (tf : Z) : kprog Z :=
  pid <- sysarg tf 0 ;;
  kill (i32 pid) 1.

Definition syscall_table : list (Z → kprog Z) :=
  [sys_getpid; sys_write; sys_read; sys_exit; sys_fork; sys_wait; sys_exec; sys_open; sys_close; sys_fstat;
   sys_uname; sys_chdir; sys_mkdir; sys_mknod; sys_dup; sys_clone; sys_waitpid; sys_sbrk; sys_kill].

(** An [int] result becomes a [u64] with its sign. *)
Definition syscall (tf : Z) : kprog unit :=
  n <- tf_get tf TF_X6 ;;
  match (if n <? NSYSCALL then syscall_table !! Z.to_nat n else None) with
  | Some f => r <- f tf ;; tf_set tf TF_X0 (u64 r)
  | None => tf_set tf TF_X0 (u64 (-1))
  end.
End syscalls.

(** ** The interface: numbers and typed arguments *)

(** What a program can ask for. *)
Inductive call :=
| Getpid | Write (fd buf size : Z) | Read (fd buf size : Z) | Exit (r : Z) | Fork | Wait (status : Z)
| Exec (path argv : Z) | Open (path flags : Z) | Close (fd : Z) | Fstat (fd st : Z) | Uname (u : Z)
| Chdir (path : Z) | Mkdir (path : Z) | Mknod (path mode dev : Z) | Dup (fd : Z) | Clone (fn stack : Z)
| Waitpid (pid status : Z) | Sbrk (incr : Z) | Kill (pid : Z).

(** The call that the registers ask for: [int] arguments are the low halves. *)
Definition decode (x6 x0 x1 x2 : Z) : option call :=
  if x6 =? SYS_getpid then Some Getpid
  else if x6 =? SYS_write then Some (Write (i32 x0) x1 x2)
  else if x6 =? SYS_read then Some (Read (i32 x0) x1 x2)
  else if x6 =? SYS_exit then Some (Exit (i32 x0))
  else if x6 =? SYS_fork then Some Fork
  else if x6 =? SYS_wait then Some (Wait x0)
  else if x6 =? SYS_exec then Some (Exec x0 x1)
  else if x6 =? SYS_open then Some (Open x0 (i32 x1))
  else if x6 =? SYS_close then Some (Close (i32 x0))
  else if x6 =? SYS_fstat then Some (Fstat (i32 x0) x1)
  else if x6 =? SYS_uname then Some (Uname x0)
  else if x6 =? SYS_chdir then Some (Chdir x0)
  else if x6 =? SYS_mkdir then Some (Mkdir x0)
  else if x6 =? SYS_mknod then Some (Mknod x0 (i32 x1) (i32 x2))
  else if x6 =? SYS_dup then Some (Dup (i32 x0))
  else if x6 =? SYS_clone then Some (Clone x0 x1)
  else if x6 =? SYS_waitpid then Some (Waitpid (i32 x0) x1)
  else if x6 =? SYS_sbrk then Some (Sbrk (i32 x0))
  else if x6 =? SYS_kill then Some (Kill (i32 x0))
  else None.

Section interface.
Context {C : Type} `{BlockCache C}.
Context (cswitch : prog (kst C) unit) (forkret : Z) (proc_addr : nat → Z) (fuel turns : nat).
Context (cdevsw : list (cdev C)) (eh ph st1 pad aarch64_os : Z).
Implicit Types (s : kst C).

(** The kernel's function for a call. *)
Definition perform (c : call) : prog (kst C) Z :=
  match c with
  | Getpid => getpid
  | Write fd buf size => by_me (write cdevsw fd buf size)
  | Read fd buf size => by_me (read cdevsw fd buf size)
  | Exit r => exit cswitch r
  | Fork => fork forkret proc_addr
  | Wait status => wait cswitch proc_addr turns status
  | Exec path argv => path <- string_at fuel path ;; exec fuel eh ph path argv
  | Open path flags => path <- string_at fuel path ;; by_me (open path flags)
  | Close fd => by_me (close fd)
  | Fstat fd st => by_me (fstat st1 pad fd st)
  | Uname u => uname aarch64_os u
  | Chdir path => path <- string_at fuel path ;; by_me (chdir path)
  | Mkdir path => path <- string_at fuel path ;; by_me (mkdir path)
  | Mknod path mode dev => path <- string_at fuel path ;; by_me (mknod path mode dev)
  | Dup fd => by_me (dup fd)
  | Clone fn stack => clone forkret proc_addr fn stack
  | Waitpid pid status => waitpid cswitch proc_addr turns pid status
  | Sbrk incr => sbrk incr
  | Kill pid => kill pid 1
  end.

(** Register [k] of the trap frame at [tf]. *)
Definition ureg s (tf k : Z) : Z := ld64 (k_mem s) (tf + 8 * k).
Definition asked s (tf : Z) : option call := decode (ureg s tf TF_X6) (ureg s tf 0) (ureg s tf 1) (ureg s tf 2).

Lemma below_19 n : 0 <= n → n < 19 →
  n = 0 ∨ n = 1 ∨ n = 2 ∨ n = 3 ∨ n = 4 ∨ n = 5 ∨ n = 6 ∨ n = 7 ∨ n = 8 ∨ n = 9 ∨ n = 10 ∨ n = 11 ∨ n = 12 ∨ n = 13 ∨ n = 14 ∨ n = 15 ∨ n = 16 ∨ n = 17 ∨ n = 18.
Proof. lia. Qed.

Lemma syscall_run tf s :
  syscall cswitch forkret proc_addr fuel turns cdevsw eh ph st1 pad aarch64_os tf s =
  match asked s tf with
  | Some c => pbind (perform c) (λ r, tf_set tf TF_X0 (u64 r)) s
  | None => tf_set tf TF_X0 (2 ^ 64 - 1) s
  end.
Proof.
  unfold syscall, asked. rewrite (pbind_ok (tf_get tf TF_X6) _ s (ureg s tf TF_X6) s eq_refl). set (n := ureg s tf TF_X6).
  assert (Hn : 0 <= n) by (apply ld_bound). unfold NSYSCALL. destruct (Z.ltb_spec n 19) as [Hlt|Hge].
  - pose proof (below_19 n Hn Hlt) as Hin. clearbody n.
    destruct_or! Hin; subst n; reflexivity.
  - unfold decode, SYS_getpid, SYS_write, SYS_read, SYS_exit, SYS_fork, SYS_wait, SYS_exec, SYS_open, SYS_close, SYS_fstat,
      SYS_uname, SYS_chdir, SYS_mkdir, SYS_mknod, SYS_dup, SYS_clone, SYS_waitpid, SYS_sbrk, SYS_kill.
    by rewrite !(proj2 (Z.eqb_neq n _)) by lia.
Qed.
End interface.

Module SyscallProps.

(** C35: a system call is the call its registers ask for. If [x6] holds a
    number of include/syscall.h, the kernel's function for it runs on the
    arguments in [x0] to [x2]; its result, sign-extended, is the only thing
    stored in the trap frame, in [x0]. With any other number nothing happens
    but that [x0] becomes -1. *)
Theorem syscall_correct {C} `{BlockCache C} cswitch forkret proc_addr fuel turns cdevsw eh ph st1 pad aarch64_os tf (s : kst C) :
  let run := syscall cswitch forkret proc_addr fuel turns cdevsw eh ph st1 pad aarch64_os tf in
  let answer r s' := put_mem (st64 (k_mem s') tf (u64 r)) s' in
  (∀ c r s', asked s tf = Some c → perform cswitch forkret proc_addr fuel turns cdevsw eh ph st1 pad aarch64_os c s = Ret r s' →
     run s = Ret tt (answer r s') ∧ ureg (answer r s') tf 0 = u64 r ∧
     ∀ a, ¬ (tf <= a < tf + 8) → rd8 (k_mem (answer r s')) a = rd8 (k_mem s') a) ∧
  (∀ c, asked s tf = Some c → perform cswitch forkret proc_addr fuel turns cdevsw eh ph st1 pad aarch64_os c s = Hang → run s = Hang) ∧
  (ureg s tf TF_X6 >= 19 → run s = Ret tt (answer (-1) s) ∧ ureg (answer (-1) s) tf 0 = 2 ^ 64 - 1).
Proof.
  intros run answer. unfold run.
  assert (Hx : ∀ r s', tf_set tf TF_X0 (u64 r) s' = Ret tt (answer r s')).
  { intros r s'. unfold tf_set, TF_X0. by replace (tf + 8 * 0) with tf by lia. }
  assert (Hr : ∀ r s', ureg (answer r s') tf 0 = u64 r).
  { intros r s'. unfold ureg, answer. replace (tf + 8 * 0) with tf by lia. cbn [k_mem put_mem put_fs k_fs fs_mem].
    rewrite ld_st_eq. apply Z.mod_small, u64_bound. }
  split_and!.
  - intros c r s' Ha E. rewrite syscall_run, Ha, (pbind_ok _ _ _ _ _ E), Hx. split_and!; [done|done|].
    intros a Hna. cbn [k_mem answer put_mem put_fs k_fs fs_mem]. by apply rd8_st_other.
  - intros c Ha E. rewrite syscall_run, Ha. by apply pbind_hang.
  - intros Hn. rewrite syscall_run. unfold asked, decode, SYS_getpid, SYS_write, SYS_read, SYS_exit, SYS_fork, SYS_wait, SYS_exec, SYS_open,
      SYS_close, SYS_fstat, SYS_uname, SYS_chdir, SYS_mkdir, SYS_mknod, SYS_dup, SYS_clone, SYS_waitpid, SYS_sbrk, SYS_kill.
    rewrite !(proj2 (Z.eqb_neq (ureg s tf TF_X6) _)) by lia. split; [apply (Hx (-1))|apply Hr].
Qed.

(** *** Witness *)

Lemma syscall_correct_witness :
  let s := machine (KMem (Hart 0 0 false true) lock_init 0 ∅) [entry_of RUNNING 7 None 0x9000] 0 in
  ∃ s', syscall (ret tt) 0 (λ _, 0) 100 0 [] 0 0 0 0 0 0x100 s = Ret tt s' ∧ ureg s' 0x100 0 = 7.
Proof.
  intros s. destruct (syscall_correct (ret tt) 0 (λ _, 0) 100 0 [] 0 0 0 0 0 0x100 s) as [H _].
  destruct (H Getpid 7 s) as (E & E0 & _); [reflexivity|reflexivity|].
  eexists. split; [exact E|]. exact E0.
Defined.
End SyscallProps.
