(* ===== verification/Typing.v ===== *)
(** * The types of the kernel's state

    The C code indexes fixed tables and keeps pointers into them.  In the model a
    pointer is an index; this file says that the tables have their sizes and that
    every pointer kept in the state leads to an entry, and shows that each system
    call and each turn of the scheduler keep it so, on every branch. *)

From S2P Require Import Prelude Mem Bytes KString Spinlock Kalloc PageTable Buf Fs Ext2 Ext2File Uaccess File Proc Syscall.
Import Spin.
Open Scope Z_scope.
Open Scope prog_scope.

(** ** Typed programs *)

(** From a state of type [P] the program leaves one of type [P], and its result has
    type [Q]. *)
Definition typed {S A} (P : S → Prop) (Q : A → Prop) (m : prog S A) : Prop :=
  ∀ s a s', P s → m s = Ret a s' → P s' ∧ Q a.

(** Any type. *)
Definition any {A} : A → Prop := λ _, True.

Section rules.
Context {S : Type} (P : S → Prop).

Lemma typed_ret {A} (Q : A → Prop) a : Q a → typed P Q (ret a).
Proof. by intros HQ s b s' HP [= <- <-]. Qed.
Lemma typed_bind {A B} (R : A → Prop) (Q : B → Prop) (m : prog S A) (f : A → prog S B) :
  typed P R m → (∀ a, R a → typed P Q (f a)) → typed P Q (pbind m f).
Proof. intros Hm Hf s b s' HP (a & s1 & E1 & E2)%pbind_inv. destruct (Hm _ _ _ HP E1) as [P1 R1]. by apply (Hf a R1 s1). Qed.
Lemma typed_any {A} (Q : A → Prop) m : typed P Q m → typed P any m.
Proof. intros Hm s a s' HP E. split; [|done]. by destruct (Hm _ _ _ HP E). Qed.
Lemma typed_gets {A} (Q : A → Prop) (f : S → A) : (∀ s, P s → Q (f s)) → typed P Q (gets f).
Proof. intros Hf s a s' HP [= <- <-]. auto. Qed.
Lemma typed_gets_any {A} (f : S → A) : typed P any (gets f).
Proof. by apply typed_gets. Qed.
Lemma typed_get : typed P P get.
Proof. by intros s a s' HP [= <- <-]. Qed.
Lemma typed_modify (f : S → S) : (∀ s, P s → P (f s)) → typed P any (modify f).
Proof. intros Hf s a s' HP [= _ <-]. split; [auto|done]. Qed.
Lemma typed_panic {A} (Q : A → Prop) w : typed P Q (panic w).
Proof. by intros s a s'. Qed.
Lemma typed_fault {A} (Q : A → Prop) w : typed P Q (fault w).
Proof. by intros s a s'. Qed.
Lemma typed_hang {A} (Q : A → Prop) : typed P Q (λ _, Hang).
Proof. by intros s a s'. Qed.

(** A component at its place in the state. *)
Lemma typed_zoom {T A} (l : lens S T) (P1 : T → Prop) (Q : A → Prop) (m : prog T A) :
  (∀ s, P s → P1 (lget l s)) → (∀ s t, P s → P1 t → P (lset l t s)) → typed P1 Q m → typed P Q (zoom l m).
Proof.
  intros Hg Hs Hm s a s' HP. unfold zoom. destruct (m (lget l s)) as [b t| | |] eqn:E; try done. intros [= <- <-].
  destruct (Hm _ _ _ (Hg s HP) E) as [Ht HQ]. auto.
Qed.
(** One that holds nothing of the type. *)
Lemma typed_zoom_any {T A} (l : lens S T) (m : prog T A) :
  (∀ s t, P s → P (lset l t s)) → typed P any (zoom l m).
Proof. intros Hs. apply (typed_zoom l any); [done|auto|]. by intros s a s' _ _. Qed.
End rules.

Create HintDb typed.
#[export] Hint Resolve typed_gets_any typed_panic typed_fault typed_hang : typed.

(** Follows the syntax: a call whose typing is a hint has the type the hint gives,
    any other part has any type. *)
Ltac typed_step :=
  lazymatch goal with
  | |- typed _ _ (ret _) => apply typed_ret
  | |- typed _ _ (panic _) => apply typed_panic
  | |- typed _ _ (fault _) => apply typed_fault
  | |- typed _ _ (λ _, Hang) => apply typed_hang
  | |- typed _ _ (pbind _ _) =>
      first [ eapply typed_bind; [solve [typeclasses eauto 3 with typed nocore]|]
            | apply typed_bind with (R := any) ]; [..|intros ? ?]
  | |- typed _ _ (match ?x with _ => _ end) => destruct x eqn:?
  | |- typed _ _ (let _ := _ in _) => cbv zeta
  | |- typed _ any _ => solve [typeclasses eauto 3 with typed nocore | eapply typed_any; typeclasses eauto 3 with typed nocore]
  | |- typed _ _ _ => solve [typeclasses eauto 3 with typed nocore]
  | |- any _ => exact I
  end.
Ltac typed_tac := repeat typed_step.

(** An index below [n], or NULL. *)
Definition below (n : nat) (o : option nat) : Prop := match o with Some i => (i < n)%nat | None => True end.

(** ** The file system *)

(** Each inode has its 15 block numbers. *)
Definition inode_typed (x : inode) : Prop := length (i_block x) = 15%nat.

Record fs_typed {C} (s : fsst C) : Prop := {
  ft_len : length (itable s) = NINODE;
  ft_ino : Forall inode_typed (itable s)
}.

Section fs.
Context {C : Type} `{BlockCache C}.
Implicit Types (s : fsst C) (i : nat).

Lemma upd_ino_typed i f : (∀ x, inode_typed x → inode_typed (f x)) → typed (fs_typed (C := C)) any (upd_ino i f).
Proof.
  intros Hf. apply typed_modify. intros s [L F]. split; cbn; [by rewrite length_alter|]. apply Forall_alter; [done|]. intros x _. apply Hf.
Qed.

Lemma ino_at_typed i : typed (fs_typed (C := C)) inode_typed (ino_at i).
Proof.
  intros s a s' T. unfold ino_at. destruct (itable s !! i) as [x|] eqn:E; [|done]. intros [= <- <-]. split; [done|].
  by eapply Forall_lookup_1, E; apply T.
Qed.

Lemma first_ino_typed P `{∀ x, Decision (P x)} : typed (fs_typed (C := C)) (below NINODE) (first_ino P).
Proof.
  apply typed_gets. intros s [L _]. unfold below. destruct (list_find P (itable s)) as [[i x]|] eqn:E; cbn; [|done].
  apply list_find_Some in E as (Hi & _). rewrite <- L. by eapply lookup_lt_Some.
Qed.

Lemma fs_zoom_cache {A} (m : prog C A) : typed (fs_typed (C := C)) any (zoom of_cache m).
Proof. apply typed_zoom_any. by intros s t [L F]. Qed.
Lemma fs_zoom_lock {A} (m : prog lockst A) : typed (fs_typed (C := C)) any (zoom itable_lock m).
Proof. apply typed_zoom_any. by intros s t [L F]. Qed.
Lemma fs_zoom_mem {A} (m : prog mem A) : typed (fs_typed (C := C)) any (zoom of_mem m).
Proof. apply typed_zoom_any. by intros s t [L F]. Qed.
End fs.
#[export] Hint Resolve ino_at_typed first_ino_typed fs_zoom_cache fs_zoom_lock fs_zoom_mem : typed.
#[export] Hint Extern 1 (typed _ _ (upd_ino _ _)) => (apply upd_ino_typed; solve [intros ? ?; done|by intros ? ?]) : typed.

Section fs_ops.
Context {C : Type} `{BlockCache C}.
Implicit Types (i : nat).

Abbreviation ftyped Q m := (typed (fs_typed (C := C)) Q m).

Lemma find_inode_typed n : ftyped (below NINODE) (find_inode n).
Proof. unfold find_inode. typed_tac; done. Qed.
Lemma release_inode_typed i : ftyped any (release_inode i).
Proof. unfold release_inode. typed_tac; done. Qed.
#[local] Hint Resolve find_inode_typed : typed.

Lemma cread_typed n : ftyped any (cread n).
Proof. apply fs_zoom_cache. Qed.
Lemma cwrite_typed i : ftyped any (cwrite i).
Proof. apply fs_zoom_cache. Qed.
Lemma cfree_typed i : ftyped any (cfree i).
Proof. apply fs_zoom_cache. Qed.
Lemma cdata_typed i : ftyped any (cdata i).
Proof. apply fs_zoom_cache. Qed.
Lemma cset_typed i l : ftyped any (cset i l).
Proof. apply fs_zoom_cache. Qed.
Lemma get_sb_typed : ftyped any get_sb.
Proof. apply typed_gets_any. Qed.
Lemma in_data_typed off n : ftyped any (in_data off n).
Proof. unfold in_data. typed_tac. Qed.
#[local] Hint Resolve cread_typed cwrite_typed cfree_typed cdata_typed cset_typed get_sb_typed in_data_typed : typed.

Lemma write_bit_typed b n v : ftyped any (write_bit b n v).
Proof. unfold write_bit. typed_tac. Qed.
#[local] Hint Resolve write_bit_typed : typed.
Lemma alloc_block_typed : ftyped any ext2_alloc_block.
Proof. unfold ext2_alloc_block, bbmp_write_bit. typed_tac. Qed.
Lemma alloc_inum_typed : ftyped any ext2_alloc_inum.
Proof. unfold ext2_alloc_inum, ibmp_write_bit. typed_tac. Qed.
#[local] Hint Resolve alloc_block_typed alloc_inum_typed : typed.
Lemma alloc_inode_typed : ftyped (below NINODE) ext2_alloc_inode.
Proof. unfold ext2_alloc_inode. typed_tac. done. Qed.

Lemma raw_inode_typed n : ftyped any (ext2_raw_inode n).
Proof. unfold ext2_raw_inode. typed_tac. Qed.
#[local] Hint Resolve alloc_inode_typed raw_inode_typed : typed.
Lemma inode_sync_typed i : ftyped any (inode_sync i).
Proof. unfold inode_sync. typed_tac. Qed.
Lemma load_inode_typed l off x : inode_typed (load_inode l off x).
Proof. done. Qed.
Lemma get_inode_typed n : ftyped (below NINODE) (ext2_get_inode n).
Proof. unfold ext2_get_inode. typed_tac; done. Qed.
Lemma block_no_typed x b : ftyped any (block_no x b).
Proof. intros s a s'. unfold block_no. repeat case_match; by intros ? [= _ <-]. Qed.
#[local] Hint Resolve inode_sync_typed get_inode_typed block_no_typed : typed.
Lemma inode_block_typed i b : ftyped any (ext2_inode_block i b).
Proof. unfold ext2_inode_block, read_indirect_block. typed_tac. Qed.
#[local] Hint Resolve inode_block_typed : typed.

Lemma set_block_typed k v x : inode_typed x → inode_typed (set_block k v x).
Proof. unfold inode_typed. cbn. by rewrite length_insert. Qed.
#[local] Hint Extern 1 (typed _ _ (upd_ino _ (set_block _ _))) => (apply upd_ino_typed; intros ?; apply set_block_typed) : typed.

Lemma grow_loop_typed cnt : ∀ i k, ftyped any (grow_loop cnt i k).
Proof. induction cnt as [|cnt IH]; intros i k; cbn [grow_loop]; typed_tac. Qed.
#[local] Hint Resolve grow_loop_typed : typed.
Lemma grow_inode_block_typed i n : ftyped any (ext2_grow_inode_block i n).
Proof. unfold ext2_grow_inode_block. typed_tac. Qed.
Lemma append_inode_block_typed i n : ftyped any (ext2_append_inode_block i n).
Proof. unfold ext2_append_inode_block. typed_tac. Qed.
#[local] Hint Resolve grow_inode_block_typed append_inode_block_typed : typed.

Lemma make_dirent_typed ino nm ft : ftyped any (make_dirent ino nm ft).
Proof. unfold make_dirent. typed_tac. Qed.
Lemma search_loop_typed fuel : ∀ bs l pos path, ftyped any (search_loop fuel bs l pos path).
Proof. induction fuel as [|fuel IH]; intros bs l pos path; cbn [search_loop]; typed_tac. Qed.
#[local] Hint Resolve make_dirent_typed search_loop_typed : typed.
Lemma search_blocks_typed cnt : ∀ k dir nm, ftyped any (search_blocks cnt k dir nm).
Proof. induction cnt as [|cnt IH]; intros k dir nm; cbn [search_blocks]; unfold search_dirent_block; typed_tac. Qed.
#[local] Hint Resolve search_blocks_typed : typed.
Lemma search_dir_typed i nm : ftyped any (ext2_search_dir i nm).
Proof. unfold ext2_search_dir. typed_tac. Qed.
Lemma last_dirent_typed fuel : ∀ bs l pos d, ftyped any (last_dirent fuel bs l pos d).
Proof. induction fuel as [|fuel IH]; intros bs l pos d; cbn [last_dirent]; typed_tac. Qed.
#[local] Hint Resolve search_dir_typed last_dirent_typed : typed.
Lemma find_place_typed cnt : ∀ k dir r, ftyped any (find_place cnt k dir r).
Proof. induction cnt as [|cnt IH]; intros k dir r; cbn [find_place]; typed_tac. Qed.
Lemma put_dirent_typed l d r de : ftyped any (put_dirent l d r de).
Proof. unfold put_dirent. typed_tac. Qed.
#[local] Hint Resolve find_place_typed put_dirent_typed : typed.
Lemma put_place_typed p de : ftyped any (put_place p de).
Proof. unfold put_place. typed_tac. Qed.
#[local] Hint Resolve put_place_typed : typed.
Lemma dirlink_typed i de : ftyped any (ext2_dirlink i de).
Proof. unfold ext2_dirlink. typed_tac. Qed.
Lemma imode2dtype_typed m : ftyped any (imode2dtype m).
Proof. intros s a s'. unfold imode2dtype. case_match; [by intros ? [= _ <-]|done]. Qed.
#[local] Hint Resolve dirlink_typed imode2dtype_typed : typed.
Lemma new_inode_typed nm dir mode dev : ftyped (below NINODE) (ext2_new_inode nm dir mode dev).
Proof. unfold ext2_new_inode. typed_tac; done. Qed.

Lemma read_loop_typed cnt : ∀ bs i bi o buf sz, ftyped any (read_loop cnt bs i bi o buf sz).
Proof. induction cnt as [|cnt IH]; intros bs i bi o buf sz; cbn [read_loop]; typed_tac. Qed.
Lemma write_loop_typed cnt : ∀ bs i bi o buf sz, ftyped any (write_loop cnt bs i bi o buf sz).
Proof. induction cnt as [|cnt IH]; intros bs i bi o buf sz; cbn [write_loop]; typed_tac. Qed.
#[local] Hint Resolve new_inode_typed read_loop_typed write_loop_typed : typed.
Lemma read_inode_typed i buf off sz : ftyped any (ext2_read_inode i buf off sz).
Proof. unfold ext2_read_inode. typed_tac. Qed.
Lemma w_inode_typed i buf off sz : ftyped any (ext2_w_inode i buf off sz).
Proof. unfold ext2_w_inode. typed_tac. Qed.

Lemma take_elem_typed path : ∀ nm, ftyped any (take_elem path nm).
Proof. induction path as [|c p IH]; intros nm; cbn [take_elem]; typed_tac. Qed.
#[local] Hint Resolve read_inode_typed w_inode_typed take_elem_typed : typed.
Lemma not_null_typed p : ftyped any (not_null p).
Proof. unfold not_null. typed_tac. Qed.
#[local] Hint Resolve not_null_typed : typed.

Lemma traverse_typed fuel : ∀ pi path, below NINODE pi → ftyped (below NINODE) (traverse_inode fuel pi path).
Proof.
  induction fuel as [|fuel IH]; intros pi path Hpi; cbn [traverse_inode]; unfold skippath; typed_tac; try done.
  all: by apply IH.
Qed.
Lemma traverse_parent_typed fuel : ∀ pi path, below NINODE pi →
  ftyped (λ r, below NINODE (fst r)) (traverse_inode_parent fuel pi path).
Proof.
  induction fuel as [|fuel IH]; intros pi path Hpi; cbn [traverse_inode_parent]; unfold skippath; typed_tac; try done.
  all: by apply IH.
Qed.
Lemma start_inode_typed cwd path : below NINODE cwd → ftyped (below NINODE) (start_inode cwd path).
Proof. intros Hc. unfold start_inode. typed_tac; done. Qed.
Lemma path2inode_typed cwd path : below NINODE cwd → ftyped (below NINODE) (ext2_path2inode cwd path).
Proof. intros Hc. eapply typed_bind; [by apply start_inode_typed|]. intros. by apply traverse_typed. Qed.
Lemma path2parent_typed cwd path : below NINODE cwd → ftyped (λ r, below NINODE (fst r)) (ext2_path2inode_parent cwd path).
Proof. intros Hc. eapply typed_bind; [by apply start_inode_typed|]. intros. by apply traverse_parent_typed. Qed.
Lemma mknod_typed cwd path m d : below NINODE cwd → ftyped any (ext2_mknod cwd path m d).
Proof. intros Hc. eapply typed_bind; [by apply path2parent_typed|]. intros r _. typed_tac. Qed.
Lemma mkdir_typed cwd path : below NINODE cwd → ftyped any (ext2_mkdir cwd path).
Proof. intros Hc. eapply typed_bind; [by apply path2parent_typed|]. intros r _. typed_tac. Qed.
Lemma ext2_init_typed : ftyped any ext2_init.
Proof.
  unfold ext2_init, ext2_get_sb, ext2_get_bg. typed_tac. apply typed_modify. by intros s [L F].
Qed.
End fs_ops.
#[export] Hint Resolve read_inode_typed w_inode_typed get_sb_typed ext2_init_typed : typed.

(** ** Open files *)

(** The count and the offset fit their fields; the inode is an entry of the table. *)
Record file_typed (f : file) : Prop := {
  fy_ref : - 2 ^ 31 <= f_ref f < 2 ^ 31;
  fy_ino : below NINODE (f_ino f);
  fy_off : 0 <= f_off f < 2 ^ 64
}.

Definition fds_typed (o : list (option nat)) : Prop := length o = NOFILE ∧ Forall (below NFILE) o.

Record files_typed {C} (s : filest C) : Prop := {
  fs_fs : fs_typed (fl_fs s);
  fs_len : length (ftable s) = NFILE;
  fs_files : Forall file_typed (ftable s);
  fs_fds : fds_typed (ofile s);
  fs_cwd : below NINODE (cwd s)
}.

Section files.
Context {C : Type} `{BlockCache C}.
Implicit Types (f i : nat).

Abbreviation ltyped Q m := (typed (files_typed (C := C)) Q m).

Lemma file_at_typed f : ltyped file_typed (file_at f).
Proof.
  intros s a s' T. unfold file_at. destruct (ftable s !! f) as [x|] eqn:E; [|done]. intros [= <- <-]. split; [done|].
  by eapply Forall_lookup_1, E; apply T.
Qed.
Lemma upd_file_typed f g : (∀ x, file_typed x → file_typed (g x)) → ltyped any (upd_file f g).
Proof.
  intros Hg. apply typed_modify. intros s [F L T D W]. split; cbn; [done|by rewrite length_alter| |done|done].
  apply Forall_alter; [done|]. intros x _. apply Hg.
Qed.
Lemma put_fd_typed fd o : below NFILE o → ltyped any (put_fd fd o).
Proof.
  intros Ho. apply typed_modify. intros s [F L T [D1 D2] W]. split; cbn; try done. split; [by rewrite length_insert|].
  by apply Forall_insert.
Qed.
Lemma l_zoom_fs {A} (Q : A → Prop) m : typed (fs_typed (C := C)) Q m → ltyped Q (zoom of_fs m).
Proof. apply typed_zoom; [by intros s []|]. by intros s t [F L T D W] Ht. Qed.
Lemma l_zoom_lock {A} (m : prog lockst A) : ltyped any (zoom of_ftlk m).
Proof. apply typed_zoom_any. intros s t [[F1 F2] L T D W]. by split. Qed.
Lemma l_zoom_user {A} (m : prog ust A) : ltyped any (zoom of_user m).
Proof. apply typed_zoom_any. intros s t [[F1 F2] L T D W]. by split. Qed.
End files.
#[export] Hint Resolve file_at_typed l_zoom_fs l_zoom_lock l_zoom_user : typed.

Lemma off_typed n x : file_typed x → file_typed (set_off (f_off x +u64 n) x).
Proof. intros [R I O]. split; [done|done|apply u64_bound]. Qed.
Lemma fref_typed v x : file_typed x → file_typed (set_fref (i32 v) x).
Proof. intros [R I O]. split; [apply i32_bound|done|done]. Qed.
Lemma file_zero_typed : file_typed file_zero.
Proof. by split. Qed.

#[export] Hint Extern 1 (typed _ _ (upd_file _ (λ x, set_off _ x))) => (apply upd_file_typed; intros ?; apply off_typed) : typed.
#[export] Hint Extern 1 (typed _ _ (upd_file _ (λ x, set_fref (i32 _) x))) => (apply upd_file_typed; intros ?; apply fref_typed) : typed.
#[export] Hint Extern 1 (typed _ _ (upd_file _ (λ _, file_zero))) => (apply upd_file_typed; intros ? _; exact file_zero_typed) : typed.
#[export] Hint Extern 1 (typed _ _ (zoom of_fs _)) => (apply l_zoom_fs; typeclasses eauto 3 with typed nocore) : typed.

Section file_ops.
Context {C : Type} `{BlockCache C}.
Implicit Types (f i : nat).

Abbreviation ltyped Q m := (typed (files_typed (C := C)) Q m).

(** What the file layer asks of a driver. *)
Definition cdev_typed (d : cdev C) : Prop :=
  (∀ g, cd_read d = Some g → ∀ f buf sz, ltyped any (g f buf sz)) ∧
  (∀ g, cd_write d = Some g → ∀ f buf sz, ltyped any (g f buf sz)).

Lemma first_file_typed (P : file → Prop) `{∀ x, Decision (P x)} :
  ltyped (below NFILE) (gets (λ s, fst <$> list_find P (ftable s))).
Proof.
  apply typed_gets. intros s [_ L _ _ _]. destruct (list_find P (ftable s)) as [[i x]|] eqn:E; cbn; [|done].
  apply list_find_Some in E as (Hi & _). rewrite <- L. by eapply lookup_lt_Some.
Qed.
#[local] Hint Resolve first_file_typed : typed.
#[local] Hint Extern 1 (typed _ _ (upd_file _ (set_fref 1))) => (apply upd_file_typed; intros ?; apply (fref_typed 1)) : typed.
Lemma alloc_file_typed : ltyped (below NFILE) alloc_file.
Proof. unfold alloc_file. typed_tac; done. Qed.
Lemma fget_typed fd : ltyped (below NFILE) (fget fd).
Proof.
  unfold fget. typed_tac; [done|]. apply typed_gets. intros s [_ _ _ [_ D] _].
  destruct (ofile s !! Z.to_nat (u32 fd)) as [o|] eqn:E; [|done]. by eapply Forall_lookup_1, E.
Qed.
Lemma allocfd_typed : ltyped any allocfd.
Proof. unfold allocfd. typed_tac. Qed.
#[local] Hint Resolve alloc_file_typed fget_typed allocfd_typed : typed.

Section devices.
Context (cdevsw : list (cdev C)) (Hd : Forall cdev_typed cdevsw).

Lemma cdev_read_typed m f buf sz : ltyped any (cdev_call cdevsw cd_read m f buf sz).
Proof.
  unfold cdev_call. destruct (cdevsw !! Z.to_nat m) as [d|] eqn:E; [|typed_tac]. destruct (cd_read d) as [g|] eqn:Eg; [|typed_tac].
  by apply (proj1 (Forall_lookup_1 _ _ _ _ Hd E)).
Qed.
Lemma cdev_write_typed m f buf sz : ltyped any (cdev_call cdevsw cd_write m f buf sz).
Proof.
  unfold cdev_call. destruct (cdevsw !! Z.to_nat m) as [d|] eqn:E; [|typed_tac]. destruct (cd_write d) as [g|] eqn:Eg; [|typed_tac].
  by apply (proj2 (Forall_lookup_1 _ _ _ _ Hd E)).
Qed.
#[local] Hint Resolve cdev_read_typed cdev_write_typed : typed.

Lemma read_typed fd buf sz : ltyped any (read cdevsw fd buf sz).
Proof. unfold read, read_file. typed_tac. Qed.
Lemma write_typed fd buf sz : ltyped any (write cdevsw fd buf sz).
Proof. unfold write, write_file. typed_tac. Qed.
End devices.

Lemma cwd_typed : ltyped (below NINODE) (gets cwd).
Proof. apply typed_gets. by intros s []. Qed.
Lemma dup_file_typed f : (f < NFILE)%nat → ltyped (λ f, f < NFILE)%nat (dup_file f).
Proof. intros Hf. unfold dup_file. typed_tac. done. Qed.
Lemma set_open_typed i fl x : (i < NINODE)%nat → file_typed x → file_typed (set_open i fl x).
Proof. intros Hi [R I O]. by split. Qed.
#[local] Hint Resolve cwd_typed put_fd_typed : typed.

Lemma l_path2inode c path : below NINODE c → ltyped (below NINODE) (zoom of_fs (ext2_path2inode c path)).
Proof. intros Hc. apply l_zoom_fs. by apply path2inode_typed. Qed.

Lemma open_typed path flags : ltyped any (open path flags).
Proof.
  unfold open. typed_step. eapply typed_bind; [by apply l_path2inode|]. intros o Ho. typed_step; [|typed_tac].
  typed_step. typed_step; [|typed_tac].
  eapply typed_bind; [apply upd_file_typed; intros x; by apply set_open_typed|]. intros _ _. typed_tac; try done. all: by apply put_fd_typed.
Qed.
Lemma close_typed fd : ltyped any (close fd).
Proof. unfold close. typed_tac; try done. all: by apply put_fd_typed. Qed.
Lemma dup_typed fd : ltyped any (dup fd).
Proof.
  unfold dup. typed_step. typed_step; [|typed_tac]. typed_step. typed_step; [typed_tac|].
  eapply typed_bind; [by apply dup_file_typed|]. intros g Hg. typed_tac; try done. all: by apply put_fd_typed.
Qed.
Lemma fstat_typed st1 pad fd st : ltyped any (fstat st1 pad fd st).
Proof. unfold fstat. typed_tac. Qed.
Lemma l_mknod_typed path m d : ltyped any (mknod path m d).
Proof. unfold mknod. typed_step. eapply typed_bind; [apply l_zoom_fs; by apply mknod_typed|]. intros r _. typed_tac. Qed.
Lemma l_mkdir_typed path : ltyped any (mkdir path).
Proof. unfold mkdir. typed_step. eapply typed_bind; [apply l_zoom_fs; by apply mkdir_typed|]. intros r _. typed_tac. Qed.
Lemma chdir_typed path : ltyped any (chdir path).
Proof.
  unfold chdir. typed_step. eapply typed_bind; [by apply l_path2inode|]. intros o Ho. typed_tac.
  apply typed_modify. by intros s [F L T D W].
Qed.
End file_ops.
#[export] Hint Resolve open_typed close_typed dup_typed fstat_typed l_mknod_typed l_mkdir_typed chdir_typed : typed.

(** ** Processes *)

Definition int (v : Z) : Prop := - 2 ^ 31 <= v < 2 ^ 31.

Record proc_typed (p : proc) : Prop := {
  py_fds : fds_typed (p_ofile p);
  py_cwd : below NINODE (p_cwd p);
  py_parent : below NPROC (p_parent p);
  py_pid : int (p_pid p)
}.

Definition table_typed (t : list proc) : Prop := length t = NPROC ∧ Forall proc_typed t.

Record kst_typed {C} (s : kst C) : Prop := {
  ky_fs : fs_typed (k_fs s);
  ky_files : length (k_ftable s) = NFILE ∧ Forall file_typed (k_ftable s);
  ky_table : table_typed (procs s);
  ky_cur : below NPROC (k_cur s);
  ky_init : below NPROC (initproc s);
  ky_next : int (nextpid s)
}.

Lemma proc_zero_typed : proc_typed proc_zero.
Proof. split; [split; [done|by apply Forall_replicate]|done|done|done]. Qed.

Lemma alter_typed i f t : table_typed t → (∀ x, proc_typed x → proc_typed (f x)) → table_typed (alter f i t).
Proof. intros [L F] Hf. split; [by rewrite length_alter|]. apply Forall_alter; [done|]. intros x _. apply Hf. Qed.

Lemma fmap_typed (f : proc → proc) t : table_typed t → (∀ x, proc_typed x → proc_typed (f x)) → table_typed (f <$> t).
Proof. intros [L F] Hf. split; [by rewrite length_fmap|]. apply Forall_fmap. eapply Forall_impl; [exact F|exact Hf]. Qed.

Lemma wakeup_table_typed ch t : table_typed t → table_typed (wakeup_acquired ch t).
Proof. intros T. apply fmap_typed; [done|]. intros x X. unfold wake. case_decide; [by destruct X|done]. Qed.

Lemma exit_table_typed init i t : below NPROC init → table_typed t → table_typed (exit_table init i t).
Proof.
  intros Hi T. unfold exit_table. apply alter_typed; [|by intros x []]. assert (R : table_typed (reparent init i t)).
  { apply fmap_typed; [done|]. intros x X. unfold adopt. case_decide; [by destruct X|done]. }
  repeat case_match; by apply wakeup_table_typed.
Qed.

Section procs.
Context {C : Type} `{BlockCache C}.
Implicit Types (i : nat).

Abbreviation ktyped Q m := (typed (kst_typed (C := C)) Q m).

Lemma k_zoom_fs {A} (Q : A → Prop) m : typed (fs_typed (C := C)) Q m → ktyped Q (zoom of_kfs m).
Proof. apply typed_zoom; [by intros s []|]. by intros s t [] Ht. Qed.
Lemma k_zoom_mem {A} (m : prog mem A) : ktyped any (zoom of_kmemory m).
Proof. apply typed_zoom_any. by intros s t [[] ? ? ? ? ?]. Qed.
Lemma k_zoom_kmem {A} (m : prog kmem A) : ktyped any (zoom of_kmem m).
Proof. apply typed_zoom_any. by intros s t [[] ? ? ? ? ?]. Qed.
Lemma k_zoom_mmu {A} (m : prog mmuregs A) : ktyped any (zoom of_mmu m).
Proof. apply typed_zoom_any. by intros s t []. Qed.
Lemma k_zoom_ptlk {A} (m : prog lockst A) : ktyped any (zoom of_ptlk m).
Proof. apply typed_zoom_any. by intros s t [[] ? ? ? ? ?]. Qed.
Lemma k_zoom_pidlk {A} (m : prog lockst A) : ktyped any (zoom of_pidlk m).
Proof. apply typed_zoom_any. by intros s t [[] ? ? ? ? ?]. Qed.
Lemma k_zoom_files {A} i (Q : A → Prop) m : typed (files_typed (C := C)) Q m → ktyped Q (zoom (of_files i) m).
Proof.
  apply typed_zoom.
  - intros s [F [L T] [PL PT] _ _ _]. assert (X : proc_typed (default proc_zero (procs s !! i))).
    { destruct (procs s !! i) as [p|] eqn:E; [by eapply Forall_lookup_1, E|exact proc_zero_typed]. }
    destruct X. by split.
  - intros s t [F [L T] PT Hc Hi Hn] [F' L' T' D' W']. split; try done. cbn. apply alter_typed; [done|]. by intros x [].
Qed.

Lemma proc_at_typed i : ktyped (λ p, proc_typed p ∧ (i < NPROC)%nat) (proc_at i).
Proof.
  intros s a s' K. unfold proc_at. destruct (procs s !! i) as [p|] eqn:E; [|done]. intros [= <- <-]. destruct (ky_table _ K) as [L F].
  split; [done|]. split; [by eapply Forall_lookup_1, E|]. rewrite <- L. by eapply lookup_lt_Some.
Qed.
Lemma myproc_typed : ktyped (λ i, i < NPROC)%nat myproc.
Proof. intros s a s' K. unfold myproc. destruct (k_cur s) eqn:E; [|done]. intros [= <- <-]. split; [done|]. pose proof (ky_cur _ K) as B. by rewrite E in B. Qed.
Lemma upd_proc_typed i f : (∀ x, proc_typed x → proc_typed (f x)) → ktyped any (upd_proc i f).
Proof. intros Hf. apply typed_modify. intros s []. split; try done. by apply alter_typed. Qed.
Lemma upd_table_typed f : (∀ t, table_typed t → table_typed (f t)) → ktyped any (upd_table f).
Proof. intros Hf. apply typed_modify. intros s []. split; try done. by apply Hf. Qed.
Lemma first_proc_typed (P : proc → Prop) `{∀ x, Decision (P x)} : ktyped (below NPROC) (gets (λ s, first_proc P (procs s))).
Proof.
  apply typed_gets. intros s K. unfold first_proc. destruct (list_find P (procs s)) as [[i x]|] eqn:E; cbn; [|done].
  apply list_find_Some in E as (Hi & _). destruct (ky_table _ K) as [<- _]. by eapply lookup_lt_Some.
Qed.
End procs.
#[export] Hint Resolve k_zoom_mem k_zoom_kmem k_zoom_mmu k_zoom_ptlk k_zoom_pidlk proc_at_typed myproc_typed first_proc_typed : typed.
#[export] Hint Extern 1 (typed _ _ (zoom of_kfs _)) => (apply k_zoom_fs; typeclasses eauto 3 with typed nocore) : typed.
#[export] Hint Extern 1 (typed _ _ (zoom (of_files _) _)) => (apply k_zoom_files; typeclasses eauto 3 with typed nocore) : typed.
#[export] Hint Extern 1 (typed _ _ (upd_proc _ _)) =>
  (apply upd_proc_typed; intros ? ?; solve [cbv beta in *; destruct_and?; repeat match goal with X : proc_typed _ |- _ => destruct X end; by split | exact proc_zero_typed]) : typed.

Section routines.
Context {C : Type} `{BlockCache C}.
Context (cswitch : prog (kst C) unit) (forkret : Z) (proc_addr : nat → Z) (fuel : nat).
Context (Hsw : typed (kst_typed (C := C)) any cswitch).
Implicit Types (i : nat).

Abbreviation ktyped Q m := (typed (kst_typed (C := C)) Q m).

Lemma tf_set_typed tf k v : ktyped any (tf_set tf k v).
Proof. apply k_zoom_mem. Qed.
Lemma tf_get_typed tf k : ktyped any (tf_get tf k).
Proof. apply typed_gets_any. Qed.
Lemma tf_copy_typed a b : ktyped any (tf_copy a b).
Proof. unfold tf_copy. typed_tac. Qed.
Lemma lock_procs_typed : ktyped any lock_procs.
Proof. apply k_zoom_ptlk. Qed.
Lemma unlock_procs_typed : ktyped any unlock_procs.
Proof. apply k_zoom_ptlk. Qed.
Lemma nextpid_typed : ktyped int (gets nextpid).
Proof. apply typed_gets. by intros s []. Qed.
Lemma init_typed : ktyped (below NPROC) (gets initproc).
Proof. apply typed_gets. by intros s []. Qed.
#[local] Hint Resolve tf_set_typed tf_get_typed tf_copy_typed lock_procs_typed unlock_procs_typed nextpid_typed init_typed : typed.

Lemma newpid_typed : ktyped int newpid.
Proof. unfold newpid. typed_tac; [|done]. apply typed_modify. intros s []. split; try done. apply i32_bound. Qed.
#[local] Hint Resolve newpid_typed : typed.
Lemma pget_typed pid : ktyped (below NPROC) (pget pid).
Proof. unfold pget. typed_tac. done. Qed.
Lemma newproc_typed : ktyped (below NPROC) (newproc forkret proc_addr).
Proof. unfold newproc. typed_tac; done. Qed.
Lemma freeproc_typed i : ktyped any (freeproc i).
Proof. unfold freeproc. typed_step. typed_tac. Qed.
#[local] Hint Resolve newproc_typed pget_typed freeproc_typed : typed.
Lemma getpid_typed : ktyped any getpid.
Proof. unfold getpid. typed_tac. Qed.

Lemma dup_files_typed cnt : ∀ fd p new, ktyped any (dup_files cnt fd p new).
Proof.
  induction cnt as [|cnt IH]; intros fd p new; cbn [dup_files]; [typed_tac|]. typed_step.
  apply typed_bind with (R := any); [|intros ? _; apply IH]. destruct H0 as [X _].
  assert (Hb : below NFILE (default None (p_ofile a !! fd))).
  { destruct (p_ofile a !! fd) as [o|] eqn:E; [|done]. destruct X as [[_ D] _ _ _]. by eapply Forall_lookup_1, E. }
  destruct (default None (p_ofile a !! fd)) as [f|]; [|typed_tac].
  eapply typed_bind; [apply k_zoom_files; by apply dup_file_typed|]. intros g Hg. apply upd_proc_typed.
  intros x [[D1 D2] W P N]. split; try done. split; cbn; [by rewrite length_insert|by apply Forall_insert].
Qed.
#[local] Hint Resolve dup_files_typed : typed.

Lemma fork_typed : ktyped any (fork forkret proc_addr).
Proof. unfold fork. typed_tac. Qed.
Lemma clone_typed fn st : ktyped any (clone forkret proc_addr fn st).
Proof. unfold clone. typed_tac. Qed.
Lemma killproc_typed p sig : ktyped any (killproc p sig).
Proof. unfold killproc. typed_tac. Qed.
#[local] Hint Resolve killproc_typed : typed.
Lemma kill_typed pid sig : ktyped any (kill pid sig).
Proof. unfold kill. typed_tac. Qed.
Lemma close_all_typed cnt : ∀ fd i, ktyped any (close_all cnt fd i).
Proof. induction cnt as [|cnt IH]; intros fd i; cbn [close_all]; typed_tac. Qed.
#[local] Hint Resolve close_all_typed : typed.
Lemma exitproc_typed {A} (Q : A → Prop) i r : ktyped Q (exitproc cswitch i r).
Proof.
  unfold exitproc. typed_tac. apply upd_table_typed. intros t. by apply exit_table_typed.
Qed.
#[local] Hint Resolve exitproc_typed : typed.
Lemma exit_typed {A} (Q : A → Prop) r : ktyped Q (exit cswitch r).
Proof. unfold exit. typed_tac. Qed.
Lemma sigcheck_typed i : ktyped any (sigcheck cswitch i).
Proof. unfold sigcheck. typed_tac. Qed.
#[local] Hint Resolve sigcheck_typed : typed.
Lemma sleep_procs_typed ch : ktyped any (sleep_procs cswitch ch).
Proof. unfold sleep_procs. typed_tac. Qed.
Lemma yield_typed : ktyped any (yield cswitch).
Proof. unfold yield. typed_tac. Qed.
Lemma wakeup_typed ch : ktyped any (wakeup ch).
Proof. unfold wakeup. typed_tac. apply upd_table_typed. intros t. apply wakeup_table_typed. Qed.
Lemma reap_typed i j status : ktyped any (reap proc_addr i j status).
Proof. unfold reap. typed_tac. Qed.
#[local] Hint Resolve sleep_procs_typed reap_typed : typed.
Lemma wait_loop_typed turns : ∀ cond i status, ktyped any (wait_loop cswitch proc_addr turns cond i status).
Proof. induction turns as [|turns IH]; intros cond i status; cbn [wait_loop]; typed_tac. Qed.
#[local] Hint Resolve wait_loop_typed : typed.
Lemma wait_typed turns status : ktyped any (wait cswitch proc_addr turns status).
Proof. unfold wait. typed_tac. Qed.
Lemma waitpid_typed turns pid status : ktyped any (waitpid cswitch proc_addr turns pid status).
Proof. unfold waitpid. typed_tac. Qed.
Lemma sbrk_typed incr : ktyped any (sbrk incr).
Proof. unfold sbrk. typed_tac. Qed.

Lemma schedule_in_typed i : ktyped any (schedule_in i).
Proof.
  unfold schedule_in. typed_tac. apply typed_modify. intros s []. split; try done. by destruct H0.
Qed.
Lemma schedule_out_typed : ktyped any schedule_out.
Proof. unfold schedule_out. typed_tac. apply typed_modify. by intros s []. Qed.
#[local] Hint Resolve schedule_in_typed schedule_out_typed : typed.
Lemma schedule_loop_typed cnt : ∀ i, ktyped any (schedule_loop cswitch cnt i).
Proof. induction cnt as [|cnt IH]; intros i; cbn [schedule_loop]; typed_tac. Qed.
#[local] Hint Resolve schedule_loop_typed : typed.
Lemma schedule_turn_typed : ktyped any (schedule_turn cswitch).
Proof. unfold schedule_turn. typed_tac. apply typed_modify. by intros s [[] ? ? ? ? ?]. Qed.
Lemma k_path2inode c path : below NINODE c → ktyped (below NINODE) (zoom of_kfs (ext2_path2inode c path)).
Proof. intros Hc. apply k_zoom_fs. by apply path2inode_typed. Qed.
#[local] Hint Extern 1 (typed _ _ (zoom of_kfs (ext2_path2inode None _))) => (apply k_path2inode; exact I) : typed.
Lemma schedule_tail_typed i : ktyped any (schedule_tail i).
Proof.
  unfold schedule_tail. typed_tac.
  apply typed_modify. by intros s [].
Qed.

(** [exec] *)
Lemma load_loop_typed n : ∀ pgt va i so fs p, ktyped any (load_loop n pgt va i so fs p).
Proof. induction n as [|n IH]; intros pgt va i so fs p; cbn [load_loop]; typed_tac. Qed.
#[local] Hint Resolve load_loop_typed : typed.
Lemma load_prg_typed pgt va i so fs : ktyped any (load_prg pgt va i so fs).
Proof. unfold load_prg. typed_tac. Qed.
#[local] Hint Resolve load_prg_typed : typed.
Lemma load_segments_typed n : ∀ ph pgt i off ms, ktyped any (load_segments n ph pgt i off ms).
Proof. induction n as [|n IH]; intros ph pgt i off ms; cbn [load_segments]; typed_tac. Qed.
Lemma push_args_typed n : ∀ argv sb top sp argc us, ktyped any (push_args fuel n argv sb top sp argc us).
Proof. induction n as [|n IH]; intros argv sb top sp argc us; cbn [push_args]; typed_tac. Qed.
Lemma exec_fail_typed pgt : ktyped any (exec_fail pgt).
Proof. unfold exec_fail. typed_tac. Qed.
#[local] Hint Resolve load_segments_typed push_args_typed exec_fail_typed : typed.
Lemma exec_typed eh ph path argv : ktyped any (exec fuel eh ph path argv).
Proof.
  unfold exec. typed_step. typed_step. eapply typed_bind; [apply k_path2inode; by destruct H1 as [[] _]|].
  intros ino _. typed_tac.
Qed.
End routines.
#[export] Hint Resolve read_typed write_typed : typed.

Section syscalls.
Context {C : Type} `{BlockCache C}.
Context (cswitch : prog (kst C) unit) (forkret : Z) (proc_addr : nat → Z) (fuel turns : nat).
Context (cdevsw : list (cdev C)) (eh ph st1 pad aarch64_os : Z).
Context (Hsw : typed (kst_typed (C := C)) any cswitch) (Hd : Forall cdev_typed cdevsw).

Abbreviation ktyped Q m := (typed (kst_typed (C := C)) Q m).

Lemma by_me_typed {A} (m : prog (filest C) A) : typed (files_typed (C := C)) any m → ktyped any (by_me m).
Proof. intros Hm. unfold by_me. typed_step. by apply k_zoom_files. Qed.
#[local] Hint Extern 1 (typed _ _ (by_me _)) => (apply by_me_typed; typeclasses eauto 3 with typed nocore) : typed.
Lemma string_at_typed a : ktyped any (Syscall.string_at fuel a).
Proof. unfold Syscall.string_at. typed_tac. Qed.
Lemma uname_typed u : ktyped any (uname aarch64_os u).
Proof. unfold uname. typed_tac. Qed.
#[local] Hint Resolve string_at_typed uname_typed getpid_typed exit_typed fork_typed wait_typed exec_typed clone_typed waitpid_typed
  sbrk_typed kill_typed : typed.

Lemma perform_typed c : ktyped any (perform cswitch forkret proc_addr fuel turns cdevsw eh ph st1 pad aarch64_os c).
Proof. destruct c; cbn [perform]; typed_tac. Qed.

Lemma syscall_typed tf : ktyped any (syscall cswitch forkret proc_addr fuel turns cdevsw eh ph st1 pad aarch64_os tf).
Proof.
  intros s a s' K. rewrite syscall_run. destruct (asked s tf) as [c|].
  - eapply (typed_bind _ any any); [apply perform_typed| |exact K]. intros r _. apply tf_set_typed.
  - by apply tf_set_typed.
Qed.
End syscalls.

Module TypingProps.


(** A process that calls [dup] on its descriptor 0, and its state before. *)
Definition caller : proc := set_files (Some 7%nat) (<[0%nat := Some 0%nat]> (replicate NOFILE None)) false (set_state RUNNING proc_zero).
Definition dup_machine : kst (bcache memdisk) :=
  Kst (FsSt (fs_cache (fl_fs FileCallProps.one_file)) lock_init (replicate NINODE (set_size 0 FileProps.two_blocks))
      (sb (fl_fs FileCallProps.one_file)) (st64 ∅ (0x100 + 8 * 6) SYS_dup))
    lock_init (ftable FileCallProps.one_file) lock_init 0 lock_init (caller :: replicate 255 proc_zero) lock_init 7 (Some 0%nat)
    (Mmu 0 0) (Some 0%nat) false (λ _, true).

Lemma dup_machine_typed : kst_typed dup_machine.
Proof.
  assert (Hb : ∀ i n : nat, (i < n)%nat → below n (Some i)) by done.
  split; [split; [done|by apply Forall_replicate]| | |apply Hb; unfold NPROC; lia|apply Hb; unfold NPROC; lia|done].
  - split; [done|]. apply Forall_insert; [by apply Forall_replicate|]. split; cbn; [lia|unfold NINODE; lia|lia].
  - split; [done|]. constructor; [|apply Forall_replicate, proc_zero_typed]. split; [|apply Hb; unfold NINODE; lia|done|done].
    split; [done|]. apply Forall_insert; [by apply Forall_replicate|apply Hb; unfold NFILE; lia].
Qed.

End TypingProps.
