(* ===== verification/Trap.v ===== *)
(** * Exceptions and interrupts (kernel/trap.c)

    The handlers that vectortable.S enters with the saved registers at [tf].
    The registers that describe the exception are arguments; the interrupt
    controller's acknowledge and end-of-interrupt, and what the drivers'
    handlers do to this state, are parameters.  Messages are left out. *)

From S2P Require Import Prelude Mem Bytes KString Spinlock Layout Kalloc PageTable Reclaim Buf Irq Fs Ext2 Uaccess File Proc ProcSpec ProcRun Syscall.
Import Spin.
Open Scope Z_scope.
Open Scope prog_scope.

(** Exception classes, bits 31 to 26 of ESR_EL1. *)
Definition exception_class (esr : Z) : Z := Z.land (Z.shiftr esr 26) 0x3f.

Section traps.
Context {C : Type} `{BlockCache C}.

Abbreviation kprog := (prog (kst C)).

(** [fault_handler] is the address of [copyio_fault], the only value the
    member has but NULL. *)
Context (cswitch : kprog unit) (proc_addr : nat → Z) (fault_handler : Z) (syscall : Z → kprog unit).
Context (irqhandler : list irqfn) (run_irq : irqfn → kprog unit) (gic_iar : kprog Z) (gic_eoi : Z → kprog unit).

Definition fault_die (p : option nat) : kprog unit :=
  _ <- killproc p 1 ;; ret tt.

Definition handle_data_abort (tf : Z) (user : bool) : kprog unit :=
  p <- gets k_cur ;;
  h <- match p with Some i => x <- proc_at i ;; ret (p_handler x) | None => ret false end ;;
  if h : bool then
    match p with
    | Some i => tf_set tf TF_ELR fault_handler ;; tf_set tf TF_X0 (proc_addr i)
    | None => ret tt
    end
  else if user then fault_die p
  else panic "data abort EL1".

Definition handle_inst_abort : kprog unit := panic "instruction abort".

Definition ksync_handler (esr tf : Z) : kprog unit :=
  let ec := exception_class esr in
  if ec =? 0x25 then handle_data_abort tf false
  else if ec =? 0x07 then ret tt
  else if ec =? 0x26 then panic "sp alignment fault"
  else if ec =? 0x21 then handle_inst_abort
  else panic "unknown ec: %d".

Definition usync_handler (esr tf : Z) : kprog unit :=
  let ec := exception_class esr in
  (if ec =? 0x15 then syscall tf
   else if ec =? 0x07 then ret tt
   else if ec =? 0x26 then panic "sp alignment fault"
   else if ec =? 0x24 then handle_data_abort tf true
   else if ec =? 0x20 then handle_inst_abort
   else panic "unknown ec: %d") ;;
  i <- myproc ;;
  sigcheck cswitch i.

(** [if(irqhandler[intid]) irqhandler[intid]();] *)
Definition call_irq (intid : Z) : kprog unit :=
  match irqhandler !! Z.to_nat intid with Some f => run_irq f | None => fault "irqhandler[]" end.

Definition kirq_handler : kprog unit :=
  iar <- gic_iar ;;
  let intid := Z.land iar 0x3ff in
  if intid =? 1023 then ret tt else
  call_irq intid ;;
  gic_eoi iar.

Definition uirq_handler : kprog unit :=
  p <- gets k_cur ;;
  match p with
  | None => panic "?"
  | Some i =>
      iar <- gic_iar ;;
      let intid := Z.land iar 0x3ff in
      if intid =? 1023 then ret tt else
      call_irq intid ;;
      gic_eoi iar ;;
      x <- proc_at i ;;
      (if negb (nz (p_sig x)) && (intid =? TIMER_IRQ) then yield cswitch else ret tt) ;;
      sigcheck cswitch i
  end.

Definition unknownint : kprog unit := panic "unknown interrupt: elr: %p arg: %d".
Definition debug_trap : kprog unit := panic "debug trap".
End traps.

(** ** What the handlers do *)

Section facts.
Context {C : Type} {Hc : BlockCache C} {Hok : BlockCacheOk C}.
Context (cswitch : prog (kst C) unit) (proc_addr : nat → Z) (fault_handler : Z) (syscall : Z → prog (kst C) unit).
Implicit Types (s : kst C) (p : proc) (i : nat).

(** A process that was sent a signal exits instead of returning to user mode. *)
Lemma sigcheck_kill i p s : procs s !! i = Some p → p_sig p ≠ 0 →
  sigcheck cswitch i s = exitproc cswitch i 1 (put_procs (<[i := set_sig 0 p]> (procs s)) s).
Proof.
  intros Hi Hs. unfold sigcheck. rewrite (pbind_ok _ _ _ _ _ (proc_at_run i p s Hi)), (proj2 (nz_true _) Hs).
  by rewrite (pbind_ok _ _ _ _ _ (upd_proc_run i _ p s Hi)).
Qed.

Lemma sigcheck_go i p s : procs s !! i = Some p → p_sig p = 0 → sigcheck cswitch i s = Ret tt s.
Proof. intros Hi Hs. unfold sigcheck. by rewrite (pbind_ok _ _ _ _ _ (proc_at_run i p s Hi)), Hs. Qed.

(** A fault of the user program, with no copy under way. *)
Lemma user_abort_run tf i p s :
  ready s → k_cur s = Some i → procs s !! i = Some p → p_handler p = false →
  handle_data_abort proc_addr fault_handler tf true s =
    Ret tt (put_procs (<[i := set_state (if decide (p_state p = SLEEPING) then RUNNABLE else p_state p) (set_sig 1 p)]> (procs s)) (settle s)).
Proof.
  intros R Hcur Hi Hh. unfold handle_data_abort. prog_step. rewrite Hcur.
  assert (E : (x <- proc_at i ;; ret (p_handler x))%prog s = Ret false s) by (by rewrite (pbind_ok _ _ _ _ _ (proc_at_run i p s Hi)), Hh).
  rewrite (pbind_ok _ _ _ _ _ E). unfold fault_die. by rewrite (pbind_ok _ _ _ _ _ (killproc_run i p 1 s R Hi)).
Qed.
End facts.

Section owning.
Context {C : Type} {Hc : BlockCache C} {Hok : BlockCacheOk C}.
Implicit Types (s : kst C) (p : proc) (fl : list Z) (G : Z → Prop).

(** What a process owns does not depend on the rest of the kernel. *)
Lemma owns_ext s s' p p' fl G :
  hart_ok (k_hart s') → k_klk s' = k_klk s → k_freelist s' = k_freelist s → k_mem s' = k_mem s →
  p_th p' = p_th p → p_pgt p' = p_pgt p → p_size p' = p_size p → owns s p fl G → owns s' p' fl G.
Proof.
  intros Hh E1 E2 E3 P1 P2 P3 [(Ht & I & HG)|(Ht & T & qs & q & [I Hpt Hd] & Sp & Hsz & HG)].
  - left. rewrite P1. split_and!; [done|by eapply kinv_hart|done].
  - right. rewrite P1, P2, P3, E3. split; [done|]. exists T, qs, q. split_and!; try done.
    split; [by eapply kinv_hart| |done]. cbn in *. by rewrite E3.
Qed.
End owning.

Module TrapProps.

Section claims.
Context {C : Type} {Hc : BlockCache C} {Hok : BlockCacheOk C}.
Implicit Types (s : kst C) (p : proc) (i : nat) (fl : list Z) (G : Z → Prop).


(** C37: a fault inside a copy is an error of the copy. A data abort of the
    kernel while the current process has its fault handler set changes two
    words of the trap frame, so that the exception return enters the handler
    with the process in [x0]; with no handler set the kernel panics. *)
Theorem kernel_fault_recovers proc_addr fault_handler esr tf i p s :
  exception_class esr = 0x25 → k_cur s = Some i → procs s !! i = Some p →
  (p_handler p = true → ∃ m, ksync_handler proc_addr fault_handler esr tf s = Ret tt (put_mem m s) ∧
     ld64 m (tf + 8 * TF_ELR) = u64 fault_handler ∧ ld64 m (tf + 8 * TF_X0) = u64 (proc_addr i) ∧
     ∀ a, ¬ (tf <= a < tf + 8) → ¬ (tf + 248 <= a < tf + 256) → rd8 m a = rd8 (k_mem s) a) ∧
  (p_handler p = false → ksync_handler proc_addr fault_handler esr tf s = Panic "data abort EL1").
Proof.
  intros Hec Hcur Hi. unfold ksync_handler. rewrite Hec. cbn [Z.eqb Pos.eqb]. unfold handle_data_abort. prog_step. rewrite Hcur.
  assert (E : (x <- proc_at i ;; ret (p_handler x))%prog s = Ret (p_handler p) s) by (by rewrite (pbind_ok _ _ _ _ _ (proc_at_run i p s Hi))).
  rewrite (pbind_ok _ _ _ _ _ E). split; intros ->; [|done]. unfold TF_ELR, TF_X0.
  eexists. split; [reflexivity|]. cbn [k_mem put_mem put_fs k_fs fs_mem]. split_and!.
  - rewrite (ld_st_disj 8 8) by lia. apply ld_st_eq.
  - apply ld_st_eq.
  - intros a H1 H2. etransitivity; [apply rd8_st_other; lia|]. apply (rd8_st_other 8 (k_mem s)). lia.
Qed.

(** Preemption. When the timer interrupts a user program, the timer's
    handler runs, the interrupt is ended at the controller, and then the process
    gives up the CPU, RUNNABLE and with [proctable.lk] held; when it is switched
    to again it releases the lock and goes back to user mode, unless it was sent
    a signal meanwhile. A spurious interrupt changes nothing. *)
Theorem timer_preempts cswitch irqhandler run_irq gic_iar gic_eoi i p s s1 s2 s3 h iar :
  k_cur s = Some i → gic_iar s = Ret iar s1 →
  (Z.land iar 0x3ff = 1023 → uirq_handler cswitch irqhandler run_irq gic_iar gic_eoi s = Ret tt s1) ∧
  (Z.land iar 0x3ff = TIMER_IRQ → irqhandler !! Z.to_nat TIMER_IRQ = Some TimerIntr →
   run_irq TimerIntr s1 = Ret tt s2 → gic_eoi iar s2 = Ret tt s3 → ready s3 → k_cur s3 = Some i →
   procs s3 !! i = Some p → p_sig p = 0 →
   let away := put_procs (<[i := set_state RUNNABLE p]> (procs s3)) (in_pt s3) in
   ∀ s4 p4, cswitch away = Ret tt s4 → inside h s4 → procs s4 !! i = Some p4 →
     uirq_handler cswitch irqhandler run_irq gic_iar gic_eoi s =
       (if decide (p_sig p4 = 0) then Ret tt (left_pt h s4)
        else exitproc cswitch i 1 (put_procs (<[i := set_sig 0 p4]> (procs s4)) (left_pt h s4)))).
Proof.
  intros Hcur Hg. unfold uirq_handler. prog_step. rewrite Hcur, (pbind_ok _ _ _ _ _ Hg). split.
  - by intros ->.
  - intros Hid Hirq Hrun Heoi R Hcur3 Hi Hsig s4 p4 Hsw Hin Hi4. rewrite Hid. change (TIMER_IRQ =? 1023) with false.
    cbv iota.
    unfold call_irq. rewrite Hirq, (pbind_ok _ _ _ _ _ Hrun), (pbind_ok _ _ _ _ _ Heoi), (pbind_ok _ _ _ _ _ (proc_at_run i p s3 Hi)), Hsig.
    change (negb (nz 0) && (TIMER_IRQ =? TIMER_IRQ)) with true. cbv iota. assert (Ey : yield cswitch s3 = Ret tt (left_pt h s4)).
    { unfold yield. rewrite (pbind_ok _ _ _ _ _ (myproc_run i s3 Hcur3)).
      rewrite (pbind_ok _ _ _ _ _ (lock_procs_run s3 (rd_hart _ R) (rd_ptlk _ R))).
      rewrite (pbind_ok _ _ _ _ _ (upd_proc_run i (set_state RUNNABLE) p (in_pt s3) Hi)).
      rewrite (pbind_ok _ _ _ _ _ Hsw). by apply unlock_inside. }
    rewrite (pbind_ok _ _ _ _ _ Ey). case_decide as Hz; [by eapply sigcheck_go|].
    exact (sigcheck_kill cswitch i p4 (left_pt h s4) Hi4 Hz).
Qed.
End claims.

(** *** Witnesses *)


(** A machine in the middle of a copy, and one at rest. *)
Definition small (h : bool) : kst (bcache memdisk) :=
  machine (KMem (Hart 0 0 false true) lock_init 0 ∅)
    [set_files None (replicate NOFILE None) h (entry_of RUNNING 7 None 0x9000)] 0.

Lemma kernel_fault_recovers_witness :
  ∃ m, ksync_handler (λ _, 0x2000) 0x4000 0x96000046 0x100 (small true) = Ret tt (put_mem m (small true)) ∧
    ld64 m (0x100 + 8 * TF_ELR) = 0x4000 ∧ ld64 m (0x100 + 8 * TF_X0) = 0x2000.
Proof.
  destruct (kernel_fault_recovers (λ _, 0x2000) 0x4000 0x96000046 0x100 0
    (set_files None (replicate NOFILE None) true (entry_of RUNNING 7 None 0x9000)) (small true)) as [H _];
    [reflexivity|reflexivity|reflexivity|].
  destruct (H eq_refl) as (m & E & E1 & E2 & _). exists m. split; [exact E|]. split; [exact E1|exact E2].
Defined.

(** Another process runs meanwhile. *)
Definition switch_back : prog (kst (bcache memdisk)) unit := modify (λ s, put_procs (alter (set_state RUNNING) 0%nat (procs s)) s).

Lemma timer_preempts_witness :
  ∃ s', uirq_handler switch_back (<[27%nat := TimerIntr]> trap_init) (λ _, ret tt) (ret 27) (λ _, ret tt) (small false) = Ret tt s' ∧
    p_state <$> procs s' !! 0%nat = Some RUNNING.
Proof.
  set (p := set_files None (replicate NOFILE None) false (entry_of RUNNING 7 None 0x9000)).
  destruct (timer_preempts switch_back (<[27%nat := TimerIntr]> trap_init) (λ _, ret tt) (ret 27) (λ _, ret tt) 0 p
    (small false) (small false) (small false) (small false) (k_hart (small false)) 27) as [_ H]; [reflexivity|reflexivity|].
  assert (R : ready (small false)) by apply machine_ready.
  assert (In : inside (k_hart (small false)) (put_procs [p] (in_pt (small false)))) by (apply inside_procs, inside_in_pt; [exact R|reflexivity]).
  specialize (H eq_refl eq_refl eq_refl eq_refl R eq_refl eq_refl eq_refl (put_procs [p] (in_pt (small false))) p eq_refl In eq_refl).
  eexists. split; [exact H|]. reflexivity.
Defined.
End TrapProps.
