(* ===== verification/Sched.v ===== *)
(** * All processes together: the transition system of the process table

    Every critical section of [proctable.lk] in proc.c is one transition: the
    lock makes them atomic (file Spinlock).  The invariants say that no process
    runs on two CPUs, that numbers are distinct, that no parent pointer dangles
    and that no exit is missed by a waiting parent. *)

From S2P Require Import Prelude Spinlock Buf Fs File Proc.
From stdpp Require Import relations.
Open Scope Z_scope.

(** The table, the process of each CPU, [pidalloc.pid], [initproc]; of the
    processes: which slots [newproc] has taken but not numbered yet, and which
    processes went to sleep in [wait]. *)
Record sys := Sys {
  tab : list proc;
  cpu : gmap nat nat;
  npid : Z;
  ini : option nat;
  unnamed : gset nat;
  waiting : gset nat
}.

Definition st_of (s : sys) (i : nat) : option procstate := p_state <$> tab s !! i.

(** A process that is neither being made nor gone. *)
Definition alive (p : proc) : bool :=
  match p_state p with RUNNING | RUNNABLE | SLEEPING => true | _ => false end.
Definition started (p : proc) : bool := alive p || bool_decide (p_state p = ZOMBIE).

Definition with_tab (t : list proc) (s : sys) : sys := Sys t (cpu s) (npid s) (ini s) (unnamed s) (waiting s).
Definition with_cpu (c : gmap nat nat) (s : sys) : sys := Sys (tab s) c (npid s) (ini s) (unnamed s) (waiting s).

Inductive step : sys → sys → Prop :=
(* newproc: the first unused slot, then its number *)
| st_alloc s i :
    first_proc (λ p, p_state p = UNUSED) (tab s) = Some i →
    step s (Sys (alter (set_state CREATED) i (tab s)) (cpu s) (npid s) (ini s) ({[ i ]} ∪ unnamed s) (waiting s))
| st_name s i :
    i ∈ unnamed s →
    step s (Sys (alter (set_pid (npid s)) i (tab s)) (cpu s) (npid s + 1) (ini s) (unnamed s ∖ {[ i ]}) (waiting s))
(* fork and clone, at their end; userproc_init *)
| st_start s c par i :
    cpu s !! c = Some par → st_of s i = Some CREATED → i ∉ unnamed s →
    step s (with_tab (alter (λ p, set_parent (Some par) (set_state RUNNABLE p)) i (tab s)) s)
| st_init s i :
    ini s = None → st_of s i = Some CREATED → i ∉ unnamed s → p_pid <$> tab s !! i = Some 0 →
    step s (Sys (alter (set_state RUNNABLE) i (tab s)) (cpu s) (npid s) (Some i) (unnamed s) (waiting s))
(* fork, when it fails *)
| st_drop s i :
    st_of s i = Some CREATED → i ∉ unnamed s → step s (with_tab (alter (λ _, proc_zero) i (tab s)) s)
(* schedule, and the ways back to it *)
| st_dispatch s c i :
    cpu s !! c = None → st_of s i = Some RUNNABLE →
    step s (with_cpu (<[c := i]> (cpu s)) (with_tab (alter (set_state RUNNING) i (tab s)) s))
| st_yield s c i :
    cpu s !! c = Some i →
    step s (with_cpu (delete c (cpu s)) (with_tab (alter (set_state RUNNABLE) i (tab s)) s))
| st_sleep s c i ch :
    cpu s !! c = Some i →
    step s (Sys (alter (λ p, set_state SLEEPING (set_chan ch p)) i (tab s)) (delete c (cpu s)) (npid s) (ini s)
              (unnamed s) (waiting s ∖ {[ i ]}))
| st_wait s c i :
    cpu s !! c = Some i → find_zombie (λ p, p_parent p = Some i) (tab s) = None →
    step s (Sys (alter (λ p, set_state SLEEPING (set_chan (ChanProc i) p)) i (tab s)) (delete c (cpu s)) (npid s)
              (ini s) (unnamed s) ({[ i ]} ∪ waiting s))
| st_awake s c i :
    cpu s !! c = Some i → step s (with_tab (alter (set_chan NoChan) i (tab s)) s)
(* wakeup, by a process or an interrupt; killproc *)
| st_wakeup s ch : step s (with_tab (wakeup_acquired ch (tab s)) s)
| st_kill s i : st_of s i = Some SLEEPING → step s (with_tab (alter (set_state RUNNABLE) i (tab s)) s)
(* exitproc, and wait of anybody for it *)
| st_exit s c i :
    cpu s !! c = Some i → (∀ p, tab s !! i = Some p → p_pid p ≠ 0) →
    step s (with_cpu (delete c (cpu s)) (with_tab (exit_table (ini s) i (tab s)) s))
| st_reap s c i j :
    cpu s !! c = Some i → st_of s j = Some ZOMBIE → step s (with_tab (alter (λ _, proc_zero) j (tab s)) s).

(** After [proc_init]. *)
Definition boot : sys := Sys (replicate NPROC proc_zero) ∅ 0 None ∅ ∅.

Definition reachable (s : sys) : Prop := rtc step boot s.

(** *** The invariant, in three parts *)

(** Slots, numbers and parents: [n] is the next number, [u] the slots without
    one. *)
Record tab_ok (t : list proc) (n : Z) (ini : option nat) (u : gset nat) : Prop := {
  to_free : ∀ i p, t !! i = Some p → p_state p = UNUSED → p = proc_zero;
  to_new : ∀ i p, t !! i = Some p → p_state p = CREATED → p_parent p = None;
  to_unnamed : ∀ i, i ∈ u → ∃ p, t !! i = Some p ∧ p_state p = CREATED;
  to_named : ∀ i p, t !! i = Some p → p_state p ≠ UNUSED → i ∉ u → 0 <= p_pid p < n;
  to_pid : ∀ i j p q, t !! i = Some p → t !! j = Some q → p_state p ≠ UNUSED → p_state q ≠ UNUSED →
    i ∉ u → j ∉ u → p_pid p = p_pid q → i = j;
  to_next : 0 <= n;
  to_parent : ∀ i p q, t !! i = Some p → started p = true → p_parent p = Some q →
    ∃ r, t !! q = Some r ∧ alive r = true;
  to_orphan : ∀ i p, t !! i = Some p → started p = true → ini ≠ Some i → is_Some (p_parent p);
  to_ini : ∀ i, ini = Some i → ∃ p, t !! i = Some p ∧ alive p = true ∧ p_pid p = 0;
  to_noini : ini = None → ∀ i p, t !! i = Some p → started p = false
}.

(** A process runs exactly when one CPU, and only one, has it. *)
Record cpu_ok (t : list proc) (c : gmap nat nat) : Prop := {
  co_run : ∀ k i, c !! k = Some i → ∃ p, t !! i = Some p ∧ p_state p = RUNNING;
  co_one : ∀ k l i, c !! k = Some i → c !! l = Some i → k = l;
  co_cpu : ∀ i p, t !! i = Some p → p_state p = RUNNING → ∃ k, c !! k = Some i
}.

(** Who sleeps in [wait], initproc excepted, has no zombie child. *)
Definition wait_ok (t : list proc) (ini : option nat) (w : gset nat) : Prop :=
  ∀ i p, i ∈ w → t !! i = Some p → p_state p = SLEEPING → ini ≠ Some i →
    p_chan p = ChanProc i ∧ ∀ j q, t !! j = Some q → p_state q = ZOMBIE → p_parent q ≠ Some i.

Record inv (s : sys) : Prop := {
  iv_tab : tab_ok (tab s) (npid s) (ini s) (unnamed s);
  iv_cpu : cpu_ok (tab s) (cpu s);
  iv_wait : wait_ok (tab s) (ini s) (waiting s)
}.

Section tables.
Implicit Types (t : list proc) (p q r : proc) (i j k : nat) (n : Z) (u w : gset nat) (c : gmap nat nat).

Lemma lookup_alter_proc f t i j p :
  alter f i t !! j = Some p ↔ (j = i ∧ ∃ q, t !! i = Some q ∧ p = f q) ∨ (j ≠ i ∧ t !! j = Some p).
Proof.
  rewrite list_lookup_alter. case_decide as E.
  - subst j. rewrite fmap_Some. split; [intros (q & ? & ?); left; eauto|].
    intros [(_ & q & ? & ?)|[? _]]; [eauto|done].
  - split; [intros; right; split; congruence|]. intros [[? _]|[_ ?]]; [congruence|done].
Qed.

Lemma first_proc_some (P : proc → Prop) `{∀ p, Decision (P p)} t i :
  first_proc P t = Some i → ∃ p, t !! i = Some p ∧ P p.
Proof.
  unfold first_proc. intros ([j p] & E & ->)%fmap_Some. apply list_find_Some in E as (Hj & Hp & _). eauto.
Qed.

Lemma first_proc_none (P : proc → Prop) `{∀ p, Decision (P p)} t :
  first_proc P t = None → ∀ i p, t !! i = Some p → ¬ P p.
Proof.
  unfold first_proc. intros E%fmap_None i p Hi. apply list_find_None in E. by eapply Forall_lookup_1 in E.
Qed.

(** *** Steps that move processes between their states while they live *)

Inductive class := Free | New | Live | Dead.
Definition class_of p : class :=
  match p_state p with UNUSED => Free | CREATED => New | ZOMBIE => Dead | _ => Live end.

(** [p'] is [p] in another state of the same class, with another channel. *)
Definition same_life p p' : Prop :=
  p_pid p' = p_pid p ∧ p_parent p' = p_parent p ∧ class_of p' = class_of p ∧ (p_state p = UNUSED → p' = p).

Definition shape t t' : Prop := ∀ j, option_Forall2 same_life (t !! j) (t' !! j).

Lemma same_life_refl p : same_life p p.
Proof. done. Qed.

Lemma shape_some t t' j p' : shape t t' → t' !! j = Some p' → ∃ p, t !! j = Some p ∧ same_life p p'.
Proof. intros S Hj. specialize (S j). rewrite Hj in S. inversion S. eauto. Qed.

Lemma shape_some_r t t' j p : shape t t' → t !! j = Some p → ∃ p', t' !! j = Some p' ∧ same_life p p'.
Proof. intros S Hj. specialize (S j). rewrite Hj in S. inversion S. eauto. Qed.

Lemma shape_alter f t i : (∀ p, t !! i = Some p → same_life p (f p)) → shape t (alter f i t).
Proof.
  intros Hf j. rewrite list_lookup_alter. case_decide as E.
  - subst j. destruct (t !! i) eqn:Hi; constructor. by apply Hf.
  - destruct (t !! j); constructor. apply same_life_refl.
Qed.

Lemma shape_fmap f t : (∀ p, same_life p (f p)) → shape t (f <$> t).
Proof. intros Hf j. rewrite list_lookup_fmap. destruct (t !! j); constructor. apply Hf. Qed.

Lemma class_alive p p' : class_of p' = class_of p → alive p' = alive p ∧ started p' = started p.
Proof. unfold class_of, started, alive. by destruct (p_state p), (p_state p'). Qed.

Lemma class_state p p' x : x = UNUSED ∨ x = CREATED ∨ x = ZOMBIE → class_of p' = class_of p → p_state p' = x → p_state p = x.
Proof. unfold class_of. intros [-> |[-> | ->]] E Hx; rewrite Hx in E; by destruct (p_state p). Qed.

Lemma tab_ok_shape t t' n ini u : shape t t' → tab_ok t n ini u → tab_ok t' n ini u.
Proof.
  intros S [T1 T2 T3 T4 T5 T6 T7 T8 T9 T10].
  assert (X : ∀ j p', t' !! j = Some p' → ∃ p, t !! j = Some p ∧ same_life p p') by (intros; by eapply shape_some).
  assert (N : ∀ p p', same_life p p' → p_state p' ≠ UNUSED → p_state p ≠ UNUSED).
  { intros p p' (_ & _ & Ec & _) Hn Hp. apply Hn. symmetry in Ec. eapply class_state; [by left|exact Ec|done]. }
  split.
  - intros i p' (p & Hi & _ & _ & Ec & E)%X Hu. apply (class_state p) in Hu; [|by left|done].
    rewrite (E Hu). by apply (T1 i).
  - intros i p' (p & Hi & _ & -> & Ec & _)%X Hu. eapply T2; [done|]. eapply class_state; [by right; left|exact Ec|done].
  - intros i (p & Hi & Hp)%T3. destruct (shape_some_r _ _ _ _ S Hi) as (p' & Hi' & _ & _ & Ec & _).
    exists p'. split; [done|]. symmetry in Ec. eapply class_state; [by right; left|exact Ec|done].
  - intros i p' (p & Hi & L)%X Hu Hn. rewrite (proj1 L). eapply T4; eauto.
  - intros i j p' q' (p & Hi & L)%X (q & Hj & L2)%X Hu Hv Hni Hnj. rewrite (proj1 L), (proj1 L2). eapply T5; eauto.
  - done.
  - intros i p' q (p & Hi & _ & -> & Ec & _)%X Hs Hq. rewrite (proj2 (class_alive _ _ Ec)) in Hs.
    destruct (T7 _ _ _ Hi Hs Hq) as (r & Hr & Ha). destruct (shape_some_r _ _ _ _ S Hr) as (r' & Hr' & _ & _ & Ec' & _).
    exists r'. split; [done|]. by rewrite (proj1 (class_alive _ _ Ec')).
  - intros i p' (p & Hi & _ & -> & Ec & _)%X Hs. rewrite (proj2 (class_alive _ _ Ec)) in Hs. by eapply T8.
  - intros i (p & Hi & Ha & Hp)%T9. destruct (shape_some_r _ _ _ _ S Hi) as (p' & Hi' & E & _ & Ec & _).
    exists p'. split_and!; [done| |congruence]. by rewrite (proj1 (class_alive _ _ Ec)).
  - intros Hn i p' (p & Hi & _ & _ & Ec & _)%X. rewrite (proj2 (class_alive _ _ Ec)). by eapply T10.
Qed.

Lemma wake_life ch p : same_life p (wake ch p).
Proof.
  unfold wake. case_decide as E; [|apply same_life_refl]. destruct E as [E _]. split_and!; try done.
  - unfold class_of. simpl. by rewrite E.
  - by rewrite E.
Qed.

Lemma set_state_life p x : class_of (set_state x p) = class_of p → p_state p ≠ UNUSED → same_life p (set_state x p).
Proof. intros E Hp. by split_and!. Qed.
End tables.

(** *** Steps that create and remove processes *)

Section changes.
Implicit Types (t : list proc) (p q r : proc) (i j k : nat) (n : Z) (u w : gset nat) (c : gmap nat nat).

Ltac in_table Hj := apply lookup_alter_proc in Hj as [(-> & ? & ? & ->)|[? Hj]].

Lemma not_started p : p_state p = UNUSED ∨ p_state p = CREATED → started p = false.
Proof. unfold started, alive. by intros [-> | ->]. Qed.

Lemma alive_started p : alive p = true → started p = true.
Proof. unfold started. by intros ->. Qed.

(** Somebody's parent is not [j], which is not alive. *)
Lemma parent_other t n ini u i p k j q :
  tab_ok t n ini u → t !! i = Some p → started p = true → p_parent p = Some k → t !! j = Some q → alive q = false →
  k ≠ j ∧ ∃ r, t !! k = Some r ∧ alive r = true.
Proof.
  intros T Hi Hs Hk Hj Hq. destruct (to_parent _ _ _ _ T _ _ _ Hi Hs Hk) as (r & Hr & Ha).
  split; [|eauto]. intros ->. congruence.
Qed.

Lemma ini_other t n ini u i j q :
  tab_ok t n ini u → ini = Some i → t !! j = Some q → alive q = false → i ≠ j.
Proof. intros T Hi Hj Hq ->. destruct (to_ini _ _ _ _ T _ Hi) as (p & Hp & Ha & _). congruence. Qed.

(** A slot that is in use but not started gets contents [f q] of the same kind. *)
Lemma tab_alloc t n ini u i q :
  tab_ok t n ini u → t !! i = Some q → p_state q = UNUSED → tab_ok (alter (set_state CREATED) i t) n ini ({[ i ]} ∪ u).
Proof.
  intros T Hi Hq. pose proof (to_free _ _ _ _ T _ _ Hi Hq) as ->. split.
  - intros j p Hj Hp. in_table Hj; [done|by eapply (to_free _ _ _ _ T)].
  - intros j p Hj Hp. in_table Hj; [by simplify_eq|by eapply (to_new _ _ _ _ T)].
  - intros j [->%elem_of_singleton|Hj]%elem_of_union.
    + exists (set_state CREATED proc_zero). split; [|done]. apply lookup_alter_proc. left. eauto.
    + destruct (to_unnamed _ _ _ _ T _ Hj) as (p & Hp & Hs). exists p. split; [|done].
      apply lookup_alter_proc. right. split; [|done]. intros ->. congruence.
  - intros j p Hj Hp Hu. in_table Hj; [set_solver|]. eapply (to_named _ _ _ _ T); [done..|set_solver].
  - intros j k p q' Hj Hk Hp Hq' Hju Hku. in_table Hj; [set_solver|]. in_table Hk; [set_solver|].
    eapply (to_pid _ _ _ _ T); try done; set_solver.
  - apply T.
  - intros j p k Hj Hs Hk. in_table Hj; [by rewrite not_started in Hs by (by right)|].
    destruct (parent_other _ _ _ _ _ _ _ i proc_zero T Hj Hs Hk Hi) as [Hne (r & Hr & Ha)]; [done|].
    exists r. split; [|done]. apply lookup_alter_proc. by right.
  - intros j p Hj Hs. in_table Hj; [by rewrite not_started in Hs by (by right)|by apply (to_orphan _ _ _ _ T _ _ Hj)].
  - intros j Hj. destruct (to_ini _ _ _ _ T _ Hj) as (p & Hp & Ha & H0). exists p. split; [|done].
    apply lookup_alter_proc. right. split; [by eapply ini_other|done].
  - intros Hn j p Hj. in_table Hj; [apply not_started; by right|by eapply (to_noini _ _ _ _ T)].
Qed.

Lemma tab_name t n ini u i :
  tab_ok t n ini u → i ∈ u → tab_ok (alter (set_pid n) i t) (n + 1) ini (u ∖ {[ i ]}).
Proof.
  intros T Hu. destruct (to_unnamed _ _ _ _ T _ Hu) as (q & Hi & Hq). pose proof (to_next _ _ _ _ T). split.
  - intros j p Hj Hp. in_table Hj; [simplify_eq; cbn in Hp; congruence|by eapply (to_free _ _ _ _ T)].
  - intros j p Hj Hp. in_table Hj; [simplify_eq; exact (to_new _ _ _ _ T _ _ Hi Hq)|by eapply (to_new _ _ _ _ T)].
  - intros j [Hj Hne]%elem_of_difference. destruct (to_unnamed _ _ _ _ T _ Hj) as (p & Hp & Hs). exists p.
    split; [|done]. apply lookup_alter_proc. right. set_solver.
  - intros j p Hj Hp Hj'. in_table Hj; [cbn; lia|].
    pose proof (to_named _ _ _ _ T _ _ Hj Hp ltac:(set_solver)). lia.
  - intros j k p q' Hj Hk Hp Hq' Hju Hku Ep. in_table Hj; in_table Hk; [done|..].
    + pose proof (to_named _ _ _ _ T _ _ Hk Hq' ltac:(set_solver)). cbn in Ep. lia.
    + pose proof (to_named _ _ _ _ T _ _ Hj Hp ltac:(set_solver)). cbn in Ep. lia.
    + eapply (to_pid _ _ _ _ T); try done; set_solver.
  - lia.
  - intros j p k Hj Hs Hk. assert (Ha0 : alive q = false) by (unfold alive; by rewrite Hq). in_table Hj.
    + simplify_eq. cbn in Hs. by rewrite not_started in Hs by (by right).
    + destruct (parent_other _ _ _ _ _ _ _ i q T Hj Hs Hk Hi Ha0) as [Hne (r & Hr & Ha)].
      exists r. split; [|done]. apply lookup_alter_proc. by right.
  - intros j p Hj Hs. in_table Hj; [|by apply (to_orphan _ _ _ _ T _ _ Hj)].
    simplify_eq. cbn in Hs. by rewrite not_started in Hs by (by right).
  - intros j Hj. destruct (to_ini _ _ _ _ T _ Hj) as (p & Hp & Ha & H0). exists p. split; [|done].
    apply lookup_alter_proc. right. split; [|done]. eapply ini_other; [done..|]. unfold alive. by rewrite Hq.
  - intros Hn j p Hj. in_table Hj; [|by eapply (to_noini _ _ _ _ T)]. simplify_eq. apply not_started. by right.
Qed.

(** A slot that is made or dead becomes free. *)
Lemma tab_drop t n ini u i q :
  tab_ok t n ini u → t !! i = Some q → p_state q = CREATED ∨ p_state q = ZOMBIE → i ∉ u →
  tab_ok (alter (λ _, proc_zero) i t) n ini u.
Proof.
  intros T Hi Hq Hu. assert (Ha0 : alive q = false) by (unfold alive; by destruct Hq as [-> | ->]). split.
  - intros j p Hj Hp. in_table Hj; [done|by eapply (to_free _ _ _ _ T)].
  - intros j p Hj Hp. in_table Hj; [done|by eapply (to_new _ _ _ _ T)].
  - intros j Hj. destruct (to_unnamed _ _ _ _ T _ Hj) as (p & Hp & Hs). exists p. split; [|done].
    apply lookup_alter_proc. right. split; [|done]. by intros ->.
  - intros j p Hj Hp Hj'. in_table Hj; [done|by eapply (to_named _ _ _ _ T)].
  - intros j k p q' Hj Hk Hp Hq' Hju Hku. in_table Hj; [done|]. in_table Hk; [done|]. by eapply (to_pid _ _ _ _ T).
  - apply T.
  - intros j p k Hj Hs Hk. in_table Hj; [done|].
    destruct (parent_other _ _ _ _ _ _ _ i q T Hj Hs Hk Hi Ha0) as [Hne (r & Hr & Ha)].
    exists r. split; [|done]. apply lookup_alter_proc. by right.
  - intros j p Hj Hs. in_table Hj; [done|by apply (to_orphan _ _ _ _ T _ _ Hj)].
  - intros j Hj. destruct (to_ini _ _ _ _ T _ Hj) as (p & Hp & Ha & H0). exists p. split; [|done].
    apply lookup_alter_proc. right. split; [by eapply ini_other|done].
  - intros Hn j p Hj. in_table Hj; [done|by eapply (to_noini _ _ _ _ T)].
Qed.

Lemma tab_start t n ini u i q k r :
  tab_ok t n ini u → t !! i = Some q → p_state q = CREATED → i ∉ u → t !! k = Some r → alive r = true →
  tab_ok (alter (λ p, set_parent (Some k) (set_state RUNNABLE p)) i t) n ini u.
Proof.
  intros T Hi Hq Hu Hk Hr. assert (Ha0 : alive q = false) by (unfold alive; by rewrite Hq). split.
  - intros j p Hj Hp. in_table Hj; [done|by eapply (to_free _ _ _ _ T)].
  - intros j p Hj Hp. in_table Hj; [done|by eapply (to_new _ _ _ _ T)].
  - intros j Hj. destruct (to_unnamed _ _ _ _ T _ Hj) as (p & Hp & Hs). exists p. split; [|done].
    apply lookup_alter_proc. right. split; [|done]. by intros ->.
  - intros j p Hj Hp Hj'. in_table Hj; [simplify_eq; cbn; eapply (to_named _ _ _ _ T); [done|congruence|done]|by eapply (to_named _ _ _ _ T)].
  - intros j l p q' Hj Hl Hp Hq' Hju Hlu Ep. in_table Hj; in_table Hl; [done|..]; simplify_eq; cbn in *;
      eapply (to_pid _ _ _ _ T); try done; congruence.
  - apply T.
  - intros j p l Hj Hs Hl. in_table Hj.
    + cbn in Hl. simplify_eq. exists r. split; [|done]. apply lookup_alter_proc. right. split; [|done]. intros ->. congruence.
    + destruct (parent_other _ _ _ _ _ _ _ i q T Hj Hs Hl Hi Ha0) as [Hne (r' & Hr' & Ha)].
      exists r'. split; [|done]. apply lookup_alter_proc. by right.
  - intros j p Hj Hs. in_table Hj; [by cbn|by apply (to_orphan _ _ _ _ T _ _ Hj)].
  - intros j Hj. destruct (to_ini _ _ _ _ T _ Hj) as (p & Hp & Ha & H0). exists p. split; [|done].
    apply lookup_alter_proc. right. split; [by eapply ini_other|done].
  - intros Hn. pose proof (to_noini _ _ _ _ T Hn _ _ Hk) as X. by rewrite alive_started in X.
Qed.

Lemma tab_init t n u i q :
  tab_ok t n None u → t !! i = Some q → p_state q = CREATED → i ∉ u → p_pid q = 0 →
  tab_ok (alter (set_state RUNNABLE) i t) n (Some i) u.
Proof.
  intros T Hi Hq Hu H0. assert (N : ∀ j p, t !! j = Some p → started p = false) by (intros; by eapply (to_noini _ _ _ _ T)).
  split.
  - intros j p Hj Hp. in_table Hj; [done|by eapply (to_free _ _ _ _ T)].
  - intros j p Hj Hp. in_table Hj; [done|by eapply (to_new _ _ _ _ T)].
  - intros j Hj. destruct (to_unnamed _ _ _ _ T _ Hj) as (p & Hp & Hs). exists p. split; [|done].
    apply lookup_alter_proc. right. split; [|done]. by intros ->.
  - intros j p Hj Hp Hj'. in_table Hj; [simplify_eq; cbn; eapply (to_named _ _ _ _ T); [done|congruence|done]|by eapply (to_named _ _ _ _ T)].
  - intros j l p q' Hj Hl Hp Hq' Hju Hlu Ep. in_table Hj; in_table Hl; [done|..]; simplify_eq; cbn in *;
      eapply (to_pid _ _ _ _ T); try done; congruence.
  - apply T.
  - intros j p l Hj Hs Hl. in_table Hj; [|by rewrite (N _ _ Hj) in Hs].
    simplify_eq. cbn in Hl. by rewrite (to_new _ _ _ _ T _ _ Hi Hq) in Hl.
  - intros j p Hj Hs Hne. in_table Hj; [done|by rewrite (N _ _ Hj) in Hs].
  - intros j [= <-]. exists (set_state RUNNABLE q). split; [|done]. apply lookup_alter_proc. left. eauto.
  - done.
Qed.
End changes.

Section exits.
Implicit Types (t : list proc) (p q r : proc) (i j k : nat) (n : Z) (u w : gset nat) (c : gmap nat nat).

Lemma lookup_reparent ini i t j p :
  reparent ini i t !! j = Some p ↔ ∃ q, t !! j = Some q ∧ p = adopt ini i q.
Proof. unfold reparent. rewrite list_lookup_fmap, fmap_Some. split; intros (q & ? & ?); eauto. Qed.

Lemma adopt_facts ini i q :
  p_state (adopt ini i q) = p_state q ∧ p_pid (adopt ini i q) = p_pid q ∧ p_chan (adopt ini i q) = p_chan q ∧
  p_parent (adopt ini i q) = (if decide (p_parent q = Some i) then ini else p_parent q) ∧
  (p_parent q = None → adopt ini i q = q).
Proof. unfold adopt. case_decide as E; split_and!; try done. intros E'. congruence. Qed.

Lemma adopt_class ini i q : alive (adopt ini i q) = alive q ∧ started (adopt ini i q) = started q.
Proof. unfold started, alive. by rewrite (proj1 (adopt_facts ini i q)). Qed.

(** Children go to initproc. *)
Lemma tab_reparent t n k u i :
  tab_ok t n (Some k) u → k ≠ i →
  tab_ok (reparent (Some k) i t) n (Some k) u ∧
  ∀ j p, reparent (Some k) i t !! j = Some p → p_parent p ≠ Some i.
Proof.
  intros T Hk. split.
  - split.
    + intros j p (q & Hj & ->)%lookup_reparent Hp. destruct (adopt_facts (Some k) i q) as (E1 & _ & _ & _ & E).
      rewrite E1 in Hp. pose proof (to_free _ _ _ _ T _ _ Hj Hp) as ->. by apply E.
    + intros j p (q & Hj & ->)%lookup_reparent Hp. destruct (adopt_facts (Some k) i q) as (E1 & _ & _ & _ & E).
      rewrite E1 in Hp. pose proof (to_new _ _ _ _ T _ _ Hj Hp) as Hq. by rewrite (E Hq).
    + intros j (p & Hj & Hp)%(to_unnamed _ _ _ _ T). exists (adopt (Some k) i p).
      split; [apply lookup_reparent; eauto|]. by rewrite (proj1 (adopt_facts (Some k) i p)).
    + intros j p (q & Hj & ->)%lookup_reparent. destruct (adopt_facts (Some k) i q) as (-> & -> & _).
      by eapply (to_named _ _ _ _ T).
    + intros j l p p' (q & Hj & ->)%lookup_reparent (q' & Hl & ->)%lookup_reparent.
      destruct (adopt_facts (Some k) i q) as (-> & -> & _), (adopt_facts (Some k) i q') as (-> & -> & _).
      by eapply (to_pid _ _ _ _ T).
    + apply T.
    + intros j p l (q & Hj & ->)%lookup_reparent. rewrite (proj2 (adopt_class _ _ _)).
      destruct (adopt_facts (Some k) i q) as (_ & _ & _ & -> & _). intros Hs Hl.
      assert (A : ∃ r, t !! l = Some r ∧ alive r = true).
      { case_decide; [|by eapply (to_parent _ _ _ _ T)]. simplify_eq.
        destruct (to_ini _ _ _ _ T _ eq_refl) as (r & Hr & Ha & _). eauto. }
      destruct A as (r & Hr & Ha). exists (adopt (Some k) i r).
      split; [apply lookup_reparent; eauto|]. by rewrite (proj1 (adopt_class _ _ _)).
    + intros j p (q & Hj & ->)%lookup_reparent. rewrite (proj2 (adopt_class _ _ _)).
      destruct (adopt_facts (Some k) i q) as (_ & _ & _ & -> & _). intros Hs Hne. case_decide; [done|].
      by eapply (to_orphan _ _ _ _ T).
    + intros j [= <-]. destruct (to_ini _ _ _ _ T _ eq_refl) as (r & Hr & Ha & H0). exists (adopt (Some k) i r).
      split; [apply lookup_reparent; eauto|]. rewrite (proj1 (adopt_class _ _ _)).
      by destruct (adopt_facts (Some k) i r) as (_ & -> & _).
    + done.
  - intros j p (q & Hj & ->)%lookup_reparent. destruct (adopt_facts (Some k) i q) as (_ & _ & _ & -> & _).
    case_decide; congruence.
Qed.

Lemma tab_dead t n k u i q :
  tab_ok t n (Some k) u → k ≠ i → t !! i = Some q → alive q = true → (∀ j p, t !! j = Some p → p_parent p ≠ Some i) →
  tab_ok (alter (set_state ZOMBIE) i t) n (Some k) u.
Proof.
  intros T Hk Hi Ha Hno. assert (Hq : p_state q ≠ UNUSED ∧ p_state q ≠ CREATED) by (unfold alive in Ha; by destruct (p_state q)).
  assert (X : ∀ j p, alter (set_state ZOMBIE) i t !! j = Some p → (j = i ∧ p = set_state ZOMBIE q) ∨ (j ≠ i ∧ t !! j = Some p)).
  { intros j p [(-> & ? & ? & ->)|]%lookup_alter_proc; [|by right]. left. by simplify_eq. }
  assert (A : ∀ l, (∃ r, t !! l = Some r ∧ alive r = true) → l ≠ i → ∃ r, alter (set_state ZOMBIE) i t !! l = Some r ∧ alive r = true).
  { intros l (r & Hr & Har) Hl. exists r. split; [|done]. apply lookup_alter_proc. by right. }
  split.
  - intros j p [[-> ->]|[_ Hj]]%X; [done|by eapply (to_free _ _ _ _ T)].
  - intros j p [[-> ->]|[_ Hj]]%X; [done|by eapply (to_new _ _ _ _ T)].
  - intros j Hj. destruct (to_unnamed _ _ _ _ T _ Hj) as (p & Hp & Hs). exists p. split; [|done].
    apply lookup_alter_proc. right. split; [|done]. intros ->. simplify_eq. tauto.
  - intros j p [[-> ->]|[_ Hj]]%X Hp Hu; [|by eapply (to_named _ _ _ _ T)].
    cbn. eapply (to_named _ _ _ _ T); [exact Hi|tauto|done].
  - intros j l p p' [[-> ->]|[_ Hj]]%X [[-> ->]|[_ Hl]]%X Hp Hp' Hju Hlu Ep; [done|..]; cbn in Ep;
      eapply (to_pid _ _ _ _ T); try done; tauto.
  - apply T.
  - intros j p l [[-> ->]|[_ Hj]]%X Hs Hl.
    + cbn in Hl. apply A; [eapply (to_parent _ _ _ _ T); [exact Hi|by apply alive_started|done]|].
      intros ->. by apply (Hno _ _ Hi).
    + apply A; [by eapply (to_parent _ _ _ _ T)|]. intros ->. by apply (Hno _ _ Hj).
  - intros j p [[-> ->]|[_ Hj]]%X Hs Hne; [|by eapply (to_orphan _ _ _ _ T)].
    cbn. eapply (to_orphan _ _ _ _ T); [exact Hi|by apply alive_started|done].
  - intros j [= <-]. destruct (to_ini _ _ _ _ T _ eq_refl) as (r & Hr & Har & H0). exists r. split; [|done].
    apply lookup_alter_proc. by right.
  - done.
Qed.

(** The table [exitproc] leaves. *)
Lemma exit_table_eq ini i t :
  ∃ ch, exit_table ini i t = alter (set_state ZOMBIE) i (wakeup_acquired ch (reparent ini i t)) ∧
    ∀ p par, reparent ini i t !! i = Some p → p_parent p = Some par → ch = ChanProc par.
Proof.
  unfold exit_table. destruct (reparent ini i t !! i) as [p|] eqn:E; cbn.
  - destruct (p_parent p) as [par|] eqn:E2; eexists; (split; [done|]); intros p' par' [= <-] Hp; congruence.
  - exists NoChan. split; [done|]. by intros p par.
Qed.

Lemma wakeup_shape ch t : shape t (wakeup_acquired ch t).
Proof. apply shape_fmap, wake_life. Qed.

Lemma tab_exit t n ini u i q :
  tab_ok t n ini u → t !! i = Some q → alive q = true → p_pid q ≠ 0 → tab_ok (exit_table ini i t) n ini u.
Proof.
  intros T Hi Ha Hp. destruct ini as [k|].
  2: { pose proof (to_noini _ _ _ _ T eq_refl _ _ Hi) as X. by rewrite alive_started in X. }
  assert (Hk : k ≠ i).
  { intros ->. destruct (to_ini _ _ _ _ T _ eq_refl) as (r & Hr & _ & H0). congruence. }
  destruct (tab_reparent t n k u i T Hk) as [T1 No]. destruct (exit_table_eq (Some k) i t) as (ch & -> & _).
  set (t1 := reparent (Some k) i t) in *.
  assert (Hi1 : t1 !! i = Some (adopt (Some k) i q)) by (apply lookup_reparent; eauto).
  destruct (shape_some_r _ _ _ _ (wakeup_shape ch t1) Hi1) as (q' & Hi2 & _ & _ & Ec & _).
  eapply tab_dead; [eapply tab_ok_shape; [apply wakeup_shape|exact T1]|done|exact Hi2| |].
  - rewrite (proj1 (class_alive _ _ Ec)), (proj1 (adopt_class _ _ _)). done.
  - intros j p Hj. destruct (shape_some _ _ _ _ (wakeup_shape ch t1) Hj) as (p0 & Hj0 & _ & -> & _). by eapply No.
Qed.

(** *** CPUs *)

Definition running t j : Prop := ∃ p, t !! j = Some p ∧ p_state p = RUNNING.

Lemma cpu_same t t' c : (∀ j, running t' j ↔ running t j) → cpu_ok t c → cpu_ok t' c.
Proof.
  intros R [R1 R2 R3]. split; [|done|].
  - intros k i Hk. apply R. by eapply R1.
  - intros i p Hi Hp. assert (Hr : running t i) by (apply R; by exists p). destruct Hr as (q & Hq & Hs). by eapply R3.
Qed.

Lemma cpu_leave t t' c k i :
  c !! k = Some i → ¬ running t' i → (∀ j, j ≠ i → running t' j ↔ running t j) → cpu_ok t c → cpu_ok t' (delete k c).
Proof.
  intros Hk Hi R [R1 R2 R3]. split.
  - intros l j (Hl & Hj)%lookup_delete_Some. apply R; [|by eapply R1]. intros ->. apply Hl. by eapply R2.
  - intros l m j (_ & Hl)%lookup_delete_Some (_ & Hm)%lookup_delete_Some. by eapply R2.
  - intros j p Hj Hp. assert (j ≠ i) by (intros ->; apply Hi; by exists p).
    assert (Hr : running t j) by (apply R; [done|by exists p]). destruct Hr as (q & Hq & Hs).
    destruct (R3 _ _ Hq Hs) as [l Hl]. exists l. apply lookup_delete_Some. split; [|done]. congruence.
Qed.

Lemma cpu_enter t t' c k i :
  c !! k = None → ¬ running t i → running t' i → (∀ j, j ≠ i → running t' j ↔ running t j) →
  cpu_ok t c → cpu_ok t' (<[k := i]> c).
Proof.
  intros Hk Hi Hi' R [R1 R2 R3].
  assert (N : ∀ l, c !! l ≠ Some i) by (intros l Hl; apply Hi; by eapply R1).
  split.
  - intros l j [[-> ->]|[Hl Hj]]%lookup_insert_Some; [done|]. apply R; [|by eapply R1]. intros ->. by apply (N l).
  - intros l m j [[-> ->]|[Hl Hj]]%lookup_insert_Some [[-> E]|[Hm Hj']]%lookup_insert_Some; try done.
    + by apply N in Hj'.
    + subst. by apply N in Hj.
    + by eapply R2.
  - intros j p Hj Hp. destruct (decide (j = i)) as [->|Hne]; [exists k; by rewrite lookup_insert_eq|].
    assert (Hr : running t j) by (apply R; [done|by exists p]). destruct Hr as (q & Hq & Hs).
    destruct (R3 _ _ Hq Hs) as [l Hl]. exists l. rewrite lookup_insert_ne; [done|]. intros ->. congruence.
Qed.

Lemma running_alter_other f t i j : j ≠ i → running (alter f i t) j ↔ running t j.
Proof.
  intros Hj. unfold running. split; intros (p & Hp & Hs).
  - apply lookup_alter_proc in Hp as [[-> _]|[_ Hp]]; [done|eauto].
  - exists p. split; [|done]. apply lookup_alter_proc. by right.
Qed.

Lemma running_alter f t i q :
  t !! i = Some q → running (alter f i t) i ↔ p_state (f q) = RUNNING.
Proof.
  intros Hi. unfold running. split.
  - intros (p & [(_ & q' & Hq' & ->)|[? _]]%lookup_alter_proc & Hs); [|done]. by simplify_eq.
  - intros Hs. exists (f q). split; [|done]. apply lookup_alter_proc. left. eauto.
Qed.

(** A change of one process that neither ran before nor runs after. *)
Lemma cpu_alter f t c i q :
  t !! i = Some q → (p_state (f q) = RUNNING ↔ p_state q = RUNNING) → cpu_ok t c → cpu_ok (alter f i t) c.
Proof.
  intros Hi Hf. apply cpu_same. intros j. destruct (decide (j = i)) as [->|]; [|by apply running_alter_other].
  rewrite (running_alter f t i q Hi), Hf. unfold running. split; [eauto|]. intros (p & Hp & ?). by simplify_eq.
Qed.

Lemma running_wakeup ch t j : running (wakeup_acquired ch t) j ↔ running t j.
Proof.
  unfold running, wakeup_acquired. rewrite list_lookup_fmap. split.
  - intros (p & (q & Hq & ->)%fmap_Some & Hs). exists q. split; [done|]. unfold wake in Hs. by case_decide.
  - intros (q & Hq & Hs). exists (wake ch q). split; [by rewrite Hq|]. unfold wake. case_decide as E; [|done].
    destruct E as [E _]. congruence.
Qed.

Lemma running_reparent ini i t j : running (reparent ini i t) j ↔ running t j.
Proof.
  unfold running. split.
  - intros (p & (q & Hq & ->)%lookup_reparent & Hs). exists q. by rewrite (proj1 (adopt_facts ini i q)) in Hs.
  - intros (q & Hq & Hs). exists (adopt ini i q). split; [apply lookup_reparent; eauto|].
    by rewrite (proj1 (adopt_facts ini i q)).
Qed.
End exits.

Section waits.
Implicit Types (t : list proc) (p q r : proc) (i j k : nat) (n : Z) (u w : gset nat) (c : gmap nat nat).

Lemma wait_mono t t' ini w w' :
  w' ⊆ w →
  (∀ i p', i ∈ w' → t' !! i = Some p' → p_state p' = SLEEPING →
     ∃ p, t !! i = Some p ∧ p_state p = SLEEPING ∧ p_chan p' = p_chan p) →
  (∀ j q', t' !! j = Some q' → p_state q' = ZOMBIE →
     ∃ q, t !! j = Some q ∧ p_state q = ZOMBIE ∧ p_parent q' = p_parent q) →
  wait_ok t ini w → wait_ok t' ini w'.
Proof.
  intros Hw S Z W i p' Hi Hp Hs Hne. destruct (S _ _ Hi Hp Hs) as (p & Hp0 & Hs0 & ->).
  destruct (W i p (Hw _ Hi) Hp0 Hs0 Hne) as [Hc Hz]. split; [done|].
  intros j q' Hj Hq'. destruct (Z _ _ Hj Hq') as (q & Hq & Hzq & ->). by apply (Hz j).
Qed.

(** Changing a process into one that neither waits nor is dead. *)
Lemma wait_alter f t i q ini w w' :
  t !! i = Some q → w' ⊆ w → (p_state (f q) = SLEEPING → i ∉ w') → p_state (f q) ≠ ZOMBIE →
  wait_ok t ini w → wait_ok (alter f i t) ini w'.
Proof.
  intros Hi Hw Hs Hz. apply wait_mono; [done|..].
  - intros j p' Hj [(-> & q' & Hq' & ->)|[_ Hj']]%lookup_alter_proc Hp'; [|by exists p'].
    simplify_eq. by destruct (Hs Hp').
  - intros j p' [(-> & q' & Hq' & ->)|[_ Hj']]%lookup_alter_proc Hp'; [by simplify_eq|by exists p'].
Qed.

Lemma find_zombie_none i t :
  find_zombie (λ p, p_parent p = Some i) t = None → ∀ j q, t !! j = Some q → p_state q = ZOMBIE → p_parent q ≠ Some i.
Proof. intros E j q Hj Hq Hp. by apply (first_proc_none _ _ E _ _ Hj). Qed.

Lemma wait_enter t i q ini w :
  t !! i = Some q → (∀ j p, t !! j = Some p → p_state p = ZOMBIE → p_parent p ≠ Some i) →
  wait_ok t ini w → wait_ok (alter (λ p, set_state SLEEPING (set_chan (ChanProc i) p)) i t) ini ({[ i ]} ∪ w).
Proof.
  intros Hi Hz W. set (f := λ p, set_state SLEEPING (set_chan (ChanProc i) p)).
  assert (Z : ∀ j p, alter f i t !! j = Some p → p_state p = ZOMBIE → t !! j = Some p).
  { intros j p [(-> & q' & Hq' & ->)|[_ Hj]]%lookup_alter_proc Hp; [done|done]. }
  intros j p Hj [(-> & q' & Hq' & ->)|[Hne Hp]]%lookup_alter_proc Hs Hini.
  - split; [done|]. intros k r Hk Hr. apply (Hz k); [by apply Z|done].
  - apply elem_of_union in Hj as [->%elem_of_singleton|Hjw]; [done|]. destruct (W j p Hjw Hp Hs Hini) as [Hc Hzj]. split; [done|].
    intros k r Hk Hr. apply (Hzj k); [by apply Z|done].
Qed.

Lemma wait_exit t i q ini w k :
  ini = Some k → k ≠ i → t !! i = Some q → alive q = true →
  wait_ok t ini w → wait_ok (exit_table ini i t) ini w.
Proof.
  intros -> Hk Hi Ha W. destruct (exit_table_eq (Some k) i t) as (ch & -> & Hch). set (t1 := reparent (Some k) i t) in *.
  assert (Hi1 : t1 !! i = Some (adopt (Some k) i q)) by (apply lookup_reparent; eauto).
  intros j p Hj [(-> & q' & Hq' & ->)|[Hne Hp]]%lookup_alter_proc Hs Hini; [done|].
  unfold wakeup_acquired in Hp. rewrite list_lookup_fmap in Hp. apply fmap_Some in Hp as (p1 & Hp1 & ->).
  assert (Hw : wake ch p1 = p1 ∧ p_state p1 = SLEEPING ∧ p_chan p1 ≠ ch).
  { unfold wake in *. case_decide as E; [done|]. split_and!; [done|done|]. intros Ec. by apply E. }
  destruct Hw as (-> & Hs1 & Hne1). apply lookup_reparent in Hp1 as (p0 & Hp0 & ->).
  destruct (adopt_facts (Some k) i p0) as (E1 & _ & E3 & _). rewrite E1 in Hs1. rewrite E3 in *.
  destruct (W j p0 Hj Hp0 Hs1 Hini) as [Hc Hz]. split; [done|].
  intros l r [(-> & r1 & Hr1 & ->)|[Hl Hr]]%lookup_alter_proc Hrz Hpar.
  - cbn in Hpar. unfold wakeup_acquired in Hr1. rewrite list_lookup_fmap, Hi1 in Hr1. injection Hr1 as <-.
    assert (Epar : p_parent (wake ch (adopt (Some k) i q)) = p_parent (adopt (Some k) i q)) by (unfold wake; by case_decide).
    rewrite Epar in Hpar. specialize (Hch _ _ Hi1 Hpar). congruence.
  - unfold wakeup_acquired in Hr. rewrite list_lookup_fmap in Hr. apply fmap_Some in Hr as (r1 & Hr1 & ->).
    assert (Hw : p_state r1 = ZOMBIE ∧ p_parent r1 = Some j) by (unfold wake in *; by case_decide).
    destruct Hw as [Hz1 Hp1]. apply lookup_reparent in Hr1 as (r0 & Hr0 & ->).
    destruct (adopt_facts (Some k) i r0) as (F1 & _ & _ & F4 & _). rewrite F1 in Hz1. rewrite F4 in Hp1.
    case_decide; [by simplify_eq|]. by apply (Hz l r0 Hr0 Hz1).
Qed.
End waits.

(** *** Every transition keeps it *)

Section main.
Implicit Types (s : sys).

Lemma st_of_some s i x : st_of s i = Some x ↔ ∃ p, tab s !! i = Some p ∧ p_state p = x.
Proof. unfold st_of. rewrite fmap_Some. split; intros (p & ? & ?); eauto. Qed.

Lemma boot_inv : inv boot.
Proof.
  assert (Z : ∀ i p, tab boot !! i = Some p → p = proc_zero) by (intros i p [-> _]%lookup_replicate; done).
  split; [split|split|]; cbn [boot cpu npid ini unnamed waiting]; try done.
  - intros i p ?%Z ?. by subst.
  - intros i p ?%Z ?. by subst.
  - intros i p ?%Z ?. by subst.
  - intros i j p q ?%Z _ ?. by subst.
  - intros i p q ?%Z ?. by subst.
  - intros i p ?%Z ?. by subst.
  - intros _ i p ?%Z. by subst.
  - intros i p ?%Z ?. by subst.
Qed.

(** A process that lives moves to another living state. *)
Lemma inv_tab_live s f i q :
  inv s → tab s !! i = Some q → alive q = true →
  p_pid (f q) = p_pid q → p_parent (f q) = p_parent q → alive (f q) = true →
  tab_ok (alter f i (tab s)) (npid s) (ini s) (unnamed s).
Proof.
  intros I Hi Ha Hp Hq Ha'. eapply tab_ok_shape; [|apply I]. apply shape_alter. intros p Hp'. simplify_eq.
  split_and!; [done|done|..].
  - unfold class_of, alive in *. by destruct (p_state q), (p_state (f q)).
  - intros E. unfold alive in Ha. by rewrite E in Ha.
Qed.

Lemma sched_step_inv s s' : step s s' → inv s → inv s'.
Proof.
  intros St I. destruct I as [T Cp W] eqn:EI. clear EI. pose proof (Build_inv _ T Cp W) as I'.
  destruct St as [s i Hi|s i Hu|s c par i Hc Hi Hu|s i Hn Hi Hu H0|s i Hi Hu|s c i Hc Hi|s c i Hc|s c i ch Hc
    |s c i Hc Hz|s c i Hc|s ch|s i Hi|s c i Hc Hp|s c i j Hc Hj]; cbn [tab cpu npid ini unnamed waiting with_tab with_cpu] in *.
  - apply first_proc_some in Hi as (q & Hi & Hq). split; cbn; [by eapply tab_alloc| |].
    + eapply cpu_alter; [exact Hi| |done]. cbn. by rewrite Hq.
    + by eapply wait_alter.
  - destruct (to_unnamed _ _ _ _ T _ Hu) as (q & Hi & Hq). split; cbn; [by apply tab_name|by eapply cpu_alter|].
    eapply wait_alter; [done|done|cbn; congruence|cbn; congruence|done].
  - destruct (co_run _ _ Cp _ _ Hc) as (r & Hr & Hrs). apply st_of_some in Hi as (q & Hi & Hq). split; cbn.
    + eapply tab_start; [done..|]. unfold alive. by rewrite Hrs.
    + eapply cpu_alter; [exact Hi| |done]. cbn. by rewrite Hq.
    + by eapply wait_alter.
  - apply st_of_some in Hi as (q & Hi & Hq). rewrite Hi in H0. injection H0 as H0. split; cbn.
    + eapply tab_init; try done. by rewrite <- Hn.
    + eapply cpu_alter; [exact Hi| |done]. cbn. by rewrite Hq.
    + intros j p Hj Hp Hs _. exfalso. apply lookup_alter_proc in Hp as [(-> & ? & ? & ->)|[_ Hp]]; [done|].
      pose proof (to_noini _ _ _ _ T Hn _ _ Hp) as X. unfold started, alive in X. by rewrite Hs in X.
  - apply st_of_some in Hi as (q & Hi & Hq). split; cbn; [eapply tab_drop; [done|exact Hi|by left|done]| |by eapply wait_alter].
    eapply cpu_alter; [exact Hi| |done]. by rewrite Hq.
  - apply st_of_some in Hi as (q & Hi & Hq). split; cbn.
    + eapply inv_tab_live; try done. unfold alive. by rewrite Hq.
    + eapply cpu_enter; [done| | | |done].
      * intros (p & Hp & Hs). congruence.
      * by apply (running_alter _ _ _ q Hi).
      * intros. by apply running_alter_other.
    + by eapply wait_alter.
  - destruct (co_run _ _ Cp _ _ Hc) as (q & Hi & Hq). split; cbn.
    + eapply inv_tab_live; try done. unfold alive. by rewrite Hq.
    + eapply cpu_leave; [done| | |done]; [by rewrite (running_alter _ _ _ q Hi)|intros; by apply running_alter_other].
    + by eapply wait_alter.
  - destruct (co_run _ _ Cp _ _ Hc) as (q & Hi & Hq). split; cbn.
    + eapply inv_tab_live; try done. unfold alive. by rewrite Hq.
    + eapply cpu_leave; [done| | |done]; [by rewrite (running_alter _ _ _ q Hi)|intros; by apply running_alter_other].
    + apply (wait_alter _ _ i q _ (waiting s)); [done|apply subseteq_difference_l; done|intros _ [_ Hn]%elem_of_difference; by apply Hn, elem_of_singleton|done|done].
  - destruct (co_run _ _ Cp _ _ Hc) as (q & Hi & Hq). split; cbn.
    + eapply inv_tab_live; try done. unfold alive. by rewrite Hq.
    + eapply cpu_leave; [done| | |done]; [by rewrite (running_alter _ _ _ q Hi)|intros; by apply running_alter_other].
    + eapply wait_enter; [done| |done]. by apply find_zombie_none.
  - destruct (co_run _ _ Cp _ _ Hc) as (q & Hi & Hq). split; cbn.
    + eapply inv_tab_live; try done; unfold alive; cbn; by rewrite Hq.
    + by eapply cpu_alter.
    + eapply wait_alter; [done|done|cbn; congruence|cbn; congruence|done].
  - split; cbn.
    + eapply tab_ok_shape; [apply wakeup_shape|done].
    + eapply cpu_same; [intros; apply running_wakeup|done].
    + eapply wait_mono; [done|..|exact W]; unfold wakeup_acquired.
      * intros i p' _. rewrite list_lookup_fmap. intros (p & Hp & ->)%fmap_Some Hs. exists p. unfold wake in *. by case_decide.
      * intros i p'. rewrite list_lookup_fmap. intros (p & Hp & ->)%fmap_Some Hs. exists p. unfold wake in *. by case_decide.
  - apply st_of_some in Hi as (q & Hi & Hq). split; cbn.
    + eapply inv_tab_live; try done. unfold alive. by rewrite Hq.
    + eapply cpu_alter; [exact Hi| |done]. cbn. by rewrite Hq.
    + by eapply wait_alter.
  - destruct (co_run _ _ Cp _ _ Hc) as (q & Hi & Hq). specialize (Hp _ Hi).
    assert (Ha : alive q = true) by (unfold alive; by rewrite Hq). split; cbn.
    + by eapply tab_exit.
    + destruct (exit_table_eq (ini s) i (tab s)) as (ch & -> & _). eapply cpu_leave; [done| | |done].
      * intros (p & Hp' & Hs). apply lookup_alter_proc in Hp' as [(_ & ? & _ & ->)|[? _]]; done.
      * intros j Hj. rewrite running_alter_other, running_wakeup, running_reparent by done. done.
    + destruct (ini s) as [k|] eqn:Ek.
      2: { pose proof (to_noini _ _ _ _ T eq_refl _ _ Hi) as X. by rewrite alive_started in X. }
      eapply wait_exit; try done. intros ->. destruct (to_ini _ _ _ _ T _ eq_refl) as (r & Hr & _ & H0). congruence.
  - apply st_of_some in Hj as (q & Hj & Hq). split; cbn.
    + eapply tab_drop; [done|exact Hj|by right|]. intros Hu. destruct (to_unnamed _ _ _ _ T _ Hu) as (p & Hp & Hs). congruence.
    + eapply cpu_alter; [exact Hj| |done]. by rewrite Hq.
    + by eapply wait_alter.
Qed.

Lemma sched_reachable_inv s : reachable s → inv s.
Proof.
  intros R. unfold reachable in R. remember boot as s0 eqn:E. assert (I : inv s0) by (subst; apply boot_inv).
  clear E. induction R as [s|s s1 s2 St R IH]; [done|]. apply IH. by eapply sched_step_inv.
Qed.
End main.

(** *** The transitions as a function *)

Inductive event :=
| EvAlloc | EvName (i : nat) | EvStart (c i : nat) | EvInit (i : nat) | EvDrop (i : nat)
| EvDispatch (c i : nat) | EvYield (c : nat) | EvSleep (c : nat) (ch : chan) | EvWait (c : nat) | EvAwake (c : nat)
| EvWakeup (ch : chan) | EvKill (i : nat) | EvExit (c : nat) | EvReap (c j : nat).

Definition guard_some {A B} (o : option A) (k : A → option B) : option B :=
  match o with Some a => k a | None => None end.
Definition guard {B} (P : Prop) `{Decision P} (k : option B) : option B := if decide P then k else None.

Definition exec_event (e : event) (s : sys) : option sys :=
  match e with
  | EvAlloc =>
      guard_some (first_proc (λ p, p_state p = UNUSED) (tab s)) (λ i,
      Some (Sys (alter (set_state CREATED) i (tab s)) (cpu s) (npid s) (ini s) ({[ i ]} ∪ unnamed s) (waiting s)))
  | EvName i =>
      guard (i ∈ unnamed s)
      (Some (Sys (alter (set_pid (npid s)) i (tab s)) (cpu s) (npid s + 1) (ini s) (unnamed s ∖ {[ i ]}) (waiting s)))
  | EvStart c i =>
      guard_some (cpu s !! c) (λ par, guard (st_of s i = Some CREATED) (guard (i ∉ unnamed s)
      (Some (with_tab (alter (λ p, set_parent (Some par) (set_state RUNNABLE p)) i (tab s)) s))))
  | EvInit i =>
      guard (ini s = None) (guard (st_of s i = Some CREATED) (guard (i ∉ unnamed s)
      (guard (p_pid <$> tab s !! i = Some 0)
      (Some (Sys (alter (set_state RUNNABLE) i (tab s)) (cpu s) (npid s) (Some i) (unnamed s) (waiting s))))))
  | EvDrop i =>
      guard (st_of s i = Some CREATED) (guard (i ∉ unnamed s) (Some (with_tab (alter (λ _, proc_zero) i (tab s)) s)))
  | EvDispatch c i =>
      guard (cpu s !! c = None) (guard (st_of s i = Some RUNNABLE)
      (Some (with_cpu (<[c := i]> (cpu s)) (with_tab (alter (set_state RUNNING) i (tab s)) s))))
  | EvYield c =>
      guard_some (cpu s !! c) (λ i,
      Some (with_cpu (delete c (cpu s)) (with_tab (alter (set_state RUNNABLE) i (tab s)) s)))
  | EvSleep c ch =>
      guard_some (cpu s !! c) (λ i,
      Some (Sys (alter (λ p, set_state SLEEPING (set_chan ch p)) i (tab s)) (delete c (cpu s)) (npid s) (ini s)
              (unnamed s) (waiting s ∖ {[ i ]})))
  | EvWait c =>
      guard_some (cpu s !! c) (λ i, guard (find_zombie (λ p, p_parent p = Some i) (tab s) = None)
      (Some (Sys (alter (λ p, set_state SLEEPING (set_chan (ChanProc i) p)) i (tab s)) (delete c (cpu s)) (npid s)
              (ini s) (unnamed s) ({[ i ]} ∪ waiting s))))
  | EvAwake c => guard_some (cpu s !! c) (λ i, Some (with_tab (alter (set_chan NoChan) i (tab s)) s))
  | EvWakeup ch => Some (with_tab (wakeup_acquired ch (tab s)) s)
  | EvKill i => guard (st_of s i = Some SLEEPING) (Some (with_tab (alter (set_state RUNNABLE) i (tab s)) s))
  | EvExit c =>
      guard_some (cpu s !! c) (λ i, guard_some (tab s !! i) (λ p, guard (p_pid p ≠ 0)
      (Some (with_cpu (delete c (cpu s)) (with_tab (exit_table (ini s) i (tab s)) s)))))
  | EvReap c j =>
      guard_some (cpu s !! c) (λ i, guard (st_of s j = Some ZOMBIE)
      (Some (with_tab (alter (λ _, proc_zero) j (tab s)) s)))
  end.

Fixpoint exec_events (es : list event) (s : sys) : option sys :=
  match es with
  | [] => Some s
  | e :: es => guard_some (exec_event e s) (exec_events es)
  end.

Ltac open_guards :=
  repeat match goal with
  | H : guard _ _ = Some _ |- _ => unfold guard in H
  | H : (if decide _ then _ else _) = Some _ |- _ => case_decide; [|done]
  | H : guard_some ?o _ = Some _ |- _ => let E := fresh "E" in destruct o eqn:E; cbn [guard_some] in H; [|done]
  end; simplify_eq.

Lemma exec_event_step e s s' : exec_event e s = Some s' → step s s'.
Proof.
  destruct e; cbn [exec_event]; intros E'; open_guards; try (by econstructor).
  eapply st_exit; [done|]. intros. by simplify_eq.
Qed.

Lemma exec_events_reachable es s : exec_events es boot = Some s → reachable s.
Proof.
  assert (X : ∀ es s0, exec_events es s0 = Some s → rtc step s0 s).
  { clear es. induction es as [|e es IH]; intros s0; cbn [exec_events]; [intros [= ->]; apply rtc_refl|].
    destruct (exec_event e s0) as [s1|] eqn:E; cbn [guard_some]; [|done]. intros Es.
    eapply rtc_l; [by eapply exec_event_step|by apply IH]. }
  apply X.
Qed.

(** The state after a list of events that can happen. *)
Definition after (es : list event) : sys := default boot (exec_events es boot).

Lemma after_reachable es : bool_decide (is_Some (exec_events es boot)) = true → reachable (after es).
Proof.
  intros [s E]%bool_decide_eq_true. apply (exec_events_reachable es). unfold after. by rewrite E.
Qed.

(** Boot up to the first process on CPU 0. *)
Definition init_runs : list event := [EvAlloc; EvName 0; EvInit 0; EvDispatch 0 0].
(** The process on CPU [c] forks process [i], which CPU [i] takes. *)
Definition forks (c i : nat) : list event := [EvAlloc; EvName i; EvStart c i; EvDispatch i i].

Module SchedProps.




(** Process 0 forks 1, which forks 2, which exits. *)
Definition one_zombie : list event := init_runs ++ forks 0 1 ++ forks 1 2 ++ [EvExit 2].


(** C9: no exit is missed. In every reachable state, a process other than
    initproc that went to sleep in [wait] and still sleeps has no zombie child:
    between the scan that found none and the sleep no child can exit, and the
    exit of a child wakes it. *)
Theorem no_missed_exit s i p :
  reachable s → i ∈ waiting s → tab s !! i = Some p → p_state p = SLEEPING → ini s ≠ Some i →
  find_zombie (λ q, p_parent q = Some i) (tab s) = None ∧
  ∀ c k q s', cpu s !! c = Some k → tab s !! k = Some q → p_pid q ≠ 0 → p_parent q = Some i →
    exec_event (EvExit c) s = Some s' → st_of s' i = Some RUNNABLE.
Proof.
  intros R Hi Hp Hs Hne. destruct (sched_reachable_inv _ R) as [T Cp W]. destruct (W i p Hi Hp Hs Hne) as [Hc Hz]. split.
  - destruct (find_zombie _ (tab s)) as [j|] eqn:E; [|done]. apply first_proc_some in E as (q & Hq & Hq1 & Hq2).
    by destruct (Hz j q Hq Hq2).
  - intros c k q s' Hck Hk Hpid Hpar. cbn [exec_event]. rewrite Hck. cbn [guard_some]. rewrite Hk. cbn [guard_some].
    unfold guard. rewrite decide_True by done. intros [= <-].
    assert (Hki : k ≠ i).
    { intros ->. destruct (co_run _ _ Cp _ _ Hck) as (q' & Hq' & Hs'). congruence. }
    destruct (exit_table_eq (ini s) k (tab s)) as (ch & E & Hch). apply st_of_some. cbn [tab with_tab with_cpu]. rewrite E.
    assert (Hpa : p_parent (adopt (ini s) k q) = Some i).
    { destruct (adopt_facts (ini s) k q) as (_ & _ & _ & -> & _). rewrite decide_False; [done|]. congruence. }
    assert (Hkr : reparent (ini s) k (tab s) !! k = Some (adopt (ini s) k q)) by (apply lookup_reparent; eauto).
    rewrite (Hch _ _ Hkr Hpa).
    exists (wake (ChanProc i) (adopt (ini s) k p)). split.
    + apply lookup_alter_proc. right. split; [done|]. unfold wakeup_acquired, reparent.
      rewrite !list_lookup_fmap, Hp. done.
    + destruct (adopt_facts (ini s) k p) as (A1 & _ & A3 & _). unfold wake. rewrite decide_True; [done|]. split; congruence.
Qed.

(** The same with process 1 asleep in [wait] before 2 exits. *)
Definition one_waits : list event := init_runs ++ forks 0 1 ++ forks 1 2 ++ [EvWait 1].

Lemma no_missed_exit_witness :
  find_zombie (λ q, p_parent q = Some 1%nat) (tab (after one_waits)) = None ∧
  st_of (after (one_waits ++ [EvExit 2])) 1 = Some RUNNABLE.
Proof.
  destruct (no_missed_exit (after one_waits) 1 (default proc_zero (tab (after one_waits) !! 1%nat))) as [H1 H2].
  - apply after_reachable. vm_compute. reflexivity.
  - apply (bool_decide_unpack _). vm_compute. exact Logic.I.
  - vm_compute. reflexivity.
  - vm_compute. reflexivity.
  - vm_compute. discriminate.
  - split; [exact H1|].
    apply (H2 2%nat 2%nat (default proc_zero (tab (after one_waits) !! 2%nat))); vm_compute; congruence.
Defined.

(** Initproc misses the zombies it adopts. [reparent] gives initproc the
    zombie children of a process that exits, but only the parent of that process
    is woken: initproc can stay asleep in [wait] with a zombie child. *)
Theorem adopted_zombie_missed :
  ∃ s, reachable s ∧ ini s = Some 0%nat ∧ 0%nat ∈ waiting s ∧ st_of s 0 = Some SLEEPING ∧
    st_of s 3 = Some ZOMBIE ∧ p_parent <$> tab s !! 3%nat = Some (Some 0%nat) ∧
    find_zombie (λ q, p_parent q = Some 0%nat) (tab s) = Some 3%nat.
Proof.
  exists (after (init_runs ++ forks 0 1 ++ forks 1 2 ++ forks 2 3 ++ [EvExit 3; EvWait 0; EvExit 2])).
  split; [apply after_reachable; vm_compute; reflexivity|]. apply (bool_decide_unpack _). vm_compute. exact Logic.I.
Qed.

End SchedProps.
