(* ===== verification/ProcSteps.v ===== *)
(** * The routines of processes follow the transition system

    File Proc has the routines of proc.c as one process runs them; file Sched
    has the critical sections of [proctable.lk] as the steps of all processes.
    Here every run of a routine is a path of steps, from switch to switch: what
    the invariants of Sched say holds whenever a routine gives the CPU away or
    returns. *)

From S2P Require Import Prelude Mem Bytes KString Spinlock Layout Kalloc PageTable Buf Fs Ext2 Uaccess File Proc ProcSpec ProcRun Sched.
From stdpp Require Import relations.
Import Spin.
Open Scope Z_scope.
Open Scope prog_scope.

(** ** Entries that look the same to the scheduler *)

(** What the steps of Sched read and write of an entry. *)
Definition seen (p : proc) : procstate * Z * option nat * chan := (p_state p, p_pid p, p_parent p, p_chan p).

#[export] Instance proc_equiv : Equiv proc := λ p q, seen p = seen q.
#[export] Instance proc_equivalence : Equivalence (≡@{proc}).
Proof. split; unfold equiv, proc_equiv; [by intros p|by intros p q|intros p q r; congruence]. Qed.

Section same.
Implicit Types (p q : proc) (t u : list proc) (i : nat) (f g : proc → proc).

Lemma proc_equiv_unfold p q :
  p ≡ q ↔ p_state p = p_state q ∧ p_pid p = p_pid q ∧ p_parent p = p_parent q ∧ p_chan p = p_chan q.
Proof. unfold equiv, proc_equiv, seen. split; [by intros [= -> -> -> ->]|by intros (-> & -> & -> & ->)]. Qed.

#[export] Instance p_state_proper : Proper ((≡) ==> (=)) p_state.
Proof. by intros p q (-> & _)%proc_equiv_unfold. Qed.
#[export] Instance p_pid_proper : Proper ((≡) ==> (=)) p_pid.
Proof. by intros p q (_ & -> & _)%proc_equiv_unfold. Qed.
#[export] Instance p_parent_proper : Proper ((≡) ==> (=)) p_parent.
Proof. by intros p q (_ & _ & -> & _)%proc_equiv_unfold. Qed.

(** A change of an entry that respects it. *)
Ltac entry_proper := intros p q E; unfold equiv, proc_equiv, seen in *; cbn; congruence.

#[export] Instance set_state_proper x : Proper ((≡) ==> (≡)) (set_state x).
Proof. entry_proper. Qed.
#[export] Instance set_pid_proper x : Proper ((≡) ==> (≡)) (set_pid x).
Proof. entry_proper. Qed.
#[export] Instance set_parent_proper x : Proper ((≡) ==> (≡)) (set_parent x).
Proof. entry_proper. Qed.
#[export] Instance set_chan_proper x : Proper ((≡) ==> (≡)) (set_chan x).
Proof. entry_proper. Qed.

#[export] Instance wake_proper ch : Proper ((≡) ==> (≡)) (wake ch).
Proof.
  intros p q E. pose proof (proj1 (proc_equiv_unfold p q) E) as (Es & _ & _ & Ec). unfold wake. rewrite Es, Ec.
  case_decide; by rewrite E.
Qed.
#[export] Instance adopt_proper o i : Proper ((≡) ==> (≡)) (adopt o i).
Proof.
  intros p q E. pose proof (proj1 (proc_equiv_unfold p q) E) as (_ & _ & Ep & _). unfold adopt. rewrite Ep.
  case_decide; by rewrite E.
Qed.

#[export] Instance wakeup_proper ch : Proper ((≡) ==> (≡)) (wakeup_acquired ch).
Proof. intros t u E. unfold wakeup_acquired. by apply list_fmap_proper; [apply wake_proper|]. Qed.
#[export] Instance reparent_proper o i : Proper ((≡) ==> (≡)) (reparent o i).
Proof. intros t u E. unfold reparent. by apply list_fmap_proper; [apply adopt_proper|]. Qed.

Lemma alter_proper f g i t u : (∀ p q, p ≡ q → f p ≡ g q) → t ≡ u → alter f i t ≡ alter g i u.
Proof. intros Hf E. by apply list_alter_proper. Qed.

Lemma alter_same f i t : (∀ p, f p ≡ p) → alter f i t ≡ t.
Proof.
  intros Hf. apply list_equiv_lookup. intros j. rewrite list_lookup_alter. case_decide; [|done]. subst.
  destruct (t !! j); constructor. apply Hf.
Qed.

#[export] Instance exit_table_proper o i : Proper ((≡) ==> (≡)) (exit_table o i).
Proof.
  intros t u E. unfold exit_table.
  assert (Ep : p_parent <$> reparent o i t !! i = p_parent <$> reparent o i u !! i).
  { assert (El : reparent o i t !! i ≡ reparent o i u !! i) by (by rewrite E). destruct El as [p q El|]; [|done].
    cbn. by rewrite El. }
  rewrite Ep. apply alter_proper; [by intros p q ->|]. case_match; [case_match|]; by rewrite E.
Qed.

Lemma first_proc_proper P Q `{∀ p, Decision (P p), ∀ p, Decision (Q p)} t u :
  (∀ p q, p ≡ q → P p ↔ Q q) → t ≡ u → first_proc P t = first_proc Q u.
Proof.
  intros HPQ E. unfold first_proc. rewrite list_equiv_Forall2 in E.
  induction E as [|p q t u Epq _ IH]; [done|]. cbn [list_find]. destruct (decide (P p)), (decide (Q q)); try done.
  - by destruct n; apply (HPQ p q Epq).
  - by destruct n; apply (HPQ p q Epq).
  - revert IH. destruct (list_find P t) as [[]|], (list_find Q u) as [[]|]; cbn; intros [=]; by subst.
Qed.

Lemma equiv_lookup t u i p : t ≡ u → t !! i = Some p → ∃ q, u !! i = Some q ∧ p ≡ q.
Proof.
  intros E Hi. assert (El : t !! i ≡ u !! i) by (by rewrite E). rewrite Hi in El. inversion El as [? q Eq|]; subst. eauto.
Qed.
End same.

(** ** A run and the state of the system *)

Section follows.
Context {C : Type} {HC : BlockCache C}.
Abbreviation kprog := (prog (kst C)).
Implicit Types (s : kst C) (σ : sys) (c i : nat) (v : option nat).

(** The process table, the next number and [initproc], here given apart, are
    those of the system. *)
Record agree (v : option nat) s σ : Prop := {
  ag_tab : procs s ≡ tab σ;
  ag_pid : nextpid s = npid σ;
  ag_ini : initproc s = v
}.

(** CPU [c] runs what it thinks it runs; a process that has just left it. *)
Definition on_cpu c s σ : Prop := agree (ini σ) s σ ∧ cpu σ !! c = k_cur s.
Definition off_cpu c s σ : Prop := agree (ini σ) s σ ∧ cpu σ !! c = None.

(** What the agreement speaks about, and a program that leaves it alone. *)
Definition view s : list (procstate * Z * option nat * chan) * Z * option nat * option nat :=
  (seen <$> procs s, nextpid s, initproc s, k_cur s).

Abbreviation Quiet := (Keeps (S := kst C) view).

Lemma table_equiv (t u : list proc) : t ≡ u ↔ seen <$> t = seen <$> u.
Proof.
  rewrite list_equiv_Forall2. split.
  - induction 1 as [|p q t u E _ IH]; [done|]. rewrite !fmap_cons, IH. by rewrite (E : seen p = seen q).
  - revert u. induction t as [|p t IH]; intros [|q u]; rewrite ?fmap_cons; try done. intros [= E1 E2 E3 E4 E].
    constructor; [|by apply IH]. by apply proc_equiv_unfold.
Qed.

Lemma agree_view v s s' σ : view s' = view s → agree v s σ → agree v s' σ.
Proof.
  intros [= E1 E2 E3 E4] [A1 A2 A3]. split; [|congruence..]. rewrite <- A1. by apply table_equiv.
Qed.

Lemma on_view c s s' σ : view s' = view s → on_cpu c s σ → on_cpu c s' σ.
Proof. intros E [A B]. split; [by eapply agree_view|]. rewrite B. by injection E. Qed.

Lemma off_view c s s' σ : view s' = view s → off_cpu c s σ → off_cpu c s' σ.
Proof. intros E [A B]. split; [by eapply agree_view|done]. Qed.

(** *** Programs that leave it alone *)

#[export] Instance quiet_kmem {A} (m : prog _ A) : Quiet (zoom of_kmem m).
Proof. by apply keeps_zoom. Qed.
#[export] Instance quiet_kmemory {A} (m : prog _ A) : Quiet (zoom of_kmemory m).
Proof. by apply keeps_zoom. Qed.
#[export] Instance quiet_kfs {A} (m : prog _ A) : Quiet (zoom of_kfs m).
Proof. by apply keeps_zoom. Qed.
#[export] Instance quiet_mmu {A} (m : prog _ A) : Quiet (zoom of_mmu m).
Proof. by apply keeps_zoom. Qed.
#[export] Instance quiet_ptlk {A} (m : prog _ A) : Quiet (zoom of_ptlk m).
Proof. by apply keeps_zoom. Qed.
#[export] Instance quiet_pidlk {A} (m : prog _ A) : Quiet (zoom of_pidlk m).
Proof. by apply keeps_zoom. Qed.

Lemma view_alter f i s : (∀ p, seen (f p) = seen p) → view (put_procs (alter f i (procs s)) s) = view s.
Proof.
  intros Hf. unfold view. cbn [procs nextpid initproc k_cur put_procs]. f_equal. f_equal. f_equal.
  apply table_equiv, alter_same, Hf.
Qed.

#[export] Instance quiet_files {A} i (m : prog _ A) : Quiet (zoom (of_files i) m).
Proof. apply keeps_zoom. intros t s. exact (view_alter (set_files (cwd t) (ofile t) (fl_handler t)) i s (λ _, eq_refl)). Qed.

Lemma quiet_upd i f : (∀ p, seen (f p) = seen p) → Quiet (upd_proc i f).
Proof. intros Hf. apply keeps_modify. intros s. by apply view_alter. Qed.

#[export] Instance quiet_lock : Quiet (lock_procs (C := C)) := quiet_ptlk acquire.
#[export] Instance quiet_unlock : Quiet (unlock_procs (C := C)) := quiet_ptlk release.
#[export] Instance quiet_proc_at i : Quiet (proc_at (C := C) i).
Proof. intros s a s'. unfold proc_at. by destruct (procs s !! i) as [p|]; [intros [= _ <-]|]. Qed.
#[export] Instance quiet_myproc : Quiet (myproc (C := C)).
Proof. intros s a s'. unfold myproc. by destruct (k_cur s); [intros [= _ <-]|]. Qed.
End follows.

(** A program that changes no more than fields of processes that are not seen. *)
Ltac quiet_tac := repeat first [ progress keeps_tac | apply quiet_upd; intros ?; reflexivity ].

Section quiet_routines.
Context {C : Type} {HC : BlockCache C}.
Abbreviation Quiet := (Keeps (S := kst C) view).
Context (cswitch : prog (kst C) unit) (forkret : Z) (proc_addr : nat → Z) (fuel : nat).

#[export] Instance quiet_tf_set tf k w : Quiet (tf_set tf k w).
Proof. unfold tf_set. quiet_tac. Qed.
#[export] Instance quiet_tf_copy d a : Quiet (tf_copy d a).
Proof. unfold tf_copy. quiet_tac. Qed.
#[export] Instance quiet_pget pid : Quiet (pget pid).
Proof. unfold pget. quiet_tac. Qed.
#[export] Instance quiet_getpid : Quiet getpid.
Proof. unfold getpid. quiet_tac. Qed.
#[export] Instance quiet_sbrk incr : Quiet (sbrk incr).
Proof. unfold sbrk. quiet_tac. Qed.
#[export] Instance quiet_schedule_tail i : Quiet (schedule_tail i).
Proof. unfold schedule_tail. quiet_tac. Qed.
#[export] Instance quiet_close_all cnt fd i : Quiet (close_all cnt fd i).
Proof. revert fd. induction cnt as [|cnt IH]; intros fd; cbn [close_all]; quiet_tac. Qed.
#[export] Instance quiet_dup_files cnt fd i j : Quiet (dup_files cnt fd i j).
Proof. revert fd. induction cnt as [|cnt IH]; intros fd; cbn [dup_files]; quiet_tac. Qed.
#[export] Instance quiet_load_loop n pgt va i off sz p : Quiet (load_loop n pgt va i off sz p).
Proof. revert p. induction n as [|n IH]; intros p; cbn [load_loop]; quiet_tac. Qed.
#[export] Instance quiet_load_prg pgt va i off sz : Quiet (load_prg pgt va i off sz).
Proof. unfold load_prg. quiet_tac. Qed.
#[export] Instance quiet_load_segments n ph pgt i off sz : Quiet (load_segments n ph pgt i off sz).
Proof. revert off sz. induction n as [|n IH]; intros off sz; cbn [load_segments]; quiet_tac. Qed.
#[export] Instance quiet_push_args n argv b t sp argc u : Quiet (push_args fuel n argv b t sp argc u).
Proof. revert sp argc u. induction n as [|n IH]; intros sp argc u; cbn [push_args]; quiet_tac. Qed.
#[export] Instance quiet_exec_fail pgt : Quiet (exec_fail pgt).
Proof. unfold exec_fail. quiet_tac. Qed.
#[export] Instance quiet_exec eh ph path argv : Quiet (exec fuel eh ph path argv).
Proof. unfold exec. quiet_tac. Qed.
End quiet_routines.

(** *** Runs, from switch to switch

    A routine is given as a function of [cswitch], so that a run is cut where it
    calls it.  At a switch the state satisfies [gives]; the routine goes on when
    the system has made any steps and the state satisfies [takes], on whatever
    CPU.  A run may also stop for good before the next switch. *)

Section runs.
Context {C : Type} {HC : BlockCache C}.
Abbreviation kprog := (prog (kst C)).
Implicit Types (s : kst C) (σ : sys) (c i : nat).
Context (gives takes : nat → kst C → sys → Prop).

Definition stopped {S A} (o : outcome S A) : Prop := match o with Ret _ _ => False | _ => True end.

Inductive follows {A} (Q : A → nat → kst C → sys → Prop) : nat → sys → (kprog unit → kprog A) → kst C → Prop :=
| fo_ret c σ M s a s' : (∀ cs, M cs s = Ret a s') → Q a c s' σ → follows Q c σ M s
| fo_stop c σ M s o : (∀ cs, M cs s = o) → stopped o → follows Q c σ M s
| fo_step c σ σ' M s : step σ σ' → follows Q c σ' M s → follows Q c σ M s
| fo_switch c σ M s (K : kprog unit → kprog A) s1 :
    (∀ cs, M cs s = (cs ;; K cs) s1) → gives c s1 σ →
    (∀ c' s2 σ', rtc step σ σ' → takes c' s2 σ' → follows Q c' σ' K s2) → follows Q c σ M s.

Context {A B : Type}.
Implicit Types (Q : B → nat → kst C → sys → Prop).

Lemma fo_same Q c σ M M' s s' : (∀ cs, M' cs s' = M cs s) → follows Q c σ M s → follows Q c σ M' s'.
Proof.
  intros E F. revert M' E. induction F as [c σ M s a s1 E H|c σ M s o E H|c σ σ' M s St F IH|c σ M s K s1 E G F IH]; intros M' E'.
  - apply (fo_ret _ _ _ _ _ a s1); [|done]. intros cs. by rewrite E'.
  - apply (fo_stop _ _ _ _ _ o); [|done]. intros cs. by rewrite E'.
  - eapply fo_step; [done|]. by apply IH.
  - apply (fo_switch _ _ _ _ _ K s1); [|done|done]. intros cs. by rewrite E'.
Qed.

Lemma fo_quiet Q c σ (m : kprog A) F s :
  Keeps view m → (∀ a s1, view s1 = view s → follows Q c σ (F a) s1) → follows Q c σ (λ cs, pbind m (λ a, F a cs)) s.
Proof.
  intros Hm Hf. destruct (m s) as [a s1| | |] eqn:E.
  - apply (fo_same _ _ _ (F a) _ s1); [|by apply Hf, (Hm _ _ _ E)].
    intros cs. by rewrite (pbind_ok _ _ _ _ _ E).
  - apply (fo_stop _ _ _ _ _ (Panic why)); [|done]. intros cs. by rewrite (pbind_panic _ _ _ _ E).
  - apply (fo_stop _ _ _ _ _ Hang); [|done]. intros cs. by rewrite (pbind_hang _ _ _ E).
  - apply (fo_stop _ _ _ _ _ (Fault why)); [|done]. intros cs. by rewrite (pbind_fault _ _ _ _ E).
Qed.

Lemma fo_end Q c σ (m : kprog B) s :
  Keeps view m → (∀ b s1, view s1 = view s → Q b c s1 σ) → follows Q c σ (λ _, m) s.
Proof.
  intros Hm Hf. destruct (m s) as [b s1| | |] eqn:E;
    [apply (fo_ret _ _ _ _ _ b s1); [done|by apply Hf, (Hm _ _ _ E)]|by eapply fo_stop; [intros; exact E|]..].
Qed.

(** A primitive whose result is known. *)
Lemma fo_call Q c σ (m : kprog A) F s a s1 :
  m s = Ret a s1 → follows Q c σ (F a) s1 → follows Q c σ (λ cs, pbind m (λ a, F a cs)) s.
Proof. intros E. apply fo_same. intros cs. by rewrite (pbind_ok _ _ _ _ _ E). Qed.

Lemma fo_bind (P : A → nat → kst C → sys → Prop) Q c σ M F s :
  follows P c σ M s → (∀ a c' s' σ', rtc step σ σ' → P a c' s' σ' → follows Q c' σ' (F a) s') →
  follows Q c σ (λ cs, pbind (M cs) (λ a, F a cs)) s.
Proof.
  induction 1 as [c σ M s a s' E H|c σ M s o E H|c σ σ' M s St F' IH|c σ M s K s1 E G F' IH]; intros HF.
  - apply (fo_same _ _ _ (F a) _ s'); [|apply HF; [apply rtc_refl|done]]. intros cs. by rewrite (pbind_ok _ _ _ _ _ (E cs)).
  - destruct o; [done|..].
    + apply (fo_stop _ _ _ _ _ (Panic why)); [|done]. intros cs. by rewrite (pbind_panic _ _ _ _ (E cs)).
    + apply (fo_stop _ _ _ _ _ Hang); [|done]. intros cs. by rewrite (pbind_hang _ _ _ (E cs)).
    + apply (fo_stop _ _ _ _ _ (Fault why)); [|done]. intros cs. by rewrite (pbind_fault _ _ _ _ (E cs)).
  - eapply fo_step; [done|]. apply IH. intros. apply HF; [by eapply rtc_l|done].
  - apply (fo_switch _ _ _ _ _ (λ cs, pbind (K cs) (λ a, F a cs)) s1); [|done|].
    + intros cs. unfold pbind at 1. rewrite E. unfold pbind. by destruct (cs s1).
    + intros c' s2 σ' R T. apply IH; [done|done|]. intros. apply HF; [|done]. by etrans.
Qed.

Lemma fo_mono (P : B → nat → kst C → sys → Prop) Q c σ M s :
  follows P c σ M s → (∀ b c' s' σ', rtc step σ σ' → P b c' s' σ' → Q b c' s' σ') → follows Q c σ M s.
Proof.
  induction 1 as [c σ M s a s' E H|c σ M s o E H|c σ σ' M s St F IH|c σ M s K s1 E G F IH]; intros HQ.
  - eapply fo_ret; [done|]. apply HQ; [apply rtc_refl|done].
  - by eapply fo_stop.
  - eapply fo_step; [done|]. apply IH. intros. apply HQ; [by eapply rtc_l|done].
  - eapply fo_switch; [done|done|]. intros. eapply IH; [done|done|]. intros. apply HQ; [by etrans|done].
Qed.

Lemma fo_proc_at Q j c σ (F : proc → kprog unit → kprog B) s :
  (∀ p, procs s !! j = Some p → follows Q c σ (F p) s) → follows Q c σ (λ cs, pbind (proc_at j) (λ p, F p cs)) s.
Proof.
  intros HF. unfold proc_at. destruct (procs s !! j) as [p|] eqn:E.
  - apply (fo_same _ _ _ (F p) _ s); [|by apply HF]. intros cs. unfold pbind. by rewrite E.
  - apply (fo_stop _ _ _ _ _ (Fault "proc pointer")); [|done]. intros cs. unfold pbind. by rewrite E.
Qed.
End runs.

(** Steps lead from reachable states to reachable states. *)
Lemma fo_reach {C} {HC : BlockCache C} {B} (G T G' T' : nat → kst C → sys → Prop) (Q Q' : B → nat → kst C → sys → Prop) c σ M (s : kst C) :
  (∀ c s σ, reachable σ → G c s σ → G' c s σ) → (∀ c s σ, T' c s σ → T c s σ) →
  (∀ b c s σ, reachable σ → Q b c s σ → Q' b c s σ) →
  reachable σ → follows G T Q c σ M s → follows G' T' Q' c σ M s.
Proof.
  intros HG HT HQ R F.
  induction F as [c σ M s a s' E H|c σ M s o E H|c σ σ' M s St F IH|c σ M s K s1 E HGs F IH].
  - eapply fo_ret; [done|]. by apply HQ.
  - by eapply fo_stop.
  - eapply fo_step; [done|]. apply IH. unfold reachable in *. by eapply rtc_r.
  - eapply fo_switch; [done|by apply HG|]. intros c' s2 σ' St HTs. apply IH; [done|by apply HT|].
    unfold reachable in *. by etrans.
Qed.

(** ** The routines *)

Section table_steps.
Context {C : Type} {HC : BlockCache C}.
Implicit Types (s : kst C) (σ : sys) (c i : nat) (t u : list proc).

(** Process [i] leaves CPU [c]; the CPU runs [o], a process or nothing. *)
Definition left_by i c s σ : Prop := off_cpu c s σ ∧ k_cur s = Some i ∧ st_of σ i ≠ Some RUNNING.
Definition with_cur (o : option nat) c s σ : Prop := on_cpu c s σ ∧ k_cur s = o.

(** A step that changes the table, not who runs; [uw] and [wt] are not the code's. *)
Lemma cur_put o c s σ t u uw wt :
  with_cur o c s σ → t ≡ u → with_cur o c (put_procs t s) (Sys u (cpu σ) (npid σ) (ini σ) uw wt).
Proof. intros [[[A1 A2 A3] B] D] E. by repeat split. Qed.

Lemma cur_alter o c s σ j f g uw wt :
  with_cur o c s σ → (∀ p q, p ≡ q → f p ≡ g q) →
  with_cur o c (put_procs (alter f j (procs s)) s) (Sys (alter g j (tab σ)) (cpu σ) (npid σ) (ini σ) uw wt).
Proof. intros O E. apply cur_put; [done|]. apply alter_proper; [done|apply O]. Qed.

Lemma state_after_alter x f i t : (∀ p, p_state (f p) ≠ x) → p_state <$> alter f i t !! i ≠ Some x.
Proof. intros Hf. rewrite list_lookup_alter_eq. destruct (t !! i); [|done]. intros [= E]. by destruct (Hf p). Qed.

(** A step in which the process on this CPU leaves it. *)
Lemma left_put i c s σ t u uw wt :
  with_cur (Some i) c s σ → t ≡ u → p_state <$> u !! i ≠ Some RUNNING →
  left_by i c (put_procs t s) (Sys u (delete c (cpu σ)) (npid σ) (ini σ) uw wt).
Proof. intros [[[A1 A2 A3] B] D] E Hr. split_and!; [|done|done]. split; [done|]. cbn. by rewrite lookup_delete_eq. Qed.

Lemma cur_view o c s s' σ : view s' = view s → with_cur o c s σ → with_cur o c s' σ.
Proof. intros V [O E]. split; [by eapply on_view|]. rewrite <- E. by injection V. Qed.

Lemma on_first P `{∀ p, Decision (P p)} c s σ :
  on_cpu c s σ → (∀ p q, p ≡ q → P p ↔ P q) → first_proc P (procs s) = first_proc P (tab σ).
Proof. intros [[A _ _] _] HP. by apply first_proc_proper. Qed.

Lemma state_iff x p q : p ≡ q → p_state p = x ↔ p_state q = x.
Proof. by intros ->. Qed.

Lemma on_st_of c s σ i p : on_cpu c s σ → procs s !! i = Some p → st_of σ i = Some (p_state p).
Proof.
  intros [[A _ _] _] Hi. destruct (equiv_lookup _ _ _ _ A Hi) as (q & Hq & E). apply st_of_some. exists q.
  split; [done|]. by rewrite E.
Qed.

Lemma newpid_view s pid s' :
  newpid s = Ret pid s' → pid = nextpid s ∧ nextpid s' = i32 (nextpid s + 1) ∧
    seen <$> procs s' = seen <$> procs s ∧ initproc s' = initproc s ∧ k_cur s' = k_cur s.
Proof.
  unfold newpid. intros (? & s1 & E1 & E)%pbind_inv. rewrite pbind_gets, pbind_modify in E.
  apply pbind_inv in E as (? & s3 & E3 & [= <- <-]).
  pose proof (quiet_pidlk _ _ _ _ E1) as [= V1 V2 V3 V4]. pose proof (quiet_pidlk _ _ _ _ E3) as [= W1 W2 W3 W4].
  cbn in W1, W2, W3, W4. split_and!; congruence.
Qed.
End table_steps.

Abbreviation back_on i := (with_cur (Some i)).

(** One quiet call at the head of a routine; what is known of the state is
    known after it. *)
Ltac keep_known V :=
  match goal with
  | H : with_cur _ _ ?s _ |- _ => match type of V with view _ = view s => apply (cur_view _ _ _ _ _ V) in H; clear V end
  end.
Tactic Notation "quiet_step" simple_intropattern(a) ident(s1) :=
  eapply fo_quiet; [quiet_tac|]; let V := fresh "V" in intros a s1 V; keep_known V.
Tactic Notation "quiet_end" simple_intropattern(b) ident(s1) :=
  apply fo_end; [quiet_tac|]; let V := fresh "V" in intros b s1 V; keep_known V.

Section free_step.
Context {C : Type} {HC : BlockCache C}.
Implicit Types (s : kst C) (σ : sys) (c i j : nat).

(** [freeproc]: the entry is cleared, by a step that allows it. *)
Lemma freeproc_follows G T i j c s σ :
  back_on i c s σ → step σ (with_tab (alter (λ _, proc_zero) j (tab σ)) σ) →
  follows G T (λ _, back_on i) c σ (λ _, freeproc j) s.
Proof.
  intros O St. unfold freeproc. quiet_step x s1. quiet_step _ s2. quiet_step p s3. quiet_step _ s4.
  eapply fo_step; [exact St|]. eapply fo_ret; [done|]. by apply cur_alter.
Qed.

End free_step.

Section routine_steps.
Context {C : Type} {HC : BlockCache C}.
Context (forkret : Z) (proc_addr : nat → Z).
Implicit Types (s : kst C) (σ : sys) (c i j : nat) (v o : option nat).
Context (G T : nat → kst C → sys → Prop).

(** What [newproc] returns is an entry that is numbered but not started. *)
Definition made (n : Z) v o (r : option nat) c s σ : Prop :=
  with_cur o c s σ ∧ ini σ = v ∧
  match r with Some j => st_of σ j = Some CREATED ∧ j ∉ unnamed σ ∧ (p_pid <$> tab σ !! j) = Some n | None => True end.

Lemma newproc_follows o c s σ :
  with_cur o c s σ → 0 <= npid σ < 2 ^ 31 - 1 →
  follows G T (made (npid σ) (ini σ) o) c σ (λ _, newproc forkret proc_addr) s.
Proof.
  intros O Hn. unfold newproc. quiet_step _ s1.
  eapply fo_call; [done|]. rewrite (on_first (λ p, p_state p = UNUSED) _ _ _ (proj1 O)) by apply state_iff.
  destruct (first_proc _ (tab σ)) as [j|] eqn:Ej.
  2: { quiet_step _ s2. by apply (fo_ret _ _ _ _ _ _ _ None s2). }
  eapply fo_call; [done|]. eapply fo_step; [by apply st_alloc|]. set (σ1 := Sys _ _ _ _ _ _). set (s2 := put_procs _ s1).
  assert (O2 : with_cur o c s2 σ1) by (apply cur_alter; [done|apply set_state_proper]).
  clear O. clearbody s2. quiet_step _ s3.
  destruct (newpid s3) as [pid s4| | |] eqn:E4.
  2-4: eapply fo_stop; [intros cs; unfold pbind; rewrite E4; reflexivity|done].
  eapply fo_call; [exact E4|]. destruct (newpid_view _ _ _ E4) as (Ep & En & Et & Ei & Ec). clear E4.
  eapply fo_call; [done|]. eapply fo_step; [apply (st_name _ j); set_solver|]. set (σ2 := Sys _ _ _ _ _ _). set (s5 := put_procs _ s4).
  assert (O5 : with_cur o c s5 σ2).
  { destruct O2 as [[[A1 A2 A3] B] D]. cbn in *. split; [split; [split|]|]; cbn; try congruence.
    - apply alter_proper; [|by rewrite <- A1; apply table_equiv]. intros p q E. rewrite Ep, A2. by apply set_pid_proper.
    - rewrite En, A2. by rewrite i32_small by lia. }
  assert (M : st_of σ2 j = Some CREATED ∧ j ∉ unnamed σ2 ∧ (p_pid <$> tab σ2 !! j) = Some (npid σ)).
  { apply first_proc_some in Ej as (p & Hj & _). unfold st_of. cbn [σ2 σ1 tab unnamed].
    rewrite !list_lookup_alter_eq, Hj. split_and!; [done|set_solver|done]. }
  assert (Hi : ini σ2 = ini σ) by done. clear O2 Et Ei Ec En. clearbody s5 σ2.
  quiet_step _ s6. quiet_step k s7. quiet_step _ s8.
  destruct (k =? 0); [by apply (fo_ret _ _ _ _ _ _ _ None s8)|]. cbv zeta.
  quiet_step _ s9. quiet_step _ s10. quiet_step g s11. quiet_step _ s12.
  destruct (g =? 0); [by apply (fo_ret _ _ _ _ _ _ _ None s12)|].
  quiet_step _ s13. by apply (fo_ret _ _ _ _ _ _ _ (Some j) s13).
Qed.

Lemma back_cpu i c s σ : back_on i c s σ → cpu σ !! c = Some i.
Proof. intros [[_ ->] D]. done. Qed.

Lemma myproc_back i c s σ : back_on i c s σ → myproc s = Ret i s.
Proof. intros [_ D]. unfold myproc. by rewrite D. Qed.

(** The end of [fork] and [clone]: what they write under [proctable.lk] is one
    step. *)
Lemma start_follows Q i j c s σ (F : prog (kst C) unit → prog (kst C) Z) :
  back_on i c s σ → st_of σ j = Some CREATED → j ∉ unnamed σ →
  (∀ s1 σ1, back_on i c s1 σ1 → follows G T Q c σ1 F s1) →
  follows G T Q c σ (λ cs, upd_proc j (set_state RUNNABLE) ;; upd_proc j (set_parent (Some i)) ;; F cs) s.
Proof.
  intros O Hc Hu HF. eapply fo_call; [done|]. eapply fo_call; [done|].
  eapply fo_step; [by eapply (st_start _ c i j); [eapply back_cpu|..]|]. apply HF. cbn [procs put_procs].
  rewrite list_alter_alter_eq. refine (cur_alter _ _ s _ _ _ _ _ _ O _). intros p q E. unfold compose. by rewrite E.
Qed.

Lemma fork_follows i c s σ :
  back_on i c s σ → 0 <= npid σ < 2 ^ 31 - 1 →
  follows G T (λ _, back_on i) c σ (λ _, fork forkret proc_addr) s.
Proof.
  intros O Hn. unfold fork. eapply fo_call; [by eapply myproc_back|].
  eapply fo_bind; [by apply newproc_follows|]. intros r c1 s1 σ1 _ (O1 & _ & M). destruct r as [j|]; [|by eapply fo_ret].
  destruct M as (Hc & Hu & _). quiet_step x s2. quiet_step y s3. quiet_step ok s4. destruct (ok <? 0).
  - quiet_step _ s5. eapply fo_bind; [apply freeproc_follows; [done|by apply st_drop]|].
    intros [] c2 s6 σ2 _ O2. cbv beta in O2. quiet_step _ s7. by eapply fo_ret.
  - quiet_step _ s5. quiet_step _ s6. quiet_step _ s7. quiet_step _ s8. quiet_step _ s9. quiet_step _ s10. quiet_step _ s11.
    apply start_follows; [done..|]. clear. intros s σ O. quiet_end b s1. done.
Qed.

Lemma clone_follows fn stack i c s σ :
  back_on i c s σ → 0 <= npid σ < 2 ^ 31 - 1 →
  follows G T (λ _, back_on i) c σ (λ _, clone forkret proc_addr fn stack) s.
Proof.
  intros O Hn. unfold clone. eapply fo_call; [by eapply myproc_back|].
  eapply fo_bind; [by apply newproc_follows|]. intros r c1 s1 σ1 _ (O1 & _ & M). destruct r as [j|]; [|by eapply fo_ret].
  destruct M as (Hc & Hu & _). quiet_step x s2. quiet_step _ s3. quiet_step _ s4. quiet_step y s5. quiet_step _ s6. quiet_step _ s7.
  quiet_step _ s8. quiet_step _ s9. quiet_step _ s10. quiet_step _ s11. quiet_step _ s12.
  apply start_follows; [done..|]. clear. intros s σ O. quiet_end b s1. done.
Qed.
End routine_steps.

(** *** Routines that give the CPU away

    [G] is what is promised of the system at a switch. *)

Section switch_steps.
Context {C : Type} {HC : BlockCache C}.
Context (proc_addr : nat → Z).
Implicit Types (s : kst C) (σ : sys) (c j : nat).
Context (i : nat) (G : nat → kst C → sys → Prop).
Abbreviation follows_G := (follows G (back_on i)).

Definition asleep_if (c : nat) (s : kst C) σ : Prop := st_of σ i = Some SLEEPING.
Context (HG : ∀ c s σ, left_by i c s σ → st_of σ i ≠ Some SLEEPING → G c s σ).

(** The system after process [i] went to sleep on [ch]. *)
Definition slept (ch : chan) c wt σ : sys :=
  Sys (alter (λ p, set_state SLEEPING (set_chan ch p)) i (tab σ)) (delete c (cpu σ)) (npid σ) (ini σ) (unnamed σ) wt.

Lemma yield_follows c s σ : back_on i c s σ → follows_G (λ _, back_on i) c σ yield s.
Proof.
  intros O. unfold yield. eapply fo_call; [by eapply myproc_back|]. quiet_step _ s1. eapply fo_call; [done|].
  eapply fo_step; [eapply (st_yield _ c i); by eapply back_cpu|].
  eapply (fo_switch _ _ _ _ _ _ _ (λ _, unlock_procs)); [done| |].
  - apply HG; [refine (left_put _ _ _ _ _ _ _ _ O _ _); [apply alter_proper; [apply set_state_proper|apply O]|]|];
      by apply (state_after_alter _ (set_state RUNNABLE)).
  - clear. intros c' s2 σ' _ O. quiet_end b s3. done.
Qed.

Lemma exitproc_follows {A} (Q : A → nat → kst C → sys → Prop) r c s σ :
  back_on i c s σ → follows_G Q c σ (λ cs, exitproc cs i r) s.
Proof.
  intros O. unfold exitproc. apply fo_proc_at. intros p Hp.
  destruct (p_pid p =? 0) eqn:E0; [by apply (fo_stop _ _ _ _ _ _ _ (Panic "init exit"))|]. apply Z.eqb_neq in E0.
  assert (Hpid : ∀ q, tab σ !! i = Some q → p_pid q ≠ 0).
  { intros q Hq. destruct (equiv_lookup _ _ _ _ (ag_tab _ _ _ (proj1 (proj1 O))) Hp) as (q' & Hq' & E).
    simplify_eq. by rewrite <- (p_pid_proper _ _ E). }
  clear Hp. quiet_step _ s1. quiet_step _ s2. quiet_step _ s3. quiet_step _ s4. quiet_step _ s5.
  eapply fo_call; [done|]. rewrite (ag_ini _ _ _ (proj1 (proj1 O))).
  eapply fo_call; [done|]. eapply fo_step; [eapply (st_exit _ c i); [by eapply back_cpu|done]|].
  eapply (fo_switch _ _ _ _ _ _ _ (λ _, panic "unreachable")); [done| |].
  - destruct (exit_table_eq (ini σ) i (tab σ)) as (ch & Et & _).
    apply HG; [refine (left_put _ _ _ _ _ _ _ _ O _ _); [apply exit_table_proper, O|]|]; cbn; unfold st_of; cbn; rewrite Et;
      by apply (state_after_alter _ (set_state ZOMBIE)).
  - intros. by apply (fo_stop _ _ _ _ _ _ _ (Panic "unreachable")).
Qed.

Lemma sigcheck_follows c s σ : back_on i c s σ → follows_G (λ _, back_on i) c σ (λ cs, sigcheck cs i) s.
Proof.
  intros O. unfold sigcheck. quiet_step p s1. destruct (nz (p_sig p)); [|by eapply fo_ret].
  quiet_step _ s2. by apply exitproc_follows.
Qed.

(** From the switch in [sleep] on. *)
Lemma wakes_follows (lk : prog (kst C) unit) c s σ :
  Keeps view lk → back_on i c s σ →
  follows_G (λ _, back_on i) c σ (λ cs, upd_proc i (set_chan NoChan) ;; unlock_procs ;; lk ;; sigcheck cs i) s.
Proof.
  intros Hlk O. eapply fo_call; [done|]. eapply fo_step; [by eapply (st_awake _ c i), back_cpu|].
  assert (O1 : back_on i c (put_procs (alter (set_chan NoChan) i (procs s)) s) (with_tab (alter (set_chan NoChan) i (tab σ)) σ))
    by (apply cur_alter; [done|apply set_chan_proper]). clear O.
  quiet_step _ s1. quiet_step _ s2. by apply sigcheck_follows.
Qed.

Lemma sleep_switch ch wt c s σ (K : prog (kst C) unit → prog (kst C) unit) :
  back_on i c s σ → step σ (slept ch c wt σ) → (∀ s', left_by i c s' (slept ch c wt σ) → G c s' (slept ch c wt σ)) →
  (∀ c' s' σ', back_on i c' s' σ' → follows_G (λ _, back_on i) c' σ' K s') →
  follows_G (λ _, back_on i) c σ (λ cs, upd_proc i (set_chan ch) ;; upd_proc i (set_state SLEEPING) ;; cs ;; K cs) s.
Proof.
  intros O St HGs HK. eapply fo_call; [done|]. eapply fo_call; [done|]. eapply fo_step; [exact St|].
  eapply (fo_switch _ _ _ _ _ _ _ K); [done| |].
  - apply HGs. cbn [procs put_procs]. rewrite list_alter_alter_eq. refine (left_put _ _ s _ _ _ _ _ O _ _).
    + apply alter_proper; [|apply O]. intros p q E. unfold compose. by rewrite E.
    + by apply (state_after_alter _ (λ p, set_state SLEEPING (set_chan ch p))).
  - intros c' s' σ' _ O'. by apply HK.
Qed.

Lemma sleep_procs_follows ch wt c s σ :
  back_on i c s σ → step σ (slept ch c wt σ) → (∀ s', left_by i c s' (slept ch c wt σ) → G c s' (slept ch c wt σ)) →
  follows_G (λ _, back_on i) c σ (λ cs, sleep_procs cs ch) s.
Proof.
  intros O St HGs. unfold sleep_procs. eapply fo_call; [by eapply myproc_back|].
  apply (sleep_switch ch wt _ _ _ (λ cs, upd_proc i (set_chan NoChan) ;; unlock_procs ;; sigcheck cs i)); [done..|].
  intros c' s' σ' O'. eapply fo_same; [|apply (wakes_follows (ret tt)); [apply _|exact O']]. intros cs. reflexivity.
Qed.

Lemma sleep_on_follows lk ch wt c s σ :
  (∀ t s, view (lset lk t s) = view s) →
  back_on i c s σ → step σ (slept ch c wt σ) → (∀ s', left_by i c s' (slept ch c wt σ) → G c s' (slept ch c wt σ)) →
  follows_G (λ _, back_on i) c σ (λ cs, sleep_on cs lk ch) s.
Proof.
  intros Hlk O St HGs. unfold sleep_on. eapply fo_call; [by eapply myproc_back|]. quiet_step _ s1.
  eapply fo_quiet; [by apply keeps_zoom|]. intros _ s2 V. keep_known V.
  apply (sleep_switch ch wt _ _ _ (λ cs, upd_proc i (set_chan NoChan) ;; unlock_procs ;; zoom lk acquire ;; sigcheck cs i)); [done..|].
  intros c' s' σ' O'. apply wakes_follows; [by apply keeps_zoom|done].
Qed.

Lemma reap_follows j status c s σ :
  back_on i c s σ → st_of σ j = Some ZOMBIE → follows_G (λ _, back_on i) c σ (λ _, reap proc_addr i j status) s.
Proof.
  intros O Hj. unfold reap. quiet_step cp s1. quiet_step r s2.
  eapply fo_bind; [apply freeproc_follows; [done|]; apply (st_reap _ c i); [by eapply back_cpu|done]|].
  intros [] c1 s3 σ1 _ O1. cbv beta in O1. quiet_step _ s4. by eapply fo_ret.
Qed.

Lemma find_zombie_first (cond : proc → bool) c s σ :
  (∀ p q, p ≡ q → cond p = cond q) → back_on i c s σ →
  find_zombie (λ p, cond p = true) (procs s) = find_zombie (λ p, cond p = true) (tab σ).
Proof.
  intros Hc [O _]. apply (on_first _ c); [done|]. intros p q E. rewrite (Hc _ _ E). by rewrite E.
Qed.

Lemma wait_loop_follows (cond : proc → bool) status turns c s σ :
  (∀ p q, p ≡ q → cond p = cond q) →
  (∀ c σ, cpu σ !! c = Some i → find_zombie (λ p, cond p = true) (tab σ) = None →
     ∃ wt, step σ (slept (ChanProc i) c wt σ) ∧
       ∀ s', left_by i c s' (slept (ChanProc i) c wt σ) → G c s' (slept (ChanProc i) c wt σ)) →
  back_on i c s σ → follows_G (λ _, back_on i) c σ (λ cs, wait_loop cs proc_addr turns cond i status) s.
Proof.
  intros Hc Hs. revert c s σ. induction turns as [|turns IH]; intros c s σ O; cbn [wait_loop]; quiet_step _ s1;
    (eapply fo_call; [done|]); rewrite (find_zombie_first _ _ _ _ Hc O);
    (destruct (find_zombie _ (tab σ)) as [j|] eqn:Ej;
     [apply first_proc_some in Ej as (p & Hp & _ & Hz); apply reap_follows; [done|]; apply st_of_some; eauto|]).
  - by apply (fo_stop _ _ _ _ _ _ _ Hang).
  - destruct (Hs c σ (back_cpu _ _ _ _ O) Ej) as (wt & St & HGs).
    eapply fo_bind; [by apply (sleep_procs_follows _ wt)|]. intros [] c1 s2 σ1 _ O1. by apply IH.
Qed.
End switch_steps.

(** *** wakeup, kill *)

Section others.
Context {C : Type} {HC : BlockCache C}.
Implicit Types (s : kst C) (σ : sys) (c i : nat) (o : option nat).
Context (G T : nat → kst C → sys → Prop).

Lemma wakeup_follows o ch c s σ : with_cur o c s σ → follows G T (λ _, with_cur o) c σ (λ _, wakeup ch) s.
Proof.
  intros O. unfold wakeup. quiet_step _ s1. eapply fo_call; [done|]. eapply fo_step; [apply (st_wakeup _ ch)|].
  apply fo_end; [quiet_tac|]. intros [] s2 V. eapply cur_view; [exact V|]. apply cur_put; [done|]. apply wakeup_proper, O.
Qed.

Lemma killproc_follows o j sig c s σ : with_cur o c s σ → follows G T (λ _, with_cur o) c σ (λ _, killproc j sig) s.
Proof.
  intros O. unfold killproc. destruct j as [j|]; [|by eapply fo_ret]. quiet_step _ s1. quiet_step _ s2.
  apply fo_proc_at. intros p Hp. destruct O as [O Ho]. pose proof (on_st_of _ _ _ _ _ O Hp) as Hs. case_decide as Es.
  - eapply fo_call; [done|]. eapply fo_step; [apply (st_kill _ j); by rewrite Hs, Es|].
    apply fo_end; [quiet_tac|]. intros b s3 V. eapply cur_view; [exact V|].
    apply cur_alter; [by split|apply set_state_proper].
  - apply fo_end; [quiet_tac|]. intros b s3 V. eapply cur_view; [exact V|by split].
Qed.

Lemma kill_follows o pid sig c s σ : with_cur o c s σ → follows G T (λ _, with_cur o) c σ (λ _, kill pid sig) s.
Proof. intros O. unfold kill. quiet_step j s1. by apply killproc_follows. Qed.
End others.

(** *** The scheduler

    It waits for a process to give the CPU back; processes wait for it. *)

Section scheduler.
Context {C : Type} {HC : BlockCache C}.
Context (forkret : Z) (proc_addr : nat → Z).
Implicit Types (s : kst C) (σ : sys) (i : nat).
Context (c : nat).

Definition hands (c' : nat) s σ : Prop := ∃ i, with_cur (Some i) c' s σ ∧ st_of σ i = Some RUNNING.
Definition gets_back (c' : nat) s σ : Prop := c' = c ∧ off_cpu c s σ.
Definition idle (c' : nat) s σ : Prop := c' = c ∧ with_cur None c s σ.

Lemma schedule_in_follows i s σ :
  with_cur None c s σ →
  follows hands gets_back (λ b c' s' σ', c' = c ∧ with_cur (if b : bool then Some i else None) c s' σ' ∧
    (b = true → st_of σ' i = Some RUNNING)) c σ (λ _, schedule_in i) s.
Proof.
  intros O. unfold schedule_in. apply fo_proc_at. intros p Hp. pose proof (on_st_of _ _ _ _ _ (proj1 O) Hp) as Hs.
  case_decide as Er; [|by eapply fo_ret]. eapply fo_call; [done|]. eapply fo_call; [done|].
  eapply fo_step; [apply (st_dispatch _ c i); [destruct O as [[_ ->] D]; exact D|by rewrite Hs, Er]|].
  set (s1 := put_cur (Some i) _). set (σ1 := with_cpu _ _).
  assert (O1 : with_cur (Some i) c s1 σ1).
  { destruct O as [[[A1 A2 A3] B] D]. split; [split; [split|]|done]; try done.
    - apply alter_proper; [apply set_state_proper|done].
    - cbn. by rewrite lookup_insert_eq. }
  assert (Hr : st_of σ1 i = Some RUNNING).
  { destruct (equiv_lookup _ _ _ _ (ag_tab _ _ _ (proj1 (proj1 O))) Hp) as (q & Hq & _). unfold st_of. cbn.
    by rewrite list_lookup_alter_eq, Hq. }
  clearbody s1 σ1. quiet_step _ s2. by eapply fo_ret.
Qed.

Lemma schedule_loop_follows cnt i s σ :
  with_cur None c s σ → follows hands gets_back (λ _, idle) c σ (λ cs, schedule_loop cs cnt i) s.
Proof.
  revert i s σ. induction cnt as [|cnt IH]; intros i s σ O; cbn [schedule_loop]; [by eapply fo_ret|].
  eapply fo_bind; [by apply schedule_in_follows|]. intros [] c1 s1 σ1 _ (-> & O1 & Hr).
  - apply (fo_bind _ _ (λ _, idle) _ _ _ (λ cs, cs ;; schedule_out) (λ _ cs, schedule_loop cs cnt (S i)));
      [|intros [] c2 s2 σ2 _ [-> O2]; by apply IH].
    eapply (fo_switch _ _ _ _ _ _ _ (λ _, schedule_out)); [done|by exists i; eauto|].
    clear. intros c2 s2 σ2 _ [-> O2]. unfold schedule_out.
    eapply fo_quiet; [apply _|]. intros _ s3 V. apply (off_view _ _ _ _ V) in O2. eapply fo_ret; [done|].
    destruct O2 as [[A1 A2 A3] B]. by repeat split.
  - eapply fo_call; [done|]. by apply IH.
Qed.

Lemma schedule_turn_follows s σ :
  with_cur None c s σ → follows hands gets_back (λ _, idle) c σ schedule_turn s.
Proof.
  intros O. unfold schedule_turn. quiet_step _ s1. quiet_step _ s2.
  eapply fo_bind; [by apply schedule_loop_follows|]. intros [] c2 s3 σ2 _ [-> O2]. quiet_end b s4. done.
Qed.

(** The two sides of a switch fit. *)
Lemma left_gets_back i s σ : left_by i c s σ → gets_back c s σ.
Proof. by intros [? _]. Qed.
Lemma hands_back_on c' s σ : hands c' s σ → ∃ i, back_on i c' s σ.
Proof. intros (i & O & _). by exists i. Qed.

(** The first process, at boot. *)
Lemma userproc_init_follows G T ustart size s σ :
  with_cur None c s σ → ini σ = None → npid σ = 0 →
  follows G T (λ _, with_cur None) c σ (λ _, userproc_init forkret proc_addr ustart size) s.
Proof.
  intros O Hini Hn. unfold userproc_init. eapply fo_bind; [apply newproc_follows; [done|lia]|].
  intros r c1 s1 σ1 _ (O1 & Hi & M). eapply fo_call; [done|]. destruct r as [j|]; [|by apply (fo_stop _ _ _ _ _ _ _ (Panic "initproc"))].
  destruct M as (Hc & Hu & Hp). rewrite Hn in Hp. rewrite Hini in Hi.
  assert (O2 : agree (Some j) (put_init (Some j) s1) σ1 ∧ cpu σ1 !! c1 = None ∧ k_cur (put_init (Some j) s1) = None).
  { destruct O1 as [[[A1 A2 A3] B] D]. cbn. split_and!; [done|congruence|done]. }
  revert O2. generalize (put_init (Some j) s1). intros s2 O2.
  do 9 (eapply fo_quiet; [quiet_tac|]; intros ? ? V;
    match type of V with view ?s' = view ?s =>
      assert (agree (Some j) s' σ1 ∧ cpu σ1 !! c1 = None ∧ k_cur s' = None)
        by (destruct O2 as (A & ? & K); split_and!; [by eapply agree_view|done|by injection V as _ _ _ ->]);
      clear O2 V; rename H into O2 end).
  eapply fo_call; [done|]. eapply fo_step; [by apply (st_init _ j)|]. apply fo_end; [quiet_tac|]. intros [] sz V.
  eapply cur_view; [exact V|]. destruct O2 as ([A1 A2 A3] & B & D). split; [split; [split|]|]; try done; cbn.
  - apply alter_proper; [apply set_state_proper|done].
  - by rewrite B, D.
Qed.
End scheduler.

Module StepProps.

(** ** What a process can ask of proc.c *)

Inductive call := CFork | CClone (fn stack : Z) | CExit (r : Z) | CWait (turns : nat) (status : Z)
| CWaitpid (turns : nat) (pid status : Z) | CSleep (ch : chan) | CYield | CWakeup (ch : chan) | CKill (pid sig : Z)
| CSbrk (incr : Z) | CExec (eh ph : Z) (path : bytes) (argv : Z) | CGetpid.

Section claims.
Context {C : Type} {HC : BlockCache C}.
Context (forkret : Z) (proc_addr : nat → Z) (fuel : nat).
(** The lock that a caller of [sleep] holds is not part of the table. *)
Context (lk : lens (kst C) lockst) (Hlk : ∀ t s, view (lset lk t s) = view s).
Implicit Types (s : kst C) (σ : sys) (c i : nat).

Definition unit_call (m : prog (kst C) unit) : prog (kst C) Z := m ;; ret 0.

Definition run_call (k : call) (cs : prog (kst C) unit) : prog (kst C) Z :=
  match k with
  | CFork => fork forkret proc_addr
  | CClone fn stack => clone forkret proc_addr fn stack
  | CExit r => exit cs r
  | CWait turns status => wait cs proc_addr turns status
  | CWaitpid turns pid status => waitpid cs proc_addr turns pid status
  | CSleep ch => unit_call (sleep_on cs lk ch)
  | CYield => unit_call (yield cs)
  | CWakeup ch => unit_call (wakeup ch)
  | CKill pid sig => kill pid sig
  | CSbrk incr => sbrk incr
  | CExec eh ph path argv => exec fuel eh ph path argv
  | CGetpid => getpid
  end.

(** At a switch inside the call: the process has left its CPU, and in [wait] it
    sleeps as a process that waits. *)
Definition gives_way i (k : call) c s σ : Prop :=
  left_by i c s σ ∧ match k with CWait _ _ => st_of σ i = Some SLEEPING → i ∈ waiting σ | _ => True end.

Lemma gives_way_awake i k c s σ : left_by i c s σ → st_of σ i ≠ Some SLEEPING → gives_way i k c s σ.
Proof. intros. split; [done|by destruct k]. Qed.

Lemma quiet_follows (m : prog (kst C) Z) G i c s σ :
  Keeps view m → back_on i c s σ → follows G (back_on i) (λ _, back_on i) c σ (λ _, m) s.
Proof. intros Hm O. by quiet_end b s1. Qed.

Lemma unit_follows G i (m : prog (kst C) unit → prog (kst C) unit) c s σ :
  follows G (back_on i) (λ _, back_on i) c σ m s → follows G (back_on i) (λ _, back_on i) c σ (λ cs, unit_call (m cs)) s.
Proof. intros F. eapply fo_bind; [exact F|]. intros [] c' s' σ' _ O. by eapply fo_ret. Qed.

Lemma st_sleep_slept i ch c σ : cpu σ !! c = Some i → step σ (slept i ch c (waiting σ ∖ {[ i ]}) σ).
Proof. intros. by apply (st_sleep _ c i ch). Qed.

Lemma wait_follows i turns status c s σ :
  back_on i c s σ →
  follows (gives_way i (CWait turns status)) (back_on i) (λ _, back_on i) c σ (λ cs, wait cs proc_addr turns status) s.
Proof.
  intros O. unfold wait. eapply fo_call; [by eapply myproc_back|].
  apply wait_loop_follows; [intros; by apply gives_way_awake|intros p q E; apply bool_decide_ext; by rewrite E| |done].
  clear. intros c σ Hc Hz. exists ({[ i ]} ∪ waiting σ). split; [|intros s' L; split; [done|intros _; cbn; set_solver]].
  apply (st_wait _ c i); [done|]. rewrite <- Hz. unfold find_zombie. apply first_proc_proper; [|done].
  intros p q E. rewrite bool_decide_eq_true, E. done.
Qed.

Lemma waitpid_follows i turns pid status c s σ :
  back_on i c s σ →
  follows (gives_way i (CWaitpid turns pid status)) (back_on i) (λ _, back_on i) c σ
    (λ cs, waitpid cs proc_addr turns pid status) s.
Proof.
  intros O. unfold waitpid. eapply fo_call; [by eapply myproc_back|].
  apply wait_loop_follows; [intros; by apply gives_way_awake|intros p q E; by rewrite E| |done].
  clear. intros c σ Hc _. exists (waiting σ ∖ {[ i ]}). split; [by apply st_sleep_slept|by intros s' L].
Qed.

Lemma call_follows i k c s σ :
  back_on i c s σ → 0 <= npid σ < 2 ^ 31 - 1 →
  follows (gives_way i k) (back_on i) (λ _, back_on i) c σ (run_call k) s.
Proof.
  intros O Hn. pose proof (gives_way_awake i k) as HG. destruct k; cbn [run_call].
  - by apply fork_follows.
  - by apply clone_follows.
  - unfold exit. eapply fo_call; [by eapply myproc_back|]. by apply exitproc_follows.
  - by apply wait_follows.
  - by apply waitpid_follows.
  - apply unit_follows. eapply sleep_on_follows; [done|done|done|by apply st_sleep_slept; eapply back_cpu|by intros s' L].
  - apply unit_follows. by apply yield_follows.
  - apply (unit_follows _ _ (λ _, wakeup ch)). by apply wakeup_follows.
  - by apply kill_follows.
  - by apply (quiet_follows (sbrk incr)); [apply _|].
  - by apply (quiet_follows (exec fuel eh ph path argv)); [apply _|].
  - by apply (quiet_follows getpid); [apply _|].
Qed.

(** C12: processes follow the transition system. Let process [i] run on CPU [c]
    of a reachable state of the system. Whatever it asks of proc.c, the run of
    the routine is a path of the steps of the system: whenever it gives the CPU
    away the system is in a reachable state in which no CPU has [i], whatever
    steps the others make until it comes back, on any CPU; and so when it
    returns, when it runs on the CPU it came back on. In [wait] it goes to sleep
    as a process that waits. *)
Theorem calls_follow_steps i k c s σ :
  reachable σ → back_on i c s σ → 0 <= npid σ < 2 ^ 31 - 1 →
  follows (λ c s σ, gives_way i k c s σ ∧ reachable σ ∧ ∀ d, cpu σ !! d ≠ Some i) (back_on i)
    (λ _ c s σ, back_on i c s σ ∧ reachable σ ∧ cpu σ !! c = Some i) c σ (run_call k) s.
Proof.
  intros R O Hn. eapply fo_reach; [| | |exact R|by apply call_follows]; [| done |].
  - clear. intros c s σ R G. split_and!; [done|done|]. intros d Hd.
    apply (co_run _ _ (iv_cpu _ (sched_reachable_inv _ R))) in Hd. apply st_of_some in Hd. by apply G.
  - clear. intros b c s σ R O. cbv beta in O. split_and!; [exact O|exact R|by eapply back_cpu].
Qed.

(** C13: the scheduler follows it too. One turn of [schedule] on a CPU without a
    process is a path of steps: each process it switches to was taken by that
    step, is RUNNING and is on no other CPU; the process comes back, after any
    steps of the system, when no CPU has it any more; and the turn ends with
    the CPU idle. *)
Theorem scheduler_follows_steps c s σ :
  reachable σ → with_cur None c s σ →
  follows (λ c' s σ, ∃ i, k_cur s = Some i ∧ st_of σ i = Some RUNNING ∧ cpu σ !! c' = Some i ∧ (∀ d, cpu σ !! d = Some i → d = c'))
    (gets_back c) (λ _ c' s σ, c' = c ∧ with_cur None c s σ ∧ reachable σ) c σ schedule_turn s.
Proof.
  intros R O. eapply fo_reach; [|done| |exact R|by apply schedule_turn_follows].
  - clear. intros c s σ R (i & O & Hi). exists i. pose proof (back_cpu _ _ _ _ O) as Hc. split_and!; [apply O|done|done|].
    intros d Hd. by eapply (co_one _ _ (iv_cpu _ (sched_reachable_inv _ R))).
  - clear. intros b c' s σ R [-> O]. by split_and!.
Qed.
End claims.

(** *** Witnesses *)

(** The first process runs; and the same machine with an idle CPU 1. *)
Definition first_sys : sys := after init_runs.
Definition first_kst : kst (bcache memdisk) := put_nextpid 1 (machine (start free16) (tab first_sys) 0).

Lemma first_back : back_on 0%nat 0 first_kst first_sys.
Proof. split; [|reflexivity]. split; [|reflexivity]. split; reflexivity. Qed.

Lemma first_reachable : reachable first_sys.
Proof. apply after_reachable. vm_compute. reflexivity. Qed.

Lemma calls_follow_steps_witness :
  follows (λ c s σ, gives_way 0 (CWait 3 0) c s σ ∧ reachable σ ∧ ∀ d, cpu σ !! d ≠ Some 0%nat) (back_on 0%nat)
    (λ _ c s σ, back_on 0%nat c s σ ∧ reachable σ ∧ cpu σ !! c = Some 0%nat) 0 first_sys
    (λ cs, wait cs ProcProps.where_proc 3 0) first_kst.
Proof.
  apply (calls_follow_steps 0x40 ProcProps.where_proc 100 of_ptlk (λ _ _, eq_refl) 0 (CWait 3 0) 0 first_kst first_sys).
  - exact first_reachable.
  - exact first_back.
  - vm_compute. split; [discriminate|reflexivity].
Defined.

Lemma scheduler_follows_steps_witness :
  follows (λ c' s σ, ∃ i, k_cur s = Some i ∧ st_of σ i = Some RUNNING ∧ cpu σ !! c' = Some i ∧ (∀ d, cpu σ !! d = Some i → d = c'))
    (gets_back 1) (λ _ c' s σ, c' = 1%nat ∧ with_cur None 1 s σ ∧ reachable σ) 1 first_sys schedule_turn (put_cur None first_kst).
Proof.
  apply (scheduler_follows_steps 1 (put_cur None first_kst) first_sys first_reachable).
  split; [|reflexivity]. split; [|reflexivity]. split; reflexivity.
Defined.
End StepProps.
