(* ===== verification/Wakeup.v ===== *)
(** * Sleeping and waking on another lock: [sleep], [wakeup] and the disk driver

    A request waits with [while(!done) sleep(buf, &disk.lk)]; the interrupt
    handler sets [done] and calls [wakeup(buf)], holding [disk.lk].  Here the
    instructions that take and give back the two locks, [disk.lk] and
    [proctable.lk], are separate steps of any number of requests, the handler,
    the device and [kill], in any order.  No wakeup is lost between the test and
    the sleep, and the locks are not taken in a circle; but a sleeper that is
    killed exits with [disk.lk], and then nobody gets it any more. *)

From stdpp Require Import gmap relations.
From S2P Require Import Prelude Proc Sched.
Open Scope Z_scope.

(** Who holds a lock. *)
Inductive holder := Req (i : nat) | Intr.

#[export] Instance holder_eq_dec : EqDecision holder.
Proof. solve_decision. Defined.

(** Where a request is: in the loop of [virtio_blk_op], and in [sleep]. *)
Inductive rpc :=
| RCheck                (* at the test of the loop, with disk.lk *)
| RAcqP | RRelL         (* acquire(&proctable.lk); release(lk) *)
| RSleep | RAsleep      (* p->chan = ..., cswitch; and switched away *)
| RWoken                (* switched to again, with proctable.lk *)
| RAcqL                 (* acquire(lk) *)
| RExit.                (* sigcheck found a signal: exitproc, with disk.lk *)

(** Where the handler is: in the loop of [virtio_blk_intr], and in [wakeup]. *)
Inductive hpc := HIdle | HLoop | HAcqP (i : nat) | HWake (i : nat) | HRelP.

#[export] Instance rpc_eq_dec : EqDecision rpc.
Proof. solve_decision. Defined.
#[export] Instance hpc_eq_dec : EqDecision hpc.
Proof. solve_decision. Defined.

(** The process table, the locks, where everybody is, and the requests: given to
    the device, in the used ring, and with [done] set. A request is named by the
    process that made it. *)
Record net := Net {
  n_tab : list proc; n_lk : option holder; n_ptlk : option holder;
  n_pc : gmap nat rpc; n_hpc : hpc;
  n_flight : gset nat; n_used : gset nat; n_done : gset nat
}.

Ltac open_move :=
  repeat match goal with
  | H : guard _ _ = Some _ |- _ => unfold guard in H
  | H : (if decide _ then _ else _) = Some _ |- _ => case_decide
  | H : guard_some ?o _ = Some _ |- _ => let E := fresh "E" in destruct o eqn:E; cbn [guard_some] in H; [|done]
  | H : None = Some _ |- _ => done
  end; simplify_eq.

Section protocol.
Implicit Types (s : net) (i j : nat).

(** The address of the buffer of a request is its channel. *)
Context (buf : nat → Z).
Definition ch i : chan := ChanAddr (buf i).

Definition go i (c : rpc) s : net :=
  Net (n_tab s) (n_lk s) (n_ptlk s) (<[i := c]> (n_pc s)) (n_hpc s) (n_flight s) (n_used s) (n_done s).
Definition hgo (h : hpc) s : net :=
  Net (n_tab s) (n_lk s) (n_ptlk s) (n_pc s) h (n_flight s) (n_used s) (n_done s).
Definition set_lk (o : option holder) s : net :=
  Net (n_tab s) o (n_ptlk s) (n_pc s) (n_hpc s) (n_flight s) (n_used s) (n_done s).
Definition set_pt (o : option holder) s : net :=
  Net (n_tab s) (n_lk s) o (n_pc s) (n_hpc s) (n_flight s) (n_used s) (n_done s).
Definition set_procs (t : list proc) s : net :=
  Net t (n_lk s) (n_ptlk s) (n_pc s) (n_hpc s) (n_flight s) (n_used s) (n_done s).

(** The device, [kill] and a new request come from outside; the others are the
    next step of a request or of the handler. *)
Inductive move := MBegin (i : nat) | MKill (i : nat) | MDevice (i : nat) | MReq (i : nat) | MIntr | MLoop (i : nat).

(** What request [i] does next; None: it waits. *)
Definition req_step i s : option net :=
  guard_some (n_pc s !! i) (λ c,
  match c with
  | RCheck =>
      if decide (i ∈ n_done s)
      then (* done = 0; release(&disk.lk) *)
        Some (Net (n_tab s) None (n_ptlk s) (delete i (n_pc s)) (n_hpc s) (n_flight s) (n_used s) (n_done s ∖ {[ i ]}))
      else Some (go i RAcqP s)
  | RAcqP => guard (n_ptlk s = None) (Some (go i RRelL (set_pt (Some (Req i)) s)))
  | RRelL => Some (go i RSleep (set_lk None s))
  | RSleep =>
      (* and the scheduler gives proctable.lk back *)
      Some (go i RAsleep (set_pt None
        (set_procs (alter (set_state SLEEPING) i (alter (set_chan (ch i)) i (n_tab s))) s)))
  | RAsleep =>
      guard (p_state <$> n_tab s !! i = Some RUNNABLE) (guard (n_ptlk s = None)
      (Some (go i RWoken (set_pt (Some (Req i)) (set_procs (alter (set_state RUNNING) i (n_tab s)) s)))))
  | RWoken => Some (go i RAcqL (set_pt None (set_procs (alter (set_chan NoChan) i (n_tab s)) s)))
  | RAcqL =>
      guard (n_lk s = None)
      (Some (go i (if decide (p_sig <$> n_tab s !! i = Some 0) then RCheck else RExit) (set_lk (Some (Req i)) s)))
  | RExit =>
      guard (n_ptlk s = None)
      (Some (Net (exit_table None i (n_tab s)) (n_lk s) None (delete i (n_pc s)) (n_hpc s) (n_flight s) (n_used s) (n_done s)))
  end).

(** What the handler does next; the used ring gives the request it takes. *)
Definition intr_step s : option net :=
  match n_hpc s with
  | HIdle => guard (n_used s ≠ ∅) (guard (n_lk s = None) (Some (hgo HLoop (set_lk (Some Intr) s))))
  | HLoop => guard (n_used s = ∅) (Some (hgo HIdle (set_lk None s)))
  | HAcqP i => guard (n_ptlk s = None) (Some (hgo (HWake i) (set_pt (Some Intr) s)))
  | HWake i => Some (hgo HRelP (set_procs (wakeup_acquired (ch i) (n_tab s)) s))
  | HRelP => Some (hgo HLoop (set_pt None s))
  end.
Definition loop_step i s : option net :=
  guard (n_hpc s = HLoop) (guard (i ∈ n_used s)
  (Some (Net (n_tab s) (n_lk s) (n_ptlk s) (n_pc s) (HAcqP i) (n_flight s) (n_used s ∖ {[ i ]}) ({[ i ]} ∪ n_done s)))).

Definition move_step (m : move) s : option net :=
  match m with
  | MBegin i =>
      guard (n_pc s !! i = None) (guard (n_lk s = None) (guard (p_state <$> n_tab s !! i = Some RUNNING)
      (Some (Net (n_tab s) (Some (Req i)) (n_ptlk s) (<[i := RCheck]> (n_pc s)) (n_hpc s)
               ({[ i ]} ∪ n_flight s) (n_used s) (n_done s)))))
  | MKill i =>
      guard (p_state <$> n_tab s !! i = Some SLEEPING) (guard (n_ptlk s = None)
      (Some (set_procs (alter (λ p, set_state RUNNABLE (set_sig 9 p)) i (n_tab s)) s)))
  | MDevice i =>
      guard (i ∈ n_flight s)
      (Some (Net (n_tab s) (n_lk s) (n_ptlk s) (n_pc s) (n_hpc s) (n_flight s ∖ {[ i ]}) ({[ i ]} ∪ n_used s) (n_done s)))
  | MReq i => req_step i s
  | MIntr => intr_step s
  | MLoop i => loop_step i s
  end.

Definition moves s s' : Prop := ∃ m, move_step m s = Some s'.

(** The same without [kill]. *)
Definition calm_moves s s' : Prop := ∃ m, (∀ i, m ≠ MKill i) ∧ move_step m s = Some s'.

(** No request is on its way, nobody sleeps and no signal is pending. *)
Definition rested (t : list proc) : net := Net t None None ∅ HIdle ∅ ∅ ∅.
Definition starts (t : list proc) : Prop := ∀ i p, t !! i = Some p → p_state p ≠ SLEEPING ∧ p_sig p = 0.

Definition comes_up s : Prop := ∃ t, starts t ∧ rtc moves (rested t) s.
Definition comes_up_calm s : Prop := ∃ t, starts t ∧ rtc calm_moves (rested t) s.

(** ** What always holds *)

Definition asleep s i : Prop := p_state <$> n_tab s !! i = Some SLEEPING.

(** Where disk.lk and proctable.lk are held. *)
Definition in_lk (c : rpc) : bool := match c with RCheck | RAcqP | RRelL | RExit => true | _ => false end.
Definition in_pt (c : rpc) : bool := match c with RRelL | RSleep | RWoken => true | _ => false end.
Definition h_in_pt (h : hpc) : bool := match h with HWake _ | HRelP => true | _ => false end.

Definition on_rpc (f : rpc → bool) (o : option rpc) : bool := match o with Some c => f c | None => false end.

Record net_ok s : Prop := {
  no_lk : ∀ i, on_rpc in_lk (n_pc s !! i) = true → n_lk s = Some (Req i);
  no_lk_h : n_hpc s ≠ HIdle ↔ n_lk s = Some Intr;
  no_pt : ∀ i, n_ptlk s = Some (Req i) ↔ on_rpc in_pt (n_pc s !! i) = true;
  no_pt_h : n_ptlk s = Some Intr ↔ h_in_pt (n_hpc s) = true;
  no_sleep : ∀ i p, n_tab s !! i = Some p → p_state p = SLEEPING → n_pc s !! i = Some RAsleep ∧ p_chan p = ch i;
  no_test : ∀ i, n_pc s !! i = Some RAcqP ∨ n_pc s !! i = Some RRelL → i ∉ n_done s;
  no_pend : ∀ i, n_pc s !! i = Some RSleep ∨ asleep s i → i ∈ n_done s → n_hpc s = HAcqP i ∨ n_hpc s = HWake i
}.

Lemma rested_ok t : starts t → net_ok (rested t).
Proof.
  intros H. split; cbn [rested n_pc n_lk n_ptlk n_hpc n_tab n_done]; try done.
  - intros i p Hi Hs. by destruct (H _ _ Hi).
Qed.

(** A change of the table that leaves who sleeps, and where, as it was or
    fewer. *)
Definition sleepers_from (t t' : list proc) : Prop :=
  ∀ i p', t' !! i = Some p' → p_state p' = SLEEPING →
    ∃ p, t !! i = Some p ∧ p_state p = SLEEPING ∧ p_chan p' = p_chan p.

Lemma sleepers_alter t f i : (∀ p, p_state (f p) ≠ SLEEPING) → sleepers_from t (alter f i t).
Proof.
  intros Hf j p' Hj Hs. apply lookup_alter_proc in Hj as [(-> & q & _ & ->)|[_ Hj]]; [by destruct (Hf q)|eauto].
Qed.

Lemma sleepers_alter_ne t f i : p_state <$> t !! i ≠ Some SLEEPING → (∀ p, p_state (f p) = p_state p) → sleepers_from t (alter f i t).
Proof.
  intros Hi Hf j p' Hj Hs. apply lookup_alter_proc in Hj as [(-> & q & Hq & ->)|[_ Hj]]; [|eauto].
  rewrite Hq in Hi. rewrite Hf in Hs. cbn in Hi. congruence.
Qed.

Lemma sleepers_wake t c : sleepers_from t (wakeup_acquired c t).
Proof.
  intros j p'. unfold wakeup_acquired. rewrite list_lookup_fmap. intros (p & Hp & ->)%fmap_Some Hs. exists p.
  unfold wake in *. by case_decide.
Qed.

Lemma sleepers_exit t o i : sleepers_from t (exit_table o i t).
Proof.
  intros j p' Hj Hs. destruct (exit_table_eq o i t) as (c & E & _). rewrite E in Hj.
  apply lookup_alter_proc in Hj as [(_ & q & _ & ->)|[_ Hj]]; [done|].
  destruct (sleepers_wake _ _ _ _ Hj Hs) as (p1 & H1 & Hs1 & Hc1). apply lookup_reparent in H1 as (p & Hp & ->).
  destruct (adopt_facts o i p) as (E1 & _ & E3 & _). exists p. rewrite <- E1, <- E3. done.
Qed.

Lemma asleep_from t t' i : sleepers_from t t' → p_state <$> t' !! i = Some SLEEPING → p_state <$> t !! i = Some SLEEPING.
Proof.
  intros H. destruct (t' !! i) as [p'|] eqn:E; [|done]. intros [= Hs]. destruct (H _ _ E Hs) as (p & -> & Hp & _). cbn. by rewrite Hp.
Qed.

(** *** Every move keeps it *)

(** Request [i] moves to [o]: what it must not disturb. *)
Lemma req_ok i o t lk pt dn s s' :
  net_ok s →
  s' = Net t lk pt (partial_alter (λ _, o) i (n_pc s)) (n_hpc s) (n_flight s') (n_used s) dn →
  (on_rpc in_lk o = true → lk = Some (Req i)) →
  (∀ j, j ≠ i → n_lk s = Some (Req j) → lk = Some (Req j)) → (lk = Some Intr ↔ n_lk s = Some Intr) →
  (pt = Some (Req i) ↔ on_rpc in_pt o = true) →
  (∀ j, j ≠ i → pt = Some (Req j) ↔ n_ptlk s = Some (Req j)) → (pt = Some Intr ↔ n_ptlk s = Some Intr) →
  (∀ j p, t !! j = Some p → p_state p = SLEEPING →
     j ≠ i ∧ (∃ q, n_tab s !! j = Some q ∧ p_state q = SLEEPING ∧ p_chan p = p_chan q) ∨
     j = i ∧ o = Some RAsleep ∧ p_chan p = ch i) →
  (o = Some RAcqP ∨ o = Some RRelL → i ∉ dn) → dn ⊆ n_done s →
  (o = Some RSleep ∨ o = Some RAsleep → i ∈ dn → n_hpc s = HAcqP i ∨ n_hpc s = HWake i) →
  net_ok s'.
Proof.
  intros [A B P Q S T W] E L1 L2 L3 P1 P2 P3 Sl T1 D W1.
  assert (Y : ∀ j, j ≠ i → n_pc s' !! j = n_pc s !! j) by (intros; rewrite E; cbn; by rewrite lookup_partial_alter_ne).
  assert (Z : n_pc s' !! i = o) by (rewrite E; cbn; by rewrite lookup_partial_alter_eq).
  split.
  - intros j. destruct (decide (j = i)) as [->|Hne]; [by rewrite Z, E|]. rewrite Y by done. rewrite E. cbn. intros Hc. by apply L2, A.
  - rewrite E. cbn. by rewrite L3.
  - intros j. destruct (decide (j = i)) as [->|Hne]; [by rewrite Z, E|]. rewrite Y by done. rewrite E. cbn. by rewrite P2, P.
  - rewrite E. cbn. by rewrite P3.
  - intros j p Hj Hs. rewrite E in Hj. cbn in Hj. destruct (Sl _ _ Hj Hs) as [(Hne & q & Hq & Hqs & Hc)|(-> & Ho & Hc)].
    + rewrite Y by done. destruct (S _ _ Hq Hqs). by rewrite Hc.
    + by rewrite Z.
  - intros j Hj. replace (n_done s') with dn by (by rewrite E). destruct (decide (j = i)) as [->|Hne]; [rewrite Z in Hj; auto|].
    rewrite Y in Hj by done. intros Hd%D. by apply (T j).
  - intros j Hj Hd. rewrite E in Hd. cbn in Hd. rewrite E. cbn. destruct (decide (j = i)) as [->|Hne].
    + apply W1; [|done]. rewrite Z in Hj. destruct Hj as [?|Hj]; [by left|]. right. unfold asleep in Hj. rewrite E in Hj. cbn in Hj.
      destruct (t !! i) as [p|] eqn:Hi; [|done]. injection Hj as Hs. by destruct (Sl _ _ Hi Hs) as [[? _]|(_ & ? & _)].
    + apply W; [|by apply D]. rewrite Y in Hj by done. destruct Hj as [?|Hj]; [by left|]. right. unfold asleep in *. rewrite E in Hj. cbn in Hj.
      destruct (t !! j) as [p|] eqn:Hi; [|done]. injection Hj as Hs.
      destruct (Sl _ _ Hi Hs) as [(_ & q & -> & Hqs & _)|[? _]]; [cbn; by rewrite Hqs|done].
Qed.

Lemma sleep_other i t t' s :
  net_ok s → n_tab s = t → sleepers_from t t' → p_state <$> t' !! i ≠ Some SLEEPING →
  ∀ j p, t' !! j = Some p → p_state p = SLEEPING →
    j ≠ i ∧ (∃ q, n_tab s !! j = Some q ∧ p_state q = SLEEPING ∧ p_chan p = p_chan q) ∨ False.
Proof.
  intros I <- H Hi j p Hj Hs. left. split; [|by destruct (H _ _ Hj Hs) as (q & ? & ? & ?); exists q].
  intros ->. apply Hi. rewrite Hj. cbn. by rewrite Hs.
Qed.

Lemma awake_of s i c : net_ok s → n_pc s !! i = Some c → c ≠ RAsleep → p_state <$> n_tab s !! i ≠ Some SLEEPING.
Proof.
  intros I Hi Hc. destruct (n_tab s !! i) as [p|] eqn:E; [|done]. intros [= Hs]. destruct (no_sleep _ I _ _ E Hs). congruence.
Qed.

(** Conditions on the locks. *)
Ltac holders := first [done | by intros [?|?] | intros; congruence | split; intros; congruence | intros; split; intros; congruence].

Ltac req_case o := eapply (req_ok _ o); [eassumption|reflexivity|cbn; try holders..].

Lemma req_step_ok i s s' : net_ok s → req_step i s = Some s' → net_ok s'.
Proof.
  intros I E. unfold req_step in E. destruct (n_pc s !! i) as [c|] eqn:Hi; cbn [guard_some] in E; [|done].
  pose proof (no_lk _ I i) as Hl. pose proof (no_pt _ I i) as Hp. pose proof (no_test _ I i) as Tt. pose proof (no_pend _ I i) as Pd.
  rewrite Hi in Hl, Hp, Tt, Pd. pose proof (awake_of s i c I Hi) as Aw.
  assert (Same : ∀ o, c ≠ RAsleep → ∀ j p, n_tab s !! j = Some p → p_state p = SLEEPING →
    j ≠ i ∧ (∃ q, n_tab s !! j = Some q ∧ p_state q = SLEEPING ∧ p_chan p = p_chan q) ∨ j = i ∧ o = Some RAsleep ∧ p_chan p = ch i).
  { intros o Hc j p Hj Hs. left. split; [|by exists p]. intros ->. apply (Aw Hc). by rewrite Hj, <- Hs. }
  destruct c; cbn [on_rpc in_pt in_lk] in *; open_move.
  - specialize (Hl eq_refl). req_case (@None rpc); [by apply Same|by apply subseteq_difference_l].
  - specialize (Hl eq_refl). req_case (Some RAcqP). by apply Same.
  - specialize (Hl eq_refl). req_case (Some RRelL); [by apply Same|intros _; apply Tt; by left].
  - specialize (Hl eq_refl). req_case (Some RSleep); [by apply Same|].
    intros _ Hd. destruct Tt; [by right|done].
  - pose proof (proj2 Hp eq_refl) as Hp'. req_case (Some RAsleep); [|intros _ Hd; apply Pd; [by left|done]].
    intros j p Hj Hs. apply lookup_alter_proc in Hj as [(-> & q & Hq & ->)|[Hne Hj]].
    + right. apply lookup_alter_proc in Hq as [(_ & r & _ & ->)|[? _]]; done.
    + left. split; [done|]. apply lookup_alter_proc in Hj as [[? _]|[_ Hj]]; [done|by exists p].
  - req_case (Some RWoken).
    intros j p Hj Hs. apply lookup_alter_proc in Hj as [(_ & q & _ & ->)|[Hne Hj]]; [done|left; split; [done|by exists p]].
  - pose proof (proj2 Hp eq_refl) as Hp'. req_case (Some RAcqL).
    intros j p Hj Hs. apply lookup_alter_proc in Hj as [(-> & q & Hq & ->)|[Hne Hj]]; [|left; split; [done|by exists p]].
    destruct (Aw ltac:(done)). rewrite Hq. cbn. by f_equal.
  - set (c' := if decide _ then _ else _). assert (Hc : c' = RCheck ∨ c' = RExit) by (unfold c'; case_decide; auto).
    clearbody c'. assert (Hc1 : in_pt c' = false) by (by destruct Hc as [-> | ->]).
    req_case (Some c'); [by apply Same|by intros [[= E]|[= E]]; subst; destruct Hc|by intros [[= E]|[= E]]; subst; destruct Hc].
  - specialize (Hl eq_refl). req_case (@None rpc).
    intros j p Hj Hs. left. destruct (exit_table_eq None i (n_tab s)) as (c & Et & _).
    destruct (sleepers_exit _ _ _ _ _ Hj Hs) as (q & ? & ? & ?). split; [|by exists q]. intros ->. rewrite Et in Hj.
    by apply lookup_alter_proc in Hj as [(_ & ? & _ & ->)|[? _]].
Qed.

Lemma begin_ok i s s' : net_ok s → move_step (MBegin i) s = Some s' → net_ok s'.
Proof.
  intros I E. cbn [move_step] in E. open_move. pose proof (no_pt _ I i) as Hp. rewrite H in Hp. cbn in Hp.
  eapply (req_ok _ (Some RCheck)); [exact I|reflexivity|cbn; try holders..].
  intros j p Hj Hs. left. split; [|by exists p]. intros ->. destruct (no_sleep _ I _ _ Hj Hs). congruence.
Qed.

Lemma intr_step_ok s s' : net_ok s → intr_step s = Some s' → net_ok s'.
Proof.
  intros I E. pose proof I as [A B P Q S T W]. unfold intr_step in E. destruct (n_hpc s) as [| |i|i|] eqn:Hh; open_move.
  - split; cbn; try done.
    + intros j Hj. specialize (A j Hj). congruence.
    + intros j Hj Hd. by destruct (W j Hj Hd).
  - split; cbn; try done.
    + intros j Hj. specialize (A j Hj). destruct B as [B _]. specialize (B ltac:(done)). congruence.
    + intros j Hj Hd. by destruct (W j Hj Hd).
  - split; cbn; try done.
    + split; [intros _; by apply B|done].
    + intros j. rewrite <- P. split; congruence.
    + intros j Hj Hd. destruct (W j Hj Hd) as [[= ->]|[=]]. by right.
  - split; cbn; try done.
    + split; [intros _; by apply B|done].
    + intros j p Hj Hs. unfold wakeup_acquired in Hj. destruct (sleepers_wake _ _ _ _ Hj Hs) as (q & Hq & Hqs & ->). by apply S.
    + intros j [Hj|Hj] Hd; exfalso.
      * assert (X : n_ptlk s = Some Intr) by (by apply Q). assert (Y : n_ptlk s = Some (Req j)) by (apply P; by rewrite Hj). congruence.
      * unfold asleep in Hj. cbn in Hj. destruct (wakeup_acquired (ch i) (n_tab s) !! j) as [p|] eqn:Hp; [|done]. injection Hj as Hs.
        destruct (sleepers_wake _ _ _ _ Hp Hs) as (q & Hq & Hqs & Hc). destruct (S _ _ Hq Hqs) as [_ Hqc].
        destruct (W j) as [[=]|[= ->]]; [right; unfold asleep; by rewrite Hq, <- Hqs|done|].
        unfold wakeup_acquired in Hp. rewrite list_lookup_fmap, Hq in Hp. injection Hp as <-. unfold wake in Hs.
        by rewrite decide_True in Hs.
  - split; cbn; try done.
    + split; [intros _; by apply B|done].
    + intros j. rewrite <- P. split; [done|]. intros Hj. assert (X : n_ptlk s = Some Intr) by (by apply Q). congruence.
    + intros j Hj Hd. by destruct (W j Hj Hd).
Qed.

Lemma move_ok m s s' : net_ok s → move_step m s = Some s' → net_ok s'.
Proof.
  intros I E. destruct m as [i|i|i|i| |i]; cbn [move_step] in E.
  - by eapply begin_ok.
  - pose proof I as [A B P Q S T W]. open_move. pose proof (sleepers_alter (n_tab s) (λ p, set_state RUNNABLE (set_sig 9 p)) i ltac:(done)) as Hf.
    split; cbn; try done.
    + intros j p Hj Hs. destruct (Hf _ _ Hj Hs) as (q & Hq & Hqs & ->). by apply S.
    + intros j [Hj|Hj] Hd; (apply W; [|done]); [by left|]. right. unfold asleep in *. by eapply asleep_from.
  - destruct I as [A B P Q S T W]. open_move. by split.
  - by eapply req_step_ok.
  - by eapply intr_step_ok.
  - pose proof I as [A B P Q S T W]. unfold loop_step in E. open_move. split; cbn; try done.
    + rewrite <- B. split; [intros _; congruence|done].
    + rewrite Q. by rewrite H.
    + intros j Hj [->%elem_of_singleton|Hd]%elem_of_union; [|by apply (T j)].
      assert (X : n_lk s = Some (Req i)) by (apply A; by destruct Hj as [-> | ->]).
      destruct B as [B _]. specialize (B ltac:(congruence)). congruence.
    + intros j Hj [->%elem_of_singleton|Hd]%elem_of_union; [by left|]. destruct (W j Hj Hd); congruence.
Qed.

Lemma comes_up_ok s : comes_up s → net_ok s.
Proof.
  intros (t & Ht & R). assert (I : net_ok (rested t)) by (by apply rested_ok). revert I.
  induction R as [s|s s1 s2 (m & E) R IH]; [done|]. intros I. apply IH. by eapply move_ok.
Qed.

(** *** Without [kill] *)

Record calm s : Prop := {
  ca_sig : ∀ i p, n_tab s !! i = Some p → p_sig p = 0;
  ca_lk : ∀ i, n_lk s = Some (Req i) → on_rpc in_lk (n_pc s !! i) = true;
  ca_exit : ∀ i, n_pc s !! i ≠ Some RExit;
  ca_in : ∀ i c, n_pc s !! i = Some c → is_Some (n_tab s !! i) ∧ (i ∈ n_flight s ∨ i ∈ n_used s ∨ i ∈ n_done s);
  ca_sleep : ∀ i, n_pc s !! i = Some RAsleep → asleep s i ∨ p_state <$> n_tab s !! i = Some RUNNABLE
}.

(** A table with the same entries, in other states. *)
Definition sig_same (t t' : list proc) : Prop := ∀ j, p_sig <$> t' !! j = p_sig <$> t !! j.

Lemma sig_alter t f i : (∀ p, p_sig (f p) = p_sig p) → sig_same t (alter f i t).
Proof.
  intros Hf j. rewrite list_lookup_alter. case_decide; [|done]. subst. destruct (t !! j); [cbn; by rewrite Hf|done].
Qed.

Lemma sig_wake t c : sig_same t (wakeup_acquired c t).
Proof.
  intros j. unfold wakeup_acquired. rewrite list_lookup_fmap. destruct (t !! j) as [p|]; [|done]. cbn. unfold wake. by case_decide.
Qed.

(** Request [i] moves to [o]. *)
Lemma calm_req i o s s' :
  calm s → n_pc s' = partial_alter (λ _, o) i (n_pc s) → o ≠ Some RExit → sig_same (n_tab s) (n_tab s') →
  (∀ j, j ≠ i → p_state <$> n_tab s' !! j = p_state <$> n_tab s !! j) →
  (∀ j, n_lk s' = Some (Req j) → j = i ∧ on_rpc in_lk o = true ∨ j ≠ i ∧ n_lk s = Some (Req j)) →
  (o ≠ None → is_Some (n_tab s !! i) ∧ (i ∈ n_flight s' ∨ i ∈ n_used s' ∨ i ∈ n_done s')) →
  (∀ j, j ≠ i → j ∈ n_flight s ∨ j ∈ n_used s ∨ j ∈ n_done s → j ∈ n_flight s' ∨ j ∈ n_used s' ∨ j ∈ n_done s') →
  (o = Some RAsleep → p_state <$> n_tab s' !! i = Some SLEEPING) →
  calm s'.
Proof.
  intros [K1 K2 K3 K4 K5] E Ho Sg St L In Keep Sl.
  assert (Y : ∀ j, j ≠ i → n_pc s' !! j = n_pc s !! j) by (intros; rewrite E; by rewrite lookup_partial_alter_ne).
  assert (Z : n_pc s' !! i = o) by (rewrite E; by rewrite lookup_partial_alter_eq).
  assert (X : ∀ j, is_Some (n_tab s !! j) → is_Some (n_tab s' !! j)).
  { intros j [p Hp]. specialize (Sg j). rewrite Hp in Sg. destruct (n_tab s' !! j); [by eexists|done]. }
  split.
  - intros j p Hj. specialize (Sg j). rewrite Hj in Sg. destruct (n_tab s !! j) as [q|] eqn:Hq; [|done]. injection Sg as ->. by eapply K1.
  - intros j [[-> Hc]|[Hne Hj]]%L; [by rewrite Z|rewrite Y by done; by apply K2].
  - intros j. destruct (decide (j = i)) as [->|Hne]; [by rewrite Z|rewrite Y by done; apply K3].
  - intros j c Hj. destruct (decide (j = i)) as [->|Hne].
    + rewrite Z in Hj. destruct In as [H1 H2]; [congruence|]. split; [by apply X|done].
    + rewrite Y in Hj by done. destruct (K4 _ _ Hj). split; [by apply X|by apply Keep].
  - intros j Hj. unfold asleep. destruct (decide (j = i)) as [->|Hne].
    + rewrite Z in Hj. left. by apply Sl.
    + rewrite Y in Hj by done. rewrite St by done. by apply K5.
Qed.

Ltac calm_case o := eapply (calm_req _ o); [eassumption|reflexivity|done|cbn; try done..].

Lemma calm_req_step i s s' : net_ok s → calm s → req_step i s = Some s' → calm s'.
Proof.
  intros I K E. unfold req_step in E. destruct (n_pc s !! i) as [c|] eqn:Hi; cbn [guard_some] in E; [|done].
  pose proof (ca_in _ K _ _ Hi) as [Hin Hreq]. pose proof (no_lk _ I i) as Hl. rewrite Hi in Hl.
  assert (Lk : ∀ j, on_rpc in_lk (Some c) = true → n_lk s = Some (Req j) → j = i) by (intros j H1 H2; specialize (Hl H1); congruence).
  assert (Out : in_lk c = false → ∀ j, n_lk s = Some (Req j) → j ≠ i).
  { intros Hc j Hj ->. apply (ca_lk _ K) in Hj. rewrite Hi in Hj. cbn in Hj. congruence. }
  destruct c; cbn [in_lk on_rpc] in *; open_move.
  - calm_case (@None rpc). intros j Hj. rewrite elem_of_difference, elem_of_singleton. tauto.
  - calm_case (Some RAcqP). intros j Hj. left. by rewrite (Lk j).
  - calm_case (Some RRelL). intros j Hj. left. by rewrite (Lk j).
  - calm_case (Some RSleep).
  - calm_case (Some RAsleep).
    + intros j. destruct (decide (j = i)) as [->|]; [rewrite !list_lookup_alter_eq; by destruct (n_tab s !! i)|by rewrite !list_lookup_alter_ne].
    + intros j Hj. by rewrite !list_lookup_alter_ne.
    + intros j Hj. right. split; [by apply Out|done].
    + intros _. rewrite !list_lookup_alter_eq. by destruct Hin as [p ->].
  - calm_case (Some RWoken).
    + by apply sig_alter.
    + intros j Hj. by rewrite list_lookup_alter_ne.
    + intros j Hj. right. split; [by apply Out|done].
  - calm_case (Some RAcqL).
    + by apply sig_alter.
    + intros j Hj. by rewrite list_lookup_alter_ne.
    + intros j Hj. right. split; [by apply Out|done].
  - rewrite decide_True.
    + calm_case (Some RCheck). intros j [= ->]. by left.
    + destruct Hin as [p Hp]. rewrite Hp. cbn. f_equal. by eapply (ca_sig _ K).
  - by destruct (ca_exit _ K i).
Qed.

Lemma calm_step m s s' : net_ok s → calm s → (∀ i, m ≠ MKill i) → move_step m s = Some s' → calm s'.
Proof.
  intros I K Hm E. destruct m as [i|i|i|i| |i]; cbn [move_step] in E.
  - open_move. calm_case (Some RCheck).
    + intros j [= ->]. by left.
    + intros _. split; [by destruct (n_tab s !! i)|left; set_solver].
    + set_solver.
  - by destruct (Hm i).
  - destruct K as [K1 K2 K3 K4 K5]. open_move. split; cbn; try done. intros j c Hj. destruct (K4 _ _ Hj) as [? Hd]. split; [done|].
    rewrite elem_of_difference, elem_of_union, elem_of_singleton. destruct (decide (j = i)); tauto.
  - by eapply calm_req_step.
  - destruct K as [K1 K2 K3 K4 K5]. unfold intr_step in E. destruct (n_hpc s) eqn:Hh; open_move; split; cbn; try done.
    + intros j p Hj. pose proof (sig_wake (n_tab s) (ch i) j) as Hs. rewrite Hj in Hs. destruct (n_tab s !! j) as [q|] eqn:Hq; [|done].
      injection Hs as ->. by eapply K1.
    + intros j c Hj. destruct (K4 _ _ Hj) as [[q Hq] ?]. split; [|done]. unfold wakeup_acquired. by rewrite list_lookup_fmap, Hq.
    + intros j Hj. unfold asleep, wakeup_acquired in *. cbn. rewrite list_lookup_fmap.
      destruct (K5 _ Hj) as [H|H]; destruct (n_tab s !! j) as [q|]; try done; injection H as H; cbn; unfold wake; case_decide; cbn; auto; rewrite H; auto.
  - destruct K as [K1 K2 K3 K4 K5]. unfold loop_step in E. open_move. split; cbn; try done. intros j c Hj. destruct (K4 _ _ Hj) as [? Hd]. split; [done|].
    rewrite elem_of_difference, elem_of_union, elem_of_singleton. destruct (decide (j = i)); tauto.
Qed.

Lemma comes_up_calm_ok s : comes_up_calm s → net_ok s ∧ calm s.
Proof.
  intros (t & Ht & R). assert (I : net_ok (rested t) ∧ calm (rested t)).
  { split; [by apply rested_ok|]. split; cbn; try done. intros i p Hi. by destruct (Ht _ _ Hi). }
  revert I. induction R as [s|s s1 s2 (m & Hm & E) R IH]; [done|]. intros [I K]. apply IH. split; [by eapply move_ok|by eapply calm_step].
Qed.

(** *** Giving proctable.lk back *)

(** Moves of the requests and the handler. *)
Definition own (m : move) : bool := match m with MReq _ | MIntr | MLoop _ => true | _ => false end.
Definition own_moves s s' : Prop := ∃ m, own m = true ∧ move_step m s = Some s'.

Lemma own_req i s s' : req_step i s = Some s' → own_moves s s'.
Proof. by exists (MReq i). Qed.
Lemma own_intr s s' : intr_step s = Some s' → own_moves s s'.
Proof. by exists MIntr. Qed.

Lemma free_pt j s : net_ok s → n_ptlk s = Some (Req j) →
  ∃ s', tc own_moves s s' ∧ n_ptlk s' = None ∧ n_hpc s' = n_hpc s ∧ (∀ i, i ≠ j → n_tab s' !! i = n_tab s !! i).
Proof.
  intros I Hp. pose proof (proj1 (no_pt _ I j) Hp) as Hc. destruct (n_pc s !! j) as [c|] eqn:Hj; [|done].
  assert (Sl : ∀ s, n_pc s !! j = Some RSleep → ∃ s', own_moves s s' ∧ n_ptlk s' = None ∧ n_hpc s' = n_hpc s ∧
    (∀ i, i ≠ j → n_tab s' !! i = n_tab s !! i)).
  { intros s0 H0. eexists. split; [apply (own_req j); unfold req_step; rewrite H0; reflexivity|].
    split_and!; [done|done|]. intros i Hi. cbn. by rewrite !list_lookup_alter_ne. }
  destruct c; try done.
  - assert (H1 : own_moves s (go j RSleep (set_lk None s))) by (apply (own_req j); unfold req_step; by rewrite Hj).
    destruct (Sl (go j RSleep (set_lk None s))) as (s' & H2 & ? & ? & ?); [cbn; by rewrite lookup_insert_eq|].
    exists s'. split_and!; [|done..]. eapply tc_l; [exact H1|by apply tc_once].
  - destruct (Sl s Hj) as (s' & H2 & ?). exists s'. split; [by apply tc_once|done].
  - eexists. split; [apply tc_once, (own_req j); unfold req_step; rewrite Hj; reflexivity|].
    split_and!; [done|done|]. intros i Hi. cbn. by rewrite list_lookup_alter_ne.
Qed.

Lemma handler_wakes i s : n_hpc s = HAcqP i → n_ptlk s = None → (∀ p, n_tab s !! i = Some p → p_chan p = ch i) → asleep s i →
  ∃ s', rtc own_moves s s' ∧ p_state <$> n_tab s' !! i = Some RUNNABLE.
Proof.
  intros Hh Hp Hc Ha. unfold asleep in Ha. destruct (n_tab s !! i) as [p|] eqn:Ei; [|done]. injection Ha as Hs.
  eexists. split.
  - eapply rtc_l; [apply own_intr; unfold intr_step, guard; rewrite Hh, decide_True by done; reflexivity|].
    eapply rtc_l; [apply own_intr; reflexivity|apply rtc_refl].
  - cbn. unfold wakeup_acquired. rewrite list_lookup_fmap, Ei. cbn. unfold wake. rewrite decide_True; [done|]. split; [done|by apply Hc].
Qed.
End protocol.

Module WakeupProps.

Section claims.
Context (buf : nat → Z).
Implicit Types (s : net) (i : nat).

(** C14: no wakeup is lost. In every state the requests, the handler, the device
    and [kill] can reach in whatever order, if a process sleeps in [sleep] though
    its request is done, then the handler is in the [wakeup] of that request,
    and with moves of its own and of whoever has [proctable.lk] it makes the
    process runnable. *)
Theorem no_lost_wakeup s i :
  comes_up buf s → asleep s i → i ∈ n_done s →
  (n_hpc s = HAcqP i ∨ n_hpc s = HWake i) ∧ ∃ s', rtc (own_moves buf) s s' ∧ p_state <$> n_tab s' !! i = Some RUNNABLE.
Proof.
  intros U Ha Hd. pose proof (comes_up_ok buf s U) as I. pose proof (no_pend _ _ I i (or_intror Ha) Hd) as Hh. split; [done|].
  assert (Hc : ∀ p, n_tab s !! i = Some p → n_pc s !! i = Some RAsleep ∧ p_chan p = ch buf i).
  { intros p Hp. unfold asleep in Ha. rewrite Hp in Ha. injection Ha as Ha. by apply (no_sleep _ _ I). }
  destruct Hh as [Hh|Hh].
  - destruct (n_ptlk s) as [[j|]|] eqn:Hp.
    + destruct (free_pt buf j s I Hp) as (s1 & R1 & P1 & H1 & T1).
      assert (Hij : i ≠ j).
      { intros <-. unfold asleep in Ha. destruct (n_tab s !! i) as [p|] eqn:Ei; [|done].
        pose proof (proj1 (no_pt _ _ I i) Hp) as X. rewrite (proj1 (Hc _ eq_refl)) in X. done. }
      destruct (handler_wakes buf i s1) as (s2 & R2 & Hr); [congruence|done|rewrite T1 by done; intros; by apply Hc| |].
      { unfold asleep. by rewrite T1. }
      exists s2. split; [|done]. etrans; [by apply tc_rtc|exact R2].
    + pose proof (proj1 (no_pt_h _ _ I) Hp) as X. by rewrite Hh in X.
    + apply handler_wakes; [done|done| |done]. intros p Hp'. by apply Hc.
  - eexists. split; [apply rtc_once, own_intr; unfold intr_step; rewrite Hh; reflexivity|]. cbn. unfold wakeup_acquired.
    rewrite list_lookup_fmap. unfold asleep in Ha. destruct (n_tab s !! i) as [p|] eqn:Ei; [|done]. injection Ha as Ha. cbn.
    unfold wake. rewrite decide_True; [done|]. split; [done|by apply Hc].
Qed.

End claims.

(** *** Runs *)

Fixpoint run_moves (buf : nat → Z) (ms : list move) (s : net) : option net :=
  match ms with [] => Some s | m :: ms => guard_some (move_step buf m s) (run_moves buf ms) end.

Lemma run_moves_rtc buf ms s s' : run_moves buf ms s = Some s' → rtc (moves buf) s s'.
Proof.
  revert s. induction ms as [|m ms IH]; intros s; cbn [run_moves]; [intros [= ->]; apply rtc_refl|].
  destruct (move_step buf m s) as [s1|] eqn:E; [|done]. intros H. eapply rtc_l; [by exists m|by apply IH].
Qed.

Lemma run_moves_calm buf ms s s' : Forall (λ m, ∀ i, m ≠ MKill i) ms → run_moves buf ms s = Some s' → rtc (calm_moves buf) s s'.
Proof.
  intros H. revert s. induction H as [|m ms Hm _ IH]; intros s; cbn [run_moves]; [intros [= ->]; apply rtc_refl|].
  destruct (move_step buf m s) as [s1|] eqn:E; [|done]. intros H. eapply rtc_l; [by exists m|by apply IH].
Qed.

(** Two processes; buffers of a block each. *)
Definition two_procs : list proc := [set_state RUNNING proc_zero; set_state RUNNING (set_pid 1 proc_zero)].
Definition bufs (i : nat) : Z := 0x1000 + 1024 * Z.of_nat i.

Lemma two_begin : starts two_procs.
Proof. intros i p [->|[->|[]%elem_of_nil]%elem_of_cons]%list_elem_of_lookup_2%elem_of_cons; done. Qed.

(** Process 0 asks the disk and goes to sleep; the request is served while
    process 1 is between [release(lk)] and [cswitch]. *)
Definition both_ask : list move :=
  [MBegin 0; MReq 0; MReq 0; MReq 0; MReq 0; MBegin 1; MReq 1; MReq 1; MReq 1; MDevice 0; MIntr; MLoop 0].

Lemma no_lost_wakeup_witness :
  ∃ s, run_moves bufs both_ask (rested two_procs) = Some s ∧ n_ptlk s = Some (Req 1) ∧
    ∃ s', rtc (own_moves bufs) s s' ∧ p_state <$> n_tab s' !! 0%nat = Some RUNNABLE.
Proof.
  eexists. split; [vm_compute; reflexivity|]. split; [reflexivity|]. refine (proj2 (no_lost_wakeup bufs _ 0 _ _ _)).
  - exists two_procs. split; [exact two_begin|]. apply (run_moves_rtc bufs both_ask). vm_compute. reflexivity.
  - reflexivity.
  - apply (bool_decide_unpack _). vm_compute. exact Logic.I.
Defined.


(** Process 0 is killed while it waits for the disk: it exits in [sleep]. *)
Definition killed_run : list move :=
  [MBegin 0; MReq 0; MReq 0; MReq 0; MReq 0; MKill 0; MReq 0; MReq 0; MReq 0; MReq 0].

(** A killed sleeper keeps the lock. [sleep] takes [lk] again before it
    looks for a signal, so a process killed while it waits for the disk exits
    with [disk.lk]: from then on, whatever anybody does, the lock stays taken by
    the process that is gone. *)
Theorem killed_sleeper_keeps_lock :
  ∃ s, comes_up bufs s ∧ p_state <$> n_tab s !! 0%nat = Some ZOMBIE ∧ n_pc s !! 0%nat = None ∧
    ∀ s', rtc (moves bufs) s s' → n_lk s' = Some (Req 0).
Proof.
  assert (E : ∃ s, run_moves bufs killed_run (rested two_procs) = Some s ∧ p_state <$> n_tab s !! 0%nat = Some ZOMBIE ∧
    n_pc s !! 0%nat = None ∧ n_lk s = Some (Req 0)) by (eexists; vm_compute; done).
  destruct E as (s & E & Hz & Hpc & Hl). exists s.
  assert (U : comes_up bufs s) by (exists two_procs; split; [apply two_begin|by eapply run_moves_rtc]).
  split_and!; [done..|]. intros s' R. assert (I : net_ok bufs s) by (by apply comes_up_ok). clear E Hz U.
  enough (n_pc s' !! 0%nat = None ∧ n_lk s' = Some (Req 0)) by tauto. revert Hpc Hl I.
  induction R as [s|s s1 s2 (m & Em) R IH]; intros Hpc Hl I; [done|].
  assert (X : n_pc s1 !! 0%nat = None ∧ n_lk s1 = Some (Req 0)); [|apply IH; [apply X..|by eapply move_ok]].
  assert (Hh : n_hpc s = HIdle).
  { destruct (decide (n_hpc s = HIdle)) as [|H]; [done|]. apply (no_lk_h _ _ I) in H. congruence. }
  destruct m as [i|i|i|i| |i]; cbn [move_step] in Em.
  - by open_move.
  - by open_move.
  - by open_move.
  - pose proof (no_lk _ _ I i) as Hi. unfold req_step in Em. destruct (n_pc s !! i) as [c|] eqn:Ei; cbn [guard_some] in Em; [|done].
    assert (Hne : 0%nat ≠ i) by congruence.
    assert (Hc : in_lk c = false) by (destruct (in_lk c) eqn:Ec; [|done]; specialize (Hi Ec); congruence).
    destruct c; try done; open_move; cbn; by rewrite lookup_insert_ne.
  - unfold intr_step in Em. rewrite Hh in Em. by open_move.
  - unfold loop_step in Em. by open_move.
Qed.
End WakeupProps.
