(* ===== verification/Boot.v ===== *)
(** * Bringing the machine up (kernel/main.c, kernel/driver/psci-if.c)

    [main] runs on every CPU.  The state here is the whole machine: each
    component's part, with the CPU, the memory, the page allocator and the table
    of interrupt handlers, which several components use, in one place only; a
    lens gives a component the state its file is written for. *)

From S2P Require Import Prelude Mem Bytes KString Spinlock Layout Kalloc PageTable Reclaim KernelMap Buf Irq Gic Timer Uart Printk Console Virtio Fs Ext2 Ext2Alloc Ext2File Uaccess File Proc ProcSpec ProcRun Fork FirstProc Sched ProcSteps.
Import Spin.
Open Scope Z_scope.
Open Scope prog_scope.

(** The entries of [cdevsw] that [register_cdev] sets. *)
Inductive devsw := NoDev | ConsDevsw.
Definition NCDEV : nat := 32.
Definition CDEV_CONSOLE : nat := 0.

Section machine.
(** The interrupt controller, the serial port and a disk with its driver. *)
Context {G U : Type} {HG : Gic G} {HU : Pl011 U}.

(** [m_k] has the CPU, the memory, the caches and tables of the kernel, and in
    its buffer cache the state of the disk's driver. *)
Record machine := Machine {
  m_k : kst (bcache (vst vdev));
  m_irqhandler : list irqfn;
  m_timer : timer;
  m_gic : G;
  m_cons_lk : spinlock; m_readbuf : Z; m_bufc : Z; m_bufsz : Z;
  m_printk_lk : spinlock;
  m_uart : U;
  m_cdevsw : list devsw
}.

(** The class instance of a cache over any state; [bread] and [bwrite] are not
    used before the first process runs. *)
Context (hdr buf : Z).
#[local] Instance disk_dev : BlockDev (vst vdev) := virtio_dev hdr buf.

Implicit Types (s : machine).

Definition m_hart s : hart := k_hart (m_k s).
Definition disk_of (k : kst (bcache (vst vdev))) : vst vdev := bc_disk (fs_cache (k_fs k)).

Definition put_k (k : kst (bcache (vst vdev))) s : machine :=
  Machine k (m_irqhandler s) (m_timer s) (m_gic s) (m_cons_lk s) (m_readbuf s) (m_bufc s) (m_bufsz s) (m_printk_lk s)
    (m_uart s) (m_cdevsw s).
Definition put_irqhandler (l : list irqfn) s : machine :=
  Machine (m_k s) l (m_timer s) (m_gic s) (m_cons_lk s) (m_readbuf s) (m_bufc s) (m_bufsz s) (m_printk_lk s)
    (m_uart s) (m_cdevsw s).

Definition of_k : lens machine (kst (bcache (vst vdev))) := Lens m_k put_k.
Definition of_irqhandler : lens machine (list irqfn) := Lens m_irqhandler put_irqhandler.
Definition of_gic : lens machine G :=
  Lens m_gic (λ g s, Machine (m_k s) (m_irqhandler s) (m_timer s) g (m_cons_lk s) (m_readbuf s) (m_bufc s) (m_bufsz s)
                       (m_printk_lk s) (m_uart s) (m_cdevsw s)).

(** The timer registers its handler in [irqhandler]. *)
Definition of_timer : lens machine timer :=
  Lens (λ s, let t := m_timer s in
          Timer (cntv_ctl_el0 t) (cntv_tval_el0 t) (cntfrq_el0 t) (ticks t) (interval_ms t) (m_irqhandler s))
       (λ t s, Machine (m_k s) (t_irq t) t (m_gic s) (m_cons_lk s) (m_readbuf s) (m_bufc s) (m_bufsz s)
                 (m_printk_lk s) (m_uart s) (m_cdevsw s)).

(** The console, printk and the serial port. *)
Definition of_console : lens machine (cst U) :=
  Lens (λ s, Cst (m_hart s) (m_cons_lk s) (m_readbuf s) (m_bufc s) (m_bufsz s) (m_printk_lk s)
               (k_klk (m_k s)) (k_freelist (m_k s)) (k_mem (m_k s)) (m_irqhandler s) (m_uart s))
       (λ c s, Machine (lset of_kmem (KMem (c_hart c) (c_klk c) (c_freelist c) (c_mem c)) (m_k s)) (c_irqs c) (m_timer s) (m_gic s)
                 (c_lk c) (readbuf c) (bufc c) (bufsz c) (c_plk c) (c_dev c) (m_cdevsw s)).

(** The driver's state back in its place. *)
Definition with_disk (v : vst vdev) (k : kst (bcache (vst vdev))) : kst (bcache (vst vdev)) :=
  let k := lset of_kmem (KMem (v_hart v) (v_klk v) (v_freelist v) (v_mem v)) k in
  let c := fs_cache (k_fs k) in
  put_fs (lset of_cache (BCache (bc_hart c) (bc_lk c) (bc_buf c) v) (k_fs k)) k.

(** The disk's driver. *)
Definition of_virtio : lens machine (vst vdev) :=
  Lens (λ s, let d := disk_of (m_k s) in
          Vst (m_hart s) (v_lk d) (v_q d) (k_mem (m_k s)) (k_klk (m_k s)) (k_freelist (m_k s)) (m_irqhandler s) (v_dev d))
       (λ v s, put_irqhandler (v_irqs v) (put_k (with_disk v (m_k s)) s)).

Definition register_cdev (major : nat) (d : devsw) : prog machine unit :=
  modify (λ s, Machine (m_k s) (m_irqhandler s) (m_timer s) (m_gic s) (m_cons_lk s) (m_readbuf s) (m_bufc s) (m_bufsz s)
                 (m_printk_lk s) (m_uart s) (<[major := d]> (m_cdevsw s))).

(** ** psci-if.c *)

Definition PSCI_SYSTEM_OFF : Z := 0x84000008.
Definition PSCI_SYSTEM_RESET : Z := 0x84000009.
Definition PSCI_SYSTEM_CPUON : Z := 0xc4000003.

(** [psci_fn], a call of the firmware. *)
Context (psci_fn : Z → Z → Z → Z → prog machine Z).

Definition psci_shutdown : prog machine Z :=
  _ <- zoom of_console (zoom of_pst (printk (chars "system shutdown" ++ [10; 0]) [])) ;;
  _ <- psci_fn PSCI_SYSTEM_OFF 0 0 0 ;;
  ret 0.

Definition psci_reset : prog machine Z :=
  _ <- zoom of_console (zoom of_pst (printk (chars "system reboot" ++ [10; 0]) [])) ;;
  _ <- psci_fn PSCI_SYSTEM_RESET 0 0 0 ;;
  ret 0.

Definition psci_cpu_on (cpuid ep : Z) : prog machine Z := psci_fn PSCI_SYSTEM_CPUON cpuid ep 0.

(** ** main.c *)

(** The symbols of the linker script and of boot.S; the address of a
    [struct proc] and of [forkret]; the number of turns of the loops. *)
Context (kend l1kpgt start ustart usize forkret : Z) (proc_addr : nat → Z) (fuel : nat).

(** [for(int i = 1; i < NCPU; i++) psci_cpu_on(i, V2P(_start));] *)
Fixpoint start_cpus (n : nat) (i : Z) : prog machine unit :=
  match n with
  | O => ret tt
  | S n => _ <- psci_cpu_on i (V2P start) ;; start_cpus n (i + 1)
  end.

(** Up to [schedule], which does not return; [isb] is a barrier, and [kinfo]
    prints nothing. *)
Definition main : prog machine unit :=
  h <- gets m_hart ;;
  if cpuid h =? 0 then
    modify (put_irqhandler trap_init) ;;
    zoom of_console (console_init (ret tt)) ;;
    register_cdev CDEV_CONSOLE ConsDevsw ;;
    zoom of_console (zoom of_pst printk_init) ;;
    _ <- zoom of_console (zoom of_pst (printk (chars "booting..." ++ [10; 0]) [])) ;;
    zoom of_gic gicv3_init ;;
    zoom of_gic (gicv3_init_percpu fuel (cpuid h)) ;;
    zoom of_timer (timer_init 100) ;;
    zoom of_timer timer_init_percpu ;;
    zoom of_k (zoom of_kmem (kalloc_init1 kend fuel)) ;;
    zoom of_k (zoom of_kmem (kpgt_init l1kpgt kend)) ;;
    zoom of_k (zoom of_mmu (pgt_init l1kpgt)) ;;
    zoom of_k (zoom of_kmem (kalloc_init2 kend fuel)) ;;
    zoom of_virtio (virtio_init dev_reg_read dev_reg_write) ;;
    zoom of_k (zoom of_kfs (zoom of_cache buf_init)) ;;
    zoom of_k (zoom of_kfs inode_init) ;;
    zoom of_k (zoom (of_files 0) file_init) ;;
    zoom of_k proc_init ;;
    zoom of_k (userproc_init forkret proc_addr ustart usize) ;;
    start_cpus (NCPU - 1) 1
  else
    zoom of_k (zoom of_mmu (pgt_init l1kpgt)) ;;
    zoom of_timer timer_init_percpu ;;
    zoom of_gic (gicv3_init_percpu fuel (cpuid h)) ;;
    h <- gets m_hart ;;
    _ <- zoom of_console (zoom of_pst (printk (chars "core%d started" ++ [10; 0]) [Word (cpuid h)])) ;;
    ret tt.

(** ** Stages of the boot *)

Context {HGok : GicOk G} {HUok : Pl011Ok (D := U)}.
Hypothesis buffers : 0 <= hdr ∧ hdr + 16 <= buf ∧ buf + BSIZE <= 2 ^ 64.
#[local] Instance disk_dev_ok : BlockDevOk (vst vdev).
Proof. apply virtio_dev_ok; apply buffers. Qed.
Abbreviation kern := (kst (bcache (vst vdev))).
Implicit Types (k : kern) (l : list irqfn) (t : timer) (g : G) (u : U) (cl pl : spinlock) (r b z : Z) (cd : list devsw).

Lemma kmem_same k : lset of_kmem (lget of_kmem k) k = k.
Proof. by destruct k as [[[] ? ? ? ?] ? ? ? ? ? ? ? ? ? ? ? ? ?]. Qed.

(** A routine of one component in the machine. *)
Lemma in_k {A} (m : prog kern A) a k k' l t g cl r b z pl u cd : m k = Ret a k' →
  zoom of_k m (Machine k l t g cl r b z pl u cd) = Ret a (Machine k' l t g cl r b z pl u cd).
Proof. intros E. by apply (zoom_ok of_k). Qed.

Lemma in_gic {A} (m : prog G A) a k l t g g' cl r b z pl u cd : m g = Ret a g' →
  zoom of_gic m (Machine k l t g cl r b z pl u cd) = Ret a (Machine k l t g' cl r b z pl u cd).
Proof. intros E. by apply (zoom_ok of_gic). Qed.

Lemma in_timer {A} (m : prog timer A) a k l t t' g cl r b z pl u cd :
  m (Timer (cntv_ctl_el0 t) (cntv_tval_el0 t) (cntfrq_el0 t) (ticks t) (interval_ms t) l) = Ret a t' →
  zoom of_timer m (Machine k l t g cl r b z pl u cd) = Ret a (Machine k (t_irq t') t' g cl r b z pl u cd).
Proof. intros E. by apply (zoom_ok of_timer). Qed.

Lemma console_stage k l t g cl r b z pl u cd :
  ∃ u', zoom of_console (console_init (ret tt)) (Machine k l t g cl r b z pl u cd) =
      Ret tt (Machine k (<[Z.to_nat UART_IRQ := UartIntr]> l) t g lock_init r b z pl u' cd) ∧
    sent u' = sent u ∧ received u' = received u.
Proof.
  destruct (console_init_run (lget of_console (Machine k l t g cl r b z pl u cd))) as (u' & E & H).
  exists u'. split; [|exact H]. rewrite (zoom_ok of_console _ _ _ _ E). cbn [lset of_console].
  change (KMem _ _ _ _) with (lget of_kmem k). by rewrite kmem_same.
Qed.

Lemma printk_stage ps k l t g cl r b z pl u cd :
  Forall piece_ok ps → hart_ok (k_hart k) → free_lock pl →
  ∃ u', zoom of_console (zoom of_pst (printk (source ps ++ [0]) (vargs ps))) (Machine k l t g cl r b z pl u cd) =
      Ret 0 (Machine (put_hart (touched (k_hart k)) k) l t g cl r b z lock_init u' cd) ∧
    sent u' = sent u ++ text ps ∧ received u' = received u.
Proof.
  intros Hps Hh Hl. set (s := Machine k l t g cl r b z pl u cd).
  destruct (printk_run ps [] (lget of_pst (lget of_console s)) Hps Hh Hl) as (u' & E & R & T).
  exists u'. split; [|done]. rewrite (zoom_ok of_console _ s _ _ (zoom_ok of_pst _ _ _ _ E)). by destruct k as [[[] ? ? ? ?] ? ? ? ? ? ? ? ? ? ? ? ? ?].
Qed.

(** The controller after the two initialisations on CPU 0. *)
Record gic_up (g : G) : Prop := {
  gu_on : ∃ g', gic_enabled 0 g = Ret true g';
  gu_uart : enabled (g_dist (gview g)) UART_IRQ = true ∧ priority (g_dist (gview g)) UART_IRQ = 0 ∧ target (g_dist (gview g)) UART_IRQ = 1;
  gu_disk : enabled (g_dist (gview g)) VIRTIO_BLK_IRQ = true ∧ priority (g_dist (gview g)) VIRTIO_BLK_IRQ = 0 ∧ target (g_dist (gview g)) VIRTIO_BLK_IRQ = 1;
  gu_timer : Z.testbit (r_enable (g_redist (gview g) 0)) TIMER_IRQ = true
}.

Lemma gic_stage g : (r_asleep (g_redist (gview g) 0) < fuel)%nat →
  ∃ g1 g2, gicv3_init g = Ret tt g1 ∧ gicv3_init_percpu fuel 0 g1 = Ret tt g2 ∧ gic_up g2.
Proof.
  intros Hf. destruct (setup_spi_run UART_IRQ 0 g) as (g1 & E1 & A1 & A2 & A3 & _ & _ & _ & A4 & _); [by vm_compute|].
  destruct (setup_spi_run VIRTIO_BLK_IRQ 0 g1) as (g2 & E2 & B1 & B2 & B3 & _ & _ & _ & B4 & _); [by vm_compute|].
  destruct (GicProps.init_percpu_correct fuel 0 g2) as (g3 & E3 & On & _ & _ & C1 & C2 & C3 & _ & _ & _ & Ti & _);
    [by vm_compute|by rewrite B4, A4|].
  exists g2, g3. split; [unfold gicv3_init; by rewrite (pbind_ok _ _ _ _ _ E1)|]. split; [done|].
  assert (D1 : ∀ i, enabled (g_dist (gview g3)) i = enabled (g_dist (gview g2)) i) by (intros i; unfold enabled; by rewrite C1).
  assert (D2 : ∀ i, priority (g_dist (gview g3)) i = priority (g_dist (gview g2)) i) by (intros i; unfold priority; by rewrite C2).
  assert (D3 : ∀ i, target (g_dist (gview g3)) i = target (g_dist (gview g2)) i) by (intros i; unfold target; by rewrite C3).
  split; [done| | |done]; rewrite D1, D2, D3, B1, B2, B3 by done; [|done]. by rewrite A1, A2, A3.
Qed.

(** What comes before memory. *)
Lemma devices_stage (K : prog machine unit) k l t g cl r b z pl u cd :
  hart_ok (k_hart k) → (r_asleep (g_redist (gview g) 0) < fuel)%nat →
  ∃ t' g' u', (
    modify (put_irqhandler trap_init) ;;
    zoom of_console (console_init (ret tt)) ;;
    register_cdev CDEV_CONSOLE ConsDevsw ;;
    zoom of_console (zoom of_pst printk_init) ;;
    _ <- zoom of_console (zoom of_pst (printk (chars "booting..." ++ [10; 0]) [])) ;;
    zoom of_gic gicv3_init ;;
    zoom of_gic (gicv3_init_percpu fuel 0) ;;
    zoom of_timer (timer_init 100) ;;
    zoom of_timer timer_init_percpu ;; K)%prog (Machine k l t g cl r b z pl u cd) =
  K (Machine (put_hart (touched (k_hart k)) k) (<[Z.to_nat TIMER_IRQ := TimerIntr]> (<[Z.to_nat UART_IRQ := UartIntr]> trap_init))
      t' g' lock_init r b z lock_init u' (<[CDEV_CONSOLE := ConsDevsw]> cd)) ∧
  armed t' ∧ ticks t' = 0 ∧ interval_ms t' = 100 ∧ gic_up g' ∧
  sent u' = sent u ++ chars "booting..." ++ [10] ∧ received u' = received u.
Proof.
  intros Hh Hf. destruct (console_stage k trap_init t g cl r b z pl u cd) as (u1 & E1 & S1 & R1).
  set (cd' := <[CDEV_CONSOLE := ConsDevsw]> cd).
  destruct (printk_stage ((Lit <$> chars "booting...") ++ [Lit 10]) k (<[Z.to_nat UART_IRQ := UartIntr]> trap_init) t g lock_init r b z lock_init u1 cd')
    as (u2 & E2 & S2 & R2); [by repeat constructor|done|done|].
  destruct (gic_stage g Hf) as (g1 & g2 & E3 & E4 & Gu).
  set (t0 := Timer (cntv_ctl_el0 t) (cntv_tval_el0 t) (cntfrq_el0 t) (ticks t) (interval_ms t) (<[Z.to_nat UART_IRQ := UartIntr]> trap_init)).
  destruct (timer_init_run 100 t0) as (t2 & E5 & Ta & Tt & Ti & _); [by vm_compute|].
  apply pbind_inv in E5 as ([] & t1 & E5 & E6).
  assert (Ht1 : t_irq t1 = <[Z.to_nat TIMER_IRQ := TimerIntr]> (t_irq t0)) by (by injection E5 as <-).
  assert (Ht2 : t_irq t2 = t_irq t1) by (by injection E6 as <-).
  exists t2, g2, u2. split; [|split_and!; try done; by rewrite ?S2, ?R2, ?S1, ?R1].
  prog_step. change (put_irqhandler trap_init _) with (Machine k trap_init t g cl r b z pl u cd).
  rewrite (pbind_ok _ _ _ _ _ E1). unfold register_cdev. prog_step. fold cd'.
  erewrite pbind_ok; [|exact (zoom_ok of_console _ _ _ _ (zoom_ok of_pst printk_init _ _ _ eq_refl))].
  match goal with |- pbind _ _ ?s = _ => change s with (Machine (lset of_kmem (lget of_kmem k) k) (<[Z.to_nat UART_IRQ := UartIntr]> trap_init)
    t g lock_init r b z lock_init u1 cd') end. rewrite kmem_same.
  rewrite (pbind_ok _ _ _ _ _ E2), (pbind_ok _ _ _ _ _ (in_gic _ _ _ _ _ _ _ _ _ _ _ _ _ _ E3)), (pbind_ok _ _ _ _ _ (in_gic _ _ _ _ _ _ _ _ _ _ _ _ _ _ E4)).
  rewrite (pbind_ok _ _ _ _ _ (in_timer _ _ _ _ t t1 _ _ _ _ _ _ _ _ E5)).
  assert (E6' : timer_init_percpu (Timer (cntv_ctl_el0 t1) (cntv_tval_el0 t1) (cntfrq_el0 t1) (ticks t1) (interval_ms t1) (t_irq t1)) = Ret tt t2) by (by destruct t1).
  rewrite (pbind_ok _ _ _ _ _ (in_timer _ _ _ _ t1 t2 _ _ _ _ _ _ _ _ E6')). by rewrite Ht2, Ht1.
Qed.

Lemma kmem_get_lset km k : lget of_kmem (lset of_kmem km k) = km.
Proof. by destruct km, k as [[[] ? ? ? ?] ? ? ? ? ? ? ? ? ? ? ? ? ?]. Qed.

(** The allocator, the kernel's tables and the translation registers. *)
Lemma memory_stage (K : prog machine unit) p20 p21 k l t g cl r b z pl u cd :
  image kend l1kpgt p20 p21 (k_mem k) → hart_ok (k_hart k) → (Z.to_nat 65536 < fuel)%nat → 128 * PAGESIZE <= ksecend kend - kend →
  ∃ T fl km, (
    zoom of_k (zoom of_kmem (kalloc_init1 kend fuel)) ;;
    zoom of_k (zoom of_kmem (kpgt_init l1kpgt kend)) ;;
    zoom of_k (zoom of_mmu (pgt_init l1kpgt)) ;;
    zoom of_k (zoom of_kmem (kalloc_init2 kend fuel)) ;; K)%prog (Machine k l t g cl r b z pl u cd) =
  K (Machine (put_mmu (Mmu 0 (V2P l1kpgt)) (lset of_kmem km k)) l t g cl r b z pl u cd) ∧
  kernel_map kend l1kpgt T fl km ∧
  Z.of_nat (length fl) = (PHYMEMEND - kend) / PAGESIZE - 128 ∧ (∀ p, p ∈ fl → kend <= p) ∧
  ∀ a, a < kend → ¬ in_tree (boot_tree l1kpgt p20 p21) a → rd8 (km_mem km) a = rd8 (k_mem k) a.
Proof.
  intros Im Hh Hf Hr. destruct (memory_run kend l1kpgt p20 p21 fuel (lget of_kmem k) Im Hh Hf) as (s1 & E1 & P & _).
  destruct (P Hr) as (T & fl & s2 & s3 & E2 & E3 & H). exists T, fl, s3. split; [|exact H].
  rewrite (pbind_ok _ _ _ _ _ (in_k _ _ _ _ _ _ _ _ _ _ _ _ _ _ (zoom_ok of_kmem _ k _ _ E1))).
  rewrite <- (kmem_get_lset s1 k) in E2.
  rewrite (pbind_ok _ _ _ _ _ (in_k _ _ _ _ _ _ _ _ _ _ _ _ _ _ (zoom_ok of_kmem _ _ _ _ E2))).
  rewrite (pbind_ok _ _ _ _ _ (in_k _ _ _ _ _ _ _ _ _ _ _ _ _ _ (zoom_ok of_mmu (pgt_init l1kpgt) _ _ _ eq_refl))).
  set (k2 := lset of_kmem s2 (lset of_kmem s1 k)). rewrite <- (kmem_get_lset s2 (lset of_kmem s1 k)) in E3. fold k2 in E3.
  match goal with |- context [lset of_mmu ?x k2] => set (k3 := lset of_mmu x k2) end.
  change (lget of_kmem k2) with (lget of_kmem k3) in E3.
  by rewrite (pbind_ok _ _ _ _ _ (in_k _ _ _ _ _ _ _ _ _ _ _ _ _ _ (zoom_ok of_kmem _ k3 _ _ E3))).
Qed.

(** The disk's driver, with three pages for its queue. *)
Lemma virtio_stage p1 p2 p3 (fl : list Z) k l t g cl r b z pl u cd :
  kinv (p1 :: p2 :: p3 :: fl) (lget of_kmem k) → dv_seen (v_dev (disk_of k)) = 0 →
  ∃ v, zoom of_virtio (virtio_init dev_reg_read dev_reg_write) (Machine k l t g cl r b z pl u cd) =
      Ret tt (Machine (with_disk v k) (<[Z.to_nat VIRTIO_BLK_IRQ := VirtioBlkIntr]> l) t g cl r b z pl u cd) ∧
    free_lock (v_lk v) ∧ Virtio.idle v ∧ kinv fl (lget of_kmem (with_disk v k)) ∧ dv_disk (v_dev v) = dv_disk (v_dev (disk_of k)) ∧
    ∀ a, (∀ p, p ∈ [p1; p2; p3] → ¬ in_page p a) → rd8 (k_mem (with_disk v k)) a = rd8 (k_mem k) a.
Proof.
  intros I Hs. set (s := Machine k l t g cl r b z pl u cd).
  destruct (virtio_init_run p1 p2 p3 fl (lget of_virtio s) I Hs) as (v & E & H1 & H2 & H3 & H4 & H5 & H6).
  exists v. split_and!; try done.
  - rewrite (zoom_ok of_virtio _ s _ _ E). cbn [lset of_virtio]. by rewrite H4.
  - intros a Ha. apply H6; apply Ha; rewrite !elem_of_cons; tauto.
Qed.

(** The kernel's tables, empty. *)
Definition empty_tables (k : kern) : kern :=
  Kst (FsSt (BCache (k_hart k) lock_init (replicate NBUF buf_zero) (disk_of k)) lock_init (replicate NINODE inode_zero)
         (sb (k_fs k)) (k_mem k))
    lock_init (replicate NFILE file_zero) (k_klk k) (k_freelist k) lock_init (replicate NPROC proc_zero) lock_init 0 None
    (k_mmu k) (initproc k) (firstcall k) (k_mapped k).

Lemma tables_stage (K : prog machine unit) k l t g cl r b z pl u cd : (
    zoom of_k (zoom of_kfs (zoom of_cache buf_init)) ;;
    zoom of_k (zoom of_kfs inode_init) ;;
    zoom of_k (zoom (of_files 0) file_init) ;;
    zoom of_k proc_init ;; K)%prog (Machine k l t g cl r b z pl u cd) =
  K (Machine (empty_tables k) l t g cl r b z pl u cd).
Proof. reflexivity. Qed.

(** What the routines that make a process leave alone. *)
Definition files_of k :=
  (lset chart (Hart 0 0 false false) (fs_cache (k_fs k)), itable_lk (k_fs k), itable (k_fs k), sb (k_fs k),
   k_ftlk k, k_ftable k, k_mmu k, firstcall k, k_mapped k).

#[local] Instance keep_kmem {A} (m : prog _ A) : Keeps files_of (zoom of_kmem m).
Proof. by apply keeps_zoom. Qed.
#[local] Instance keep_kmemory {A} (m : prog _ A) : Keeps files_of (zoom of_kmemory m).
Proof. by apply keeps_zoom. Qed.
#[local] Instance keep_ptlk {A} (m : prog _ A) : Keeps files_of (zoom of_ptlk m).
Proof. by apply keeps_zoom. Qed.
#[local] Instance keep_pidlk {A} (m : prog _ A) : Keeps files_of (zoom of_pidlk m).
Proof. by apply keeps_zoom. Qed.
#[local] Instance keep_proc_at i : Keeps files_of (proc_at i).
Proof. intros s a s'. unfold proc_at. by destruct (procs s !! i) as [p|]; [intros [= _ <-]|]. Qed.

Lemma userproc_init_keeps : Keeps files_of (userproc_init forkret proc_addr ustart usize).
Proof.
  unfold userproc_init, newproc, newpid, lock_procs, unlock_procs, upd_proc, tf_set. keeps_tac.
Qed.

Lemma empty_cache h (v : vst vdev) : hart_ok h → Virtio.idle v → free_lock (v_lk v) →
  map_Forall (λ _ y, good_block y) (md_blocks (dv_disk (v_dev v))) →
  bc_inv (md_block (dv_disk (v_dev v))) [] (BCache h lock_init (replicate NBUF buf_zero) v).
Proof.
  intros Hh Hv Hl Hb. split; try done.
  - by intros i b [-> _]%lookup_replicate; left.
  - by intros i j b c [-> _]%lookup_replicate.
  - by intros n ?%elem_of_nil.
Qed.

Lemma in_files_of k k' : files_of k' = files_of k → bc_lk (fs_cache (k_fs k')) = bc_lk (fs_cache (k_fs k)) ∧
  bc_buf (fs_cache (k_fs k')) = bc_buf (fs_cache (k_fs k)) ∧ disk_of k' = disk_of k ∧
  itable_lk (k_fs k') = itable_lk (k_fs k) ∧ itable (k_fs k') = itable (k_fs k) ∧ k_ftable k' = k_ftable k ∧
  k_mmu k' = k_mmu k ∧ firstcall k' = firstcall k.
Proof. unfold files_of, disk_of. cbn. intros H. injection H as ? ? ? ? ? ? ? ? ? ? ?. by split_and!. Qed.

(** *** Power on

    What boot.S, the linker script and the devices after reset leave to CPU 0. *)
Record powered (p20 p21 : Z) s : Prop := {
  pw_cpu : cpuid (m_hart s) = 0;
  pw_hart : hart_ok (m_hart s);
  pw_fuel : (Z.to_nat 65536 < fuel)%nat ∧ (r_asleep (g_redist (gview (m_gic s)) 0) < fuel)%nat;
  pw_image : image kend l1kpgt p20 p21 (k_mem (m_k s));
  pw_room : 128 * PAGESIZE <= ksecend kend - kend ∧ 139 * PAGESIZE <= PHYMEMEND - kend;
  pw_prog : 0 < usize <= PAGESIZE ∧ ustart + usize <= kend ∧
    ∀ a, ustart <= a < ustart + usize → ¬ in_tree (boot_tree l1kpgt p20 p21) a;
  pw_disk : dv_seen (v_dev (disk_of (m_k s))) = 0 ∧
    map_Forall (λ _ y, good_block y) (md_blocks (dv_disk (v_dev (disk_of (m_k s)))))
}.

(** *** What the rest of the kernel starts from *)

(** Memory: the kernel's address space, and that of the first process. *)
Definition memory_up s s' : Prop := ∃ T Tu fl ks gp up wp,
  kernel_map kend l1kpgt T fl (lget of_kmem (m_k s')) ∧
  mm_ok gp Tu fl (lget of_kmem (m_k s')) ∧ space gp Tu fl [up] wp (k_mem (m_k s')) ∧ tdisj T Tu ∧
  procs (m_k s') = <[0%nat := first_entry forkret proc_addr 0 0 ks gp usize]> (replicate NPROC proc_zero) ∧
  k_mmu (m_k s') = Mmu 0 (V2P l1kpgt) ∧
  ∀ j, 0 <= j < PAGESIZE → rd8 (k_mem (m_k s')) (up + j) = if decide (j < usize) then rd8 (k_mem (m_k s)) (ustart + j) else 0.

(** The file system's caches over the disk, empty. *)
Definition files_up s s' : Prop :=
  bc_inv (md_block (dv_disk (v_dev (disk_of (m_k s))))) [] (fs_cache (k_fs (m_k s'))) ∧
  itable_ok (itable (k_fs (m_k s'))) ∧ free_lock (itable_lk (k_fs (m_k s'))) ∧ ftable_ok (k_ftable (m_k s')) ∧
  firstcall (m_k s') = firstcall (m_k s).

Definition devices_up s s' : Prop :=
  m_irqhandler s' !! Z.to_nat TIMER_IRQ = Some TimerIntr ∧ m_irqhandler s' !! Z.to_nat UART_IRQ = Some UartIntr ∧
  m_irqhandler s' !! Z.to_nat VIRTIO_BLK_IRQ = Some VirtioBlkIntr ∧
  armed (m_timer s') ∧ ticks (m_timer s') = 0 ∧ interval_ms (m_timer s') = 100 ∧ gic_up (m_gic s') ∧
  free_lock (m_cons_lk s') ∧ free_lock (m_printk_lk s') ∧ m_cdevsw s' = <[CDEV_CONSOLE := ConsDevsw]> (m_cdevsw s) ∧
  sent (m_uart s') = sent (m_uart s) ++ chars "booting..." ++ [10].

(** The process table is that of the transition system after these steps. *)
Definition first_made : sys := after [EvAlloc; EvName 0; EvInit 0].

Definition processes_up s' : Prop :=
  ready (m_k s') ∧ with_cur None 0 (m_k s') first_made ∧ reachable first_made ∧ initproc (m_k s') = Some 0%nat.

Lemma first_made_reachable : reachable first_made.
Proof. apply after_reachable. by vm_compute. Qed.

Lemma first_stage T (ks gp : Z) (fl : list Z) k :
  ready k → procs k = replicate NPROC proc_zero → nextpid k = 0 → k_cur k = None →
  kernel_map kend l1kpgt T (ks :: gp :: fl) (lget of_kmem k) → (6 <= length fl)%nat →
  (∀ p, p ∈ ks :: gp :: fl → kend <= p) → 0 < usize <= PAGESIZE → ustart + usize <= kend →
  ∃ k' Tu fl' up wp, userproc_init forkret proc_addr ustart usize k = Ret tt k' ∧
    ready k' ∧ with_cur None 0 k' first_made ∧ initproc k' = Some 0%nat ∧ files_of k' = files_of k ∧
    kernel_map kend l1kpgt T fl' (lget of_kmem k') ∧ mm_ok gp Tu fl' (lget of_kmem k') ∧
    space gp Tu fl' [up] wp (k_mem k') ∧ tdisj T Tu ∧
    procs k' = <[0%nat := first_entry forkret proc_addr 0 0 ks gp usize]> (replicate NPROC proc_zero) ∧
    ∀ j, 0 <= j < PAGESIZE → rd8 (k_mem k') (up + j) = if decide (j < usize) then rd8 (k_mem k) (ustart + j) else 0.
Proof.
  intros R P N Cu M Hl Hk Hu Hp. pose proof (mm_alloc _ _ _ _ (kp_mm _ _ _ _ _ M)) as I.
  destruct (FirstProps.userproc_init_correct forkret proc_addr ustart usize 0 ks gp fl k R I)
    as (k' & up & wp & Tu & fl' & E & R' & Hi & P' & N' & C' & M' & Sp & Sf & B & _ & _ & _ & Kp & Ht); try done.
  { by rewrite N. }
  { rewrite P. by vm_compute. }
  { by rewrite P. }
  { intros a p Ha Hin%Hk Hpa. unfold in_page in Hpa. lia. }
  rewrite N, P in P'. rewrite N in N'. rewrite Cu in C'.
  exists k', Tu, fl', up, wp. split_and!; try done.
  - split; [|done]. split; [|by rewrite C'; vm_compute]. split; [|by rewrite N'; vm_compute|done].
    rewrite P'. apply table_equiv. cbn [seen]. by vm_compute.
  - by eapply userproc_init_keeps.
  - eapply kernel_map_kept; [exact M|apply M'| |exact Kp]. intros p Hin. do 2 right. by eapply suffix_in.
  - intros π π' p H1 H2%Ht. apply (mm_disj _ _ _ _ (kp_mm _ _ _ _ _ M) _ _ H1). destruct H2 as [->|H2]; [do 2 constructor|by do 2 right].
Qed.

(** The firmware starts the other CPUs and comes back. *)
Hypothesis firmware : ∀ f x y w s, ∃ v, psci_fn f x y w s = Ret v s.

Lemma start_cpus_run n i s : start_cpus n i s = Ret tt s.
Proof.
  revert i. induction n as [|n IH]; intros i; [done|]. cbn [start_cpus]. unfold psci_cpu_on.
  destruct (firmware PSCI_SYSTEM_CPUON i (V2P start) 0 s) as (v & E). by rewrite (pbind_ok _ _ _ _ _ E).
Qed.

(** After the memory is up: the tables and the first process. *)
Lemma kernel_stage p20 p21 T fl km k0 l t g cl r b z pl u cd :
  let k := put_mmu (Mmu 0 (V2P l1kpgt)) (lset of_kmem km k0) in
  (∃ s, powered p20 p21 s ∧ m_k s = k0) → kernel_map kend l1kpgt T fl km →
  Z.of_nat (length fl) = (PHYMEMEND - kend) / PAGESIZE - 128 → (∀ p, p ∈ fl → kend <= p) →
  (∀ a, a < kend → ¬ in_tree (boot_tree l1kpgt p20 p21) a → rd8 (km_mem km) a = rd8 (k_mem k0) a) →
  ∃ k', (
    zoom of_virtio (virtio_init dev_reg_read dev_reg_write) ;;
    zoom of_k (zoom of_kfs (zoom of_cache buf_init)) ;;
    zoom of_k (zoom of_kfs inode_init) ;;
    zoom of_k (zoom (of_files 0) file_init) ;;
    zoom of_k proc_init ;;
    zoom of_k (userproc_init forkret proc_addr ustart usize) ;;
    start_cpus (NCPU - 1) 1)%prog (Machine k l t g cl r b z pl u cd) =
    Ret tt (Machine k' (<[Z.to_nat VIRTIO_BLK_IRQ := VirtioBlkIntr]> l) t g cl r b z pl u cd) ∧
    ∀ l t g cl r b z pl u cd l' t' g' cl' r' b' z' pl' u' cd',
      let s := Machine k0 l t g cl r b z pl u cd in let s' := Machine k' l' t' g' cl' r' b' z' pl' u' cd' in
      memory_up s s' ∧ files_up s s' ∧ processes_up s'.
Proof.
  intros k (s0 & [_ _ _ _ [_ Hram] (Hu & Hp & Hpt) [Hseen Hb]] & Es) M Hl Hk Hm. rewrite Es in Hseen, Hb. clear s0 Es.
  destruct fl as [|p1 [|p2 [|p3 [|ks [|gp fl]]]]]; try (cbn [length] in Hl; unfold PAGESIZE in *; zlia).
  assert (Hlen : (6 <= length fl)%nat) by (cbn [length] in Hl; unfold PAGESIZE in *; zlia).
  destruct (virtio_stage p1 p2 p3 (ks :: gp :: fl) k l t g cl r b z pl u cd) as (v & E1 & V1 & V2 & V3 & V4 & V5).
  { change (lget of_kmem k) with (lget of_kmem (lset of_kmem km k0)). rewrite kmem_get_lset. apply M. }
  { exact Hseen. }
  set (k2 := with_disk v k) in *. set (k3 := empty_tables k2).
  assert (Hin : ∀ p, p ∈ ks :: gp :: fl → p ∈ p1 :: p2 :: p3 :: ks :: gp :: fl) by (intros p ?; by do 3 right).
  assert (M3 : kernel_map kend l1kpgt T (ks :: gp :: fl) (lget of_kmem k3)).
  { eapply kernel_map_kept; [exact M|exact V3|done|]. intros a Ha. transitivity (rd8 (k_mem k) a); [|done].
    apply V5. intros p Hin3. apply Ha. rewrite !elem_of_cons in *. rewrite elem_of_nil in Hin3. tauto. }
  assert (R3 : ready k3) by (split; [apply V3|done..]).
  destruct (first_stage T ks gp fl k3 R3 eq_refl eq_refl eq_refl M3 Hlen (λ p Hq, Hk p (Hin p Hq)) Hu Hp)
    as (k' & Tu & fl' & up & wp & E4 & R' & W & Hi & Hf & M' & Mu & Sp & Dj & P' & B).
  exists k'. split.
  - rewrite (pbind_ok _ _ _ _ _ E1), tables_stage.
    rewrite (pbind_ok _ _ _ _ _ (in_k _ _ _ _ _ _ _ _ _ _ _ _ _ _ E4)). apply start_cpus_run.
  - clear -R' W Hi Hf M' Mu Sp Dj P' B V1 V2 V4 V5 Hb Hm Hk Hp Hpt. intros.
    apply in_files_of in Hf as (F1 & F2 & F3 & F4 & F5 & F6 & F7 & F8). split_and!.
    + exists T, Tu, fl', ks, gp, up, wp. split_and!; try done. intros j Hj. cbn [m_k s s']. rewrite B by done.
      case_decide; [|done]. change (k_mem k3) with (k_mem k2). rewrite V5.
      * change (k_mem k) with (km_mem km). apply Hm; [lia|]. apply Hpt. lia.
      * intros p Hp3 Hpa. assert (kend <= p); [|unfold in_page in Hpa; lia]. apply Hk. rewrite !elem_of_cons in *.
        rewrite elem_of_nil in Hp3. tauto.
    + unfold files_up. cbn [m_k s s']. rewrite F4, F5, F6, F8. split_and!; [|apply itable_init|done|apply ftable_init|done].
      change (disk_of k0) with (disk_of k). rewrite <- V4.
      replace (fs_cache (k_fs k')) with (BCache (k_hart k') lock_init (replicate NBUF buf_zero) v); [apply empty_cache; [apply R'|done|done|]|].
      { rewrite V4. exact Hb. }
      unfold disk_of in F3. unfold k_hart. destruct (fs_cache (k_fs k')) as [h lk bf dk]. cbn in F1, F2, F3 |- *.
      by rewrite F1, F2, F3.
    + split_and!; [done|done|apply first_made_reachable|done].
Qed.

(** The other CPUs use the tables, the interval and the handlers that CPU 0
    has set up, and go to the scheduler too. *)
Lemma secondary_boots s : hart_ok (m_hart s) → 0 < cpuid (m_hart s) < NCPU → free_lock (m_printk_lk s) →
  (r_asleep (g_redist (gview (m_gic s)) (cpuid (m_hart s))) < fuel)%nat →
  ∃ s' g', main s = Ret tt s' ∧ k_mmu (m_k s') = Mmu 0 (V2P l1kpgt) ∧ armed (m_timer s') ∧
    gic_enabled (cpuid (m_hart s)) (m_gic s') = Ret true g' ∧ procs (m_k s') = procs (m_k s) ∧
    sent (m_uart s') = sent (m_uart s) ++ text ((Lit <$> chars "core") ++ [Dec (cpuid (m_hart s))] ++ (Lit <$> chars " started") ++ [Lit 10]).
Proof.
  destruct s as [k l t g cl r b z pl u cd]. intros Hh Hc Hl Hf. unfold m_hart in *. cbn [m_k m_gic m_printk_lk m_timer m_uart] in *.
  assert (Hz : (cpuid (k_hart k) =? 0) = false) by (apply Z.eqb_neq; lia).
  set (k1 := put_mmu (Mmu 0 (V2P l1kpgt)) k).
  set (t0 := Timer (cntv_ctl_el0 t) (cntv_tval_el0 t) (cntfrq_el0 t) (ticks t) (interval_ms t) l).
  destruct (timer_init_percpu_run t0) as (t1 & E1 & A & _).
  destruct (GicProps.init_percpu_correct fuel (cpuid (k_hart k)) g) as (g1 & E2 & (g2 & On) & _); [lia|exact Hf|].
  set (ps := (Lit <$> chars "core") ++ [Dec (cpuid (k_hart k))] ++ (Lit <$> chars " started") ++ [Lit 10]).
  destruct (printk_stage ps k1 (t_irq t1) t1 g1 cl r b z pl u cd) as (u' & E3 & S3 & _);
    [by repeat constructor|done|done|].
  eexists _, g2. split; [|split_and!].
  - unfold main. prog_step. unfold m_hart at 1. cbn [m_k]. rewrite Hz.
    rewrite (pbind_ok _ _ _ _ _ (in_k _ _ _ _ _ _ _ _ _ _ _ _ _ _ (zoom_ok of_mmu (pgt_init l1kpgt) k tt _ eq_refl))).
    change (lset of_mmu _ k) with k1.
    rewrite (pbind_ok _ _ _ _ _ (in_timer timer_init_percpu tt k1 l t t1 _ _ _ _ _ _ _ _ E1)).
    rewrite (pbind_ok _ _ _ _ _ (in_gic _ _ _ _ _ _ _ _ _ _ _ _ _ _ E2)). prog_step.
    by rewrite (pbind_ok _ _ _ _ _ E3).
  - done.
  - exact A.
  - exact On.
  - done.
  - exact S3.
Qed.

End machine.

Module BootProps.
#[local] Existing Instances GicProps.gicv_gic GicProps.gicv_ok.

(** *** Witness: the image of KernelMap, a first program of 64 bytes in it, an
    empty disk *)
Definition program_at : Z := KERNBASE + 0x20000.
Definition powered_on : machine (G := gicv) (U := pl011) :=
  let h := Hart 0 0 false false in
  Machine
    (Kst (FsSt (BCache h lock_init [] (Vst h lock_init VirtioProps.fresh_q ∅ lock_init 0 [] (VDev 0 0 (MemDisk ∅)))) lock_init []
            (Superblock 0 0 0 0 0 0 0 0 0 0 0 0 0) KernelMapProps.image_mem)
       lock_init [] lock_init 0 lock_init [] lock_init 0 None (Mmu 0 0) None true (λ _, false))
    [] (Timer 0 0 62500000 0 0 []) GicProps.at_reset lock_init 0 0 0 lock_init (PL [] [] false) (replicate NCDEV NoDev).

Definition no_firmware (f x y w : Z) : prog (machine (G := gicv) (U := pl011)) Z := ret 0.

Lemma powered_on_ok : powered KERNBASE (KERNBASE + PAGESIZE) KernelMapProps.image_end KernelMapProps.image_l1
  program_at 64 (Z.to_nat 65537) KernelMapProps.image_l20 KernelMapProps.image_l21 powered_on.
Proof.
  split.
  - done.
  - by apply (bool_decide_unpack _).
  - split; [lia|]. cbn. lia.
  - exact KernelMapProps.image_ok.
  - by split; apply (bool_decide_unpack _).
  - split; [done|]. split; [by apply (bool_decide_unpack _)|]. intros a Ha (π & p & Hp & Hin).
    apply boot_tree_lookup in Hp as [[_ ->]|[[_ ->]|[_ ->]]]; revert Ha Hin;
      unfold in_page, program_at, KernelMapProps.image_l1, KernelMapProps.image_l20, KernelMapProps.image_l21; unfold_layout; lia.
  - split; [done|]. apply map_Forall_empty.
Qed.

End BootProps.
