(* ===== verification/Structs.v ===== *)
(** * The layout of the structures

    The structures that cross an interface (the disk, the devices, ELF files,
    user memory, the trap vector) as the headers declare them, and where the
    procedure call standard for AArch64 places their members. The models of the
    other files read and write these structures at numeric offsets; the theorems
    show that the offsets are those of the members of that name. *)

From S2P Require Import Prelude Mem Bytes Spinlock Layout Buf Virtio Fs Ext2 File Proc Syscall.
From stdpp Require Import strings.
Open Scope Z_scope.

(** ** Types and layouts *)

(** [Struct] has the members in order, whether it is packed, and the alignment
    an attribute asks for (1 without). *)
Inductive ctype :=
| CU8 | CU16 | CU32 | CU64 | CPtr
| Arr (t : ctype) (n : nat)
| Struct (members : list (string * ctype)) (packed : bool) (al : nat).

Definition round_up (a n : nat) : nat := (n + a - 1) / a * a.

Fixpoint align_of (t : ctype) : nat :=
  match t with
  | CU8 => 1 | CU16 => 2 | CU32 => 4 | CU64 | CPtr => 8
  | Arr t _ => align_of t
  | Struct ms packed al =>
      al `max` if packed then 1 else foldr (λ m a, align_of m.2 `max` a) 1 ms
  end%nat.

Fixpoint size_of (t : ctype) : nat :=
  match t with
  | CU8 => 1 | CU16 => 2 | CU32 => 4 | CU64 | CPtr => 8
  | Arr t n => size_of t * n
  | Struct ms packed al =>
      round_up (align_of t) (foldl (λ off m, round_up (if packed then 1 else align_of m.2) off + size_of m.2) 0 ms)
  end%nat.

(** The members with their offsets. *)
Fixpoint place_members (packed : bool) (off : nat) (ms : list (string * ctype)) : list (string * (nat * ctype)) :=
  match ms with
  | [] => []
  | (f, t) :: ms =>
      let off := round_up (if packed then 1 else align_of t) off in
      (f, (off, t)) :: place_members packed (off + size_of t) ms
  end.

Definition members (t : ctype) : list (string * (nat * ctype)) :=
  match t with Struct ms packed _ => place_members packed 0 ms | _ => [] end.

Fixpoint find_member (f : string) (ms : list (string * (nat * ctype))) : option (nat * ctype) :=
  match ms with
  | [] => None
  | (g, p) :: ms => if String.eqb f g then Some p else find_member f ms
  end.

Definition member (t : ctype) (f : string) : option (nat * ctype) := find_member f (members t).

Definition offset_of (t : ctype) (f : string) : nat := default 0%nat (fst <$> member t f).

(** The value of member [f] of the structure at [off] of a block. *)
Definition get (t : ctype) (f : string) (l : bytes) (off : nat) : Z :=
  match member t f with Some (o, u) => fld (size_of u) l (off + o) | None => 0 end.

(** Element [k] of an array member. *)
Definition get_elem (t : ctype) (f : string) (k : nat) (l : bytes) (off : nat) : Z :=
  match member t f with
  | Some (o, Arr u _) => fld (size_of u) l (off + o + size_of u * k)
  | _ => 0
  end.

(** ** The declarations *)

Module CStruct.
Open Scope string_scope.

(** *** ext2.h, dirent.h *)

Definition ext2_superblock : ctype := Struct [
  ("s_inodes_count", CU32); ("s_blocks_count", CU32); ("s_r_blocks_count", CU32); ("s_free_blocks_count", CU32);
  ("s_free_inodes_count", CU32); ("s_first_data_block", CU32); ("s_log_block_size", CU32); ("s_log_frag_size", CU32);
  ("s_blocks_per_group", CU32); ("s_frags_per_group", CU32); ("s_inodes_per_group", CU32); ("s_mtime", CU32);
  ("s_wtime", CU32); ("s_mnt_count", CU16); ("s_max_mnt_count", CU16); ("s_magic", CU16); ("s_state", CU16);
  ("s_errors", CU16); ("s_minor_rev_level", CU16); ("s_lastcheck", CU32); ("s_checkinterval", CU32);
  ("s_creator_os", CU32); ("s_rev_level", CU32); ("s_def_resuid", CU16); ("s_def_resgid", CU16);
  ("s_first_ino", CU32); ("s_inode_size", CU16); ("s_block_group_nr", CU16); ("s_feature_compat", CU32);
  ("s_feature_incompat", CU32); ("s_feature_ro_compat", CU32); ("s_uuid", Arr CU64 2); ("s_volume_name", Arr CU8 16);
  ("s_last_mounted", Arr CU8 64); ("s_algo_bitmap", CU32);
  ("s_prealloc_blocks", CU8); ("s_prealloc_dir_blocks", CU8); ("_align", CU16);
  ("s_journal_uuid", Arr CU64 2); ("s_journal_inum", CU32); ("s_journal_dev", CU32); ("s_last_orphan", CU32);
  ("s_hash_seed", Arr CU32 4); ("s_def_hash_version", CU8); ("_padding", Arr CU8 3);
  ("s_default_mount_options", CU32); ("s_first_meta_bg", CU32); ("_unused", Arr CU8 760)] true 1.

Definition ext2_inode : ctype := Struct [
  ("i_mode", CU16); ("i_uid", CU16); ("i_size", CU32); ("i_atime", CU32); ("i_ctime", CU32); ("i_mtime", CU32);
  ("i_dtime", CU32); ("i_gid", CU16); ("i_links_count", CU16); ("i_blocks", CU32); ("i_flags", CU32); ("i_osd1", CU32);
  ("i_block", Arr CU32 15); ("i_generation", CU32); ("i_file_acl", CU32); ("i_dir_acl", CU32); ("i_faddr", CU32);
  ("i_osd2", Arr CU32 3)] true 1.

Definition ext2_bg_desc : ctype := Struct [
  ("bg_block_bitmap", CU32); ("bg_inode_bitmap", CU32); ("bg_inode_table", CU32); ("bg_free_blocks_count", CU16);
  ("bg_free_inodes_count", CU16); ("bg_used_dirs_count", CU16); ("bg_pad", CU16); ("bg_reserved", Arr CU8 12)] true 1.

Definition dirent : ctype := Struct [
  ("inode", CU32); ("rec_len", CU16); ("name_len", CU8); ("file_type", CU8); ("name", Arr CU8 0)] true 1.

(** *** stat.h, utsname.h, elf.h *)

Definition stat : ctype := Struct [
  ("st_dev", CU32); ("st_ino", CU32); ("st_mode", CU16); ("st_size", CU32); ("st_nlink", CU32); ("st_blksize", CU32)] false 1.

Definition utsname : ctype := Struct [
  ("sysname", Arr CU8 64); ("nodename", Arr CU8 64); ("release", Arr CU8 64); ("version", Arr CU8 64);
  ("machine", Arr CU8 64)] false 1.

Definition ehdr : ctype := Struct [
  ("e_ident", Arr CU8 16); ("e_type", CU16); ("e_machine", CU16); ("e_version", CU32); ("e_entry", CU64);
  ("e_phoff", CU64); ("e_shoff", CU64); ("e_flags", CU32); ("e_ehsize", CU16); ("e_phentsize", CU16); ("e_phnum", CU16);
  ("e_shentsize", CU16); ("e_shnum", CU16); ("e_shstrndx", CU16)] true 1.

Definition phdr : ctype := Struct [
  ("p_type", CU32); ("p_flags", CU32); ("p_offset", CU64); ("p_vaddr", CU64); ("p_paddr", CU64); ("p_filesz", CU64);
  ("p_memsz", CU64); ("p_align", CU64)] true 1.

(** *** virtio.h *)

Definition virtq_desc : ctype := Struct [("addr", CU64); ("len", CU32); ("flags", CU16); ("next", CU16)] true 16.

Definition virtq_avail : ctype := Struct [("flags", CU16); ("idx", CU16); ("ring", Arr CU16 NQUEUE)] true 2.

Definition virtq_used_elem : ctype := Struct [("id", CU32); ("len", CU32)] true 1.

Definition virtq_used : ctype := Struct [("flags", CU16); ("idx", CU16); ("ring", Arr virtq_used_elem NQUEUE)] true 4.

Definition virtio_blk_req_hdr : ctype := Struct [("type", CU32); ("reserved", CU32); ("sector", CU64)] true 1.

(** *** trap.h, fs.h, buf.h *)

Definition trapframe : ctype := Struct [
  ("x0", CU64); ("x1", CU64); ("x2", CU64); ("x3", CU64); ("x4", CU64); ("x5", CU64); ("x6", CU64); ("x7", CU64);
  ("x8", CU64); ("x9", CU64); ("x10", CU64); ("x11", CU64); ("x12", CU64); ("x13", CU64); ("x14", CU64); ("x15", CU64);
  ("x16", CU64); ("x17", CU64); ("x18", CU64); ("x19", CU64); ("x20", CU64); ("x21", CU64); ("x22", CU64); ("x23", CU64);
  ("x24", CU64); ("x25", CU64); ("x26", CU64); ("x27", CU64); ("x28", CU64); ("x29", CU64); ("x30", CU64);
  ("elr", CU64); ("spsr", CU64); ("sp", CU64)] true 1.

Definition inode : ctype := Struct [
  ("mode", CU16); ("size", CU32); ("atime", CU32); ("ctime", CU32); ("mtime", CU32); ("dtime", CU32); ("links_count", CU16);
  ("blocks", CU32); ("block", Arr CU32 15); ("inum", CU32); ("major", CU32); ("minor", CU32); ("ref", CU32)] false 1.

Definition buf : ctype := Struct [
  ("data", Arr CU8 1024); ("bno", CU32); ("ref", CU32); ("dirty", CU8); ("valid", CU8)] false 1.
End CStruct.

(** ** Members do not overlap *)

Lemma round_up_ge a n : (0 < a)%nat → (n <= round_up a n)%nat ∧ (round_up a n mod a = 0)%nat.
Proof.
  intros Ha. unfold round_up. split; [|by rewrite Nat.Div0.mod_mul].
  pose proof (Nat.div_mod_eq (n + a - 1) a) as E. pose proof (Nat.mod_upper_bound (n + a - 1) a). lia.
Qed.

Lemma align_pos t : (0 < align_of t)%nat.
Proof.
  assert (P : ∀ ms : list (string * ctype), (0 < foldr (λ m a, align_of m.2 `max` a) 1 ms)%nat) by (induction ms; simpl; lia).
  induction t; cbn [align_of]; try lia. destruct packed; [lia|]. specialize (P members0). lia.
Qed.

Lemma place_ge packed off ms : Forall (λ m, off <= m.2.1)%nat (place_members packed off ms).
Proof.
  revert off. induction ms as [|[f t] ms IH]; intros off; cbn [place_members]; [done|].
  destruct (round_up_ge (if packed then 1 else align_of t) off) as [H _]; [destruct packed; [lia|apply align_pos]|].
  constructor; [exact H|]. eapply Forall_impl; [apply IH|]. cbn. lia.
Qed.

(** Each member ends before the next begins. *)
Lemma members_disjoint packed off ms i j f g o p t u : (i < j)%nat →
  place_members packed off ms !! i = Some (f, (o, t)) → place_members packed off ms !! j = Some (g, (p, u)) → (o + size_of t <= p)%nat.
Proof.
  revert off i j. induction ms as [|[h v] ms IH]; intros off i j Hij; cbn [place_members]; [done|].
  destruct j as [|j]; [lia|]. destruct i as [|i]; cbn [lookup list_lookup]; [|apply IH; lia].
  intros [= -> <- ->] Hj. by apply (Forall_lookup_1 _ _ _ _ (place_ge packed _ ms) Hj).
Qed.

(** Where members are aligned as their types ask for. *)
Lemma members_aligned off ms i f o t : place_members false off ms !! i = Some (f, (o, t)) → (o mod align_of t = 0)%nat.
Proof.
  revert off i. induction ms as [|[h v] ms IH]; intros off [|i]; cbn [place_members lookup list_lookup]; try done; [|apply IH].
  intros [= -> <- ->]. apply round_up_ge, align_pos.
Qed.

Module StructProps.
Open Scope string_scope.
Abbreviation sizes_of ts := (size_of <$> ts).

(** The offsets of the models are those of the members in the C structures:
    what mounting reads from the superblock and the first group descriptor, an
    inode from the disk, a directory entry, a request to the disk and what
    [fstat] stores are the members that the source names; the registers of the
    trap frame and the headers of an ELF file are where [exec] and the system
    calls look for them; and the sizes are those the models copy. Behind the
    data of a buffer comes its block number. *)
Theorem layouts_agree :
  sizes_of [CStruct.ext2_superblock; CStruct.ext2_inode; CStruct.ext2_bg_desc; CStruct.virtio_blk_req_hdr] = [1024; 128; 32; 16]%nat ∧
  Z.of_nat <$> sizes_of [CStruct.ehdr; CStruct.phdr; CStruct.trapframe; CStruct.utsname; CStruct.stat] =
    [SIZEOF_EHDR; SIZEOF_PHDR; SIZEOF_TRAPFRAME; SIZEOF_UTSNAME; 24] ∧
  (∀ e bg, load_super e bg =
    let s f := get CStruct.ext2_superblock f e 0 in let g f := get CStruct.ext2_bg_desc f bg 0 in
    Superblock (s "s_inodes_count") (s "s_blocks_count") (s "s_first_data_block") (s "s_blocks_per_group")
      (s "s_inodes_per_group") (s "s_mtime") (s "s_wtime") (s "s_first_ino") (s "s_inode_size")
      (Z.shiftl 1024 (s "s_log_block_size")) (g "bg_block_bitmap") (g "bg_inode_bitmap") (g "bg_inode_table")) ∧
  (∀ l off x, load_inode l off x =
    let i f := get CStruct.ext2_inode f l off in
    Fs.Inode (i "i_mode") (i "i_size") (i "i_atime") (i "i_ctime") (i "i_mtime") (i "i_dtime") (i "i_links_count") (i "i_blocks")
      ((λ k, get_elem CStruct.ext2_inode "i_block" k l off) <$> seq 0 15) (i_inum x) (i_major x) (i_minor x) (i_ref x)) ∧
  (∀ l off, let d f := get CStruct.dirent f l off in
    (d_inode l off, d_rec_len l off, d_name_len l off, d_file_type l off) = (d "inode", d "rec_len", d "name_len", d "file_type")) ∧
  (∀ pad x b, let st f := get CStruct.stat f (stat_bytes pad x b) 0 in
    (st "st_dev", st "st_ino", st "st_mode", st "st_size", st "st_nlink", st "st_blksize") =
    (0, u32 (i_inum x), u16 (i_mode x), u32 (i_size x), u32 (i_links_count x), u32 (sb_bsize b))) ∧
  (∀ hdr ty sector m, let at_ f := hdr + offset_of CStruct.virtio_blk_req_hdr f in
    put_hdr hdr ty sector m = st64 (st32 (st32 m (at_ "type") ty) (at_ "reserved") 0) (at_ "sector") sector) ∧
  (λ f, Z.of_nat (offset_of CStruct.trapframe f)) <$> ["x0"; "x1"; "x6"; "elr"; "spsr"; "sp"] =
    [8 * TF_X0; 8 * TF_X1; 8 * TF_X6; 8 * TF_ELR; 8 * TF_SPSR; 8 * TF_SP] ∧
  offset_of CStruct.ehdr <$> ["e_type"; "e_entry"; "e_phoff"; "e_phnum"] = [16; 24; 32; 56]%nat ∧
  offset_of CStruct.phdr <$> ["p_type"; "p_offset"; "p_vaddr"; "p_filesz"; "p_memsz"] = [0; 8; 16; 32; 40]%nat ∧
  (offset_of CStruct.dirent "name" = 8 ∧ offset_of CStruct.buf "bno" = BSIZE)%nat.
Proof.
  split; [by vm_compute|]. split; [by vm_compute|]. split.
  { intros e bg. by vm_compute. }
  split.
  { intros l off x. cbn -[fld]. by rewrite Nat.add_0_r. }
  split.
  { intros l off. cbn -[fld]. by rewrite Nat.add_0_r. }
  split.
  { intros pad x b. unfold stat_bytes. cbn -[fld le_bytes app].
    rewrite <- (app_nil_r (le_bytes 4 (sb_bsize b))).
    repeat match goal with |- (_, _) = (_, _) => f_equal end;
      repeat rewrite fld_app_r by lia; cbn [Nat.sub]; by rewrite fld_app_l. }
  split; [|by vm_compute]. intros hdr ty sector m. cbn -[put_hdr st]. by rewrite Z.add_0_r.
Qed.
End StructProps.
