(* ===== verification/Dumps.v ===== *)
(** * Dumps (kernel/proc.c, trap.c, ext2.c, fs.c, elf.c, mm.c)

    The functions that only print: the table of processes, which Ctrl-P shows on
    the terminal, the trap frame of a fault, and structures of the file system and
    of ELF files. They run over the machine of the file Boot, which has the
    console and the kernel, and read structures by the members of the file
    Structs. *)

From S2P Require Import Prelude Mem Bytes KString Spinlock Layout Kalloc PageTable Buf Irq Gic Timer Uart Printk Console Virtio Fs Ext2 Uaccess File Proc ProcSpec Boot Structs.
Import Spin.
Open Scope Z_scope.
Open Scope prog_scope.

(** A call [printk(fmt, ...)]: the format without its NUL, and the arguments. *)
Definition print_call : Type := list Z * list varg.

(** [fmt] with the newline that ends it. *)
Definition line (s : string) : list Z := chars s ++ [10].

(** The name of a state; there is none for [UNUSED]. *)
Definition pstatemap (st : procstate) : option (list Z) :=
  match st with
  | UNUSED => None
  | CREATED => Some (literal "created")
  | RUNNING => Some (literal "running")
  | RUNNABLE => Some (literal "runnable")
  | SLEEPING => Some (literal "sleeping")
  | ZOMBIE => Some (literal "zombie")
  end.

(** ** The calls of [printk] in each dump *)

Section lines.
Local Open Scope string_scope.
Local Open Scope list_scope.

(** ext2.c; [p] is the address that is printed, [l] the bytes from there on. *)
Definition superblock_lines (p : Z) (l : bytes) : list print_call :=
  let sb f := Word (get CStruct.ext2_superblock f l 0) in
  [(line "superblock dump sb %p", [Word p]);
   (line "sizeof *sb %d", [Word (Z.of_nat (size_of CStruct.ext2_superblock))]);
   (line "s_inodes_count: %d", [sb "s_inodes_count"]);
   (line "s_blocks_count: %d", [sb "s_blocks_count"]);
   (line "s_first_data_block: %d", [sb "s_first_data_block"]);
   (line "s_last_mounted: %s", [Str (Some (drop (offset_of CStruct.ext2_superblock "s_last_mounted") l))]);
   (line "s_log_block_size: %d", [sb "s_log_block_size"]);
   (line "s_mtime: %d", [sb "s_mtime"]);
   (line "s_wtime: %d", [sb "s_wtime"]);
   (line "s_state: %d", [sb "s_state"]);
   (line "block_size: %d", [Word (Z.shiftl 1024 (get CStruct.ext2_superblock "s_log_block_size" l 0))]);
   (line "s_first_ino: %d", [sb "s_first_ino"]);
   (line "s_inode_size: %d", [sb "s_inode_size"]);
   (line "s_block_group_nr: %d", [sb "s_block_group_nr"]);
   (line "s_blocks_per_group %d", [sb "s_blocks_per_group"]);
   (line "s_inodes_per_group %d", [sb "s_inodes_per_group"])].

Definition bg_desc_lines (p : Z) (l : bytes) : list print_call :=
  let bg f := Word (get CStruct.ext2_bg_desc f l 0) in
  [(line "bg_desc dump %p", [Word p]);
   (line "sizeof *bg: %d", [Word (Z.of_nat (size_of CStruct.ext2_bg_desc))]);
   (line "bg_block_bitmap: %d", [bg "bg_block_bitmap"]);
   (line "bg_inode_bitmap: %d", [bg "bg_inode_bitmap"]);
   (line "bg_inode_table: %d", [bg "bg_inode_table"]);
   (line "bg_free_blocks_count: %d", [bg "bg_free_blocks_count"]);
   (line "bg_free_inodes_count: %d", [bg "bg_free_inodes_count"]);
   (line "bg_used_dirs_count: %d", [bg "bg_used_dirs_count"])].

Definition ext2_inode_lines (p : Z) (l : bytes) : list print_call :=
  let i f := Word (get CStruct.ext2_inode f l 0) in
  [(line "ext2_inode dump: %p", [Word p]);
   (line "sizeof *i: %d", [Word (Z.of_nat (size_of CStruct.ext2_inode))]);
   (line "i_mode: %p", [i "i_mode"]);
   (line "i_size: %d", [i "i_size"]);
   (line "i_blocks: %d", [i "i_blocks"])] ++
  ((λ b, (line "i_block[%d]: %p", [Word (Z.of_nat b); Word (get_elem CStruct.ext2_inode "i_block" b l 0)])) <$> seq 0 15).

(** The entry at [off] of the block at [p]. *)
Definition dirent_lines (p : Z) (l : bytes) (off : nat) : list print_call :=
  let d f := Word (get CStruct.dirent f l off) in
  [(line "dirent dump: %p", [Word (p + Z.of_nat off)]);
   (line "inode: %d", [d "inode"]);
   (line "rec_len: %d", [d "rec_len"]);
   (line "name_len: %d", [d "name_len"]);
   (line "file_type: %d", [d "file_type"]);
   (line "name: %s", [Str (Some (drop (off + offset_of CStruct.dirent "name") l))])].

(** fs.c; an inode of the table. *)
Definition inode_head_lines (p : Z) : list print_call :=
  [(line "inode dump: %p", [Word p]);
   (line "sizeof inode: %d", [Word (Z.of_nat (size_of CStruct.inode))])].
Definition inode_body_lines (x : inode) : list print_call :=
  [(line "inum: %d", [Word (i_inum x)]);
   (line "i_mode: %p", [Word (i_mode x)]);
   (line "i_links_count: %p", [Word (i_links_count x)]);
   (line "i_size: %d", [Word (i_size x)]);
   (line "i_blocks: %d", [Word (i_blocks x)])] ++
  imap (λ b n, (line "i_block[%d]: %x", [Word (Z.of_nat b); Word n])) (take 15 (i_block x)).

(** trap.c; [w] gives the members of the frame. *)
Definition tf_lines (tf : Z) (m : mem) : list print_call :=
  let w f := Word (ld64 m (tf + Z.of_nat (offset_of CStruct.trapframe f))) in
  [(line "trapframe dump: %p", [Word tf]);
   (line "x0 %p x1 %p x2 %p x3 %p", [w "x0"; w "x1"; w "x2"; w "x3"]);
   (line "x4 %p x5 %p x6 %p x7 %p", [w "x4"; w "x5"; w "x6"; w "x7"]);
   (line "x8 %p x9 %p x10 %p x11 %p", [w "x8"; w "x9"; w "x10"; w "x11"]);
   (line "x12 %p x13 %p x14 %p x15 %p", [w "x12"; w "x13"; w "x14"; w "x15"]);
   (line "x16 %p x17 %p x18 %p x19 %p", [w "x16"; w "x17"; w "x18"; w "x19"]);
   (line "x16 %p x17 %p x18 %p x19 %p", [w "x16"; w "x17"; w "x18"; w "x19"]);
   (line "x20 %p x21 %p x22 %p x23 %p", [w "x20"; w "x21"; w "x22"; w "x23"]);
   (line "x24 %p x25 %p x26 %p x27 %p", [w "x24"; w "x25"; w "x26"; w "x27"]);
   (line "x28 %p x29 %p x30 %p elr %p", [w "x28"; w "x29"; w "x30"; w "elr"]);
   (line "spsr %p sp %p", [w "spsr"; w "sp"])].

(** elf.c; [m] is memory, with the header at [e] or [p]. *)
Definition phdr_lines (p : Z) (m : mem) : list print_call :=
  let w n f := Word (ld n m (p + Z.of_nat (offset_of CStruct.phdr f))) in
  [(line "dump phdr", []);
   (line "p_type %p", [w 4%nat "p_type"]);
   (line "p_flags %p", [w 4%nat "p_flags"]);
   (line "p_offset %p", [w 8%nat "p_offset"]);
   (line "p_vaddr %p", [w 8%nat "p_vaddr"]);
   (line "p_filesz %d(%p)", [w 8%nat "p_filesz"; w 8%nat "p_filesz"]);
   (line "p_memsz %d(%p)", [w 8%nat "p_memsz"; w 8%nat "p_memsz"])].

Definition ehdr_lines (e : Z) (m : mem) : list print_call :=
  let w n f := Word (ld n m (e + Z.of_nat (offset_of CStruct.ehdr f))) in
  [(line "dump ehdr", []);
   (line "e_entry: %p", [w 8%nat "e_entry"]);
   (line "e_phnum: %d", [w 2%nat "e_phnum"]);
   (line "e_phoff: %d(%p)", [w 8%nat "e_phoff"; w 8%nat "e_phoff"]);
   (line "e_shoff: %d(%p)", [w 8%nat "e_shoff"; w 8%nat "e_shoff"])].

(** proc.c; [c] is the value of [p->chan]. *)
Definition proc_lines (c : Z) (p : proc) : list print_call :=
  (if decide (p_state p = UNUSED) then [] else
     [(line "%s %d %s", [Str (pstatemap (p_state p)); Word (p_pid p); Str (Some (p_name p ++ [0])%list)])]) ++
  (if decide (p_state p = SLEEPING) then [(line "chan %p", [Word c])] else []).
Definition cpu_lines (i : Z) (p : option proc) : list print_call :=
  match p with
  | Some p => [(line "cpu%d %s %d %s", [Word i; Str (pstatemap (p_state p)); Word (p_pid p); Str (Some (p_name p ++ [0])%list)])]
  | None => [(line "cpu%d no proc", [Word i])]
  end.
End lines.

(** ** The dumps *)

Section dumps.
Context {G U : Type} {HG : Gic G} {HU : Pl011 U}.
Context (hdr buf : Z).
#[local] Instance dump_dev : BlockDev (vst vdev) := virtio_dev hdr buf.
Abbreviation mprog := (prog (machine (G := G) (U := U))).

Fixpoint says (ls : list print_call) : mprog unit :=
  match ls with
  | [] => ret tt
  | (fmt, ap) :: ls => _ <- zoom (of_console hdr buf) (zoom of_pst (printk (fmt ++ [0]) ap)) ;; says ls
  end.

Definition dump_superblock (p : Z) (l : bytes) : mprog unit := says (superblock_lines p l).
Definition dump_bg_desc (p : Z) (l : bytes) : mprog unit := says (bg_desc_lines p l).
Definition dump_ext2_inode (p : Z) (l : bytes) : mprog unit := says (ext2_inode_lines p l).
Definition dump_dirent (p : Z) (l : bytes) (off : nat) : mprog unit := says (dirent_lines p l off).

(** [while(d != blk_end && d->inode != 0)], from the entry at [off] of the block
    [l] at [p] on; [bsize] is [sb.bsize]. *)
Fixpoint dirent_loop (fuel bsize : nat) (p : Z) (l : bytes) (off : nat) : mprog unit :=
  match fuel with
  | O => λ _, Hang
  | S fuel =>
      if decide (off = bsize) then ret tt else
      (if decide (off + 8 <= length l)%nat then ret tt else fault "past the block") ;;
      if get CStruct.dirent "inode" l off =? 0 then ret tt else
      dump_dirent p l off ;;
      dirent_loop fuel bsize p l (off + Z.to_nat (get CStruct.dirent "rec_len" l off))
  end.
Definition dump_dirent_block (fuel bsize : nat) (p : Z) (l : bytes) : mprog unit := dirent_loop fuel bsize p l 0.

(** A NULL inode is reported and then dereferenced. *)
Definition dump_inode (p : Z) (i : option nat) : mprog unit :=
  (if decide (i = None) then says [(line "dump inode???????????????", [])] else ret tt) ;;
  says (inode_head_lines p) ;;
  match i with
  | None => fault "NULL inode"
  | Some i => x <- zoom of_k (zoom of_kfs (ino_at i)) ;; says (inode_body_lines x)
  end.

Definition dump_tf (tf : Z) : mprog unit := m <- gets (λ s, k_mem (m_k s)) ;; says (tf_lines tf m).

Definition dump_phdr (p : Z) : mprog unit := m <- gets (λ s, k_mem (m_k s)) ;; says (phdr_lines p m).
Definition dump_ehdr (e : Z) : mprog unit := m <- gets (λ s, k_mem (m_k s)) ;; says (ehdr_lines e m).

(** The program headers, from number [i] of [n] on; [ph] is the address of the
    local variable. [None] is the early return. *)
Fixpoint dump_phdrs (n : nat) (ino : nat) (ph off : Z) : mprog bool :=
  match n with
  | O => ret true
  | S n =>
      r <- zoom of_k (zoom of_kfs (ext2_read_inode ino ph off SIZEOF_PHDR)) ;;
      if negb (r =? SIZEOF_PHDR) then ret false else
      dump_phdr ph ;;
      dump_phdrs n ino ph (off +u64 SIZEOF_PHDR)
  end.

Definition dump_elf (ino : option nat) (eh ph : Z) : mprog unit :=
  says [(line "dump elf", [])] ;;
  match ino with
  | None => ret tt
  | Some i =>
      r <- zoom of_k (zoom of_kfs (ext2_read_inode i eh 0 SIZEOF_EHDR)) ;;
      if negb (r =? SIZEOF_EHDR) then ret tt else
      m <- gets (λ s, k_mem (m_k s)) ;;
      if negb (is_elf m eh) then says [(line "not elf file", [])] else
      if negb (ld16 m (eh + 16) =? ET_EXEC) then ret tt else
      dump_ehdr eh ;;
      done <- dump_phdrs (Z.to_nat (ld16 m (eh + 56))) i ph (ld64 m (eh + 32)) ;;
      if (done : bool) then says [(line "dump elf done", [])] else ret tt
  end.

(** [for(int i = 0; i < PAGESIZE; i++) printk("%x ", a[i])]; a [char] is not
    negative. *)
Fixpoint dump_bytes (n : nat) (a : Z) : mprog unit :=
  match n with
  | O => ret tt
  | S n => m <- gets (λ s, k_mem (m_k s)) ;; says [(chars "%x ", [Word (rd8 m a)])] ;; dump_bytes n (a + 1)
  end.
Definition dump_kstack (p : nat) : mprog unit :=
  x <- zoom of_k (proc_at p) ;;
  dump_bytes (Z.to_nat PAGESIZE) (p_kstack x).
Definition dump_ustack (pgt : Z) : mprog unit :=
  pa <- zoom of_k (zoom of_kmem (uva2pa pgt USTACKBOTTOM)) ;;
  dump_bytes (Z.to_nat PAGESIZE) (P2V pa).

(** [cpus[i].proc]: of this CPU it is part of the state, of the others an
    argument; [chan_val] gives the address a channel stands for. *)
Context (others : Z → option nat) (chan_val : chan → Z).

Definition cpu_proc (i : Z) : mprog (option nat) :=
  gets (λ s, if i =? cpuid (m_hart hdr buf s) then k_cur (m_k s) else others i).

Fixpoint ps_loop (n i : nat) : mprog unit :=
  match n with
  | O => ret tt
  | S n => p <- zoom of_k (proc_at i) ;; says (proc_lines (chan_val (p_chan p)) p) ;; ps_loop n (S i)
  end.

Fixpoint cpu_loop (n : nat) (i : Z) : mprog unit :=
  match n with
  | O => ret tt
  | S n =>
      j <- cpu_proc i ;;
      match j with
      | Some j => p <- zoom of_k (proc_at j) ;; says (cpu_lines i (Some p))
      | None => says (cpu_lines i None)
      end ;;
      cpu_loop n (i + 1)
  end.

Definition dumpps : mprog unit :=
  zoom of_k lock_procs ;;
  ps_loop NPROC 0 ;;
  cpu_loop NCPU 0 ;;
  zoom of_k unlock_procs.

(** ** What they print *)

Definition printable (c : print_call) : bool := bool_decide (Forall (λ x, x ≠ 0) c.1) && bool_decide (is_Some (pieces c.1 c.2)).
Definition call_text (c : print_call) : list Z := text (default [] (pieces c.1 c.2)).
Definition calls_text (ls : list print_call) : list Z := ls ≫= call_text.

Context {HUok : Pl011Ok (D := U)}.
Implicit Types (s : machine (G := G) (U := U)) (ls : list print_call).
Abbreviation the_hart s := (m_hart hdr buf s).

(** Everything but the CPU, [printk_lk] and the line. *)
Definition rest s :=
  (put_hart (Hart 0 0 false false) (m_k s), m_irqhandler s, m_timer s, m_gic s,
   (m_cons_lk s, m_readbuf s, m_bufc s, m_bufsz s), m_cdevsw s).

(** From [s] to [s'] the text [t] went to the terminal, and nothing else happened. *)
Record printed (t : list Z) s s' : Prop := {
  pr_sent : sent (m_uart s') = sent (m_uart s) ++ t;
  pr_received : received (m_uart s') = received (m_uart s);
  pr_lock : free_lock (m_printk_lk s');
  pr_hart : the_hart s' = the_hart s ∨ the_hart s' = touched (the_hart s);
  pr_rest : rest s' = rest s
}.

Lemma printed_nil s : free_lock (m_printk_lk s) → printed [] s s.
Proof. split; [by rewrite app_nil_r|done|done|by left|done]. Qed.

Lemma printed_trans t t' s s' s'' : printed t s s' → printed t' s' s'' → printed (t ++ t') s s''.
Proof.
  intros [A1 A2 A3 A4 A5] [B1 B2 B3 B4 B5]. split; [by rewrite B1, A1, app_assoc|by rewrite B2|done| |by rewrite B5].
  destruct A4 as [A4|A4], B4 as [B4|B4]; rewrite B4, A4; rewrite ?touched_idem; auto.
Qed.

Lemma printed_ok t s s' : printed t s s' → hart_ok (the_hart s) → hart_ok (the_hart s').
Proof. intros [_ _ _ [-> | ->] _] H; [done|by apply touched_ok]. Qed.

(** A call prints [t]: its format and arguments are those of pieces with this text. *)
Definition prints (c : print_call) (t : list Z) : Prop :=
  ∃ ps, Forall piece_ok ps ∧ c.1 = source ps ∧ c.2 = vargs ps ∧ t = text ps.

Lemma printable_prints c : printable c = true → prints c (call_text c).
Proof.
  intros [Hf Hp]%andb_true_iff. apply bool_decide_eq_true in Hf. apply bool_decide_eq_true in Hp as [ps E].
  destruct (pieces_ok (length c.1) c.1 c.2 ps) as (E1 & E2 & Hok); [lia|exact Hf|exact E|].
  exists ps. split; [done|]. unfold call_text. by rewrite E.
Qed.

Lemma printable_all ls : forallb printable ls = true → Forall2 prints ls (call_text <$> ls).
Proof.
  induction ls as [|c ls IH]; [constructor|]. cbn. intros [H1 H2]%andb_true_iff. constructor; [by apply printable_prints|by apply IH].
Qed.

Lemma say_run c t s : prints c t → hart_ok (the_hart s) → free_lock (m_printk_lk s) →
  ∃ s', zoom (of_console hdr buf) (zoom of_pst (printk (c.1 ++ [0]) c.2)) s = Ret 0 s' ∧ printed t s s'.
Proof.
  intros (ps & Hok & -> & -> & ->) Hh Hl. destruct s as [k l ti g cl r b z pl u cd].
  destruct (printk_stage hdr buf ps k l ti g cl r b z pl u cd Hok Hh Hl) as (u' & E' & S' & R').
  eexists. split; [exact E'|]. split; [exact S'|exact R'|done|right|].
  all: by destruct k as [[[] ? ? ? ?] ? ? ? ? ? ? ? ? ? ? ? ? ?].
Qed.

(** Calls print their texts, in order. *)
Lemma says_run ls ts : Forall2 prints ls ts → ∀ s, hart_ok (the_hart s) → free_lock (m_printk_lk s) →
  ∃ s', says ls s = Ret tt s' ∧ printed (concat ts) s s'.
Proof.
  induction 1 as [|[fmt ap] t ls ts H _ IH]; intros s Hh Hl; cbn [says concat].
  { exists s. split; [done|by apply printed_nil]. }
  destruct (say_run _ _ s H Hh Hl) as (s1 & E1 & P1).
  destruct (IH s1 (printed_ok _ _ _ P1 Hh) (pr_lock _ _ _ P1)) as (s2 & E2 & P2).
  exists s2. split; [by rewrite (pbind_ok _ _ _ _ _ E1)|]. exact (printed_trans _ _ _ _ _ P1 P2).
Qed.

(** *** The table of processes *)

Definition state_name (st : procstate) : list Z :=
  match st with
  | UNUSED => chars "(null)" | CREATED => chars "created" | RUNNING => chars "running" | RUNNABLE => chars "runnable"
  | SLEEPING => chars "sleeping" | ZOMBIE => chars "zombie"
  end.

(** State, number and name of a process. *)
Definition proc_text (p : proc) : list Z :=
  state_name (p_state p) ++ [32] ++ signed_numeral (i32 (p_pid p)) ++ [32] ++ typeset (p_name p) ++ [10].

(** The lines of a slot of the table and of a CPU. *)
Definition slot_text (p : proc) : list Z :=
  match p_state p with
  | UNUSED => []
  | SLEEPING => proc_text p ++ chars "chan 0x" ++ numeral 16 (u64 (chan_val (p_chan p))) ++ [10]
  | _ => proc_text p
  end.
Definition cpu_text (procs : list proc) (i : Z) (j : option nat) : list Z :=
  chars "cpu" ++ signed_numeral (i32 i) ++ [32] ++
  match j ≫= λ j, procs !! j with Some p => proc_text p | None => chars "no proc" ++ [10] end.

Definition named (p : proc) : Prop := Forall (λ c, c ≠ 0) (p_name p).

(** The pieces of the line of a process. *)
Definition proc_pieces (p : proc) : list piece :=
  match pstatemap (p_state p) with None => Null | Some _ => Txt (state_name (p_state p)) end ::
  Lit 32 :: Dec (p_pid p) :: Lit 32 :: Txt (p_name p) :: [Lit 10].

Lemma proc_pieces_ok p : named p → Forall piece_ok (proc_pieces p) ∧ source (proc_pieces p) = line "%s %d %s" ∧
  vargs (proc_pieces p) = [Str (pstatemap (p_state p)); Word (p_pid p); Str (Some (p_name p ++ [0]))] ∧
  text (proc_pieces p) = proc_text p.
Proof.
  intros Hn. unfold proc_pieces, proc_text. destruct (p_state p); (split_and!; [by repeat constructor|done|done|]);
    cbn; by rewrite <- ?app_assoc.
Qed.

Lemma slot_prints p : named p → ∃ ts, Forall2 prints (proc_lines (chan_val (p_chan p)) p) ts ∧ concat ts = slot_text p.
Proof.
  intros Hn. destruct (proc_pieces_ok p Hn) as (H1 & H2 & H3 & H4). unfold proc_lines, slot_text.
  assert (Hp : prints (line "%s %d %s", [Str (pstatemap (p_state p)); Word (p_pid p); Str (Some (p_name p ++ [0]))]) (proc_text p))
    by (by exists (proc_pieces p)).
  destruct (p_state p); cbn [decide]; repeat (rewrite decide_True by done || rewrite decide_False by done); cbn [app].
  { exists []. done. }
  1-3, 5: exists [proc_text p]; split; [by repeat constructor|by cbn; rewrite app_nil_r].
  exists [proc_text p; chars "chan 0x" ++ numeral 16 (u64 (chan_val (p_chan p))) ++ [10]].
  split; [|by cbn; rewrite app_nil_r]. constructor; [done|]. constructor; [|done].
  exists ((Lit <$> chars "chan ") ++ [Ptr (chan_val (p_chan p)); Lit 10]). by split_and!; [repeat constructor|..].
Qed.

Lemma cpu_prints t i (j : option nat) : Forall named t → (∀ k, j = Some k → is_Some (t !! k)) →
  ∃ ts, Forall2 prints (cpu_lines i (j ≫= λ j, t !! j)) ts ∧ concat ts = cpu_text t i j.
Proof.
  intros Hn Hj. unfold cpu_text. exists [chars "cpu" ++ signed_numeral (i32 i) ++ [32] ++
    match j ≫= λ j, t !! j with Some p => proc_text p | None => chars "no proc" ++ [10] end].
  split; [|by cbn; rewrite app_nil_r]. destruct j as [k|].
  - destruct (Hj k eq_refl) as [p E]. cbn [mbind option_bind]. rewrite E. cbn [cpu_lines]. constructor; [|done].
    destruct (proc_pieces_ok p) as (H1 & H2 & H3 & H4); [by eapply Forall_lookup_1|].
    exists ((Lit <$> chars "cpu") ++ Dec i :: Lit 32 :: proc_pieces p). split_and!.
    + apply Forall_app. split; [by repeat constructor|]. by repeat (constructor; [done|]).
    + cbn [fst]. unfold source in *. rewrite bind_app, !bind_cons, H2. done.
    + cbn [snd]. unfold vargs in *. rewrite bind_app, !bind_cons, H3. done.
    + unfold text in *. rewrite bind_app, !bind_cons, H4. done.
  - constructor; [|done]. exists ((Lit <$> chars "cpu") ++ Dec i :: (Lit <$> chars " no proc") ++ [Lit 10]).
    by split_and!; [repeat constructor|..].
Qed.

(** What a dump leaves alone. *)
Lemma rest_table s s' : rest s' = rest s → procs (m_k s') = procs (m_k s) ∧ k_cur (m_k s') = k_cur (m_k s) ∧ ptlk (m_k s') = ptlk (m_k s).
Proof.
  intros H. assert (E := f_equal (λ x, (procs x.1.1.1.1.1, k_cur x.1.1.1.1.1, ptlk x.1.1.1.1.1)) H). cbn in E. by simplify_eq.
Qed.

Lemma ps_loop_run n : ∀ i s, (i + n <= length (procs (m_k s)))%nat → Forall named (procs (m_k s)) → hart_ok (the_hart s) → free_lock (m_printk_lk s) →
  ∃ s', ps_loop n i s = Ret tt s' ∧ printed (take n (drop i (procs (m_k s))) ≫= slot_text) s s'.
Proof.
  induction n as [|n IH]; intros i s Hi Hn Hh Hl; cbn [ps_loop].
  { exists s. split; [done|by apply printed_nil]. }
  destruct (lookup_lt_is_Some_2 (procs (m_k s)) i) as [p Ep]; [lia|].
  destruct (slot_prints p) as (ts & Ht & Ec); [by eapply Forall_lookup_1|].
  destruct (says_run _ _ Ht s Hh Hl) as (s1 & E1 & P1). destruct (rest_table _ _ (pr_rest _ _ _ P1)) as (Pt & _).
  destruct (IH (S i) s1) as (s2 & E2 & P2); [rewrite Pt; lia|by rewrite Pt|by eapply printed_ok|apply P1|].
  exists s2. split.
  - assert (Ea : zoom of_k (proc_at i) s = Ret p s).
    { unfold zoom, proc_at. cbn [lget of_k]. rewrite Ep. by destruct s. }
    rewrite (pbind_ok _ _ _ _ _ Ea), (pbind_ok _ _ _ _ _ E1). exact E2.
  - rewrite (drop_S _ _ _ Ep). cbn [take]. rewrite bind_cons, <- Ec. rewrite Pt in P2. exact (printed_trans _ _ _ _ _ P1 P2).
Qed.

(** The process of CPU [i]. *)
Definition cpu_of s (i : Z) : option nat := if i =? cpuid (the_hart s) then k_cur (m_k s) else others i.

Lemma cpu_loop_run n : ∀ i s, (∀ i k, cpu_of s i = Some k → is_Some (procs (m_k s) !! k)) → Forall named (procs (m_k s)) →
  hart_ok (the_hart s) → free_lock (m_printk_lk s) →
  ∃ s', cpu_loop n i s = Ret tt s' ∧ printed (seqZ i n ≫= λ i, cpu_text (procs (m_k s)) i (cpu_of s i)) s s'.
Proof.
  induction n as [|n IH]; intros i s Hc Hn Hh Hl; cbn [cpu_loop].
  { exists s. split; [done|by apply printed_nil]. }
  destruct (cpu_prints (procs (m_k s)) i (cpu_of s i) Hn (Hc i)) as (ts & Ht & Ec).
  destruct (says_run _ _ Ht s Hh Hl) as (s1 & E1 & P1). destruct (rest_table _ _ (pr_rest _ _ _ P1)) as (Pt & Pc & _).
  assert (Hcpu : ∀ i, cpu_of s1 i = cpu_of s i).
  { intros k. unfold cpu_of. rewrite Pc. by destruct (pr_hart _ _ _ P1) as [-> | ->]. }
  destruct (IH (i + 1) s1) as (s2 & E2 & P2); [intros a k; rewrite Hcpu, Pt; apply Hc|by rewrite Pt|by eapply printed_ok|apply P1|].
  exists s2. split.
  - unfold cpu_proc. prog_step. fold (cpu_of s i). destruct (cpu_of s i) as [k|] eqn:Ek; cbn [mbind option_bind] in E1.
    + destruct (Hc i k Ek) as [p Ep]. rewrite Ep in E1. assert (Ea : zoom of_k (proc_at k) s = Ret p s).
      { unfold zoom, proc_at. cbn [lget of_k]. rewrite Ep. by destruct s. }
      rewrite pbind_assoc, (pbind_ok _ _ _ _ _ Ea), (pbind_ok _ _ _ _ _ E1). exact E2.
    + rewrite (pbind_ok _ _ _ _ _ E1). exact E2.
  - rewrite Nat2Z.inj_succ, seqZ_cons by lia. replace (Z.pred (Z.succ n)) with (Z.of_nat n) by lia. rewrite bind_cons, <- Ec. rewrite Pt in P2.
    assert (Hb : (seqZ (Z.succ i) n ≫= λ i, cpu_text (procs (m_k s)) i (cpu_of s1 i)) = seqZ (Z.succ i) n ≫= λ i, cpu_text (procs (m_k s)) i (cpu_of s i))
      by (apply list_bind_ext; [intros a; by rewrite Hcpu|done]).
    change (i + 1) with (Z.succ i) in P2. rewrite Hb in P2. exact (printed_trans _ _ _ _ _ P1 P2).
Qed.

(** *** Directory blocks *)

(** The offsets of the entries from [off] on, up to the end of the block or an
    entry without an inode. *)
Inductive entries_from (bsize : nat) (l : bytes) : nat → list nat → Prop :=
| entries_end : entries_from bsize l bsize []
| entries_stop off : off ≠ bsize → (off + 8 <= length l)%nat → get CStruct.dirent "inode" l off = 0 → entries_from bsize l off []
| entries_next off offs : off ≠ bsize → (off + 8 <= length l)%nat → get CStruct.dirent "inode" l off ≠ 0 →
    entries_from bsize l (off + Z.to_nat (get CStruct.dirent "rec_len" l off)) offs → entries_from bsize l off (off :: offs).

Lemma dirent_loop_run bsize p l off offs : entries_from bsize l off offs →
  Forall (λ o, forallb printable (dirent_lines p l o) = true) offs → ∀ fuel s, (length offs < fuel)%nat →
  hart_ok (the_hart s) → free_lock (m_printk_lk s) →
  ∃ s', dirent_loop fuel bsize p l off s = Ret tt s' ∧ printed (offs ≫= λ o, calls_text (dirent_lines p l o)) s s'.
Proof.
  induction 1 as [|off Hne Hb H0|off offs Hne Hb H0 _ IH]; intros Hp [|fuel] s Hf Hh Hl; cbn [length] in Hf; try lia; cbn [dirent_loop].
  - rewrite decide_True by done. exists s. split; [done|by apply printed_nil].
  - rewrite decide_False, decide_True by done. prog_step. rewrite (proj2 (Z.eqb_eq _ _) H0). exists s. split; [done|by apply printed_nil].
  - apply Forall_cons in Hp as [Hp1 Hp]. rewrite decide_False, decide_True by done. prog_step. rewrite (proj2 (Z.eqb_neq _ _) H0).
    destruct (says_run _ _ (printable_all _ Hp1) s Hh Hl) as (s1 & E1 & P1).
    destruct (IH Hp fuel s1) as (s2 & E2 & P2); [lia|by eapply printed_ok|apply P1|].
    exists s2. split; [unfold dump_dirent; by rewrite (pbind_ok _ _ _ _ _ E1)|]. rewrite bind_cons. exact (printed_trans _ _ _ _ _ P1 P2).
Qed.

(** *** The list of processes on the terminal *)

Hypothesis buffers : 0 <= hdr ∧ hdr + 16 <= buf ∧ buf + BSIZE <= 2 ^ 64.
#[local] Instance dump_dev_ok : BlockDevOk (vst vdev).
Proof. apply virtio_dev_ok; apply buffers. Qed.

Lemma entered_deeper h : hart_ok h → cli_depth h < 2 ^ 31 - 65 → hart_ok (entered h).
Proof. intros (? & ? & ?) ?. split; [cbn; lia|done]. Qed.

Lemma touched_entered h : hart_ok h → touched (entered h) = entered h.
Proof. intros (? & _). unfold touched, entered. cbn. by destruct (Z.eqb_spec (cli_depth h + 1) 0); [lia|]. Qed.

Lemma rest_unlock lk h h' s s' : rest s' = rest s →
  rest (put_k (put_ptlk lk (put_hart h (m_k s'))) s') = rest (put_k (put_ptlk lk (put_hart h' (m_k s))) s).
Proof.
  intros H. assert (E : ∀ h s, rest (put_k (put_ptlk lk (put_hart h (m_k s))) s) =
    (put_ptlk lk (rest s).1.1.1.1.1, (rest s).1.1.1.1.2, (rest s).1.1.1.2, (rest s).1.1.2, (rest s).1.2, (rest s).2)).
  { intros h0 [k l t g cl r b z pl u cd]. by destruct k as [[[] ? ? ? ?] ? ? ? ? ? ? ? ? ? ? ? ? ?]. }
  by rewrite !E, H.
Qed.

(** Ctrl-P shows what runs. [dumpps] prints a line for each slot in use,
    with the state, the number and the name of the process and what a sleeping
    one waits for, in the order of the table, and then a line for each CPU with
    the process it runs; it takes and gives back [proctable.lk], so that the
    lines are of one moment, and changes nothing else. *)
Theorem dumpps_correct s :
  hart_ok (the_hart s) → cli_depth (the_hart s) < 2 ^ 31 - 65 → free_lock (ptlk (m_k s)) → free_lock (m_printk_lk s) →
  length (procs (m_k s)) = NPROC → Forall named (procs (m_k s)) → (∀ i k, cpu_of s i = Some k → is_Some (procs (m_k s) !! k)) →
  ∃ s', dumpps s = Ret tt s' ∧
    sent (m_uart s') = sent (m_uart s) ++ (procs (m_k s) ≫= slot_text) ++
      (seqZ 0 NCPU ≫= λ i, cpu_text (procs (m_k s)) i (cpu_of s i)) ∧
    received (m_uart s') = received (m_uart s) ∧ the_hart s' = touched (the_hart s) ∧ free_lock (m_printk_lk s') ∧
    rest s' = rest (put_k (put_ptlk lock_init (m_k s)) s).
Proof.
  intros Hh Hd Hp Hl Hn Hnm Hc. set (h := the_hart s) in *. set (s0 := put_k (in_pt (m_k s)) s).
  assert (E0 : zoom of_k lock_procs s = Ret tt s0) by exact (zoom_ok of_k _ s _ _ (lock_procs_run (m_k s) Hh Hp)).
  assert (H0 : the_hart s0 = entered h) by (unfold the_hart, s0; apply k_hart_put).
  assert (Hh0 : hart_ok (the_hart s0)).
  { rewrite H0. by apply entered_deeper. }
  pose proof (touched_entered h Hh) as Te.
  assert (Hc0 : ∀ i, cpu_of s0 i = cpu_of s i) by (intros i; unfold cpu_of; by rewrite H0).
  destruct (ps_loop_run NPROC 0 s0) as (s1 & E1 & P1); [change (procs (m_k s0)) with (procs (m_k s)); lia|exact Hnm|done|exact Hl|].
  destruct (rest_table _ _ (pr_rest _ _ _ P1)) as (T1 & C1 & _).
  assert (Hc1 : ∀ i, cpu_of s1 i = cpu_of s i).
  { intros i. rewrite <- Hc0. unfold cpu_of. rewrite C1. by destruct (pr_hart _ _ _ P1) as [-> | ->]. }
  destruct (cpu_loop_run NCPU 0 s1) as (s2 & E2 & P2); [intros i k; rewrite Hc1, T1; apply Hc|by rewrite T1|by eapply printed_ok|apply P1|].
  destruct (printed_trans _ _ _ _ _ P1 P2) as [S R L H Q]. rewrite T1 in S.
  assert (H2 : the_hart s2 = entered h) by (destruct H as [H|H]; rewrite H, H0; done).
  destruct (rest_table _ _ Q) as (_ & _ & K2).
  pose proof (zoom_ok of_k _ s2 _ _ (unlock_procs_run h (m_k s2) Hh H2 K2)) as E3.
  eexists. split.
  - unfold dumpps. rewrite (pbind_ok _ _ _ _ _ E0), (pbind_ok _ _ _ _ _ E1), (pbind_ok _ _ _ _ _ E2). exact E3.
  - split_and!; [|exact R|by apply k_hart_put|exact L|].
    + etrans; [exact S|]. rewrite drop_0, take_ge by (change (procs (m_k s0)) with (procs (m_k s)); lia).
      do 2 f_equal. apply list_bind_ext; [intros i; by rewrite Hc1|done].
    + etrans; [exact (rest_unlock lock_init _ (the_hart s) s0 s2 Q)|]. destruct s as [k l t g cl r b z pl u cd].
      by destruct k as [[[] ? ? ? ?] ? ? ? ? ? ? ? ? ? ? ? ? ?].
Qed.

(** The frame of a fault and the structures of the file system: one text each. *)
Lemma dump_prints ls s : forallb printable ls = true → hart_ok (the_hart s) → free_lock (m_printk_lk s) →
  ∃ s', says ls s = Ret tt s' ∧ printed (calls_text ls) s s'.
Proof.
  intros Hp Hh Hl. destruct (says_run _ _ (printable_all _ Hp) s Hh Hl) as (s' & E & P). exists s'. split; [done|].
  assert (Ec : concat (call_text <$> ls) = calls_text ls) by (unfold calls_text; clear; induction ls as [|c ls IH]; [done|by rewrite fmap_cons, bind_cons, <- IH]).
  by rewrite <- Ec.
Qed.

Lemma dump_tf_run tf s : hart_ok (the_hart s) → free_lock (m_printk_lk s) →
  ∃ s', dump_tf tf s = Ret tt s' ∧ printed (calls_text (tf_lines tf (k_mem (m_k s)))) s s'.
Proof. intros Hh Hl. unfold dump_tf. prog_step. by apply dump_prints. Qed.

Lemma dump_bg_desc_run p l s : hart_ok (the_hart s) → free_lock (m_printk_lk s) →
  ∃ s', dump_bg_desc p l s = Ret tt s' ∧ printed (calls_text (bg_desc_lines p l)) s s'.
Proof. intros Hh Hl. by apply dump_prints. Qed.

Lemma dump_ext2_inode_run p l s : hart_ok (the_hart s) → free_lock (m_printk_lk s) →
  ∃ s', dump_ext2_inode p l s = Ret tt s' ∧ printed (calls_text (ext2_inode_lines p l)) s s'.
Proof. intros Hh Hl. by apply dump_prints. Qed.

(** A line with one string, which must have its NUL. *)
Lemma string_line pre (d : list Z) : Forall (λ c, c ≠ 0 ∧ c ≠ 37) pre → (∃ i, d !! i = Some 0) →
  printable (pre ++ [37; 115; 10], [Str (Some d)]) = true.
Proof.
  intros Hp (i & E). unfold printable. cbn [fst snd]. apply andb_true_iff. split.
  - apply bool_decide_eq_true, Forall_app. split; [|by repeat constructor]. eapply Forall_impl; [exact Hp|]. by intros ? [? ?].
  - apply bool_decide_eq_true. destruct (list_find_elem_of (λ c, c = 0) d 0) as [[j x] Hj]; [by eapply list_elem_of_lookup_2|done|].
    induction Hp as [|c pre [_ Hc] _ IH].
    + exists [Field (take j d) (drop (S j) d); Lit 10]. cbn. by rewrite Hj.
    + destruct IH as [ps IH]. exists (Lit c :: ps). cbn [app pieces]. rewrite (proj2 (Z.eqb_neq c 37) Hc). cbn [negb]. by rewrite IH.
Qed.

(** The name the disk was mounted under last is printed up to its NUL. *)
Lemma dump_superblock_run p l s : (∃ i, (136 <= i)%nat ∧ l !! i = Some 0) → hart_ok (the_hart s) → free_lock (m_printk_lk s) →
  ∃ s', dump_superblock p l s = Ret tt s' ∧ printed (calls_text (superblock_lines p l)) s s'.
Proof.
  intros (i & Hi & E) Hh Hl. apply dump_prints; [|done|done].
  pose proof (string_line (chars "s_last_mounted: ") (drop 136 l) ltac:(by repeat constructor)) as Hs.
  unfold superblock_lines. change (offset_of CStruct.ext2_superblock "s_last_mounted") with 136%nat.
  cbn [forallb]. repeat (apply andb_true_iff; split); try reflexivity. apply Hs. exists (i - 136)%nat.
  rewrite lookup_drop. by replace (136 + (i - 136))%nat with i by lia.
Qed.

Lemma body_printable x : length (i_block x) = 15%nat → forallb printable (inode_body_lines x) = true.
Proof.
  intros Hx. unfold inode_body_lines. destruct x as [? ? ? ? ? ? ? ? l ? ? ? ?]. cbn [i_block] in *.
  do 15 (destruct l as [|? l]; [done|]). by destruct l.
Qed.

(** An inode of the table. Without one, the lines that need none are printed
    and then NULL is dereferenced. *)
Lemma dump_inode_run p i x s : itable (k_fs (m_k s)) !! i = Some x → length (i_block x) = 15%nat →
  hart_ok (the_hart s) → free_lock (m_printk_lk s) →
  ∃ s', dump_inode p (Some i) s = Ret tt s' ∧ printed (calls_text (inode_head_lines p) ++ calls_text (inode_body_lines x)) s s'.
Proof.
  intros E Hx Hh Hl. unfold dump_inode. rewrite decide_False by done. prog_step.
  destruct (dump_prints (inode_head_lines p) s) as (s1 & E1 & P1); [done..|].
  destruct (dump_prints (inode_body_lines x) s1) as (s2 & E2 & P2); [by apply body_printable|by eapply printed_ok|apply P1|].
  exists s2. split; [|exact (printed_trans _ _ _ _ _ P1 P2)]. rewrite (pbind_ok _ _ _ _ _ E1).
  assert (Ei : zoom of_k (zoom of_kfs (ino_at i)) s1 = Ret x s1).
  { assert (Eq := f_equal (λ y, itable (k_fs y.1.1.1.1.1)) (pr_rest _ _ _ P1)). cbn in Eq.
    assert (Ha : ino_at i (lget of_kfs (lget of_k s1)) = Ret x (lget of_kfs (lget of_k s1))) by (unfold ino_at; cbn; by rewrite Eq, E).
    rewrite (zoom_ok of_k _ s1 _ _ (zoom_ok of_kfs _ _ _ _ Ha)). clear. destruct s1 as [k ? ? ? ? ? ? ? ? ? ?].
    by destruct k as [[[] ? ? ? ?] ? ? ? ? ? ? ? ? ? ? ? ? ?]. }
  by rewrite (pbind_ok _ _ _ _ _ Ei).
Qed.

Lemma dump_null_inode p s : hart_ok (the_hart s) → free_lock (m_printk_lk s) → dump_inode p None s = Fault "NULL inode".
Proof.
  intros Hh Hl. unfold dump_inode. rewrite decide_True by done.
  destruct (dump_prints [(line "dump inode???????????????", [])] s) as (s1 & E1 & P1); [done..|].
  destruct (dump_prints (inode_head_lines p) s1) as (s2 & E2 & _); [done|by eapply printed_ok|apply P1|].
  by rewrite (pbind_ok _ _ _ _ _ E1), (pbind_ok _ _ _ _ _ E2).
Qed.

(** *** ELF files and pages *)

(** What reading a file and printing cannot touch: processes, descriptors and
    the address space. *)
Definition process_side s :=
  let k := m_k s in (procs k, ptlk k, pidlk k, nextpid k, k_cur k, k_mmu k, initproc k, k_ftable k, m_gic s, m_cdevsw s).

#[local] Instance keep_line {A} (m : prog _ A) : Keeps process_side (zoom (of_console hdr buf) m).
Proof. by apply keeps_zoom. Qed.
#[local] Instance keep_says ls : Keeps process_side (says ls).
Proof. induction ls as [|[fmt ap] ls IH]; [apply _|]. cbn [says]. keeps_tac. Qed.

#[local] Instance keep_file {A} (m : prog _ A) : Keeps process_side (zoom of_k (zoom of_kfs m)).
Proof. intros s a s'. unfold zoom. cbn [lget of_k]. destruct (m _); [intros [= _ <-]; done|done..]. Qed.

Lemma dump_elf_keeps ino eh ph : Keeps process_side (dump_elf ino eh ph).
Proof.
  assert (P : ∀ n i ph off, Keeps process_side (dump_phdrs n i ph off)).
  { induction n as [|n IH]; intros i p off; cbn [dump_phdrs]; unfold dump_phdr; [apply _|]. keeps_tac. }
  unfold dump_elf, dump_ehdr. keeps_tac.
Qed.

(** A page, byte by byte in hexadecimal. *)
Lemma dump_bytes_run n : ∀ a s, hart_ok (the_hart s) → free_lock (m_printk_lk s) →
  ∃ s', dump_bytes n a s = Ret tt s' ∧ printed ((mread (k_mem (m_k s)) a n) ≫= λ c, numeral 16 (u64 c) ++ [32]) s s'.
Proof.
  induction n as [|n IH]; intros a s Hh Hl; cbn [dump_bytes mread].
  { exists s. split; [done|by apply printed_nil]. }
  prog_step. destruct (dump_prints [(chars "%x ", [Word (rd8 (k_mem (m_k s)) a)])] s) as (s1 & E1 & P1); [done..|].
  destruct (IH (a + 1) s1) as (s2 & E2 & P2); [by eapply printed_ok|apply P1|].
  exists s2. split; [by rewrite (pbind_ok _ _ _ _ _ E1)|]. rewrite bind_cons.
  assert (Em : k_mem (m_k s1) = k_mem (m_k s)) by (assert (Eq := f_equal (λ y, k_mem y.1.1.1.1.1) (pr_rest _ _ _ P1)); exact Eq).
  assert (Et : calls_text [(chars "%x ", [Word (rd8 (k_mem (m_k s)) a)])] = numeral 16 (u64 (rd8 (k_mem (m_k s)) a)) ++ [32])
    by (unfold calls_text; by rewrite bind_cons, app_nil_r).
  rewrite Em in P2. rewrite <- Et.
  exact (printed_trans _ _ _ _ _ P1 P2).
Qed.

(** The kernel stack of a process. *)
Lemma dump_kstack_run i p s : procs (m_k s) !! i = Some p → hart_ok (the_hart s) → free_lock (m_printk_lk s) →
  ∃ s', dump_kstack i s = Ret tt s' ∧
    printed (mread (k_mem (m_k s)) (p_kstack p) (Z.to_nat PAGESIZE) ≫= λ c, numeral 16 (u64 c) ++ [32]) s s'.
Proof.
  intros Ep Hh Hl. destruct (dump_bytes_run (Z.to_nat PAGESIZE) (p_kstack p) s Hh Hl) as (s' & E & P). exists s'. split; [|done].
  assert (Ea : zoom of_k (proc_at i) s = Ret p s).
  { unfold zoom, proc_at. cbn [lget of_k]. rewrite Ep. by destruct s. }
  unfold dump_kstack. by rewrite (pbind_ok _ _ _ _ _ Ea).
Qed.
End dumps.

Module DumpProps.
#[local] Existing Instances GicProps.gicv_gic GicProps.gicv_ok.

(** Two processes: one runs, one sleeps. *)
Definition two_procs : list proc :=
  let p st pid c name := Proc st 0 pid 0 c (Context 0 0 0) 0 None 0 0 None (replicate NOFILE None) name 0 false 0 in
  p RUNNING 1 NoChan (chars "init") :: p SLEEPING 2 (ChanProc 1) (chars "sh") :: replicate (NPROC - 2) proc_zero.
Definition two_running : machine (G := gicv) (U := pl011) :=
  put_k (put_cur (Some 0%nat) (put_procs two_procs (m_k BootProps.powered_on))) BootProps.powered_on.

Lemma dumpps_correct_witness :
  ∃ s', dumpps KERNBASE (KERNBASE + PAGESIZE) (λ _, None) (λ _, 0x40000) two_running = Ret tt s' ∧
    take 62 (sent (m_uart s')) = line "running 1 init" ++ line "sleeping 2 sh" ++ line "chan 0x40000" ++ line "cpu0 running 1 init".
Proof.
  destruct (dumpps_correct (G := gicv) (U := pl011) KERNBASE (KERNBASE + PAGESIZE) (λ _, None) (λ _, 0x40000)) with (s := two_running) as (s' & E & S & _).
  - vm_compute. repeat split; discriminate.
  - by apply (bool_decide_unpack _).
  - reflexivity.
  - reflexivity.
  - reflexivity.
  - reflexivity.
  - unfold named, two_procs. repeat constructor; apply (bool_decide_unpack _); vm_compute; exact I.
  - intros i k. unfold cpu_of. case_match; [|done]. intros [= <-]. eexists. reflexivity.
  - exists s'. split; [exact E|]. rewrite S. vm_compute. reflexivity.
Defined.
End DumpProps.
