(* ===== verification/Rpi4.v ===== *)
(** * The screen, the pins and the timer of the Raspberry Pi 4 (kernel/font.c, kernel/driver/rpi4)

    The drivers of framebuffer.c, mailbox.c, gpio.c and systimer.c are not in the
    Makefile (no header defines PERIPHERAL_BASE); font.c is. A register is named
    by its offset from the peripherals' base. Theorems: [drawchar] paints the
    pixels of the glyph and no other; [fb_init] asks for the screen it is
    configured for and takes what the firmware answers; a pin's mode is its own;
    the 64-bit time is read in two halves. *)

From S2P Require Import Prelude Mem Spinlock Irq Uart Printk.
Open Scope Z_scope.
Open Scope prog_scope.

(** ** font.c *)

Definition font_raw : list (list Z) := [
  [0x00; 0x00; 0x00; 0x00; 0x00; 0x00; 0x00; 0x00]; [0x00; 0x00; 0x00; 0x00; 0x00; 0x00; 0x00; 0x00];
  [0x00; 0x00; 0x00; 0x00; 0x00; 0x00; 0x00; 0x00]; [0x00; 0x00; 0x00; 0x00; 0x00; 0x00; 0x00; 0x00];
  [0x00; 0x00; 0x00; 0x00; 0x00; 0x00; 0x00; 0x00]; [0x00; 0x00; 0x00; 0x00; 0x00; 0x00; 0x00; 0x00];
  [0x00; 0x00; 0x00; 0x00; 0x00; 0x00; 0x00; 0x00]; [0x00; 0x00; 0x00; 0x00; 0x00; 0x00; 0x00; 0x00];
  [0x00; 0x00; 0x00; 0x00; 0x00; 0x00; 0x00; 0x00]; [0x00; 0x00; 0x00; 0x00; 0x00; 0x00; 0x00; 0x00];
  [0x00; 0x00; 0x00; 0x00; 0x00; 0x00; 0x00; 0x00]; [0x00; 0x00; 0x00; 0x00; 0x00; 0x00; 0x00; 0x00];
  [0x00; 0x00; 0x00; 0x00; 0x00; 0x00; 0x00; 0x00]; [0x00; 0x00; 0x00; 0x00; 0x00; 0x00; 0x00; 0x00];
  [0x00; 0x00; 0x00; 0x00; 0x00; 0x00; 0x00; 0x00]; [0x00; 0x00; 0x00; 0x00; 0x00; 0x00; 0x00; 0x00];
  [0x00; 0x00; 0x00; 0x00; 0x00; 0x00; 0x00; 0x00]; [0x00; 0x00; 0x00; 0x00; 0x00; 0x00; 0x00; 0x00];
  [0x00; 0x00; 0x00; 0x00; 0x00; 0x00; 0x00; 0x00]; [0x00; 0x00; 0x00; 0x00; 0x00; 0x00; 0x00; 0x00];
  [0x00; 0x00; 0x00; 0x00; 0x00; 0x00; 0x00; 0x00]; [0x00; 0x00; 0x00; 0x00; 0x00; 0x00; 0x00; 0x00];
  [0x00; 0x00; 0x00; 0x00; 0x00; 0x00; 0x00; 0x00]; [0x00; 0x00; 0x00; 0x00; 0x00; 0x00; 0x00; 0x00];
  [0x00; 0x00; 0x00; 0x00; 0x00; 0x00; 0x00; 0x00]; [0x00; 0x00; 0x00; 0x00; 0x00; 0x00; 0x00; 0x00];
  [0x00; 0x00; 0x00; 0x00; 0x00; 0x00; 0x00; 0x00]; [0x00; 0x00; 0x00; 0x00; 0x00; 0x00; 0x00; 0x00];
  [0x00; 0x00; 0x00; 0x00; 0x00; 0x00; 0x00; 0x00]; [0x00; 0x00; 0x00; 0x00; 0x00; 0x00; 0x00; 0x00];
  [0x00; 0x00; 0x00; 0x00; 0x00; 0x00; 0x00; 0x00]; [0x00; 0x00; 0x00; 0x00; 0x00; 0x00; 0x00; 0x00];
  [0x00; 0x00; 0x00; 0x00; 0x00; 0x00; 0x00; 0x00]; [0x18; 0x3c; 0x3c; 0x18; 0x18; 0x00; 0x18; 0x00];
  [0x36; 0x36; 0x00; 0x00; 0x00; 0x00; 0x00; 0x00]; [0x36; 0x36; 0x7f; 0x36; 0x7f; 0x36; 0x36; 0x00];
  [0x0c; 0x3e; 0x03; 0x1e; 0x30; 0x1f; 0x0c; 0x00]; [0x00; 0x63; 0x33; 0x18; 0x0c; 0x66; 0x63; 0x00];
  [0x1c; 0x36; 0x1c; 0x6e; 0x3b; 0x33; 0x6e; 0x00]; [0x06; 0x06; 0x03; 0x00; 0x00; 0x00; 0x00; 0x00];
  [0x18; 0x0c; 0x06; 0x06; 0x06; 0x0c; 0x18; 0x00]; [0x06; 0x0c; 0x18; 0x18; 0x18; 0x0c; 0x06; 0x00];
  [0x00; 0x66; 0x3c; 0xff; 0x3c; 0x66; 0x00; 0x00]; [0x00; 0x0c; 0x0c; 0x3f; 0x0c; 0x0c; 0x00; 0x00];
  [0x00; 0x00; 0x00; 0x00; 0x00; 0x0c; 0x0c; 0x06]; [0x00; 0x00; 0x00; 0x3f; 0x00; 0x00; 0x00; 0x00];
  [0x00; 0x00; 0x00; 0x00; 0x00; 0x0c; 0x0c; 0x00]; [0x60; 0x30; 0x18; 0x0c; 0x06; 0x03; 0x01; 0x00];
  [0x3e; 0x63; 0x73; 0x7b; 0x6f; 0x67; 0x3e; 0x00]; [0x0c; 0x0e; 0x0c; 0x0c; 0x0c; 0x0c; 0x3f; 0x00];
  [0x1e; 0x33; 0x30; 0x1c; 0x06; 0x33; 0x3f; 0x00]; [0x1e; 0x33; 0x30; 0x1c; 0x30; 0x33; 0x1e; 0x00];
  [0x38; 0x3c; 0x36; 0x33; 0x7f; 0x30; 0x78; 0x00]; [0x3f; 0x03; 0x1f; 0x30; 0x30; 0x33; 0x1e; 0x00];
  [0x1c; 0x06; 0x03; 0x1f; 0x33; 0x33; 0x1e; 0x00]; [0x3f; 0x33; 0x30; 0x18; 0x0c; 0x0c; 0x0c; 0x00];
  [0x1e; 0x33; 0x33; 0x1e; 0x33; 0x33; 0x1e; 0x00]; [0x1e; 0x33; 0x33; 0x3e; 0x30; 0x18; 0x0e; 0x00];
  [0x00; 0x0c; 0x0c; 0x00; 0x00; 0x0c; 0x0c; 0x00]; [0x00; 0x0c; 0x0c; 0x00; 0x00; 0x0c; 0x0c; 0x06];
  [0x18; 0x0c; 0x06; 0x03; 0x06; 0x0c; 0x18; 0x00]; [0x00; 0x00; 0x3f; 0x00; 0x00; 0x3f; 0x00; 0x00];
  [0x06; 0x0c; 0x18; 0x30; 0x18; 0x0c; 0x06; 0x00]; [0x1e; 0x33; 0x30; 0x18; 0x0c; 0x00; 0x0c; 0x00];
  [0x3e; 0x63; 0x7b; 0x7b; 0x7b; 0x03; 0x1e; 0x00]; [0x0c; 0x1e; 0x33; 0x33; 0x3f; 0x33; 0x33; 0x00];
  [0x3f; 0x66; 0x66; 0x3e; 0x66; 0x66; 0x3f; 0x00]; [0x3c; 0x66; 0x03; 0x03; 0x03; 0x66; 0x3c; 0x00];
  [0x1f; 0x36; 0x66; 0x66; 0x66; 0x36; 0x1f; 0x00]; [0x7f; 0x46; 0x16; 0x1e; 0x16; 0x46; 0x7f; 0x00];
  [0x7f; 0x46; 0x16; 0x1e; 0x16; 0x06; 0x0f; 0x00]; [0x3c; 0x66; 0x03; 0x03; 0x73; 0x66; 0x7c; 0x00];
  [0x33; 0x33; 0x33; 0x3f; 0x33; 0x33; 0x33; 0x00]; [0x1e; 0x0c; 0x0c; 0x0c; 0x0c; 0x0c; 0x1e; 0x00];
  [0x78; 0x30; 0x30; 0x30; 0x33; 0x33; 0x1e; 0x00]; [0x67; 0x66; 0x36; 0x1e; 0x36; 0x66; 0x67; 0x00];
  [0x0f; 0x06; 0x06; 0x06; 0x46; 0x66; 0x7f; 0x00]; [0x63; 0x77; 0x7f; 0x7f; 0x6b; 0x63; 0x63; 0x00];
  [0x63; 0x67; 0x6f; 0x7b; 0x73; 0x63; 0x63; 0x00]; [0x1c; 0x36; 0x63; 0x63; 0x63; 0x36; 0x1c; 0x00];
  [0x3f; 0x66; 0x66; 0x3e; 0x06; 0x06; 0x0f; 0x00]; [0x1e; 0x33; 0x33; 0x33; 0x3b; 0x1e; 0x38; 0x00];
  [0x3f; 0x66; 0x66; 0x3e; 0x36; 0x66; 0x67; 0x00]; [0x1e; 0x33; 0x07; 0x0e; 0x38; 0x33; 0x1e; 0x00];
  [0x3f; 0x2d; 0x0c; 0x0c; 0x0c; 0x0c; 0x1e; 0x00]; [0x33; 0x33; 0x33; 0x33; 0x33; 0x33; 0x3f; 0x00];
  [0x33; 0x33; 0x33; 0x33; 0x33; 0x1e; 0x0c; 0x00]; [0x63; 0x63; 0x63; 0x6b; 0x7f; 0x77; 0x63; 0x00];
  [0x63; 0x63; 0x36; 0x1c; 0x1c; 0x36; 0x63; 0x00]; [0x33; 0x33; 0x33; 0x1e; 0x0c; 0x0c; 0x1e; 0x00];
  [0x7f; 0x63; 0x31; 0x18; 0x4c; 0x66; 0x7f; 0x00]; [0x1e; 0x06; 0x06; 0x06; 0x06; 0x06; 0x1e; 0x00];
  [0x03; 0x06; 0x0c; 0x18; 0x30; 0x60; 0x40; 0x00]; [0x1e; 0x18; 0x18; 0x18; 0x18; 0x18; 0x1e; 0x00];
  [0x08; 0x1c; 0x36; 0x63; 0x00; 0x00; 0x00; 0x00]; [0x00; 0x00; 0x00; 0x00; 0x00; 0x00; 0x00; 0xff];
  [0x0c; 0x0c; 0x18; 0x00; 0x00; 0x00; 0x00; 0x00]; [0x00; 0x00; 0x1e; 0x30; 0x3e; 0x33; 0x6e; 0x00];
  [0x07; 0x06; 0x06; 0x3e; 0x66; 0x66; 0x3b; 0x00]; [0x00; 0x00; 0x1e; 0x33; 0x03; 0x33; 0x1e; 0x00];
  [0x38; 0x30; 0x30; 0x3e; 0x33; 0x33; 0x6e; 0x00]; [0x00; 0x00; 0x1e; 0x33; 0x3f; 0x03; 0x1e; 0x00];
  [0x1c; 0x36; 0x06; 0x0f; 0x06; 0x06; 0x0f; 0x00]; [0x00; 0x00; 0x6e; 0x33; 0x33; 0x3e; 0x30; 0x1f];
  [0x07; 0x06; 0x36; 0x6e; 0x66; 0x66; 0x67; 0x00]; [0x0c; 0x00; 0x0e; 0x0c; 0x0c; 0x0c; 0x1e; 0x00];
  [0x30; 0x00; 0x30; 0x30; 0x30; 0x33; 0x33; 0x1e]; [0x07; 0x06; 0x66; 0x36; 0x1e; 0x36; 0x67; 0x00];
  [0x0e; 0x0c; 0x0c; 0x0c; 0x0c; 0x0c; 0x1e; 0x00]; [0x00; 0x00; 0x33; 0x7f; 0x7f; 0x6b; 0x63; 0x00];
  [0x00; 0x00; 0x1f; 0x33; 0x33; 0x33; 0x33; 0x00]; [0x00; 0x00; 0x1e; 0x33; 0x33; 0x33; 0x1e; 0x00];
  [0x00; 0x00; 0x3b; 0x66; 0x66; 0x3e; 0x06; 0x0f]; [0x00; 0x00; 0x6e; 0x33; 0x33; 0x3e; 0x30; 0x78];
  [0x00; 0x00; 0x3b; 0x6e; 0x66; 0x06; 0x0f; 0x00]; [0x00; 0x00; 0x3e; 0x03; 0x1e; 0x30; 0x1f; 0x00];
  [0x08; 0x0c; 0x3e; 0x0c; 0x0c; 0x2c; 0x18; 0x00]; [0x00; 0x00; 0x33; 0x33; 0x33; 0x33; 0x6e; 0x00];
  [0x00; 0x00; 0x33; 0x33; 0x33; 0x1e; 0x0c; 0x00]; [0x00; 0x00; 0x63; 0x6b; 0x7f; 0x7f; 0x36; 0x00];
  [0x00; 0x00; 0x63; 0x36; 0x1c; 0x36; 0x63; 0x00]; [0x00; 0x00; 0x33; 0x33; 0x33; 0x3e; 0x30; 0x1f];
  [0x00; 0x00; 0x3f; 0x19; 0x0c; 0x26; 0x3f; 0x00]; [0x38; 0x0c; 0x0c; 0x07; 0x0c; 0x0c; 0x38; 0x00];
  [0x18; 0x18; 0x18; 0x00; 0x18; 0x18; 0x18; 0x00]; [0x07; 0x0c; 0x0c; 0x38; 0x0c; 0x0c; 0x07; 0x00];
  [0x6e; 0x3b; 0x00; 0x00; 0x00; 0x00; 0x00; 0x00]; [0x00; 0x00; 0x00; 0x00; 0x00; 0x00; 0x00; 0x00]
].

(** A row of a glyph is a byte, its lowest bit the leftmost pixel. *)
Record font := Font { f_data : list (list Z); f_w : Z; f_h : Z }.
Definition font_init : font := Font font_raw 8 8.

(** ** framebuffer.c *)

Record framebuffer := Fb {
  phy_w : Z; phy_h : Z; fb_w : Z; fb_h : Z; pitch : Z; depth : Z; off_x : Z; off_y : Z; fb_buf : Z; nbuf : Z
}.
Definition display_fb : framebuffer := Fb 1920 1080 1440 810 0 16 0 0 0 0.

(** A [u32] is the offset, so that it wraps. *)
Definition drawpxl (fb : framebuffer) (x y c : Z) : prog mem unit :=
  let off := u32 (y * pitch fb + x * Z.shiftr (depth fb) 3) in
  modify (λ m, st16 m (fb_buf fb +u64 off) c).

(** [for(int j = 0; j < font->w; j++)] of a row, from [j] on; [row] is [glyph[i]]. *)
Fixpoint draw_row (n : nat) (fb : framebuffer) (x y row j : Z) : prog mem unit :=
  match n with
  | O => ret tt
  | S n =>
      (if nz (Z.land row (Z.shiftl 1 j)) then drawpxl fb (u32 (x + j)) y 0xffff else ret tt) ;;
      draw_row n fb x y row (j + 1)
  end.

(** [for(int i = 0; i < font->h; i++)], from [i] on. *)
Fixpoint draw_rows (n : nat) (fb : framebuffer) (f : font) (x y : Z) (glyph : list Z) (i : nat) : prog mem unit :=
  match n with
  | O => ret tt
  | S n =>
      row <- match glyph !! i with Some r => ret r | None => fault "glyph[]" end ;;
      draw_row (Z.to_nat (f_w f)) fb x (u32 (y + i)) row 0 ;;
      draw_rows n fb f x y glyph (S i)
  end.

(** A [char] is from 0 to 255, and the font has 128 glyphs. *)
Definition drawchar (fb : framebuffer) (f : font) (x y c : Z) : prog mem unit :=
  glyph <- match f_data f !! Z.to_nat c with Some g => ret g | None => fault "font->data[]" end ;;
  draw_rows (Z.to_nat (f_h f)) fb f x y glyph 0.

(** ** What is painted *)

Section drawing.
Context (fb : framebuffer).

(** The address of a pixel of two bytes. *)
Definition pixel_at (p q : Z) : Z := fb_buf fb + q * pitch fb + 2 * p.
Definition in_pixel (p q a : Z) : bool := (pixel_at p q <=? a) && (a <? pixel_at p q + 2).

(** The pixels of row [row], from column [j] on, with its left end at [x]. *)
Definition row_painted (n : nat) (x y row j a : Z) : bool :=
  existsb (λ k, Z.testbit row k && in_pixel (x + k) y a) (seqZ j n).
Definition rows_painted (n : nat) (x y : Z) (glyph : list Z) (i : nat) (a : Z) : bool :=
  existsb (λ i, row_painted 8 x (y + Z.of_nat i) (default 0 (glyph !! i)) 0 a) (seq i n).

Definition painted (P : Z → bool) (m m' : mem) : Prop := ∀ a, rd8 m' a = if P a then 255 else rd8 m a.

Lemma painted_trans P Q m m' m'' : painted P m m' → painted Q m' m'' → painted (λ a, P a || Q a) m m''.
Proof. intros H1 H2 a. rewrite H2, H1. by destruct (P a), (Q a). Qed.

Lemma painted_nil m : painted (λ _, false) m m.
Proof. done. Qed.

(** Sixteen bits a pixel, and the pixels up to column [X] and row [Y] in the
    4 GB an offset reaches. *)
Record fits (X Y : Z) : Prop := {
  ft_depth : depth fb = 16;
  ft_pitch : 0 < pitch fb;
  ft_row : 2 * X <= pitch fb;
  ft_size : Y * pitch fb <= 2 ^ 32;
  ft_buf : 0 <= fb_buf fb ∧ fb_buf fb + 2 ^ 32 <= 2 ^ 64
}.

Lemma drawpxl_run X Y x y m : fits X Y → 0 <= x < X → 0 <= y < Y →
  ∃ m', drawpxl fb x y 0xffff m = Ret tt m' ∧ painted (in_pixel x y) m m'.
Proof.
  intros [D P R S B] Hx Hy. exists (st16 m (pixel_at x y) 0xffff). split.
  - unfold drawpxl. rewrite D. change (Z.shiftr 16 3) with 2. unfold modify. do 2 f_equal.
    assert (0 <= y * pitch fb + x * 2 < 2 ^ 32) by nia. rewrite u32_small by done. unfold pixel_at. rewrite u64_small; lia.
  - intros a. unfold in_pixel. destruct (Z.leb_spec (pixel_at x y) a); cbn [andb]; [|by apply rd8_st_other; lia].
    destruct (Z.ltb_spec a (pixel_at x y + 2)); [|apply rd8_st_other; lia].
    assert (a = pixel_at x y ∨ a = pixel_at x y + 1) as [->| ->] by lia;
      change (st16 m (pixel_at x y) 0xffff) with (wr8 (wr8 m (pixel_at x y) 0xffff) (pixel_at x y + 1) 0xff); rewrite !rd8_wr8; repeat case_decide; try lia; done.
Qed.

Lemma nz_bit w j : 0 <= j → nz (Z.land w (Z.shiftl 1 j)) = Z.testbit w j.
Proof.
  intros Hj. rewrite Z.shiftl_1_l. assert (E : Z.land w (2 ^ j) = if Z.testbit w j then 2 ^ j else 0).
  { apply Z.bits_inj'. intros b Hb. rewrite Z.land_spec, Z.pow2_bits_eqb by done. destruct (Z.eqb_spec j b) as [->|Hne].
    - rewrite andb_true_r. destruct (Z.testbit w b) eqn:Ew; [by rewrite Z.pow2_bits_eqb, Z.eqb_refl|by rewrite Z.bits_0].
    - rewrite andb_false_r. destruct (Z.testbit w j); [|by rewrite Z.bits_0]. rewrite Z.pow2_bits_eqb by done.
      symmetry. by apply Z.eqb_neq. }
  rewrite E. pose proof (Z.pow_pos_nonneg 2 j ltac:(lia) Hj). destruct (Z.testbit w j); [|done].
  unfold nz. destruct (Z.eqb_spec (2 ^ j) 0); [lia|done].
Qed.

Lemma draw_row_run X Y n : ∀ x y row j m, fits X Y → 0 <= x → 0 <= j → x + j + Z.of_nat n <= X → 0 <= y < Y →
  ∃ m', draw_row n fb x y row j m = Ret tt m' ∧ painted (row_painted n x y row j) m m'.
Proof.
  induction n as [|n IH]; intros x y row j m F Hx Hj Hn Hy; cbn [draw_row].
  { exists m. split; [done|]. by intros a. }
  assert (HX : x + j < 2 ^ 32).
  { destruct F as [_ P R S _]. assert (pitch fb <= 2 ^ 32) by nia. lia. }
  rewrite nz_bit by done. rewrite u32_small by lia.
  assert (Hs : ∀ a, row_painted (S n) x y row j a = (Z.testbit row j && in_pixel (x + j) y a) || row_painted n x y row (j + 1) a).
  { intros a. unfold row_painted. rewrite Nat2Z.inj_succ, seqZ_cons by lia. cbn [existsb]. by replace (Z.pred (Z.succ n)) with (Z.of_nat n) by lia. }
  assert (Hd : ∃ m1, (if Z.testbit row j then drawpxl fb (x + j) y 0xffff else ret tt)%prog m = Ret tt m1 ∧
    painted (λ a, Z.testbit row j && in_pixel (x + j) y a) m m1).
  { destruct (Z.testbit row j); [|by exists m]. apply (drawpxl_run X Y); [done|lia|done]. }
  destruct Hd as (m1 & E1 & P1). destruct (IH x y row (j + 1) m1) as (m2 & E2 & P2); [done|lia..|].
  exists m2. split; [by rewrite (pbind_ok _ _ _ _ _ E1)|]. intros a. rewrite Hs. exact (painted_trans _ _ _ _ _ P1 P2 a).
Qed.

Lemma draw_rows_run X Y n : ∀ f x y glyph i m, fits X Y → f_w f = 8 → 0 <= x → x + 8 <= X → 0 <= y → y + Z.of_nat i + Z.of_nat n <= Y →
  (i + n <= length glyph)%nat →
  ∃ m', draw_rows n fb f x y glyph i m = Ret tt m' ∧ painted (rows_painted n x y glyph i) m m'.
Proof.
  induction n as [|n IH]; intros f x y glyph i m F Hw Hx HX Hy HY Hg; cbn [draw_rows].
  { exists m. split; [done|]. by intros a. }
  assert (Y < 2 ^ 32 + 1) by (destruct F as [_ P R S _]; nia).
  destruct (lookup_lt_is_Some_2 glyph i) as [row Er]; [lia|]. rewrite Er, pbind_ret_l, Hw. rewrite u32_small by lia.
  destruct (draw_row_run X Y 8 x (y + i) row 0 m F) as (m1 & E1 & P1); [lia..|].
  destruct (IH f x y glyph (S i) m1) as (m2 & E2 & P2); [done|done|lia..|].
  exists m2. split; [by rewrite (pbind_ok _ _ _ _ _ E1)|]. intros a. unfold rows_painted. cbn [seq existsb]. rewrite Er. cbn [default id].
  exact (painted_trans _ _ _ _ _ P1 P2 a).
Qed.

Lemma pixels_apart X p q p' q' b : 0 < pitch fb → 2 * X <= pitch fb → 0 <= p < X → 0 <= p' < X → 0 <= b < 2 →
  in_pixel p' q' (pixel_at p q + b) = (p' =? p) && (q' =? q).
Proof.
  intros P R Hp Hp' Hb. unfold in_pixel, pixel_at.
  assert (H : q' < q ∨ q' = q ∨ q < q') by lia. destruct H as [H|[->|H]].
  - assert ((q' + 1) * pitch fb <= q * pitch fb) by nia. rewrite (proj2 (Z.eqb_neq q' q)) by lia. rewrite andb_false_r.
    apply andb_false_iff. right. apply Z.ltb_ge. lia.
  - rewrite Z.eqb_refl, andb_true_r. destruct (Z.eqb_spec p' p) as [->|Hne].
    + apply andb_true_iff. split; [apply Z.leb_le|apply Z.ltb_lt]; lia.
    + apply andb_false_iff. destruct (Z.lt_ge_cases p' p); [right; apply Z.ltb_ge|left; apply Z.leb_gt]; lia.
  - assert ((q + 1) * pitch fb <= q' * pitch fb) by nia. rewrite (proj2 (Z.eqb_neq q' q)) by lia. rewrite andb_false_r.
    apply andb_false_iff. left. apply Z.leb_gt. lia.
Qed.

(** The pixel at column [p] and row [q] belongs to the glyph drawn at [x] and [y]. *)
Definition lit (glyph : list Z) (x y p q : Z) : bool :=
  (x <=? p) && (p <? x + 8) && (y <=? q) && (q <? y + 8) && Z.testbit (default 0 (glyph !! Z.to_nat (q - y))) (p - x).

Lemma rows_painted_iff n x y glyph a : rows_painted n x y glyph 0 a = true ↔
  ∃ i k, 0 <= i < Z.of_nat n ∧ 0 <= k < 8 ∧ Z.testbit (default 0 (glyph !! Z.to_nat i)) k = true ∧ in_pixel (x + k) (y + i) a = true.
Proof.
  unfold rows_painted, row_painted. rewrite existsb_exists. split.
  - intros (i & Hi & (k & Hk & [T E]%andb_true_iff)%existsb_exists). apply in_seq in Hi. apply list_elem_of_In, elem_of_seqZ in Hk.
    exists (Z.of_nat i), k. rewrite Nat2Z.id. split_and!; [lia..|exact T|exact E].
  - intros (i & k & Hi & Hk & T & E). exists (Z.to_nat i). split; [apply in_seq; lia|].
    apply existsb_exists. exists k. split; [apply list_elem_of_In, elem_of_seqZ; lia|]. rewrite Z2Nat.id by lia. by rewrite T, E.
Qed.

Lemma pixel_painted X Y x y glyph p q b : fits X Y → 0 <= x → x + 8 <= X → 0 <= p < X → 0 <= b < 2 →
  rows_painted 8 x y glyph 0 (pixel_at p q + b) = lit glyph x y p q.
Proof.
  intros [_ P R _ _] Hx HX Hp Hb. apply eq_true_iff_eq. rewrite rows_painted_iff. unfold lit. rewrite !andb_true_iff, !Z.leb_le, !Z.ltb_lt. split.
  - intros (i & k & Hi & Hk & T & E). rewrite (pixels_apart X) in E by lia. apply andb_true_iff in E as [->%Z.eqb_eq%eq_sym ->%Z.eqb_eq%eq_sym].
    replace (y + i - y) with i by lia. replace (x + k - x) with k by lia. split_and!; [lia..|exact T].
  - intros ((((H1 & H2) & H3) & H4) & T). exists (q - y), (p - x). split_and!; [lia..|exact T|].
    rewrite (pixels_apart X) by lia. replace (x + (p - x)) with p by lia. replace (y + (q - y)) with q by lia. by rewrite !Z.eqb_refl.
Qed.

(** A pixel whose bytes are both painted, or neither. *)
Lemma pixel_after (P : Z → bool) m m' a (c : bool) : painted P m m' → P a = c → P (a + 1) = c → ld16 m' a = if c then 0xffff else ld16 m a.
Proof.
  intros H E0 E1. pose proof (H a) as H0. pose proof (H (a + 1)) as H1. rewrite E0 in H0. rewrite E1 in H1.
  change (ld16 m' a) with (rd8 m' a + 256 * (rd8 m' (a + 1) + 256 * 0)). change (ld16 m a) with (rd8 m a + 256 * (rd8 m (a + 1) + 256 * 0)).
  rewrite H0, H1. by destruct c.
Qed.
End drawing.

Module DisplayProps.

(** A character on the screen. With 16 bits a pixel and room for it on the
    screen, [drawchar] makes the pixels of the glyph white, each at its place,
    and leaves every other pixel of the screen as it was, and every byte that is
    not of the eight by eight pixels. A character from 128 on has no glyph: the
    array of the font is read past its end. *)
Theorem drawchar_correct fb X Y x y c glyph m :
  fits fb X Y → 0 <= x → x + 8 <= X → 0 <= y → y + 8 <= Y → font_raw !! Z.to_nat c = Some glyph →
  ∃ m', drawchar fb font_init x y c m = Ret tt m' ∧
    (∀ p q, 0 <= p < X → 0 <= q < Y →
       ld16 m' (pixel_at fb p q) = if lit glyph x y p q then 0xffff else ld16 m (pixel_at fb p q)) ∧
    (∀ a, (∀ p q, x <= p < x + 8 → y <= q < y + 8 → in_pixel fb p q a = false) → rd8 m' a = rd8 m a) ∧
    ∀ c', 128 <= c' → drawchar fb font_init x y c' m = Fault "font->data[]".
Proof.
  intros F Hx HX Hy HY Eg.
  assert (Hl : length glyph = 8%nat).
  { assert (H : Forall (λ g, length g = 8%nat) font_raw) by (by apply (bool_decide_unpack _)). by apply (Forall_lookup_1 _ _ _ _ H Eg). }
  destruct (draw_rows_run fb X Y 8 font_init x y glyph 0 m F) as (m' & E & P); [done|lia..|].
  exists m'. split; [|split_and!].
  - unfold drawchar. cbn [f_data font_init f_h]. by rewrite Eg, pbind_ret_l.
  - intros p q Hp Hq. apply (pixel_after _ _ _ _ _ P); [rewrite <- (Z.add_0_r (pixel_at fb p q))|]; eapply pixel_painted; eauto; lia.
  - intros a Ha. rewrite P. destruct (rows_painted _ _ _ _ _ _ _) eqn:Er; [|done].
    apply rows_painted_iff in Er as (i & k & Hi & Hk & _ & Ek). rewrite Ha in Ek by lia. done.
  - intros c' Hc. unfold drawchar. cbn [f_data font_init]. rewrite lookup_ge_None_2; [done|]. change (length font_raw) with 128%nat. lia.
Qed.

(** An [A] in the corner of a screen of 1440 by 810. *)
Definition screen : framebuffer := Fb 1920 1080 1440 810 2880 16 0 0 0x3c100000 2332800.

Lemma drawchar_correct_witness :
  ∃ m', drawchar screen font_init 0 0 65 ∅ = Ret tt m' ∧ ld16 m' (0x3c100000 + 4) = 0xffff ∧ ld16 m' (0x3c100000 + 2) = 0.
Proof.
  destruct (drawchar_correct screen 1440 810 0 0 65 [0x0c; 0x1e; 0x33; 0x33; 0x3f; 0x33; 0x33; 0x00] ∅) as (m' & E & P & _).
  - split; [reflexivity|reflexivity|vm_compute; discriminate|vm_compute; discriminate|split; vm_compute; discriminate].
  - lia.
  - lia.
  - lia.
  - lia.
  - reflexivity.
  - exists m'. split; [exact E|]. split.
    + pose proof (P 2 0) as H. change (pixel_at screen 2 0) with (0x3c100000 + 4) in H. rewrite H by lia. reflexivity.
    + pose proof (P 1 0) as H. change (pixel_at screen 1 0) with (0x3c100000 + 2) in H. rewrite H by lia. reflexivity.
Defined.
End DisplayProps.

(** ** Registers *)

(** The peripherals; [mbox_msg] is in memory that the firmware reads and writes
    too. *)
Class Periph (D : Type) := {
  REG : Z → prog D Z;
  REG_set : Z → Z → prog D unit;
  mbox_msg : lens D (list Z)
}.

Definition MBOXBASE : Z := 0xb880.
Definition MBOX0_READ : Z := MBOXBASE + 0.
Definition MBOX0_STATUS : Z := MBOXBASE + 0x18.
Definition MBOX0_WRITE : Z := MBOXBASE + 0x20.
Definition MBOX_EMPTY : Z := 0x40000000.
Definition MBOX_FULL : Z := 0x80000000.

Definition PROP_END : Z := 0.
Definition PROP_FB_ALLOC_BUFFER : Z := 0x40001.
Definition PROP_FB_GET_PITCH : Z := 0x40008.
Definition PROP_FB_SET_PHY_WH : Z := 0x48003.
Definition PROP_FB_SET_VIRT_WH : Z := 0x48004.
Definition PROP_FB_SET_DEPTH : Z := 0x48005.

Definition GPIOBASE : Z := 0x200000.
Definition GPFSEL (n : Z) : Z := GPIOBASE + 0x4 * n.
Definition GPSET (n : Z) : Z := GPIOBASE + 0x1c + 0x4 * n.
Definition GPCLR (n : Z) : Z := GPIOBASE + 0x28 + 0x4 * n.

Definition SYSTIMER_BASE : Z := 0x3000.
Definition SYSTIMER_CLO : Z := SYSTIMER_BASE + 0x4.
Definition SYSTIMER_CHI : Z := SYSTIMER_BASE + 0x8.

Section drivers.
Context {D : Type} {HD : Periph D}.

(** *** mailbox.c *)

(** [while(REG(MBOX0_STATUS) & flag) {}] *)
Fixpoint wait_status (fuel : nat) (flag : Z) : prog D unit :=
  match fuel with
  | O => λ _, Hang
  | S fuel => w <- REG MBOX0_STATUS ;; if nz (Z.land w flag) then wait_status fuel flag else ret tt
  end.

(** [turns] for the words of other channels. *)
Fixpoint mbox_read (turns fuel : nat) (ch : Z) : prog D Z :=
  match turns with
  | O => λ _, Hang
  | S turns =>
      wait_status fuel MBOX_EMPTY ;;
      r <- REG MBOX0_READ ;;
      if Z.land r 0xf =? u32 ch then ret r else mbox_read turns fuel ch
  end.

Definition mbox_write (fuel : nat) (ch data : Z) : prog D unit :=
  wait_status fuel MBOX_FULL ;;
  REG_set MBOX0_WRITE (Z.lor (Z.land data (Z.lnot 0xf)) (Z.land ch 0xf)).

(** *** fb_init *)

(** The 26 words stored in [mbox_msg]. *)
Definition fb_request (fb : framebuffer) : list Z := [
  104; 0;
  PROP_FB_SET_PHY_WH; 8; 0; phy_w fb; phy_h fb;
  PROP_FB_SET_VIRT_WH; 8; 0; fb_w fb; fb_h fb;
  PROP_FB_SET_DEPTH; 4; 0; depth fb;
  PROP_FB_GET_PITCH; 4; 0; 0;
  PROP_FB_ALLOC_BUFFER; 8; 0; 16; 0;
  PROP_END].

(** The screen after the answer [m]. *)
Definition fb_answer (fb : framebuffer) (m : list Z) : framebuffer :=
  let w i := default 0 (m !! i) in
  Fb (w 5%nat) (w 6%nat) (w 10%nat) (w 11%nat) (w 19%nat) (w 15%nat) (off_x fb) (off_y fb) (Z.land (w 23%nat) 0x3fffffff) (w 24%nat).

Definition of_fb : lens (framebuffer * D) framebuffer := Lens fst (λ f s, (f, snd s)).
Definition of_periph : lens (framebuffer * D) D := Lens snd (λ d s, (fst s, d)).

(** [msg] is the address of [mbox_msg]. *)
Definition fb_init (turns fuel : nat) (msg : Z) : prog (framebuffer * D) unit :=
  fb <- gets fst ;;
  zoom of_periph (modify (lset mbox_msg (fb_request fb))) ;;
  zoom of_periph (mbox_write fuel 8 (u32 msg)) ;;
  _ <- zoom of_periph (mbox_read turns fuel 8) ;;
  m <- gets (λ s, lget mbox_msg (snd s)) ;;
  zoom of_fb (modify (λ fb, fb_answer fb m)).

(** *** gpio.c *)

(** [pin / 32] and [pin % 32] truncate; a negative shift is undefined. *)
Definition bit_of (n : Z) : prog D Z := if n <? 0 then fault "negative shift" else ret (u32 (Z.shiftl 1 n)).

Definition gpio_set (pin : Z) : prog D unit :=
  b <- bit_of (Z.rem pin 32) ;;
  w <- REG (GPSET (Z.quot pin 32)) ;;
  REG_set (GPSET (Z.quot pin 32)) (Z.lor w b).

Definition gpio_clr (pin : Z) : prog D unit :=
  b <- bit_of (Z.rem pin 32) ;;
  w <- REG (GPCLR (Z.quot pin 32)) ;;
  REG_set (GPCLR (Z.quot pin 32)) (Z.lor w b).

Definition set_pinmode (pin mode : Z) : prog D unit :=
  let ch := Z.quot pin 10 in let n := Z.rem pin 10 * 3 in
  (if n <? 0 then fault "negative shift" else ret tt) ;;
  w <- REG (GPFSEL ch) ;;
  REG_set (GPFSEL ch) (Z.land w (u32 (Z.lnot (Z.shiftl 7 n)))) ;;
  w <- REG (GPFSEL ch) ;;
  REG_set (GPFSEL ch) (Z.lor w (u32 (Z.shiftl mode n))).

(** *** systimer.c *)

Definition systime : prog D Z :=
  lo <- REG SYSTIMER_CLO ;;
  hi <- REG SYSTIMER_CHI ;;
  ret (Z.lor (u64 (Z.shiftl hi 32)) lo).

(** [while(systime() < s) {}] *)
Fixpoint sleep_until (fuel : nat) (t : Z) : prog D unit :=
  match fuel with
  | O => λ _, Hang
  | S fuel => now <- systime ;; if now <? t then sleep_until fuel t else ret tt
  end.

(** The product is computed in 32 bits. *)
Definition sleep (fuel : nat) (sec : Z) : prog D unit :=
  now <- systime ;;
  sleep_until fuel (now +u64 u32 (u32 (sec * 1000) * 1000)).
End drivers.

(** ** Peripherals that follow the documentation *)

Section board.
(** What the firmware makes of a request. *)
Context (answer : list Z → list Z).

(** [b_busy] and [b_lag]: for how many more reads of the status the mailbox is
    full, and without a word to read; [b_skew]: how far the clock runs from one
    read to the next; [b_set] has the level of each pin. *)
Record board := Board {
  b_msg : list Z; b_busy : nat; b_lag : nat; b_inbox : list Z;
  b_fsel : Z → Z; b_set : Z → bool; b_clock : Z; b_skew : Z
}.

Definition pass_time (b : board) : board :=
  Board (b_msg b) (pred (b_busy b)) (pred (b_lag b)) (b_inbox b) (b_fsel b) (b_set b) (b_clock b + b_skew b) (b_skew b).

Definition status (b : board) : Z :=
  Z.lor (match b_busy b with O => 0 | _ => MBOX_FULL end)
        (match b_lag b, b_inbox b with O, _ :: _ => 0 | _, _ => MBOX_EMPTY end).

Definition board_read (a : Z) : prog board Z := λ b,
  if a =? MBOX0_STATUS then Ret (status b) (pass_time b)
  else if a =? MBOX0_READ then
    match b_inbox b with
    | w :: l => Ret w (Board (b_msg b) (b_busy b) (b_lag b) l (b_fsel b) (b_set b) (b_clock b) (b_skew b))
    | [] => Ret 0 b
    end
  else if a =? SYSTIMER_CLO then Ret (b_clock b mod 2 ^ 32) (pass_time b)
  else if a =? SYSTIMER_CHI then Ret (b_clock b / 2 ^ 32 mod 2 ^ 32) (pass_time b)
  else if (GPFSEL 0 <=? a) && (a <? GPFSEL 6) then Ret (b_fsel b ((a - GPIOBASE) / 4)) b
  else Ret 0 b.

(** A request on channel 8 is answered in place and its word sent back; a 1
    written to a set or clear register sets or clears that pin. *)
Definition board_write (a v : Z) : prog board unit := λ b,
  if a =? MBOX0_WRITE then
    if Z.land v 0xf =? 8 then
      Ret tt (Board (answer (b_msg b)) (b_busy b) (b_lag b) (b_inbox b ++ [v]) (b_fsel b) (b_set b) (b_clock b) (b_skew b))
    else Ret tt b
  else if (GPFSEL 0 <=? a) && (a <? GPFSEL 6) then
    Ret tt (Board (b_msg b) (b_busy b) (b_lag b) (b_inbox b) (λ i, if i =? (a - GPIOBASE) / 4 then v else b_fsel b i) (b_set b) (b_clock b) (b_skew b))
  else if (GPSET 0 <=? a) && (a <? GPSET 2) then
    Ret tt (Board (b_msg b) (b_busy b) (b_lag b) (b_inbox b) (b_fsel b)
              (λ p, (Z.testbit v (p mod 32) && (p / 32 =? (a - GPSET 0) / 4)) || b_set b p) (b_clock b) (b_skew b))
  else if (GPCLR 0 <=? a) && (a <? GPCLR 2) then
    Ret tt (Board (b_msg b) (b_busy b) (b_lag b) (b_inbox b) (b_fsel b)
              (λ p, negb (Z.testbit v (p mod 32) && (p / 32 =? (a - GPCLR 0) / 4)) && b_set b p) (b_clock b) (b_skew b))
  else Ret tt b.

#[local] Instance board_periph : Periph board := {|
  REG := board_read; REG_set := board_write;
  mbox_msg := Lens b_msg (λ m b, Board m (b_busy b) (b_lag b) (b_inbox b) (b_fsel b) (b_set b) (b_clock b) (b_skew b))
|}.

Implicit Types (b : board).

Lemma status_full b : nz (Z.land (status b) MBOX_FULL) = negb (b_busy b =? 0)%nat.
Proof. unfold status. by destruct (b_busy b), (b_lag b), (b_inbox b). Qed.

Lemma status_empty b : nz (Z.land (status b) MBOX_EMPTY) = match b_lag b, b_inbox b with O, _ :: _ => false | _, _ => true end.
Proof. unfold status. by destruct (b_busy b), (b_lag b), (b_inbox b). Qed.

Lemma wait_full fuel : ∀ b, (b_busy b < fuel)%nat → ∃ b', wait_status fuel MBOX_FULL b = Ret tt b' ∧
  b_msg b' = b_msg b ∧ b_inbox b' = b_inbox b ∧ (b_lag b' <= b_lag b)%nat.
Proof.
  induction fuel as [|fuel IH]; intros b Hf; [lia|]. cbn [wait_status].
  assert (E : REG MBOX0_STATUS b = Ret (status b) (pass_time b)) by done.
  rewrite (pbind_ok _ _ _ _ _ E), status_full. destruct (Nat.eqb_spec (b_busy b) 0) as [H|H]; cbn [negb].
  - exists (pass_time b). split_and!; [done..|cbn; lia].
  - destruct (IH (pass_time b)) as (b' & E' & H1 & H2 & H3); [cbn; lia|]. exists b'. split_and!; [done..|cbn in H3; lia].
Qed.

Lemma wait_word fuel w l : ∀ b, (b_lag b < fuel)%nat → b_inbox b = w :: l → ∃ b', wait_status fuel MBOX_EMPTY b = Ret tt b' ∧
  b_msg b' = b_msg b ∧ b_inbox b' = w :: l ∧ b_lag b' = O.
Proof.
  induction fuel as [|fuel IH]; intros b Hf Hi; [lia|]. cbn [wait_status].
  assert (E : REG MBOX0_STATUS b = Ret (status b) (pass_time b)) by done.
  rewrite (pbind_ok _ _ _ _ _ E), status_empty, Hi. destruct (b_lag b) as [|n] eqn:El.
  - exists (pass_time b). split_and!; [done..|cbn; by rewrite El].
  - destruct (IH (pass_time b)) as (b' & E' & H1 & H2 & H3); [cbn; rewrite El; cbn; lia|done|]. by exists b'.
Qed.

(** Words of other channels are read and dropped. *)
Lemma mbox_read_run fuel w l : Z.land w 0xf = 8 → ∀ others turns b, Forall (λ v, Z.land v 0xf ≠ 8) others →
  (length others < turns)%nat → (b_lag b < fuel)%nat → b_inbox b = others ++ w :: l →
  ∃ b', mbox_read turns fuel 8 b = Ret w b' ∧ b_msg b' = b_msg b ∧ b_inbox b' = l.
Proof.
  intros Hw. induction others as [|v others IH]; intros [|turns] b Ho Ht Hf Hi; cbn [length app] in *; try lia; cbn [mbox_read].
  - destruct (wait_word fuel w l b Hf Hi) as (b1 & E1 & M1 & I1 & L1). rewrite (pbind_ok _ _ _ _ _ E1).
    set (b2 := Board (b_msg b1) (b_busy b1) (b_lag b1) l (b_fsel b1) (b_set b1) (b_clock b1) (b_skew b1)).
    assert (E2 : REG MBOX0_READ b1 = Ret w b2) by (change (REG MBOX0_READ b1) with (board_read MBOX0_READ b1); unfold board_read; by rewrite I1).
    rewrite (pbind_ok _ _ _ _ _ E2), Hw. exists b2. by split_and!.
  - destruct (wait_word fuel v (others ++ w :: l) b Hf Hi) as (b1 & E1 & M1 & I1 & L1). rewrite (pbind_ok _ _ _ _ _ E1).
    set (b2 := Board (b_msg b1) (b_busy b1) (b_lag b1) (others ++ w :: l) (b_fsel b1) (b_set b1) (b_clock b1) (b_skew b1)).
    assert (E2 : REG MBOX0_READ b1 = Ret v b2) by (change (REG MBOX0_READ b1) with (board_read MBOX0_READ b1); unfold board_read; by rewrite I1).
    rewrite (pbind_ok _ _ _ _ _ E2). apply Forall_cons in Ho as [Hv Ho]. change (u32 8) with 8. rewrite (proj2 (Z.eqb_neq _ _) Hv).
    destruct (IH turns b2) as (b3 & E3 & M3 & I3); [done|lia|cbn; rewrite L1; lia|done|]. exists b3. by rewrite M3, <- M1.
Qed.

(** [fb_init] asks for the screen [fb] describes, with the words the firmware
    expects; takes size, depth, line length and the address of the pixels from
    its answer, the address without the two bits of the bus; and drops the words
    that wait for other channels. *)
Theorem fb_init_correct turns fuel msg fb b :
  (b_busy b < fuel)%nat → (b_lag b < fuel)%nat → (length (b_inbox b) < turns)%nat → Forall (λ v, Z.land v 0xf ≠ 8) (b_inbox b) →
  ∃ b', fb_init turns fuel msg (fb, b) = Ret tt (fb_answer fb (answer (fb_request fb)), b') ∧
    b_msg b' = answer (fb_request fb) ∧ b_inbox b' = [] ∧ 0 <= fb_buf (fb_answer fb (answer (fb_request fb))) < 2 ^ 30.
Proof.
  intros Hb Hl Ht Ho. set (b0 := lset mbox_msg (fb_request fb) b).
  destruct (wait_full fuel b0 Hb) as (b1 & E1 & M1 & I1 & L1).
  set (w := Z.lor (Z.land (u32 msg) (Z.lnot 0xf)) (Z.land 8 0xf)).
  assert (Hw : Z.land w 0xf = 8).
  { unfold w. apply Z.bits_inj'. intros k Hk. rewrite Z.land_spec, Z.lor_spec, Z.land_spec, Z.lnot_spec by done.
    change (Z.land 8 0xf) with 8. destruct (Z.testbit 0xf k) eqn:E; cbn [negb]; rewrite ?andb_false_r, ?andb_true_r; [done|].
    destruct (Z.lt_ge_cases k 4); [exfalso|by rewrite (Z.bits_above_log2 8 k) by (cbn; lia)].
    assert (k = 0 ∨ k = 1 ∨ k = 2 ∨ k = 3) as [->|[->|[->| ->]]] by lia; done. }
  set (b2 := Board (answer (b_msg b1)) (b_busy b1) (b_lag b1) (b_inbox b1 ++ [w]) (b_fsel b1) (b_set b1) (b_clock b1) (b_skew b1)).
  assert (E2 : mbox_write fuel 8 (u32 msg) b0 = Ret tt b2).
  { unfold mbox_write. rewrite (pbind_ok _ _ _ _ _ E1). fold w. change (REG_set MBOX0_WRITE w b1) with (board_write MBOX0_WRITE w b1).
    unfold board_write. by rewrite Z.eqb_refl, Hw. }
  destruct (mbox_read_run fuel w [] Hw (b_inbox b) turns b2) as (b3 & E3 & M3 & I3); [done|done|cbn in *; lia|cbn; by rewrite I1|].
  exists b3. assert (Em : b_msg b3 = answer (fb_request fb)) by (rewrite M3; cbn; by rewrite M1). split_and!; [|done|done| |].
  - unfold fb_init. prog_step. rewrite (pbind_ok _ _ _ _ _ (zoom_ok of_periph _ (fb, b) tt b0 eq_refl)).
    rewrite (pbind_ok _ _ _ _ _ (zoom_ok of_periph _ (fb, b0) _ _ E2)), (pbind_ok _ _ _ _ _ (zoom_ok of_periph _ (fb, b2) _ _ E3)).
    prog_step. unfold zoom, modify. cbn. by rewrite Em.
  - apply Z.land_nonneg. right. lia.
  - cbn [fb_answer fb_buf]. change 0x3fffffff with (Z.ones 30). rewrite Z.land_ones by lia. apply Z.mod_pos_bound. lia.
Qed.

(** *** Pins *)

(** The three bits of pin [q]. *)
Definition mode_of b (q : Z) : Z := Z.land (Z.shiftr (b_fsel b (q / 10)) (q mod 10 * 3)) (Z.ones 3).

Lemma field_bit w n k : 0 <= n → 0 <= k → Z.testbit (Z.land (Z.shiftr w n) (Z.ones 3)) k = (k <? 3) && Z.testbit w (n + k).
Proof. intros Hn Hk. rewrite Z.land_spec, Z.shiftr_spec, Z.testbit_ones_nonneg, andb_comm, (Z.add_comm k n) by lia. done. Qed.

Lemma mode_word w mode n q : 0 <= mode < 8 → 0 <= n < 30 → n mod 3 = 0 → 0 <= q < 30 → q mod 3 = 0 →
  Z.land (Z.shiftr (Z.lor (Z.land w (u32 (Z.lnot (Z.shiftl 7 n)))) (u32 (Z.shiftl mode n))) q) (Z.ones 3) =
  if decide (q = n) then mode else Z.land (Z.shiftr w q) (Z.ones 3).
Proof.
  intros Hm Hn Dn Hq Dq. apply Z.bits_inj'. intros k Hk. rewrite field_bit by lia.
  assert (H7 : ∀ j, Z.testbit 7 j = (0 <=? j) && (j <? 3)).
  { intros j. change 7 with (Z.ones 3). destruct (Z.leb_spec 0 j); [by rewrite Z.testbit_ones_nonneg by lia|by rewrite Z.testbit_neg_r]. }
  assert (Hhi : ∀ j, 3 <= j → Z.testbit mode j = false).
  { intros j Hj. destruct (Z.eq_dec mode 0) as [->|]; [apply Z.bits_0|]. apply Z.bits_above_log2; [lia|].
    assert (Z.log2 mode < 3); [|lia]. apply Z.log2_lt_pow2; lia. }
  destruct (Z.ltb_spec k 3) as [H3|H3]; cbn [andb].
  - rewrite Z.lor_spec, Z.land_spec. unfold u32. rewrite !Z.mod_pow2_bits_low by lia. rewrite Z.lnot_spec, !Z.shiftl_spec, H7 by lia.
    case_decide as E.
    + subst q. replace (n + k - n) with k by lia. rewrite (proj2 (Z.leb_le 0 k)), (proj2 (Z.ltb_lt k 3)) by lia. by rewrite andb_false_r.
    + rewrite field_bit, (proj2 (Z.ltb_lt k 3)) by lia. cbn [andb].
      assert (F : q + k - n < 0 ∨ 3 <= q + k - n) by zlia. destruct F as [F|F].
      * rewrite (proj2 (Z.leb_gt 0 _)) by lia. cbn [andb negb]. by rewrite andb_true_r, (Z.testbit_neg_r mode), orb_false_r by lia.
      * rewrite (proj2 (Z.ltb_ge _ 3)) by lia. rewrite andb_false_r. cbn [negb]. by rewrite andb_true_r, Hhi, orb_false_r by lia.
  - case_decide; [symmetry; by apply Hhi|]. rewrite field_bit by lia. by rewrite (proj2 (Z.ltb_ge k 3)) by lia.
Qed.

(** A pin's mode becomes the one asked for, and no other pin's changes. *)
Theorem set_pinmode_correct pin mode b : 0 <= pin < 60 → 0 <= mode < 8 →
  ∃ b', set_pinmode pin mode b = Ret tt b' ∧ b_set b' = b_set b ∧
    ∀ q, 0 <= q < 60 → mode_of b' q = if decide (q = pin) then mode else mode_of b q.
Proof.
  intros Hp Hm. unfold set_pinmode. rewrite Z.quot_div_nonneg, Z.rem_mod_nonneg by lia.
  set (ch := pin / 10). set (n := pin mod 10 * 3).
  assert (Hch : 0 <= ch < 6) by (unfold ch; zlia). assert (Hn : 0 <= n < 30 ∧ n mod 3 = 0) by (unfold n; zlia).
  assert (Hoff : ∀ w b, REG_set (GPFSEL ch) w b = Ret tt (Board (b_msg b) (b_busy b) (b_lag b) (b_inbox b)
    (λ i, if i =? ch then w else b_fsel b i) (b_set b) (b_clock b) (b_skew b)) ∧ REG (GPFSEL ch) b = Ret (b_fsel b ch) b).
  { intros w b0. assert (Hd : (GPFSEL ch - GPIOBASE) / 4 = ch) by (unfold GPFSEL; zlia).
    assert (Hr : (GPFSEL 0 <=? GPFSEL ch) && (GPFSEL ch <? GPFSEL 6) = true).
    { unfold GPFSEL. apply andb_true_iff. split; [apply Z.leb_le|apply Z.ltb_lt]; lia. }
    change (REG_set (GPFSEL ch) w b0) with (board_write (GPFSEL ch) w b0). change (REG (GPFSEL ch) b0) with (board_read (GPFSEL ch) b0).
    unfold board_write, board_read. rewrite Hr, Hd.
    assert (Hne : ∀ o, o < GPFSEL 0 → (GPFSEL ch =? o) = false) by (intros o Ho; apply Z.eqb_neq; unfold GPFSEL in *; lia).
    by rewrite !Hne by (by vm_compute). }
  rewrite (proj2 (Z.ltb_ge n 0)), pbind_ret_l by lia. rewrite (pbind_ok _ _ _ _ _ (proj2 (Hoff 0 b))).
  rewrite (pbind_ok _ _ _ _ _ (proj1 (Hoff _ b))), (pbind_ok _ _ _ _ _ (proj2 (Hoff 0 _))). cbn [b_fsel]. rewrite Z.eqb_refl.
  eexists. split; [apply Hoff|]. split; [done|]. intros q Hq. unfold mode_of. cbn [b_fsel].
  destruct (Z.eqb_spec (q / 10) ch) as [Ec|Ec].
  - rewrite mode_word by (try apply Hn; zlia). unfold n, ch in *. rewrite Ec.
    case_decide; case_decide; try done; exfalso; zlia.
  - rewrite decide_False; [done|]. intros ->. by apply Ec.
Qed.

(** A pin is set, or cleared, alone. *)
Lemma one_bit pin p : 0 <= pin → 0 <= p → Z.testbit (Z.lor 0 (u32 (Z.shiftl 1 (pin mod 32)))) (p mod 32) = (p mod 32 =? pin mod 32).
Proof.
  intros H Hp. rewrite Z.lor_0_l. unfold u32. rewrite Z.mod_pow2_bits_low, Z.shiftl_1_l, Z.pow2_bits_eqb by zlia. apply Z.eqb_sym.
Qed.

Lemma same_pin pin p : (p mod 32 =? pin mod 32) && (p / 32 =? pin / 32) = (p =? pin).
Proof.
  apply eq_true_iff_eq. rewrite andb_true_iff, !Z.eqb_eq. split; [|by intros ->]. intros [H1 H2].
  pose proof (Z.div_mod p 32). pose proof (Z.div_mod pin 32). lia.
Qed.

Theorem gpio_level_correct pin b : 0 <= pin < 64 → ∃ b' b'', gpio_set pin b = Ret tt b' ∧ gpio_clr pin b = Ret tt b'' ∧
  ∀ p, 0 <= p → b_set b' p = (p =? pin) || b_set b p ∧ b_set b'' p = negb (p =? pin) && b_set b p.
Proof.
  intros Hp. assert (Hc : 0 <= pin / 32 < 2) by zlia.
  set (w := Z.lor 0 (u32 (Z.shiftl 1 (pin mod 32)))).
  assert (S : ∀ b, REG (GPSET (pin / 32)) b = Ret 0 b ∧ REG (GPCLR (pin / 32)) b = Ret 0 b).
  { intros b0. assert (pin / 32 = 0 ∨ pin / 32 = 1) as [-> | ->] by lia; done. }
  unfold gpio_set, gpio_clr, bit_of. rewrite Z.quot_div_nonneg, Z.rem_mod_nonneg by lia.
  rewrite (proj2 (Z.ltb_ge (pin mod 32) 0)) by zlia. rewrite !pbind_ret_l.
  rewrite (pbind_ok _ _ _ _ _ (proj1 (S b))), (pbind_ok _ _ _ _ _ (proj2 (S b))). fold w.
  assert (B : ∀ p, 0 <= p → Z.testbit w (p mod 32) = (p mod 32 =? pin mod 32)) by (intros; by apply one_bit; lia).
  assert (pin / 32 = 0 ∨ pin / 32 = 1) as [E|E] by lia; rewrite E; (eexists _, _; split; [reflexivity|split; [reflexivity|]]);
    intros p Hq; cbn [b_set]; rewrite B by done; pose proof (same_pin pin p) as Sp; rewrite E in Sp.
  - change ((GPSET 0 - GPSET 0) / 4) with 0. change ((GPCLR 0 - GPCLR 0) / 4) with 0. by rewrite Sp.
  - change ((GPSET 1 - GPSET 0) / 4) with 1. change ((GPCLR 1 - GPCLR 0) / 4) with 1. by rewrite Sp.
Qed.

(** *** The time *)

(** The halves are read one after the other. If the clock does not carry into the
    upper half in between, the time is that of the first read; if it does, the
    result is up to 2^32 microseconds ahead. *)
Theorem systime_halves b : 0 <= b_clock b → 0 <= b_skew b → b_clock b + b_skew b < 2 ^ 64 →
  ∃ b' t, systime b = Ret t b' ∧ t = 2 ^ 32 * ((b_clock b + b_skew b) / 2 ^ 32) + b_clock b mod 2 ^ 32 ∧
    ((b_clock b + b_skew b) / 2 ^ 32 = b_clock b / 2 ^ 32 → t = b_clock b).
Proof.
  intros Hc Hs Hb. set (c := b_clock b) in *. set (d := b_skew b) in *.
  assert (E1 : REG SYSTIMER_CLO b = Ret (c mod 2 ^ 32) (pass_time b)) by done.
  assert (E2 : REG SYSTIMER_CHI (pass_time b) = Ret ((c + d) / 2 ^ 32 mod 2 ^ 32) (pass_time (pass_time b))) by done.
  assert (Hh : 0 <= (c + d) / 2 ^ 32 < 2 ^ 32) by (split; [apply Z.div_pos; lia|apply Z.div_lt_upper_bound; lia]).
  pose proof (Z.mod_pos_bound c (2 ^ 32) ltac:(lia)) as Hl.
  exists (pass_time (pass_time b)), (2 ^ 32 * ((c + d) / 2 ^ 32) + c mod 2 ^ 32). split_and!; [|done|].
  - unfold systime. rewrite (pbind_ok _ _ _ _ _ E1), (pbind_ok _ _ _ _ _ E2). unfold ret. f_equal.
    rewrite (Z.mod_small _ _ Hh), Z.shiftl_mul_pow2 by lia. rewrite u64_small by lia. rewrite (Z.mul_comm (2 ^ 32)).
    apply lor_disjoint_add, (land_aligned_low _ _ 32); [lia|by apply Z.mod_mul|lia].
  - intros ->. symmetry. apply Z.div_mod. lia.
Qed.
End board.
