(* ===== verification/Malloc.v ===== *)
(** * The allocator of user programs (usr/malloc.c)

    Free blocks form a ring in address order, threaded through their headers
    and closed by the static header [base].  The kernel's [sbrk] is the class
    [Sbrk]; its laws are what a process may expect of a heap that only grows. *)

From S2P Require Import Prelude Mem.
From stdpp Require Import sorting.
Open Scope Z_scope.
Open Scope prog_scope.

(** [sizeof(union memhdr)]; [ptr] is its first word and [size], in units, its second. *)
Abbreviation UNIT := 16.
Definition MINALLOC : Z := 512.

(** [sbrk(incr)], on the kernel's state and the memory of the process. *)
Class Sbrk (K : Type) := {
  sbrk : Z → prog (K * mem) Z;
  (** Where the heap ends: no byte from here on belongs to the process. *)
  brk : K → Z
}.

Class SbrkOk (K : Type) `{Sbrk K} := {
  sbrk_ok : ∀ incr k m, 0 < incr < 2 ^ 31 → 0 < brk k → brk k + incr < 2 ^ 40 → ∃ p k' m',
    sbrk incr (k, m) = Ret p (k', m') ∧ (∀ a, a < brk k → rd8 m' a = rd8 m a) ∧
    brk k <= brk k' <= brk k + incr ∧ (p = 0 ∨ p = brk k ∧ brk k' = brk k + incr)
}.

Section malloc.
Context {K : Type} {HS : Sbrk K}.

(** The memory of the process and the static variables of malloc.c. *)
Record heap := Heap { h_mem : mem; h_freep : Z; h_kern : K }.

(** The address of the variable [base]. *)
Context (base : Z).

Definition set_mem (m : mem) (s : heap) : heap := Heap m (h_freep s) (h_kern s).

(** [p->ptr], [p->size] and the assignments to them. *)
Definition ptr_of (p : Z) : prog heap Z :=
  if p =? 0 then fault "NULL header" else gets (λ s, ld64 (h_mem s) p).
Definition size_of (p : Z) : prog heap Z :=
  if p =? 0 then fault "NULL header" else gets (λ s, ld64 (h_mem s) (p + 8)).
Definition set_ptr (p v : Z) : prog heap unit :=
  if p =? 0 then fault "NULL header" else modify (λ s, set_mem (st64 (h_mem s) p v) s).
Definition set_size (p v : Z) : prog heap unit :=
  if p =? 0 then fault "NULL header" else modify (λ s, set_mem (st64 (h_mem s) (p + 8) v) s).
Definition set_freep (p : Z) : prog heap unit := modify (λ s, Heap (h_mem s) p (h_kern s)).

(** [p + n] of a [union memhdr *] *)
Definition hdr_add (p n : Z) : Z := p +u64 UNIT * n.

Definition of_kern : lens heap (K * mem) :=
  Lens (λ s, (h_kern s, h_mem s)) (λ t s, Heap t.2 (h_freep s) t.1).

(** The loop of [free]: where the block at [bp] belongs. *)
Fixpoint find_slot (fuel : nat) (bp p : Z) : prog heap Z :=
  match fuel with
  | O => λ _, Hang
  | S fuel =>
      q <- ptr_of p ;;
      if (p <? bp) && (bp <? q) then ret p
      else if (q <=? p) && ((p <? bp) || (bp <? q)) then ret p
      else find_slot fuel bp q
  end.

Definition free (fuel : nat) (ptr : Z) : prog heap unit :=
  if ptr =? 0 then ret tt else
  let bp := hdr_add ptr (-1) in
  p <- gets h_freep ;;
  p <- find_slot fuel bp p ;;
  n <- size_of bp ;;
  q <- ptr_of p ;;
  (if hdr_add bp n =? q then
     k <- size_of q ;;
     set_size bp (n +u64 k) ;;
     r <- ptr_of q ;;
     set_ptr bp r
   else set_ptr bp q) ;;
  (k <- size_of p ;;
   if hdr_add p k =? bp then
     n <- size_of bp ;;
     set_size p (k +u64 n) ;;
     r <- ptr_of bp ;;
     set_ptr p r
   else set_ptr p bp) ;;
  set_freep p.

Definition morecore (fuel : nat) (nunits : Z) : prog heap Z :=
  let nunits := if nunits <? MINALLOC then MINALLOC else nunits in
  p <- zoom of_kern (sbrk (i32 (UNIT * nunits))) ;;
  if p =? 0 then ret 0 else
  set_size p nunits ;;
  free fuel (hdr_add p 1) ;;
  gets h_freep.

(** The loop of [malloc], at [p] after [prev]. *)
Fixpoint malloc_loop (fuel : nat) (nunits prev p : Z) : prog heap Z :=
  match fuel with
  | O => λ _, Hang
  | S fuel =>
      n <- size_of p ;;
      if nunits <=? n then
        (if n =? nunits then
           q <- ptr_of p ;;
           set_ptr prev q ;;
           set_freep prev ;;
           ret (hdr_add p 1)
         else
           set_size p (n -u64 nunits) ;;
           let p' := hdr_add p (n -u64 nunits) in
           set_size p' nunits ;;
           set_freep prev ;;
           ret (hdr_add p' 1))
      else
        f <- gets h_freep ;;
        if p =? f then
          p <- morecore fuel nunits ;;
          if p =? 0 then ret 0 else
          q <- ptr_of p ;;
          malloc_loop fuel nunits p q
        else
          q <- ptr_of p ;;
          malloc_loop fuel nunits p q
  end.

Definition malloc (fuel : nat) (nbytes : Z) : prog heap Z :=
  if nbytes =? 0 then ret 0 else
  let nunits := (nbytes +u64 (UNIT - 1)) / UNIT +u64 1 in
  f <- gets h_freep ;;
  (if f =? 0 then set_freep base ;; set_ptr base base ;; set_size base 0 else ret tt) ;;
  prev <- gets h_freep ;;
  p <- ptr_of prev ;;
  malloc_loop fuel nunits prev p.
End malloc.

(** ** Free blocks *)

(** A block: its address and its size in units, the header included. *)
Abbreviation block := (Z * Z)%type.

Definition in_block (x : block) (a : Z) : Prop := x.1 <= a < x.1 + UNIT * x.2.
Definition cover (l : list block) (a : Z) : Prop := ∃ x, x ∈ l ∧ in_block x a.

(** In address order, from [lo] on and up to [top], no two of them adjacent. *)
Fixpoint spaced (lo : Z) (l : list block) (top : Z) : Prop :=
  match l with
  | [] => True
  | x :: l => lo <= x.1 ∧ 0 < x.2 ∧ x.1 + UNIT * x.2 <= top ∧ spaced (x.1 + UNIT * x.2 + 1) l top
  end.

(** What giving back a block means: it takes its place in the order and is
    joined with the neighbours it touches. *)
Definition join_hd (x : block) (l : list block) : list block :=
  match l with
  | z :: l' => if x.1 + UNIT * x.2 =? z.1 then (x.1, x.2 + z.2) :: l' else x :: l
  | [] => [x]
  end.

Fixpoint insert_block (y : block) (l : list block) : list block :=
  match l with
  | [] => [y]
  | x :: l' =>
      if y.1 <? x.1 then join_hd y l
      else if x.1 + UNIT * x.2 =? y.1 then join_hd (x.1, x.2 + y.2) l'
      else x :: insert_block y l'
  end.

Section blocks.
Implicit Types (l : list block) (x y z : block) (a lo top : Z).

Lemma cover_cons x l a : cover (x :: l) a ↔ in_block x a ∨ cover l a.
Proof.
  split.
  - intros (y & [->|Hy]%elem_of_cons & Ha); [by left|right; by exists y].
  - intros [Ha|(y & Hy & Ha)]; [exists x|exists y]; split; [constructor|done|by constructor|done].
Qed.

Lemma cover_app l1 l2 a : cover (l1 ++ l2) a ↔ cover l1 a ∨ cover l2 a.
Proof.
  unfold cover. setoid_rewrite elem_of_app. split; [intros (y & [] & ?); eauto|intros [(y & ? & ?)|(y & ? & ?)]; eauto].
Qed.

Lemma cover_nil a : ¬ cover [] a.
Proof. by intros (x & []%elem_of_nil & _). Qed.

Lemma spaced_weaken lo lo' top top' l : lo' <= lo → top <= top' → spaced lo l top → spaced lo' l top'.
Proof.
  revert lo lo'. induction l as [|x l IH]; intros lo lo' Hlo Ht; [done|]. intros (H1 & H2 & H3 & H4).
  split_and!; [lia|done|lia|]. by eapply IH; [| |exact H4].
Qed.

Lemma spaced_app lo top l1 x l2 :
  spaced lo (l1 ++ x :: l2) top ↔
  spaced lo l1 (x.1 - 1) ∧ lo <= x.1 ∧ 0 < x.2 ∧ x.1 + UNIT * x.2 <= top ∧ spaced (x.1 + UNIT * x.2 + 1) l2 top.
Proof.
  revert lo. induction l1 as [|y l1 IH]; intros lo; simpl; [tauto|]. rewrite IH. split.
  - intros (H1 & H2 & H3 & H4 & H5 & H6 & H7 & H8). split_and!; try done; lia.
  - intros ((H1 & H2 & H3 & H4) & H5 & H6 & H7 & H8). split_and!; try done; lia.
Qed.

Lemma spaced_in lo top l x : spaced lo l top → x ∈ l → lo <= x.1 ∧ 0 < x.2 ∧ x.1 + UNIT * x.2 <= top.
Proof. intros Hs (l1 & l2 & ->)%list_elem_of_split. apply spaced_app in Hs. tauto. Qed.

Lemma spaced_cover lo top l a : spaced lo l top → cover l a → lo <= a < top.
Proof. intros Hs (x & Hx & Ha). destruct (spaced_in _ _ _ _ Hs Hx) as (? & ? & ?). unfold in_block in *. lia. Qed.

(** [y] meets none of the blocks. *)
Definition clear l y : Prop := ∀ x, x ∈ l → x.1 + UNIT * x.2 <= y.1 ∨ y.1 + UNIT * y.2 <= x.1.

Lemma clear_cons x l y : clear (x :: l) y → (x.1 + UNIT * x.2 <= y.1 ∨ y.1 + UNIT * y.2 <= x.1) ∧ clear l y.
Proof. intros H. split; [apply H; constructor|]. intros z Hz. apply H. by constructor. Qed.

Lemma clear_cover lo top l y :
  spaced lo l top → 0 < y.2 → (∀ a, in_block y a → ¬ cover l a) → clear l y.
Proof.
  intros Hs Hy H x Hx. destruct (spaced_in _ _ _ _ Hs Hx) as (_ & Hn & _). unfold in_block in *.
  destruct (decide (x.1 + 16 * x.2 <= y.1)); [by left|]. destruct (decide (y.1 + 16 * y.2 <= x.1)); [by right|]. exfalso.
  apply (H (Z.max x.1 y.1)); [lia|]. exists x. split; [done|]. unfold in_block. lia.
Qed.

Lemma join_cover y l a : 0 < y.2 → Forall (λ x, 0 < x.2) l → cover (join_hd y l) a ↔ in_block y a ∨ cover l a.
Proof.
  intros Hy Hl. destruct l as [|z l]; simpl; [by rewrite cover_cons|].
  apply Forall_cons in Hl as [Hz _]. case_match eqn:E; rewrite !cover_cons; [|tauto].
  apply Z.eqb_eq in E. unfold in_block in *. simpl. intuition lia.
Qed.

Lemma join_spaced lo top y l :
  lo <= y.1 → 0 < y.2 → y.1 + UNIT * y.2 <= top → spaced (y.1 + UNIT * y.2) l top → spaced lo (join_hd y l) top.
Proof.
  intros H1 H2 H3 Hs. destruct l as [|z l]; simpl; [done|]. destruct Hs as (S1 & S2 & S3 & S4). 
  case_match eqn:E.
  - apply Z.eqb_eq in E. simpl. split_and!; [done|lia|lia|]. eapply spaced_weaken; [| |exact S4]; lia.
  - apply Z.eqb_neq in E. simpl. split_and!; try done; lia.
Qed.

Lemma spaced_pos lo top l : spaced lo l top → Forall (λ x, 0 < x.2) l.
Proof. intros H. apply Forall_forall. intros x Hx. by destruct (spaced_in _ _ _ _ H Hx) as (_ & ? & _). Qed.

Lemma insert_cover lo top y l a :
  spaced lo l top → 0 < y.2 → cover (insert_block y l) a ↔ in_block y a ∨ cover l a.
Proof.
  intros Hs Hy. revert lo Hs. induction l as [|x l IH]; intros lo Hs; cbn [insert_block]; [by rewrite cover_cons|].
  pose proof (spaced_pos _ _ _ Hs) as Hp. pose proof (Forall_inv Hp) as Hx. pose proof (Forall_inv_tail Hp) as Hl. cbn beta in Hx.
  destruct Hs as (_ & _ & _ & Hs). case_match; [by apply join_cover|]. case_match eqn:E.
  - apply Z.eqb_eq in E. rewrite join_cover by (simpl; lia || done). rewrite cover_cons.
    unfold in_block in *. simpl. intuition lia.
  - rewrite !cover_cons, (IH _ Hs). tauto.
Qed.

Lemma insert_spaced lo top y l :
  spaced lo l top → lo <= y.1 → 0 < y.2 → y.1 + UNIT * y.2 <= top → clear l y → spaced lo (insert_block y l) top.
Proof.
  revert lo. induction l as [|x l IH]; intros lo Hs H1 H2 H3 Hc; [done|]. cbn [insert_block].
  destruct (clear_cons _ _ _ Hc) as [Hx Hc']. pose proof Hs as (S1 & S2 & S3 & S4). case_match eqn:E.
  - apply Z.ltb_lt in E. apply join_spaced; try done. cbn [spaced]. split_and!; try done; lia.
  - apply Z.ltb_ge in E. case_match eqn:E2.
    + apply Z.eqb_eq in E2. apply join_spaced; simpl; [done|lia|lia|].
      destruct l as [|z l]; [done|]. destruct S4 as (Q1 & Q2 & Q3 & Q4). apply clear_cons in Hc' as [Hz _].
      split_and!; try done. lia.
    + apply Z.eqb_neq in E2. split_and!; try done. apply IH; [done|lia|done|done|done].
Qed.

(** The block that holds [y] once it is given back. *)
Lemma insert_big lo top y l : spaced lo l top → 0 < y.2 → ∃ x, x ∈ insert_block y l ∧ y.2 <= x.2.
Proof.
  intros Hs Hy. assert (J : ∀ x l, 0 < x.2 → Forall (λ x, 0 < x.2) l → y.2 <= x.2 → ∃ z, z ∈ join_hd x l ∧ y.2 <= z.2).
  { intros x l' Hx Hl Hle. destruct l' as [|z l']; simpl; [exists x; by split; [constructor|]|].
    apply Forall_cons in Hl as [Hz _]. case_match; eexists; (split; [constructor|]); simpl; lia. }
  revert lo Hs. induction l as [|x l IH]; intros lo Hs; [exists y; by split; [constructor|]|]. cbn [insert_block].
  pose proof (spaced_pos _ _ _ Hs) as Hp. pose proof (Forall_inv Hp) as Hx. pose proof (Forall_inv_tail Hp) as Hl. cbn beta in Hx.
  destruct Hs as (_ & _ & _ & Hs). case_match; [by apply J|]. case_match; [apply J; simpl; try done; lia|].
  destruct (IH _ Hs) as (z & Hz & Hle). exists z. by split; [constructor|].
Qed.

Lemma length_join y l : (length (join_hd y l) <= S (length l))%nat.
Proof. destruct l; simpl; [lia|]. case_match; simpl; lia. Qed.

Lemma length_insert_block y l : (length (insert_block y l) <= S (length l))%nat.
Proof.
  induction l as [|x l IH]; [simpl; lia|]. cbn [insert_block]. case_match; [apply (length_join y (x :: l))|].
  case_match; simpl; [pose proof (length_join (x.1, x.2 + y.2) l); lia|lia].
Qed.

(** Where [y] goes, seen from its predecessor. *)
Lemma insert_below y l1 l2 :
  Forall (λ x, x.1 < y.1 ∧ x.1 + UNIT * x.2 ≠ y.1) l1 → Forall (λ x, y.1 < x.1) l2 → insert_block y (l1 ++ l2) = l1 ++ join_hd y l2.
Proof.
  intros H1 H2. induction l1 as [|x l1 IH]; simpl.
  - destruct l2 as [|z l2]; [done|]. cbn [insert_block]. apply Forall_cons in H2 as [H2 _].
    by rewrite (proj2 (Z.ltb_lt _ _) H2).
  - apply Forall_cons in H1 as [[Hx Hn] H1]. rewrite (proj2 (Z.ltb_ge _ _)) by lia.
    rewrite (proj2 (Z.eqb_neq _ _) Hn). by rewrite IH.
Qed.

Lemma insert_touch y x l1 l2 :
  Forall (λ x, x.1 < y.1 ∧ x.1 + UNIT * x.2 ≠ y.1) l1 → x.1 < y.1 → x.1 + UNIT * x.2 = y.1 →
  insert_block y (l1 ++ x :: l2) = l1 ++ join_hd (x.1, x.2 + y.2) l2.
Proof.
  intros H1 Hx Ht. induction l1 as [|z l1 IH]; simpl.
  - rewrite (proj2 (Z.ltb_ge _ _)) by lia. by rewrite (proj2 (Z.eqb_eq _ _) Ht).
  - apply Forall_cons in H1 as [[Hz Hn] H1]. rewrite (proj2 (Z.ltb_ge _ _)) by lia.
    rewrite (proj2 (Z.eqb_neq _ _) Hn). by rewrite IH.
Qed.
End blocks.

(** ** The ring in memory *)

Definition hd_addr (l : list block) (stop : Z) : Z := match l with [] => stop | x :: _ => x.1 end.

(** The headers of [l], each leading to the next and the last to [stop]. *)
Fixpoint links (m : mem) (l : list block) (stop : Z) : Prop :=
  match l with
  | [] => True
  | x :: l => ld64 m x.1 = hd_addr l stop ∧ ld64 m (x.1 + 8) = x.2 ∧ links m l stop
  end.

(** The headers of [V], reached one after the other from [p]. *)
Fixpoint path (m : mem) (p : Z) (V : list block) : Prop :=
  match V with
  | [] => True
  | x :: V => ld64 m p = x.1 ∧ ld64 m (x.1 + 8) = x.2 ∧ path m x.1 V
  end.

Section ring.
Implicit Types (m : mem) (l V : list block) (x y z : block) (a p q stop : Z).

Lemma links_app m l1 l2 stop : links m (l1 ++ l2) stop ↔ links m l1 (hd_addr l2 stop) ∧ links m l2 stop.
Proof.
  induction l1 as [|x l1 IH]; simpl; [tauto|]. rewrite IH.
  assert (E : hd_addr (l1 ++ l2) stop = hd_addr l1 (hd_addr l2 stop)) by (by destruct l1). rewrite E. tauto.
Qed.

Lemma links_ext m m' l stop :
  (∀ x a, x ∈ l → x.1 <= a < x.1 + UNIT → rd8 m' a = rd8 m a) → links m l stop → links m' l stop.
Proof.
  induction l as [|x l IH]; intros H; [done|]. intros (H1 & H2 & H3). simpl. rewrite <- H1, <- H2. split_and!.
  - apply ld_ext. intros i Hi. apply (H x); [constructor|lia].
  - apply ld_ext. intros i Hi. apply (H x); [constructor|lia].
  - apply IH; [|done]. intros y a Hy. apply H. by constructor.
Qed.

(** A store to the header at [p] changes no header apart from it. *)
Lemma links_st m (n : nat) p v l stop c :
  p <= c → c + n <= p + UNIT → (∀ x, x ∈ l → x.1 + UNIT <= p ∨ p + UNIT <= x.1) → links m l stop → links (st n m c v) l stop.
Proof.
  intros H1 H2 Hx. apply links_ext. intros x a Hxl Ha. apply rd8_st_other. destruct (Hx x Hxl); lia.
Qed.

Lemma links_path m l V stop : ∀ x, links m (x :: l) (hd_addr V stop) →
  match V with [] => True | z :: V => ld64 m (z.1 + 8) = z.2 ∧ path m z.1 V end → path m x.1 (l ++ V).
Proof.
  induction l as [|y l IH]; intros x (H1 & H2 & H3) HV; simpl in *.
  - destruct V as [|z V]; [done|]. simpl in *. tauto.
  - split_and!; [done|apply H3|by apply IH].
Qed.

(** Once round the ring, from the element after [f]. *)
Lemma ring_path m A f B stop : links m (A ++ f :: B) stop → hd_addr (A ++ [f]) stop = stop → path m f.1 (B ++ A ++ [f]).
Proof.
  intros (HA & Hf & Hs & HB)%links_app Hstop. simpl in Hf. apply (links_path m B (A ++ [f]) stop f); [by rewrite Hstop|].
  destruct A as [|a A]; [done|]. simpl in *. destruct HA as (H1 & H2 & H3). split; [done|].
  by apply (links_path m A [f] stop a).
Qed.

Lemma path_app m V1 V2 p : path m p (V1 ++ V2) ↔ path m p V1 ∧ path m (default p (fst <$> last V1)) V2.
Proof.
  revert p. induction V1 as [|x V1 IH]; intros p; simpl; [tauto|]. rewrite IH.
  assert (E : default x.1 (fst <$> last V1) = default p (fst <$> last (x :: V1))).
  { destruct V1 as [|y V1]; [done|]. rewrite last_cons_cons. destruct (last (y :: V1)) eqn:E; [done|].
    by apply last_None in E. }
  rewrite E. tauto.
Qed.

(** The element whose link is a given block. *)
Lemma pred_split m R stop p b :
  links m R stop → p ∈ R.*1 → ld64 m p = b → b ≠ stop →
  ∃ U j W, R = U ++ (p, j) :: (b, ld64 m (b + 8)) :: W.
Proof.
  intros HR (x & -> & Hx)%list_elem_of_fmap Hb Hne. apply list_elem_of_split in Hx as (U & W & ->).
  apply links_app in HR as [_ (H1 & H2 & H3)]. rewrite Hb in H1. destruct W as [|z W]; [done|]. simpl in H1. subst b.
  destruct H3 as (_ & -> & _). exists U, x.2, W. by destruct x, z.
Qed.
End ring.

(** ** What the routines keep *)

Section heap_ok.
Context {K : Type} {HS : Sbrk K} (base : Z).
Implicit Types (s : heap (K := K)) (bs : list block) (x y : block).

(** The ring holds the free blocks [bs], and [freep] points into it. *)
Record heap_ok bs s : Prop := {
  ho_links : links (h_mem s) ((base, 0) :: bs) base;
  ho_freep : h_freep s ∈ ((base, 0) :: bs).*1;
  ho_spaced : spaced (base + UNIT) bs (brk (h_kern s));
  ho_base : 0 < base;
  ho_top : base + UNIT <= brk (h_kern s) < 2 ^ 40
}.

(** The block at [b] of [n] units is in use. *)
Record held bs s b (n : Z) : Prop := {
  held_size : 0 < n;
  held_low : base + UNIT <= b;
  held_top : b + UNIT * n <= brk (h_kern s);
  held_header : ld64 (h_mem s) (b + 8) = n;
  held_clear : ∀ a, in_block (b, n) a → ¬ cover bs a
}.

Lemma heap_in bs s x : heap_ok bs s → x ∈ (base, 0) :: bs → base <= x.1 ∧ x.1 + UNIT <= brk (h_kern s) ∧ 0 <= x.2 ∧ x.1 + UNIT * x.2 <= brk (h_kern s).
Proof.
  intros H [->|Hx]%elem_of_cons; simpl; [pose proof (ho_top _ _ H); lia|].
  destruct (spaced_in _ _ _ _ (ho_spaced _ _ H) Hx) as (? & ? & ?). lia.
Qed.

Lemma hdr_add_small p (n : Z) : 0 <= p + UNIT * n < 2 ^ 64 → hdr_add p n = p + UNIT * n.
Proof. intros. unfold hdr_add. by apply u64_small. Qed.

Lemma ptr_of_run p s : p ≠ 0 → ptr_of p s = Ret (ld64 (h_mem s) p) s.
Proof. intros H. unfold ptr_of. by rewrite (proj2 (Z.eqb_neq _ _) H). Qed.
Lemma size_of_run p s : p ≠ 0 → size_of p s = Ret (ld64 (h_mem s) (p + 8)) s.
Proof. intros H. unfold size_of. by rewrite (proj2 (Z.eqb_neq _ _) H). Qed.
Lemma set_ptr_run p v s : p ≠ 0 → set_ptr p v s = Ret tt (set_mem (st64 (h_mem s) p v) s).
Proof. intros H. unfold set_ptr. by rewrite (proj2 (Z.eqb_neq _ _) H). Qed.
Lemma set_size_run p v s : p ≠ 0 → set_size p v s = Ret tt (set_mem (st64 (h_mem s) (p + 8) v) s).
Proof. intros H. unfold set_size. by rewrite (proj2 (Z.eqb_neq _ _) H). Qed.
End heap_ok.

Section search.
Context {K : Type} {HS : Sbrk K} (base : Z).
Implicit Types (s : heap (K := K)) (bs l : list block) (x y : block) (bp : Z) (fuel : nat).

Abbreviation ascending := (StronglySorted (λ x y : block, x.1 < y.1)).

Lemma spaced_ascending lo l top x : spaced lo l top → x.1 < lo → ascending (x :: l).
Proof.
  revert lo x. induction l as [|y l IH]; intros lo x Hs Hx; [constructor; constructor|].
  pose proof Hs as (H1 & H2 & H3 & H4). constructor.
  - apply (IH _ y H4). lia.
  - apply Forall_forall. intros z Hz. destruct (spaced_in _ _ _ _ Hs Hz). lia.
Qed.

(** From a block below [bp]: the last one below it. *)
Lemma find_slot_below bp s l2 : Forall (λ x, bp < x.1) l2 → base < bp → 0 < base → ∀ W fuel x z,
  links (h_mem s) (x :: W ++ l2) base → ascending (x :: W) → base <= x.1 → Forall (λ x, x.1 < bp) (x :: W) →
  last (x :: W) = Some z → (length W < fuel)%nat → find_slot fuel bp x.1 s = Ret z.1 s.
Proof.
  intros H2 Hb Hb0 W. induction W as [|y W IH]; intros fuel x z (L1 & _ & L3) Ha Hx Hlow Hz Hf;
    (destruct fuel as [|fuel]; [lia|]); cbn [find_slot]; rewrite (pbind_ok _ _ _ _ _ (ptr_of_run x.1 s ltac:(lia)));
    rewrite L1; apply Forall_cons in Hlow as [Hxb Hlow].
  - injection Hz as <-. rewrite (proj2 (Z.ltb_lt x.1 bp)) by done. destruct l2 as [|w l2]; simpl.
    + rewrite (proj2 (Z.ltb_ge bp base)) by lia. by rewrite (proj2 (Z.leb_le base x.1)) by done.
    + apply Forall_cons in H2 as [Hw _]. by rewrite (proj2 (Z.ltb_lt bp w.1)).
  - simpl. pose proof (Forall_inv Hlow) as Hy. cbn beta in Hy. apply StronglySorted_inv in Ha as [Ha Hlt].
    pose proof (Forall_inv Hlt) as Hxy. cbn beta in Hxy.
    rewrite (proj2 (Z.ltb_ge bp y.1)), andb_false_r by lia. rewrite (proj2 (Z.leb_gt y.1 x.1)) by lia. cbn [andb].
    apply IH; try done; [lia|simpl in Hf; lia].
Qed.

(** From a block above it: round the ring first. *)
Lemma find_slot_above bp s l1 l2 z : Forall (λ x, bp < x.1) l2 → base < bp → 0 < base →
  links (h_mem s) (((base, 0) :: l1) ++ l2) base → ascending ((base, 0) :: l1) → Forall (λ x, x.1 < bp) l1 →
  last ((base, 0) :: l1) = Some z → ∀ W fuel x,
  links (h_mem s) (x :: W) base → ascending (x :: W) → Forall (λ x, bp < x.1) (x :: W) →
  (length W + 1 + length l1 < fuel)%nat → find_slot fuel bp x.1 s = Ret z.1 s.
Proof.
  intros H2 Hb Hb0 HL Ha1 H1 Hz W. induction W as [|y W IH]; intros fuel x (L1 & _ & L3) Ha Hup Hf;
    (destruct fuel as [|fuel]; [lia|]); cbn [find_slot]; apply Forall_cons in Hup as [Hxb Hup];
    rewrite (pbind_ok _ _ _ _ _ (ptr_of_run x.1 s ltac:(lia))), L1; simpl; rewrite (proj2 (Z.ltb_ge x.1 bp)) by lia; cbn [andb orb].
  - rewrite (proj2 (Z.ltb_ge bp base)), andb_false_r by lia.
    change base with ((base, 0) : block).1 at 1. eapply (find_slot_below bp s l2); try done; [constructor; [simpl; lia|done]|simpl in Hf; lia].
  - apply StronglySorted_inv in Ha as [Ha Hlt]. pose proof (Forall_inv Hlt) as Hxy. cbn beta in Hxy.
    rewrite (proj2 (Z.leb_gt y.1 x.1)) by lia. cbn [andb]. apply IH; try done. simpl in Hf. lia.
Qed.

(** From any block, [length bs + 1] steps are enough. *)
Lemma find_slot_run bp bs l1 l2 z fuel s :
  heap_ok base bs s → bs = l1 ++ l2 → Forall (λ x, x.1 < bp) l1 → Forall (λ x, bp < x.1) l2 → base < bp →
  last ((base, 0) :: l1) = Some z → (length bs < fuel)%nat → find_slot fuel bp (h_freep s) s = Ret z.1 s.
Proof.
  intros H -> H1 H2 Hb Hz Hf. pose proof (ho_links _ _ _ H) as HL. pose proof (ho_base _ _ _ H) as Hb0.
  pose proof (spaced_ascending _ _ _ (base, 0) (ho_spaced _ _ _ H) ltac:(simpl; lia)) as Ha.
  pose proof (ho_freep _ _ _ H) as Hfp. apply list_elem_of_fmap in Hfp as (x & -> & Hx). rewrite length_app in Hf.
  rewrite app_comm_cons in HL, Ha, Hx. apply elem_of_app in Hx as [Hx|Hx].
  - apply list_elem_of_split in Hx as (U & W & E). assert (Hl : ((base, 0) :: l1) ++ l2 = U ++ (x :: W ++ l2)).
    { by rewrite E, <- app_assoc. }
    assert (Hlen : (length W <= length l1)%nat).
    { apply (f_equal length) in E. rewrite length_app in E. simpl in E. lia. }
    assert (Hx' : x ∈ (base, 0) :: l1) by (rewrite E; apply elem_of_app; right; constructor).
    rewrite Hl in HL. apply links_app in HL as [_ HL]. rewrite Hl, app_comm_cons in Ha.
    apply StronglySorted_app_1_r, StronglySorted_app_1_l in Ha. rewrite E, last_app_cons in Hz.
    assert (Hall : Forall (λ x, x.1 < bp) ((base, 0) :: l1)) by (constructor; [simpl; lia|done]).
    rewrite E, Forall_app in Hall. apply (find_slot_below bp s l2 H2 Hb Hb0 W); try done; [|apply Hall|lia].
    by destruct (heap_in base _ s x H ltac:(rewrite app_comm_cons, Hl; apply elem_of_app; right; constructor)).
  - assert (Ha1 := Ha); apply StronglySorted_app_1_l in Ha1.
    apply list_elem_of_split in Hx as (U & W & ->). pose proof HL as HL'. apply links_app in HL' as [_ [_ HL']%links_app].
    apply StronglySorted_app_1_r, StronglySorted_app_1_r in Ha. rewrite length_app in Hf. simpl in Hf.
    assert (Hup := H2). rewrite Forall_app in Hup.
    apply (find_slot_above bp s l1 (U ++ x :: W)) with (W := W); try done; [apply Hup|lia].
Qed.
End search.

(** ** Giving a block back *)

Section freeing.
Context {K : Type} {HS : Sbrk K} (base : Z).
Implicit Types (s : heap (K := K)) (bs l : list block) (x y z : block) (b n : Z) (m : mem).

Lemma split_at lo top l y : spaced lo l top → clear l y → 0 < y.2 →
  ∃ l1 l2, l = l1 ++ l2 ∧ Forall (λ x, x.1 < y.1 ∧ x.1 + UNIT * x.2 <= y.1) l1 ∧ Forall (λ x, y.1 + UNIT * y.2 <= x.1) l2.
Proof.
  revert lo. induction l as [|x l IH]; intros lo Hs Hc Hy; [by exists [], []|]. pose proof Hs as (H1 & H2 & H3 & H4).
  destruct (clear_cons _ _ _ Hc) as [[Hx|Hx] Hc'].
  - destruct (IH _ H4 Hc' Hy) as (l1 & l2 & -> & F1 & F2). exists (x :: l1), l2. split_and!; try done. constructor; [lia|done].
  - exists [], (x :: l). split_and!; [done|done|]. constructor; [done|]. apply Forall_forall. intros z Hz.
    destruct (spaced_in _ _ _ _ H4 Hz). lia.
Qed.

(** The new memory, outside the header at [b]. *)
Definition but_header m m' b : Prop := ∀ a, ¬ (b <= a < b + UNIT) → rd8 m' a = rd8 m a.

Lemma set_mem_twice m m' s : set_mem m (set_mem m' s) = set_mem m s.
Proof. done. Qed.

Lemma word64 v : 0 <= v < 2 ^ 64 → v mod 256 ^ 8%nat = v.
Proof. intros H. apply Z.mod_small. exact H. Qed.

(** The block takes over the link of its predecessor, and the next block if it
    touches it. *)
Lemma join_next_run b n q l s :
  q = hd_addr l base → 0 < base → base < b → 0 < n → b + UNIT * n < 2 ^ 63 → base < 2 ^ 63 → ld64 (h_mem s) (b + 8) = n →
  links (h_mem s) l base → Forall (λ x, b + UNIT * n <= x.1 ∧ 0 < x.2 ∧ x.1 + UNIT * x.2 < 2 ^ 63) l →
  ∃ m, (if hdr_add b n =? q then
          k <- size_of q ;; set_size b (n +u64 k) ;; r <- ptr_of q ;; set_ptr b r
        else set_ptr b q)%prog s = Ret tt (set_mem m s) ∧
    links m (join_hd (b, n) l) base ∧ but_header (h_mem s) m b.
Proof.
  intros -> Hb0 Hb Hn Htop Hbt Hsz HL Hup. rewrite hdr_add_small by lia. destruct l as [|z l]; simpl.
  - rewrite (proj2 (Z.eqb_neq _ _)) by lia. rewrite set_ptr_run by lia. eexists. split; [done|]. split.
    + split_and!; [|by rewrite ld_st_disj by lia|done]. rewrite ld_st_eq. apply word64. lia.
    + intros a Ha. apply rd8_st_other. lia.
  - destruct HL as (Z1 & Z2 & Z3). apply Forall_cons in Hup as [(Z4 & Z5 & Z6) Hup]. case_match eqn:E.
    + apply Z.eqb_eq in E. rewrite (pbind_ok _ _ _ _ _ (size_of_run z.1 s ltac:(lia))), Z2, u64_small by lia.
      rewrite (pbind_ok _ _ _ _ _ (set_size_run b _ s ltac:(lia))). set (m1 := st64 _ (b + 8) _).
      rewrite (pbind_ok _ _ _ _ _ (ptr_of_run z.1 (set_mem m1 s) ltac:(lia))). cbn [h_mem set_mem].
      rewrite set_ptr_run by lia. cbn [h_mem set_mem]. eexists. split; [by rewrite set_mem_twice|].
      assert (E1 : ld64 m1 z.1 = hd_addr l base) by (unfold m1; rewrite ld_st_disj by lia; done).
      rewrite E1. split.
      * simpl. split_and!.
        -- rewrite ld_st_eq. apply word64. destruct l as [|w l]; simpl; [lia|]. apply Forall_cons in Hup as [? _]. lia.
        -- rewrite ld_st_disj by lia. unfold m1. rewrite ld_st_eq. apply word64. lia.
        -- assert (Hx : ∀ x, x ∈ l → x.1 + UNIT <= b ∨ b + UNIT <= x.1).
           { intros x Hx. pose proof (proj1 (Forall_forall _ _) Hup x Hx). cbn beta in *. lia. }
           apply (links_st _ _ b); [lia|lia|exact Hx|]. apply (links_st _ _ b); [lia|lia|exact Hx|done].
      * intros a Ha. unfold m1. rewrite !rd8_st_other by lia. done.
    + apply Z.eqb_neq in E. rewrite set_ptr_run by lia. eexists. split; [done|]. split.
      * assert (Hx : ∀ x, x ∈ z :: l → x.1 + UNIT <= b ∨ b + UNIT <= x.1).
        { intros x [->|Hx]%elem_of_cons; [lia|]. pose proof (proj1 (Forall_forall _ _) Hup x Hx). cbn beta in *. lia. }
        split; [cbn; rewrite ld_st_eq; apply word64; lia|]. split; [cbn; by rewrite ld_st_disj by lia|].
        apply (links_st _ _ b); [lia|lia|exact Hx|done].
      * intros a Ha. apply rd8_st_other. lia.
Qed.

(** The predecessor takes the block over, or links to it. *)
Lemma join_prev_run p k b n X l s :
  p ≠ 0 → b ≠ 0 → 0 <= k → 0 < n → p + UNIT <= b → 0 <= p + UNIT * k <= b → b + UNIT * n < 2 ^ 63 → 0 <= p → 0 <= hd_addr l base < 2 ^ 63 →
  ld64 (h_mem s) (p + 8) = k → links (h_mem s) X p → links (h_mem s) ((b, n) :: l) base →
  (∀ x, x ∈ X → x.1 + UNIT <= p) → (∀ x, x ∈ l → b + UNIT <= x.1) →
  ∃ m, (k <- size_of p ;;
        if hdr_add p k =? b then
          n <- size_of b ;; set_size p (k +u64 n) ;; r <- ptr_of b ;; set_ptr p r
        else set_ptr p b)%prog s = Ret tt (set_mem m s) ∧
    links m (X ++ (if p + UNIT * k =? b then (p, k + n) :: l else (p, k) :: (b, n) :: l)) base ∧ but_header (h_mem s) m p.
Proof.
  intros Hp Hb Hk Hn Hpb Hpk Htop Hp0 Hhd Hsz HX HL FX Fl. pose proof HL as (L1 & L2 & L3). cbn [fst snd] in *.
  rewrite (pbind_ok _ _ _ _ _ (size_of_run p s Hp)), Hsz, hdr_add_small by lia. case_match eqn:E.
  - rewrite (pbind_ok _ _ _ _ _ (size_of_run b s Hb)), L2, u64_small by lia.
    rewrite (pbind_ok _ _ _ _ _ (set_size_run p _ s Hp)). set (m1 := st64 _ (p + 8) _).
    rewrite (pbind_ok _ _ _ _ _ (ptr_of_run b (set_mem m1 s) Hb)). cbn [h_mem set_mem].
    rewrite set_ptr_run by done. cbn [h_mem set_mem]. eexists. split; [by rewrite set_mem_twice|].
    assert (E1 : ld64 m1 b = hd_addr l base) by (unfold m1; rewrite ld_st_disj by lia; done). rewrite E1. split.
    + apply links_app. split; [|split; [|split]].
      * apply (links_st _ _ p); [lia|lia|intros x Hx; left; by apply FX|].
        apply (links_st _ _ p); [lia|lia|intros x Hx; left; by apply FX|done].
      * cbn [fst]. rewrite ld_st_eq. apply word64. lia.
      * cbn [fst snd]. rewrite ld_st_disj by lia. unfold m1. rewrite ld_st_eq. apply word64. lia.
      * assert (Hx : ∀ x, x ∈ l → x.1 + UNIT <= p ∨ p + UNIT <= x.1) by (intros x Hx; pose proof (Fl x Hx); lia).
        apply (links_st _ _ p); [lia|lia|exact Hx|]. apply (links_st _ _ p); [lia|lia|exact Hx|done].
    + intros a Ha. unfold m1. rewrite !rd8_st_other by lia. done.
  - rewrite set_ptr_run by done. eexists. split; [done|]. split.
    + apply links_app. split; [|split; [|split]].
      * apply (links_st _ _ p); [lia|lia|intros x Hx; left; by apply FX|done].
      * cbn [fst hd_addr]. rewrite ld_st_eq. apply word64. lia.
      * cbn [fst snd]. by rewrite ld_st_disj by lia.
      * apply (links_st _ _ p); [lia|lia| |done]. intros x [->|Hx]%elem_of_cons; simpl; [lia|]. pose proof (Fl x Hx). lia.
    + intros a Ha. apply rd8_st_other. lia.
Qed.

(** The block that [join_hd] puts first. *)
Lemma join_shape b n l : ∃ n' l', join_hd (b, n) l = (b, n') :: l' ∧ (∀ x, x ∈ l' → x ∈ l) ∧
  (n' = n ∨ ∃ z, z ∈ l ∧ b + UNIT * n' = z.1 + UNIT * z.2) ∧
  ∀ p k, p + UNIT * k = b → join_hd (p, k + n) l = (p, k + n') :: l'.
Proof.
  destruct l as [|z l]; simpl.
  - exists n, []. split_and!; [done|done|by left|done].
  - case_match eqn:E.
    + apply Z.eqb_eq in E. exists (n + z.2), l. split_and!; [done|by constructor| |].
      * right. exists z. split; [constructor|lia].
      * intros p k H. rewrite (proj2 (Z.eqb_eq _ _)) by lia. f_equal. f_equal. lia.
    + apply Z.eqb_neq in E. exists n, (z :: l). split_and!; [done|done|by left|].
      intros p k H. by rewrite (proj2 (Z.eqb_neq _ _)) by lia.
Qed.

(** The ring cut before the place of the block. *)
Record seam bs b n X p k l2 : Prop := {
  sm_ring : (base, 0) :: bs = X ++ (p, k) :: l2;
  sm_last : ∃ l1, bs = l1 ++ l2 ∧ Forall (λ x, x.1 < b) l1 ∧ last ((base, 0) :: l1) = Some (p, k);
  sm_before : ∀ x, x ∈ X → x.1 + UNIT <= p;
  sm_size : 0 <= k;
  sm_room : p + UNIT <= b ∧ p + UNIT * k <= b;
  sm_after : Forall (λ x, b + UNIT * n <= x.1) l2;
  sm_insert : (base, 0) :: insert_block (b, n) bs = X ++ (if p + UNIT * k =? b then join_hd (p, k + n) l2 else (p, k) :: join_hd (b, n) l2)
}.

Lemma seam_at top b n bs :
  spaced (base + UNIT) bs top → base + UNIT <= b → 0 < n → clear bs (b, n) → ∃ X p k l2, seam bs b n X p k l2.
Proof.
  intros Hs Hb Hn Hc. destruct (split_at _ _ _ (b, n) Hs Hc Hn) as (l1 & l2 & -> & F1 & F2). cbn [fst snd] in *.
  assert (F2' : Forall (λ x : block, (b, n).1 < x.1) l2) by (eapply Forall_impl; [exact F2|]; simpl; intros; lia).
  destruct l1 as [|[p k] l1 _] using rev_ind.
  - exists [], base, 0, l2. split; try done; [by exists []|intros x []%elem_of_nil|lia|].
    rewrite (proj2 (Z.eqb_neq _ _)) by lia. cbn [app]. f_equal. by apply (insert_below _ []).
  - rewrite <- app_assoc in *. cbn [app] in *. pose proof Hs as (S1 & S2 & S3 & S4 & S5)%spaced_app. cbn [fst snd] in *.
    apply Forall_app in F1 as [F1 Fp]. pose proof (Forall_inv Fp) as [P1 P2]. cbn [fst snd] in *.
    assert (F1' : Forall (λ x : block, x.1 < (b, n).1 ∧ x.1 + UNIT * x.2 ≠ (b, n).1) l1).
    { apply Forall_forall. intros x Hx. destruct (spaced_in _ _ _ _ S1 Hx). cbn [fst]. lia. }
    exists ((base, 0) :: l1), p, k, l2. split.
    + done.
    + exists (l1 ++ [(p, k)]). rewrite <- app_assoc. split_and!; [done| |by rewrite last_cons_app || rewrite app_comm_cons, last_snoc].
      apply Forall_app. split; [eapply Forall_impl; [exact F1'|]; simpl; lia|]. by constructor.
    + intros x [->|Hx]%elem_of_cons; [simpl; lia|]. destruct (spaced_in _ _ _ _ S1 Hx). lia.
    + lia.
    + lia.
    + done.
    + cbn [app]. f_equal. case_match eqn:E.
      * apply Z.eqb_eq in E. by apply (insert_touch (b, n) (p, k)).
      * apply Z.eqb_neq in E. rewrite (app_assoc l1 [(p, k)] l2 : l1 ++ (p, k) :: l2 = _), insert_below; [by rewrite <- app_assoc| |done].
        apply Forall_app. split; [done|]. by constructor.
Qed.

Lemma free_run fuel b n bs s :
  heap_ok base bs s → held base bs s b n → (length bs < fuel)%nat →
  ∃ m p, free fuel (b + UNIT) s = Ret tt (Heap m p (h_kern s)) ∧
    heap_ok base (insert_block (b, n) bs) (Heap m p (h_kern s)) ∧
    ∀ a, ¬ cover bs a → ¬ (base <= a < base + UNIT) → ¬ (b <= a < b + UNIT) → rd8 m a = rd8 (h_mem s) a.
Proof.
  intros H Hh Hf. pose proof H as [HL Hfp Hsp Hb0 Htop]. destruct Hh as [Hn Hlow Hbt Hsz Hcl].
  assert (Hc : clear bs (b, n)) by (by eapply (clear_cover _ _ bs (b, n))).
  destruct (seam_at _ b n bs Hsp Hlow Hn Hc) as (X & p & k & l2 & [Er (l1 & El & F1 & Hlast) FX Hk [Hpb Hpk] F2 Ei]).
  assert (Hp : (p, k) ∈ (base, 0) :: bs) by (rewrite Er; apply elem_of_app; right; constructor).
  destruct (heap_in base bs s _ H Hp) as (Hp0 & Hp1 & _). cbn [fst snd] in *. rewrite Er in HL. apply links_app in HL as [LX (Lp & Lk & L2)]. cbn [fst snd hd_addr] in *.
  assert (F2b : Forall (λ x, b + UNIT * n <= x.1 ∧ 0 < x.2 ∧ x.1 + UNIT * x.2 < 2 ^ 63) l2).
  { apply Forall_forall. intros x Hx. pose proof (proj1 (Forall_forall _ _) F2 x Hx).
    destruct (spaced_in _ _ bs x Hsp) as (? & ? & ?); [rewrite El; apply elem_of_app; by right|]. cbn beta in *. lia. }
  destruct (join_next_run b n (hd_addr l2 base) l2 s) as (m1 & E1 & J1 & B1); try done; try lia.
  destruct (join_shape b n l2) as (n' & l' & Es & Hl' & Hn' & Hj). rewrite Es in J1.
  assert (Hn2 : 0 < n' ∧ b + UNIT * n' < 2 ^ 63).
  { destruct Hn' as [->|(z & Hz & E)]; [lia|]. pose proof (proj1 (Forall_forall _ _) F2b z Hz). cbn beta in *. lia. }
  assert (Fl' : ∀ x, x ∈ l' → b + UNIT <= x.1).
  { intros x Hx. pose proof (proj1 (Forall_forall _ _) F2 x (Hl' x Hx)). cbn beta in *. lia. }
  destruct (join_prev_run p k b n' X l' (set_mem m1 s)) as (m2 & E2 & J2 & B2); try done; try lia.
  { destruct l' as [|z l']; simpl; [lia|]. pose proof (proj1 (Forall_forall _ _) F2b z (Hl' z ltac:(constructor))). cbn beta in *. lia. }
  { cbn [h_mem set_mem]. rewrite <- Lk. apply ld_ext. intros i Hi. apply B1. lia. }
  { cbn [h_mem set_mem]. eapply links_ext; [|exact LX]. intros x a Hx Ha. apply B1. pose proof (FX x Hx). lia. }
  exists m2, p. split_and!.
  - unfold free. rewrite (proj2 (Z.eqb_neq _ _)) by lia. rewrite hdr_add_small by lia.
    replace (b + UNIT + UNIT * -1) with b by lia. cbv zeta. rewrite pbind_gets.
    rewrite (pbind_ok _ _ _ _ _ (find_slot_run base b bs l1 l2 _ fuel s H El F1 ltac:(eapply Forall_impl; [exact F2|]; simpl; lia) ltac:(lia) Hlast Hf)).
    cbn [fst]. rewrite (pbind_ok _ _ _ _ _ (size_of_run b s ltac:(lia))), Hsz.
    rewrite (pbind_ok _ _ _ _ _ (ptr_of_run p s ltac:(lia))), Lp.
    by rewrite (pbind_ok _ _ _ _ _ E1), (pbind_ok _ _ _ _ _ E2).
  - assert (ER : (base, 0) :: insert_block (b, n) bs = X ++ (if p + UNIT * k =? b then (p, k + n') :: l' else (p, k) :: (b, n') :: l')).
    { rewrite Ei, <- Es. case_match eqn:E; [|done]. apply Z.eqb_eq in E. by rewrite Hj. }
    split; cbn [h_mem h_freep h_kern].
    + by rewrite ER.
    + rewrite ER, fmap_app. apply elem_of_app. right. case_match; constructor.
    + by apply insert_spaced.
    + done.
    + done.
  - intros a Ha Hab Hbb. rewrite B2, B1; [done|done|]. intros Hpa. apply elem_of_cons in Hp as [[= -> ->]|Hp]; [done|].
    apply Ha. exists (p, k). split; [done|]. destruct (spaced_in _ _ _ _ Hsp Hp) as (_ & ? & _). unfold in_block. cbn [fst snd] in *. lia.
Qed.
End freeing.

(** ** Taking a block *)

(** The block [x] is large enough. *)
Definition fits (n : Z) (x : block) : Prop := n <= x.2.
#[export] Instance fits_dec n x : Decision (fits n x).
Proof. unfold fits. apply _. Defined.

Section taking.
Context {K : Type} {HS : Sbrk K} (base : Z).
Implicit Types (s : heap (K := K)) (bs l : list block) (x y z : block) (b n p : Z) (m : mem).

Abbreviation apart := (λ x y : block, x.1 + UNIT <= y.1 ∧ x.1 + UNIT * x.2 <= y.1).

Lemma spaced_apart lo l top : spaced lo l top → StronglySorted apart l.
Proof.
  revert lo. induction l as [|x l IH]; intros lo Hs; [constructor|]. pose proof Hs as (H1 & H2 & H3 & H4). constructor.
  - by apply (IH _ H4).
  - apply Forall_forall. intros y Hy. destruct (spaced_in _ _ _ _ H4 Hy). lia.
Qed.

Lemma ring_apart bs top U y W : spaced (base + UNIT) bs top → (base, 0) :: bs = U ++ y :: W →
  (∀ x, x ∈ U → x.1 + UNIT <= y.1) ∧ ∀ x, x ∈ W → y.1 + UNIT <= x.1 ∧ y.1 + UNIT * y.2 <= x.1.
Proof.
  intros Hs E. assert (Ha : StronglySorted apart ((base, 0) :: bs)).
  { constructor; [by eapply spaced_apart|]. apply Forall_forall. intros x Hx. destruct (spaced_in _ _ _ _ Hs Hx). simpl. lia. }
  rewrite E in Ha. split.
  - intros x Hx. apply (StronglySorted_app_1_elem_of apart U (y :: W) x y Ha Hx). constructor.
  - intros x Hx. apply StronglySorted_app_1_r, StronglySorted_inv in Ha as [_ Ha]. exact (proj1 (Forall_forall _ _) Ha x Hx).
Qed.

(** What [malloc] has done when it returns the block at [b]: the heap is in
    order, the block is in use, it was free before, and no other byte changed
    but in the headers of free blocks. *)
Record taken bs s b n bs' s' : Prop := {
  tk_heap : heap_ok base bs' s';
  tk_held : held base bs' s' b n;
  tk_cover : ∀ a, cover bs a ↔ cover bs' a ∨ in_block (b, n) a;
  tk_frame : ∀ a, ¬ cover bs a → ¬ (base <= a < base + UNIT) → rd8 (h_mem s') a = rd8 (h_mem s) a
}.

(** The predecessor and the block of the ring that the loop has reached. *)
Lemma ring_tail bs U x y W : (base, 0) :: bs = U ++ x :: y :: W → ∃ l, bs = l ++ y :: W ∧ (base, 0) :: l = U ++ [x].
Proof.
  destruct U as [|u U]; simpl; intros [= <- ->]; [by exists []|]. exists (U ++ [x]). by rewrite <- app_assoc.
Qed.

Lemma take_whole fuel pv p n bs s :
  heap_ok base bs s → pv ∈ ((base, 0) :: bs).*1 → ld64 (h_mem s) pv = p → ld64 (h_mem s) (p + 8) = n → 0 < n → p ≠ base →
  ∃ s' bs', malloc_loop (S fuel) n pv p s = Ret (p + UNIT) s' ∧ h_kern s' = h_kern s ∧ taken bs s p n bs' s'.
Proof.
  intros H Hpv Hp Hn Hn0 Hne. pose proof H as [HL Hfp Hsp Hb0 Htop].
  destruct (pred_split _ _ _ _ _ HL Hpv Hp Hne) as (U & j & W & E). rewrite Hn in E.
  destruct (ring_tail _ _ _ _ _ E) as (l & -> & El). pose proof Hsp as (S1 & S2 & S3 & S4 & S5)%spaced_app. cbn [fst snd] in *.
  destruct (ring_apart _ _ U (pv, j) ((p, n) :: W) Hsp E) as [A1 A2]. cbn [fst snd] in *.
  destruct (A2 (p, n)) as [A3 A3']; [constructor|]. cbn [fst] in A3, A3'.
  assert (Hpv0 : base <= pv).
  { destruct (heap_in base _ s (pv, j) H) as (? & _); [rewrite E; apply elem_of_app; right; constructor|done]. }
  rewrite E in HL. apply links_app in HL as [LU (Lv & Lj & Lp & Lk & LW)]. cbn [fst snd hd_addr] in *.
  set (m := st64 (h_mem s) pv (hd_addr W base)).
  assert (HW : 0 <= hd_addr W base < 2 ^ 64).
  { destruct W as [|w W]; simpl; [lia|]. destruct S5 as (? & ? & ? & _). lia. }
  assert (Hout : ∀ a, cover (l ++ (p, n) :: W) a ↔ cover (l ++ W) a ∨ in_block (p, n) a).
  { intros a. rewrite !cover_app, cover_cons. tauto. }
  exists (Heap m pv (h_kern s)), (l ++ W). split_and!; [|done|split].
  - cbn [malloc_loop]. rewrite (pbind_ok _ _ _ _ _ (size_of_run p s ltac:(lia))), Hn.
    rewrite (proj2 (Z.leb_le n n)), Z.eqb_refl by lia. rewrite (pbind_ok _ _ _ _ _ (ptr_of_run p s ltac:(lia))), Lp.
    rewrite (pbind_ok _ _ _ _ _ (set_ptr_run pv _ s ltac:(lia))). unfold set_freep. rewrite pbind_modify, hdr_add_small by lia.
    done.
  - assert (ER : (base, 0) :: l ++ W = U ++ (pv, j) :: W).
    { rewrite app_comm_cons, El, <- app_assoc. done. }
    assert (Hs' : spaced (base + UNIT) (l ++ W) (brk (h_kern s))).
    { destruct W as [|w W]; [rewrite app_nil_r; by eapply spaced_weaken; [| |exact S1]; lia|]. destruct S5 as (Q1 & Q2 & Q3 & Q4).
      apply spaced_app. split_and!; try done; [eapply spaced_weaken; [| |exact S1]; lia|lia]. }
    split; cbn [h_mem h_freep h_kern]; try done.
    + rewrite ER. apply links_app. split; [|split; [|split]].
      * apply (links_st _ _ pv); [lia|lia| |done]. intros x Hx. left. by apply A1.
      * cbn [fst]. unfold m. rewrite ld_st_eq. by apply word64.
      * cbn [fst snd]. unfold m. by rewrite ld_st_disj by lia.
      * apply (links_st _ _ pv); [lia|lia| |done]. intros x Hx. right. apply A2. by constructor.
    + rewrite ER, fmap_app. apply elem_of_app. right. constructor.
  - split; cbn [h_mem h_kern]; try done.
    + unfold m. by rewrite ld_st_disj by lia.
    + intros a Ha [Hl|HW']%cover_app.
      * pose proof (spaced_cover _ _ _ _ S1 Hl). unfold in_block in Ha. simpl in Ha. lia.
      * pose proof (spaced_cover _ _ _ _ S5 HW'). unfold in_block in Ha. simpl in Ha. lia.
  - done.
  - intros a Ha Hab. unfold m. cbn [h_mem]. apply rd8_st_other. intros Hpa. assert (Hin : (pv, j) ∈ (base, 0) :: l) by (rewrite El; apply elem_of_app; right; constructor).
    apply elem_of_cons in Hin as [[= -> ->]|Hin]; [lia|]. apply Ha, cover_app. left. exists (pv, j). split; [done|].
    destruct (spaced_in _ _ _ _ S1 Hin) as (_ & ? & _). unfold in_block. cbn [fst snd] in *. lia.
Qed.

Lemma take_tail fuel pv p k n bs s :
  heap_ok base bs s → pv ∈ ((base, 0) :: bs).*1 → ld64 (h_mem s) pv = p → ld64 (h_mem s) (p + 8) = k → 0 < n < k → p ≠ base →
  ∃ s' bs' b, malloc_loop (S fuel) n pv p s = Ret (b + UNIT) s' ∧ h_kern s' = h_kern s ∧ taken bs s b n bs' s'.
Proof.
  intros H Hpv Hp Hk Hn Hne. pose proof H as [HL Hfp Hsp Hb0 Htop].
  destruct (pred_split _ _ _ _ _ HL Hpv Hp Hne) as (U & j & W & E). rewrite Hk in E.
  destruct (ring_tail _ _ _ _ _ E) as (l & -> & El). pose proof Hsp as (S1 & S2 & S3 & S4 & S5)%spaced_app. cbn [fst snd] in *.
  assert (E' : (base, 0) :: l ++ (p, k) :: W = ((base, 0) :: l) ++ (p, k) :: W) by done.
  destruct (ring_apart _ _ _ _ _ Hsp E') as [A1 A2]. cbn [fst snd] in *.
  rewrite E' in HL. apply links_app in HL as [Ll (Lp & Lk & LW)]. cbn [fst snd hd_addr] in *.
  set (b := p + UNIT * (k - n)). set (m := st64 (st64 (h_mem s) (p + 8) (k - n)) (b + 8) n).
  assert (Hout : ∀ a, cover (l ++ (p, k) :: W) a ↔ cover (l ++ (p, k - n) :: W) a ∨ in_block (b, n) a).
  { intros a. rewrite !cover_app, !cover_cons. unfold in_block, b. simpl. intuition lia. }
  exists (Heap m pv (h_kern s)), (l ++ (p, k - n) :: W), b. split_and!; [|done|split].
  - cbn [malloc_loop]. rewrite (pbind_ok _ _ _ _ _ (size_of_run p s ltac:(lia))), Hk.
    rewrite (proj2 (Z.leb_le n k)), (proj2 (Z.eqb_neq k n)) by lia. cbv zeta. rewrite (u64_small (k - n)) by lia.
    rewrite (pbind_ok _ _ _ _ _ (set_size_run p _ s ltac:(lia))), (hdr_add_small p (k - n)) by lia. fold b.
    rewrite (pbind_ok _ _ _ _ _ (set_size_run b _ _ ltac:(unfold b; lia))). unfold set_freep.
    rewrite pbind_modify, hdr_add_small by (unfold b; lia). done.
  - assert (Hlow : ∀ x, x ∈ (base, 0) :: l → x.1 + UNIT <= p) by done.
    assert (Hup : ∀ x, x ∈ W → b + UNIT * n <= x.1) by (intros x Hx; destruct (A2 x Hx); unfold b; lia).
    assert (Hext : ∀ x a, x ∈ (base, 0) :: l ∨ x ∈ W → x.1 <= a < x.1 + UNIT → rd8 m a = rd8 (h_mem s) a).
    { intros x a [Hx|Hx] Ha; unfold m; [pose proof (Hlow x Hx)|pose proof (Hup x Hx)];
        rewrite !rd8_st_other by (unfold b in *; lia); done. }
    split; cbn [h_mem h_freep h_kern]; try done.
    + rewrite app_comm_cons. apply links_app. split; [|split; [|split]].
      * eapply links_ext; [|exact Ll]. intros x a Hx. apply Hext. by left.
      * cbn [fst]. unfold m. rewrite !ld_st_disj by (unfold b; lia). done.
      * cbn [fst snd]. unfold m. rewrite ld_st_disj by (unfold b; lia). rewrite ld_st_eq. apply word64. lia.
      * eapply links_ext; [|exact LW]. intros x a Hx. apply Hext. by right.
    + rewrite app_comm_cons, El, fmap_app. apply elem_of_app. left. rewrite fmap_app. apply elem_of_app. right. constructor.
    + apply spaced_app. cbn [fst snd]. split_and!; try done; try lia. eapply spaced_weaken; [| |exact S5]; lia.
  - split; cbn [h_mem h_kern]; try done; try (unfold b; lia).
    + unfold m. rewrite ld_st_eq. apply word64. lia.
    + intros a Ha. unfold in_block, b in Ha. cbn [fst snd] in Ha. rewrite cover_app, cover_cons. unfold in_block. cbn [fst snd].
      intros [Hl|[Hin|HW']]; [pose proof (spaced_cover _ _ _ _ S1 Hl)| |pose proof (spaced_cover _ _ _ _ S5 HW')]; lia.
  - done.
  - intros a Ha Hab. unfold m. cbn [h_mem]. rewrite !rd8_st_other; [done| |]; intros Hpa; apply Ha, cover_app; right;
      exists (p, k); (split; [constructor|]); unfold in_block, b in *; cbn [fst snd]; lia.
Qed.

(** Blocks that are too small are passed. *)
Lemma loop_skip n s z V2 fuel : ∀ V1 pv, path (h_mem s) pv (V1 ++ z :: V2) →
  (∀ x, x ∈ V1 → x.2 < n ∧ x.1 ≠ h_freep s ∧ x.1 ≠ 0) →
  malloc_loop (length V1 + fuel) n pv (ld64 (h_mem s) pv) s = malloc_loop fuel n (default pv (fst <$> last V1)) z.1 s.
Proof.
  intros V1. induction V1 as [|x V1 IH]; intros pv; [intros (-> & _) _; done|]. intros (Hx & Hs & HV) H.
  destruct (H x) as (H1 & H2 & H3); [constructor|]. cbn [length plus malloc_loop]. rewrite Hx.
  rewrite (pbind_ok _ _ _ _ _ (size_of_run x.1 s H3)), Hs, (proj2 (Z.leb_gt n x.2) H1). rewrite pbind_gets.
  rewrite (proj2 (Z.eqb_neq _ _) H2), (pbind_ok _ _ _ _ _ (ptr_of_run x.1 s H3)).
  rewrite (IH x.1 HV) by (intros y Hy; apply H; by constructor). f_equal.
  destruct V1 as [|y V1]; [done|]. rewrite last_cons_cons. destruct (last (y :: V1)) eqn:E; [done|]. by apply last_None in E.
Qed.

(** The ring from the block after [freep] to that of [freep]. *)
Lemma from_freep bs s : heap_ok base bs s → ∃ A f B, (base, 0) :: bs = A ++ f :: B ∧ f.1 = h_freep s ∧
  path (h_mem s) (h_freep s) ((B ++ A) ++ [f]) ∧ length (B ++ A) = length bs ∧
  (∀ x, x ∈ B ++ A → x ∈ (base, 0) :: bs ∧ x.1 ≠ h_freep s ∧ x.1 ≠ 0) ∧ f.1 ≠ 0.
Proof.
  intros H. pose proof H as [HL Hfp Hsp Hb0 Htop]. apply list_elem_of_fmap in Hfp as (f & Ef & Hf).
  apply list_elem_of_split in Hf as (A & B & E). exists A, f, B. destruct (ring_apart _ _ _ _ _ Hsp E) as [H1 H2].
  assert (Hin : ∀ x, x ∈ A ++ f :: B → x.1 ≠ 0) by (intros x Hx; rewrite <- E in Hx; destruct (heap_in base bs s x H Hx); lia).
  split_and!; [done|done| | | |].
  - rewrite <- app_assoc, Ef. rewrite E in HL. apply (ring_path _ _ _ _ base HL). destruct A; by injection E as <-.
  - apply (f_equal length) in E. rewrite length_app in E. simpl in E. rewrite length_app. lia.
  - intros x Hx. assert (Hx' : x ∈ A ++ f :: B) by (rewrite elem_of_app, elem_of_cons; apply elem_of_app in Hx as [?|?]; tauto).
    split_and!; [by rewrite E| |by apply Hin]. apply elem_of_app in Hx as [Hx|Hx]; rewrite Ef; [pose proof (proj1 (H2 x Hx))|pose proof (H1 x Hx)]; lia.
  - apply Hin, elem_of_app. right. constructor.
Qed.

Lemma first_fit n V : Exists (fits n) V → ∃ V1 z V2, V = V1 ++ z :: V2 ∧ (∀ x, x ∈ V1 → x.2 < n) ∧ fits n z.
Proof.
  induction 1 as [x V Hx|x V _ (V1 & z & V2 & -> & H1 & H2)].
  - exists [], x, V. split_and!; [done|by intros y ?%elem_of_nil|done].
  - destruct (decide (fits n x)) as [Hx|Hx].
    + exists [], x, (V1 ++ z :: V2). split_and!; [done|by intros y ?%elem_of_nil|done].
    + exists (x :: V1), z, V2. split_and!; [done| |done]. intros y [->|Hy]%elem_of_cons; [unfold fits in Hx; lia|by apply H1].
Qed.

Lemma loop_fits fuel n bs s :
  heap_ok base bs s → 0 < n → Exists (fits n) bs → (length bs < fuel)%nat →
  ∃ s' bs' b, malloc_loop fuel n (h_freep s) (ld64 (h_mem s) (h_freep s)) s = Ret (b + UNIT) s' ∧
    h_kern s' = h_kern s ∧ taken bs s b n bs' s'.
Proof.
  intros H Hn He Hf. destruct (from_freep bs s H) as (A & f & B & E & Ef & HP & Hlen & Hin & Hf0).
  assert (He' : Exists (fits n) ((B ++ A) ++ [f])).
  { apply Exists_exists in He as (x & Hx & Hfit). apply Exists_exists. exists x. split; [|done].
    assert (Hx' : x ∈ A ++ f :: B) by (rewrite <- E; by constructor). revert Hx'.
    rewrite !elem_of_app, !elem_of_cons, elem_of_nil. tauto. }
  destruct (first_fit n _ He') as (V1 & [p k] & V2 & EV & Hsmall & Hfit). unfold fits in Hfit. cbn [snd] in Hfit.
  assert (HV1 : ∀ x, x ∈ V1 → x ∈ B ++ A).
  { destruct V2 as [|v V2 _] using rev_ind.
    - apply app_inj_tail in EV as [<- _]. done.
    - rewrite app_comm_cons, app_assoc in EV. apply app_inj_tail in EV as [-> _]. intros x Hx. apply elem_of_app. by left. }
  assert (Hl1 : (length V1 <= length bs)%nat).
  { apply (f_equal length) in EV. rewrite !length_app in EV. simpl in EV. rewrite length_app in Hlen. lia. }
  rewrite EV in HP. pose proof HP as [_ (Hp & Hk & _)]%path_app. cbn [fst snd] in *.
  set (pv := default (h_freep s) (fst <$> last V1)) in *.
  assert (Hpv : pv ∈ ((base, 0) :: bs).*1).
  { unfold pv. destruct (last V1) as [x|] eqn:El; [|apply H]. change (x.1 ∈ ((base, 0) :: bs).*1). apply list_elem_of_fmap. exists x. split; [done|].
    apply Hin, HV1. apply last_Some in El as [V' ->]. apply elem_of_app. right. constructor. }
  assert (Hne : p ≠ base).
  { assert (Hz : (p, k) ∈ (base, 0) :: bs).
    { rewrite E. assert (Hz : (p, k) ∈ (B ++ A) ++ [f]) by (rewrite EV; apply elem_of_app; right; constructor). revert Hz.
      rewrite !elem_of_app, !elem_of_cons, elem_of_nil. tauto. }
    apply elem_of_cons in Hz as [[= -> ->]|Hz]; [lia|]. destruct (spaced_in _ _ _ _ (ho_spaced _ _ _ H) Hz). cbn [fst] in *. lia. }
  replace fuel with (length V1 + S (fuel - S (length V1)))%nat by lia.
  rewrite (loop_skip n s (p, k) V2 _ V1 _ HP) by (intros x Hx; split; [by apply Hsmall|apply Hin; by apply HV1]).
  cbn [fst]. fold pv. destruct (decide (k = n)) as [->|Hne'].
  - destruct (take_whole (fuel - S (length V1)) pv p n bs s) as (s' & bs' & ? & ? & ?); try done. by exists s', bs', p.
  - apply (take_tail (fuel - S (length V1)) pv p k n bs s); try done. lia.
Qed.

(** Without a block that fits, the loop comes round to [freep]. *)
Lemma loop_round fuel n bs s :
  heap_ok base bs s → 0 < n → Forall (λ x, x.2 < n) bs →
  malloc_loop (length bs + S fuel) n (h_freep s) (ld64 (h_mem s) (h_freep s)) s =
    (p <- morecore fuel n ;; if p =? 0 then ret 0 else q <- ptr_of p ;; malloc_loop fuel n p q)%prog s.
Proof.
  intros H Hn Hsm. destruct (from_freep bs s H) as (A & f & B & E & Ef & HP & Hlen & Hin & Hf0).
  assert (Hsmall : ∀ x, x ∈ (base, 0) :: bs → x.2 < n).
  { intros x [->|Hx]%elem_of_cons; [done|]. exact (proj1 (Forall_forall _ _) Hsm x Hx). }
  rewrite <- Hlen. rewrite (loop_skip n s f [] (S fuel) (B ++ A) _ HP).
  - cbn [malloc_loop]. pose proof HP as [_ (_ & Hk & _)]%path_app.
    rewrite (pbind_ok _ _ _ _ _ (size_of_run f.1 s Hf0)), Hk. rewrite (proj2 (Z.leb_gt n f.2)).
    + by rewrite pbind_gets, Ef, Z.eqb_refl.
    + apply Hsmall. rewrite E. apply elem_of_app. right. constructor.
  - intros x Hx. destruct (Hin x Hx) as (H1 & H2 & H3). split_and!; [by apply Hsmall|done|done].
Qed.
End taking.

(** ** Asking the kernel for more *)

Section growing.
Context {K : Type} {HS : Sbrk K} {HSok : SbrkOk K} (base : Z).
Implicit Types (s : heap (K := K)) (bs : list block) (b n p : Z).

(** The heap when only bytes of no block and the kernel's state changed. *)
Lemma heap_ok_grow bs s m k :
  heap_ok base bs s → (∀ a, a < brk (h_kern s) → rd8 m a = rd8 (h_mem s) a) → brk (h_kern s) <= brk k < 2 ^ 40 →
  heap_ok base bs (Heap m (h_freep s) k).
Proof.
  intros H Hm Hk. pose proof H as [HL Hfp Hsp Hb0 Htop]. split; cbn [h_mem h_freep h_kern]; try done; try lia.
  - eapply links_ext; [|exact HL]. intros x a Hx Ha. apply Hm. destruct (heap_in base bs s x H Hx). lia.
  - eapply spaced_weaken; [| |exact Hsp]; lia.
Qed.

(** What a call changes for the blocks in use: nothing. *)
Lemma held_kept bs s bs' s' c k :
  base + UNIT <= brk (h_kern s) → brk (h_kern s) <= brk (h_kern s') → held base bs s c k →
  (∀ a, a < brk (h_kern s) → ¬ cover bs a → ¬ (base <= a < base + UNIT) → rd8 (h_mem s') a = rd8 (h_mem s) a) →
  (∀ a, in_block (c, k) a → ¬ cover bs' a) →
  held base bs' s' c k ∧ ∀ a, in_block (c, k) a → rd8 (h_mem s') a = rd8 (h_mem s) a.
Proof.
  intros Hb Hk [H1 H2 H3 H4 H5] Hm Hc.
  assert (Hsame : ∀ a, in_block (c, k) a → rd8 (h_mem s') a = rd8 (h_mem s) a).
  { intros a Ha. apply Hm; [|by apply H5|]; unfold in_block in Ha; cbn [fst snd] in Ha; lia. }
  split; [|done]. split; try done; [lia|]. rewrite <- H4. apply ld_ext. intros i Hi. apply Hsame. unfold in_block. cbn [fst snd]. lia.
Qed.

Lemma morecore_run fuel n bs s :
  heap_ok base bs s → 0 < n → UNIT * n < 2 ^ 31 → brk (h_kern s) + UNIT * Z.max n MINALLOC < 2 ^ 40 → (length bs < fuel)%nat →
  let N := Z.max n MINALLOC in
  ∃ s', brk (h_kern s) <= brk (h_kern s') ∧
    (morecore fuel n s = Ret 0 s' ∧ heap_ok base bs s' ∧ (∀ a, a < brk (h_kern s) → rd8 (h_mem s') a = rd8 (h_mem s) a) ∨
     morecore fuel n s = Ret (h_freep s') s' ∧ heap_ok base (insert_block (brk (h_kern s), N) bs) s' ∧
       brk (h_kern s') = brk (h_kern s) + UNIT * N ∧
       ∀ a, a < brk (h_kern s) → ¬ cover bs a → ¬ (base <= a < base + UNIT) → rd8 (h_mem s') a = rd8 (h_mem s) a).
Proof.
  intros H Hn Hi Hb Hf. cbv zeta. pose proof (ho_top _ _ _ H) as Htop. pose proof (ho_base _ _ _ H) as Hb0.
  unfold morecore. replace (if n <? MINALLOC then MINALLOC else n) with (Z.max n MINALLOC)
    by (destruct (Z.ltb_spec n MINALLOC); lia). set (N := Z.max n MINALLOC) in *. unfold MINALLOC in *. cbv zeta.
  rewrite i32_small by lia. destruct (sbrk_ok (UNIT * N) (h_kern s) (h_mem s)) as (p & k' & m' & E & Hm & Hk & Hp); [lia|lia|lia|].
  set (s1 := Heap m' (h_freep s) k'). assert (H1 : heap_ok base bs s1) by (apply heap_ok_grow; [done|done|lia]).
  assert (E1 : zoom of_kern (sbrk (UNIT * N)) s = Ret p s1) by (rewrite (zoom_ok of_kern _ s _ _ E); done).
  destruct (decide (p = 0)) as [->|Hp0].
  - exists s1. split; [cbn; lia|]. left. by rewrite (pbind_ok _ _ _ _ _ E1).
  - destruct Hp as [|[-> Hk']]; [done|]. set (b := brk (h_kern s)) in *.
    set (s2 := set_mem (st64 m' (b + 8) N) s1).
    assert (H2 : heap_ok base bs s2).
    { pose proof H1 as [HL Hfp Hsp _ Ht1]. split; try done. cbn [h_mem s2 set_mem]. eapply links_ext; [|exact HL].
      intros x a Hx Ha. apply rd8_st_other. destruct (heap_in base bs s x H Hx) as (_ & ? & _). fold b in H0. lia. }
    assert (Hh : held base bs s2 b N).
    { split; cbn; [lia|lia|lia|rewrite ld_st_eq; apply word64; lia|]. intros a Ha Hc.
      pose proof (spaced_cover _ _ _ _ (ho_spaced _ _ _ H) Hc). unfold in_block in Ha. cbn [fst snd] in Ha. fold b in H0. lia. }
    destruct (free_run base fuel b N bs s2 H2 Hh Hf) as (m3 & p3 & E3 & H3 & F3). exists (Heap m3 p3 k').
    split; [cbn; lia|]. right. split_and!; [|done|done|].
    + rewrite (pbind_ok _ _ _ _ _ E1), (proj2 (Z.eqb_neq b 0)) by lia.
      rewrite (pbind_ok _ _ _ _ _ (set_size_run b N s1 ltac:(lia))). change (set_mem _ s1) with s2.
      rewrite hdr_add_small by lia. rewrite (pbind_ok _ _ _ _ _ E3). done.
    + intros a Ha Hc Hab. cbn [h_mem]. rewrite F3 by (done || lia). cbn [h_mem s2 set_mem].
      rewrite rd8_st_other by lia. by apply Hm.
Qed.

(** [malloc] may be called: the ring is in order, or there is none yet. *)
Definition malloc_ready bs s : Prop :=
  heap_ok base bs s ∨ h_freep s = 0 ∧ bs = [] ∧ 0 < base ∧ base + UNIT <= brk (h_kern s) < 2 ^ 40.

Lemma malloc_start bs s : malloc_ready bs s → ∃ s1, heap_ok base bs s1 ∧ h_kern s1 = h_kern s ∧
  (if h_freep s =? 0 then set_freep base ;; set_ptr base base ;; set_size base 0 else ret tt)%prog s = Ret tt s1 ∧
  ∀ a, ¬ (base <= a < base + UNIT) → rd8 (h_mem s1) a = rd8 (h_mem s) a.
Proof.
  intros [H|(-> & -> & Hb0 & Htop)].
  - exists s. split_and!; try done. rewrite (proj2 (Z.eqb_neq _ _)); [done|]. pose proof (ho_freep _ _ _ H) as Hf.
    apply list_elem_of_fmap in Hf as (x & -> & Hx). destruct (heap_in base bs s x H Hx). pose proof (ho_base _ _ _ H). lia.
  - rewrite Z.eqb_refl. unfold set_freep. rewrite pbind_modify.
    rewrite (pbind_ok _ _ _ _ _ (set_ptr_run base base _ ltac:(lia))), (set_size_run base 0 _ ltac:(lia)).
    eexists. split; [|split; [|split; [done|]]]; [|done|].
    + split; cbn; try done; [|constructor]. split_and!; [rewrite ld_st_disj by lia; rewrite ld_st_eq; apply word64; lia| |done].
      rewrite ld_st_eq. done.
    + intros a Ha. cbn. by rewrite !rd8_st_other by lia.
Qed.
End growing.

(** ** The allocator *)

Section outcome.
Context {K : Type} {HS : Sbrk K} {HSok : SbrkOk K} (base : Z).
Implicit Types (s : heap (K := K)) (bs : list block) (b c n k r : Z).

(** [malloc] returned [r]: NULL, or a block of [n] units that were free or come
    from the kernel. Blocks in use stay in use, apart from the new one, with
    their bytes unchanged. *)
Record malloc_post nbytes n bs s r bs' s' : Prop := {
  mp_heap : heap_ok base bs' s';
  mp_others : ∀ c k, held base bs s c k → held base bs' s' c k ∧
    (∀ a, in_block (c, k) a → rd8 (h_mem s') a = rd8 (h_mem s) a) ∧
    (r ≠ 0 → ∀ a, in_block (c, k) a → ¬ in_block (r - UNIT, n) a);
  mp_result :
    r = 0 ∧ bs' = bs ∧ Forall (λ x, x.2 < n) bs ∨
    r ≠ 0 ∧ nbytes <= UNIT * (n - 1) ∧ held base bs' s' (r - UNIT) n ∧
    (∀ a, cover bs a ∨ brk (h_kern s) <= a < brk (h_kern s') ↔ cover bs' a ∨ in_block (r - UNIT, n) a) ∧
    (Exists (λ x, n <= x.2) bs → h_kern s' = h_kern s)
}.

(** A block taken from free blocks [bs2] that hold no byte in use. *)
Lemma post_taken nbytes n bs s bs2 s2 s' bs' b :
  nbytes <= UNIT * (n - 1) → base + UNIT <= brk (h_kern s) → taken base bs2 s2 b n bs' s' → h_kern s' = h_kern s2 → brk (h_kern s) <= brk (h_kern s2) →
  (∀ a, cover bs2 a ↔ cover bs a ∨ brk (h_kern s) <= a < brk (h_kern s2)) →
  (∀ a, a < brk (h_kern s) → ¬ cover bs a → ¬ (base <= a < base + UNIT) → rd8 (h_mem s2) a = rd8 (h_mem s) a) →
  (Exists (λ x, n <= x.2) bs → h_kern s2 = h_kern s) → malloc_post nbytes n bs s (b + UNIT) bs' s'.
Proof.
  intros Hsz Hb [T1 T2 T3 T4] Hk Hle Hc Hm Hex. pose proof (held_low _ _ _ _ _ T2). pose proof (ho_base _ _ _ T1).
  split; [done| |]; replace (b + UNIT - UNIT) with b by lia.
  - intros c k Hh. assert (Hout : ∀ a, in_block (c, k) a → ¬ cover bs2 a).
    { intros a Ha [Hca|Hca]%Hc; [by apply (held_clear _ _ _ _ _ Hh a)|]. pose proof (held_top _ _ _ _ _ Hh).
      unfold in_block in Ha. cbn [fst snd] in Ha. lia. }
    destruct (held_kept base bs s bs' s' c k) as [K1 K2]; [lia|by rewrite Hk|done| | |].
    + intros a Ha Hca Hab. rewrite T4; [by apply Hm| |done]. rewrite Hc. intros [?|?]; [done|lia].
    + intros a Ha Hca. apply (Hout a Ha), T3. by left.
    + split_and!; [done|done|]. intros _ a Ha Hin. apply (Hout a Ha), T3. by right.
  - right. split_and!; [lia|done|done| |by rewrite Hk]. intros a. rewrite <- T3, Hc, Hk. done.
Qed.

Lemma post_none nbytes n bs s s' :
  base + UNIT <= brk (h_kern s) → heap_ok base bs s' → brk (h_kern s) <= brk (h_kern s') → Forall (λ x, x.2 < n) bs →
  (∀ a, a < brk (h_kern s) → ¬ (base <= a < base + UNIT) → rd8 (h_mem s') a = rd8 (h_mem s) a) →
  malloc_post nbytes n bs s 0 bs s'.
Proof.
  intros Hb H Hle Hsm Hm. split; [done| |by left]. intros c k Hh.
  destruct (held_kept base bs s bs s' c k) as [K1 K2]; [done|done|done| |by apply Hh|by split_and!].
  intros a Ha _ Hab. by apply Hm.
Qed.

Lemma freep_nonzero bs s : heap_ok base bs s → h_freep s ≠ 0.
Proof.
  intros H. pose proof (ho_freep _ _ _ H) as Hfp. apply list_elem_of_fmap in Hfp as (x & -> & Hx).
  destruct (heap_in base bs s x H Hx). pose proof (ho_base _ _ _ H). lia.
Qed.

(** No free block fits: one from the kernel. *)
Lemma malloc_more fuel nbytes n bs s s1 :
  heap_ok base bs s1 → h_kern s1 = h_kern s → (∀ a, ¬ (base <= a < base + UNIT) → rd8 (h_mem s1) a = rd8 (h_mem s) a) →
  0 < n → nbytes <= UNIT * (n - 1) → UNIT * n < 2 ^ 31 → brk (h_kern s) + UNIT * Z.max n MINALLOC < 2 ^ 40 →
  Forall (λ x, x.2 < n) bs → (2 * length bs + 4 <= fuel)%nat →
  ∃ r s' bs', malloc_loop fuel n (h_freep s1) (ld64 (h_mem s1) (h_freep s1)) s1 = Ret r s' ∧ malloc_post nbytes n bs s r bs' s'.
Proof.
  intros H1 Hk1 F1 Hn Hsz Hi Hb Hsm Hf. pose proof (ho_top _ _ _ H1) as Htop. pose proof (ho_spaced _ _ _ H1) as Hs1.
  replace fuel with (length bs + S (fuel - S (length bs)))%nat by lia. set (f2 := (fuel - S (length bs))%nat).
  assert (Hf2 : (length bs + 1 < f2)%nat) by (unfold f2; lia).
  rewrite (loop_round base f2 n bs s1 H1 Hn Hsm).
  destruct (morecore_run base f2 n bs s1 H1 Hn Hi) as (s2 & Hle & [(EM & H2 & M2)|(EM & H2 & Hk2 & M2)]); [by rewrite Hk1|lia| |];
    rewrite Hk1 in *.
  - exists 0, s2, bs. split; [by rewrite (pbind_ok _ _ _ _ _ EM)|]. apply post_none; [lia|done|done|done|].
    intros a Ha Hab. rewrite M2 by done. by apply F1.
  - set (N := Z.max n MINALLOC) in *. set (bs2 := insert_block (brk (h_kern s), N) bs) in *.
    assert (He2 : Exists (fits n) bs2).
    { destruct (insert_big _ _ (brk (h_kern s), N) bs Hs1) as (x & Hx & Hle2); [cbn; lia|]. apply Exists_exists. exists x.
      split; [done|]. unfold fits. cbn [snd] in Hle2. lia. }
    assert (Hl2 : (length bs2 < f2)%nat) by (unfold bs2; pose proof (length_insert_block (brk (h_kern s), N) bs); lia).
    destruct (loop_fits base f2 n bs2 s2 H2 Hn He2 Hl2) as (s' & bs' & b & EL & Hk & T). pose proof (freep_nonzero _ _ H2) as Hfp.
    exists (b + UNIT), s', bs'. split.
    + rewrite (pbind_ok _ _ _ _ _ EM), (proj2 (Z.eqb_neq _ _) Hfp), (pbind_ok _ _ _ _ _ (ptr_of_run _ s2 Hfp)). exact EL.
    + eapply (post_taken nbytes n bs s bs2 s2 s' bs' b); try done; [lia| | |].
      * intros a. unfold bs2. rewrite (insert_cover _ _ (brk (h_kern s), N) bs a Hs1) by (cbn; lia). unfold in_block. cbn [fst snd]. rewrite Hk2. tauto.
      * intros a Ha Hca Hab. rewrite M2 by done. by apply F1.
      * intros (x & Hx & Hfit)%Exists_exists. pose proof (proj1 (Forall_forall _ _) Hsm x Hx). cbn beta in *. lia.
Qed.

Lemma malloc_run fuel nbytes nb n bs s :
  malloc_ready base bs s → nbytes ≠ 0 → (nbytes +u64 (UNIT - 1)) / UNIT +u64 1 = n → 0 < n → nb <= UNIT * (n - 1) →
  UNIT * n < 2 ^ 31 → brk (h_kern s) + UNIT * Z.max n MINALLOC < 2 ^ 40 → (2 * length bs + 4 <= fuel)%nat →
  ∃ r s' bs', malloc base fuel nbytes s = Ret r s' ∧ malloc_post nb n bs s r bs' s'.
Proof.
  intros HR Hnb Hu Hn Hsz Hi Hb Hf. destruct (malloc_start base bs s HR) as (s1 & H1 & Hk1 & E1 & F1).
  pose proof (ho_top _ _ _ H1) as Htop. rewrite Hk1 in Htop.
  assert (E : malloc base fuel nbytes s = malloc_loop fuel n (h_freep s1) (ld64 (h_mem s1) (h_freep s1)) s1).
  { unfold malloc. rewrite (proj2 (Z.eqb_neq nbytes 0)) by lia. cbv zeta. rewrite pbind_gets, Hu.
    rewrite (pbind_ok _ _ _ _ _ E1), pbind_gets.
    by rewrite (pbind_ok _ _ _ _ _ (ptr_of_run (h_freep s1) s1 (freep_nonzero _ _ H1))). }
  rewrite E. destruct (decide (Exists (fits n) bs)) as [He|He].
  - destruct (loop_fits base fuel n bs s1 H1 Hn He ltac:(lia)) as (s' & bs' & b & EL & Hk & T). exists (b + UNIT), s', bs'.
    split; [done|]. apply (post_taken nb n bs s bs s1 s' bs' b); [done|lia|done|done|by rewrite Hk1| | |done].
    + intros a. rewrite Hk1. split; [by left|intros [?|?]; [done|lia]].
    + intros a _ _ Hab. by apply F1.
  - apply (malloc_more fuel nb n bs s s1); try done. apply Forall_forall. intros x Hx.
    destruct (decide (fits n x)) as [Hfit|Hfit]; [|unfold fits in Hfit; lia]. destruct He. apply Exists_exists. by exists x.
Qed.

(** A first block, whatever its header says, on the ring of [base] alone. *)
Lemma free_alone b n fuel s :
  0 < base → base + UNIT <= b → b < 2 ^ 40 → 0 <= n < 2 ^ 64 → hdr_add b n ≠ base → h_freep s = base →
  ld64 (h_mem s) base = base → ld64 (h_mem s) (base + 8) = 0 → (0 < fuel)%nat →
  ∃ m, (set_size b n ;; free fuel (hdr_add b 1) ;; gets h_freep)%prog s = Ret base (Heap m base (h_kern s)) ∧
    ld64 m base = b ∧ ld64 m b = base ∧ ld64 m (b + 8) = n.
Proof.
  intros Hb0 Hb Hbt Hn Hne Hf L1 L2 Hfu. destruct fuel as [|fuel]; [lia|].
  rewrite (pbind_ok _ _ _ _ _ (set_size_run b n s ltac:(lia))). set (s1 := set_mem _ s). unfold free.
  rewrite hdr_add_small by lia. rewrite (proj2 (Z.eqb_neq (b + UNIT * 1) 0)) by lia. rewrite hdr_add_small by lia.
  replace (b + UNIT * 1 + UNIT * -1) with b by lia. cbv zeta. rewrite pbind_assoc, pbind_gets. change (h_freep s1) with (h_freep s). rewrite Hf.
  assert (L1' : ld64 (h_mem s1) base = base) by (cbn; by rewrite ld_st_disj by lia).
  assert (L2' : ld64 (h_mem s1) (base + 8) = 0) by (cbn; by rewrite ld_st_disj by lia).
  assert (E : find_slot (S fuel) b base s1 = Ret base s1).
  { cbn [find_slot]. rewrite (pbind_ok _ _ _ _ _ (ptr_of_run base s1 ltac:(lia))), L1'.
    rewrite (proj2 (Z.ltb_lt base b)), (proj2 (Z.ltb_ge b base)), Z.leb_refl by lia. done. }
  rewrite pbind_assoc, (pbind_ok _ _ _ _ _ E), pbind_assoc, (pbind_ok _ _ _ _ _ (size_of_run b s1 ltac:(lia))).
  assert (Hs : ld64 (h_mem s1) (b + 8) = n) by (cbn; rewrite ld_st_eq; by apply word64).
  rewrite Hs, pbind_assoc, (pbind_ok _ _ _ _ _ (ptr_of_run base s1 ltac:(lia))), L1', (proj2 (Z.eqb_neq _ _) Hne).
  rewrite pbind_assoc, (pbind_ok _ _ _ _ _ (set_ptr_run b base s1 ltac:(lia))). set (s2 := set_mem _ s1).
  rewrite !pbind_assoc, (pbind_ok _ _ _ _ _ (size_of_run base s2 ltac:(lia))).
  assert (L2'' : ld64 (h_mem s2) (base + 8) = 0) by (cbn [s2 h_mem set_mem]; by rewrite ld_st_disj by lia).
  rewrite L2'', hdr_add_small by lia. rewrite (proj2 (Z.eqb_neq (base + UNIT * 0) b)) by lia.
  rewrite (pbind_ok _ _ _ _ _ (set_ptr_run base b s2 ltac:(lia))). eexists. split; [done|].
  cbn [h_mem set_mem]. split_and!; [rewrite ld_st_eq; apply word64; lia| |].
  - rewrite ld_st_disj by lia. cbn [s2 h_mem set_mem]. rewrite ld_st_eq. apply word64. lia.
  - rewrite ld_st_disj by lia. cbn [s2 h_mem set_mem]. rewrite ld_st_disj by lia. exact Hs.
Qed.
End outcome.

Module MallocProps.

Section claims.
Context {K : Type} {HS : Sbrk K} {HSok : SbrkOk K} (base : Z).
Implicit Types (s : heap (K := K)) (bs : list block) (b c n k r : Z).

(** C31: malloc. For a size whose block the kernel's [int] can express,
    [malloc] returns, with NULL only if no free block is large enough, or with a
    block of at least that size, all of which was free before or is new; when a
    free block was large enough the kernel is not asked. Every block in use stays
    in use, apart from the new one, with its bytes unchanged; no byte of the heap
    is lost; and the ring of free blocks is in order again. *)
Theorem malloc_correct fuel nbytes bs s :
  let n := (nbytes + (UNIT - 1)) / UNIT + 1 in
  malloc_ready base bs s → 0 < nbytes → UNIT * n < 2 ^ 31 →
  brk (h_kern s) + UNIT * Z.max n MINALLOC < 2 ^ 40 → (2 * length bs + 4 <= fuel)%nat →
  ∃ r s' bs', malloc base fuel nbytes s = Ret r s' ∧ malloc_post base nbytes n bs s r bs' s'.
Proof.
  intros n HR Hnb Hi Hb Hf. assert (Hn : 0 < n ∧ nbytes <= UNIT * (n - 1)) by (unfold n; zlia).
  apply (malloc_run base fuel nbytes nbytes n bs s); try done; try lia. rewrite (u64_small (nbytes + _)) by lia.
  apply u64_small. fold n. lia.
Qed.

(** C32: free. For a block in use, [free] returns, and the free blocks are then
    those of the reference [insert_block]: the block joined with the neighbours
    it touches, in address order. What is free is what was free and the block,
    and every other block in use is untouched. *)
Theorem free_correct fuel b n bs s :
  heap_ok base bs s → held base bs s b n → (length bs < fuel)%nat →
  ∃ s', free fuel (b + UNIT) s = Ret tt s' ∧ heap_ok base (insert_block (b, n) bs) s' ∧ h_kern s' = h_kern s ∧
    (∀ a, cover (insert_block (b, n) bs) a ↔ cover bs a ∨ in_block (b, n) a) ∧
    ∀ c k, held base bs s c k → (∀ a, in_block (c, k) a → ¬ in_block (b, n) a) →
      held base (insert_block (b, n) bs) s' c k ∧ ∀ a, in_block (c, k) a → rd8 (h_mem s') a = rd8 (h_mem s) a.
Proof.
  intros H Hh Hf. destruct (free_run base fuel b n bs s H Hh Hf) as (m & p & E & H' & F). pose proof Hh as [Hn Hlow Hbt Hsz Hcl].
  pose proof (ho_top _ _ _ H) as Htop.
  assert (Hc : ∀ a, cover (insert_block (b, n) bs) a ↔ cover bs a ∨ in_block (b, n) a).
  { intros a. rewrite (insert_cover _ _ (b, n) bs a (ho_spaced _ _ _ H)) by done. tauto. }
  eexists. split_and!; [exact E|done|done|done|]. intros c k Hck Hd.
  assert (Hsame : ∀ a, in_block (c, k) a → rd8 m a = rd8 (h_mem s) a).
  { intros a Ha. apply F; [by apply Hck| |].
    - destruct Hck. unfold in_block in Ha. cbn [fst snd] in Ha. lia.
    - intros Hba. apply (Hd a Ha). unfold in_block. cbn [fst snd]. lia. }
  split; [|done]. destruct Hck as [C1 C2 C3 C4 C5]. split; try done.
  - rewrite <- C4. apply ld_ext. intros i Hi. apply Hsame. unfold in_block. cbn [fst snd]. lia.
  - intros a Ha [Hca|Hca]%Hc; [by apply (C5 a)|by apply (Hd a)].
Qed.

(** Sizes that are too large. [malloc] computes the number of units modulo
    2^64 and hands it to the kernel as an [int]. For a size within 15 of 2^64 it
    returns a block of one unit, which has no byte after its header; for 2^32
    bytes, in a process without a heap, it asks for 16 bytes and returns the
    address where the heap it got ends. *)
Theorem malloc_overflows fuel nbytes bs s (kern : K) :
  (malloc_ready base bs s → 2 ^ 64 - 15 <= nbytes < 2 ^ 64 → brk (h_kern s) + UNIT * MINALLOC < 2 ^ 40 →
   (2 * length bs + 4 <= fuel)%nat →
   ∃ r s' bs', malloc base fuel nbytes s = Ret r s' ∧ malloc_post base 0 1 bs s r bs' s') ∧
  (h_freep s = 0 → 0 < base → base + UNIT <= brk (h_kern s) < 2 ^ 40 → brk kern = brk (h_kern s) + 16 →
   (∀ m, sbrk 16 (h_kern s, m) = Ret (brk (h_kern s)) (kern, m)) →
   ∃ s', malloc base (S (S fuel)) (2 ^ 32) s = Ret (brk (h_kern s')) s' ∧ h_kern s' = kern).
Proof.
  split.
  - intros HR Hnb Hb Hf. apply (malloc_run base fuel nbytes 0 1 bs s); try done; try lia.
    replace (nbytes +u64 (UNIT - 1)) with (nbytes + 15 - 2 ^ 64).
    + rewrite Z.div_small by lia. done.
    + unfold u64. replace (nbytes + (UNIT - 1)) with (nbytes + 15 - 2 ^ 64 + 1 * 2 ^ 64) by lia. rewrite Z.mod_add by done.
      symmetry. apply Z.mod_small. lia.
  - intros Hf0 Hb0 Htop Hk' Hsb. destruct (malloc_start base [] s) as (s1 & H1 & Hk1 & E1 & _); [by right|].
    assert (Hfp : h_freep s1 = base) by (pose proof (ho_freep _ _ _ H1) as [?|[]%elem_of_nil]%elem_of_cons; done).
    destruct (ho_links _ _ _ H1) as (L1 & L2 & _). cbn [fst snd hd_addr] in *.
    assert (E : malloc base (S (S fuel)) (2 ^ 32) s = malloc_loop (S (S fuel)) (2 ^ 28 + 1) base (ld64 (h_mem s1) base) s1).
    { unfold malloc. rewrite (proj2 (Z.eqb_neq (2 ^ 32) 0)) by done. cbv zeta. rewrite pbind_gets, (pbind_ok _ _ _ _ _ E1), pbind_gets, Hfp.
      by rewrite (pbind_ok _ _ _ _ _ (ptr_of_run base s1 ltac:(lia))). }
    pose proof (loop_round base (S fuel) (2 ^ 28 + 1) [] s1 H1 ltac:(done) ltac:(by constructor)) as ER. rewrite Hfp in ER.
    change (length [] + S (S fuel))%nat with (S (S fuel)) in ER. rewrite <- E in ER. rewrite ER.
    set (n := 2 ^ 28 + 1) in *. set (b := brk (h_kern s)) in *.
    assert (EM : morecore (S fuel) n s1 = (set_size b n ;; free (S fuel) (hdr_add b 1) ;; gets h_freep)%prog (Heap (h_mem s1) (h_freep s1) kern)).
    { unfold morecore. change (n <? MINALLOC) with false. cbv iota zeta. change (i32 (UNIT * n)) with 16.
      rewrite (pbind_ok _ _ _ _ _ (zoom_ok of_kern (sbrk 16) s1 b (kern, h_mem s1) ltac:(cbn; rewrite Hk1; apply Hsb))).
      by rewrite (proj2 (Z.eqb_neq b 0)) by lia. }
    destruct (free_alone base b n (S fuel) (Heap (h_mem s1) (h_freep s1) kern)) as (m & EF & M1 & M2 & M3); try done; try lia.
    { rewrite hdr_add_small by (unfold n; lia). unfold n. lia. }
    rewrite (pbind_ok _ _ _ _ _ (eq_trans EM EF)), (proj2 (Z.eqb_neq base 0)) by lia.
    rewrite (pbind_ok _ _ _ _ _ (ptr_of_run base _ ltac:(lia))). cbn [h_mem]. rewrite M1. cbn [malloc_loop].
    rewrite (pbind_ok _ _ _ _ _ (size_of_run b _ ltac:(lia))). cbn [h_mem]. rewrite M3, (proj2 (Z.leb_le n n)), Z.eqb_refl by done.
    rewrite (pbind_ok _ _ _ _ _ (ptr_of_run b _ ltac:(lia))). rewrite (pbind_ok _ _ _ _ _ (set_ptr_run base _ _ ltac:(lia))).
    rewrite hdr_add_small by lia. unfold set_freep. rewrite pbind_modify. unfold ret.
    eexists (Heap _ base kern). split; [|done]. f_equal. cbn [h_kern]. lia.
Qed.
End claims.

(** *** Witnesses *)

(** A heap that may grow up to a limit, as the kernel's [sbrk] does: a failing
    call moves the end as well. *)
Record room := Room { r_top : Z; r_limit : Z }.

#[export] Instance room_sbrk : Sbrk room := {|
  sbrk := λ incr '(k, m),
    if (0 <? incr) && (r_top k + incr <=? r_limit k) then Ret (r_top k) (Room (r_top k + incr) (r_limit k), m)
    else Ret 0 (Room (r_top k + incr) (r_limit k), m);
  brk := r_top
|}.

#[export] Instance room_sbrk_ok : SbrkOk room.
Proof.
  split. intros incr k m Hi Hk Hb. cbn. case_match; do 3 eexists; (split; [done|]); cbn; (split; [done|]); (split; [lia|]).
  - right. done.
  - by left.
Qed.

Definition bare : heap (K := room) := Heap ∅ 0 (Room 0x3000 0x10000).

Lemma bare_ready : malloc_ready 0x1800 [] bare.
Proof. right. by vm_compute. Qed.

Lemma malloc_correct_witness :
  ∃ s' bs', malloc 0x1800 4 24 bare = Ret (0x3000 + UNIT * 509 + UNIT) s' ∧ heap_ok 0x1800 bs' s'.
Proof.
  destruct (malloc_correct 0x1800 4 24 [] bare bare_ready) as (r & s' & bs' & E & [H _ _]).
  - lia.
  - vm_compute. reflexivity.
  - vm_compute. reflexivity.
  - simpl. lia.
  - exists s', bs'. split; [|exact H]. rewrite E.
    assert (Er : (match malloc 0x1800 4 24 bare with Ret r _ => r | _ => 0 end) = r) by (rewrite E; reflexivity).
    rewrite <- Er. vm_compute. reflexivity.
Defined.

Lemma one_block : ∃ s bs b, heap_ok 0x1800 bs s ∧ held 0x1800 bs s b 3.
Proof.
  destruct (malloc_run 0x1800 4 24 24 3 [] bare bare_ready) as (r & s' & bs' & E & [H _ [(Hr & _)|(_ & _ & Hh & _)]]).
  - lia.
  - vm_compute. reflexivity.
  - lia.
  - lia.
  - vm_compute. reflexivity.
  - vm_compute. reflexivity.
  - simpl. lia.
  - exfalso. assert (Er : (match malloc 0x1800 4 24 bare with Ret r _ => r | _ => 0 end) = r) by (rewrite E; reflexivity).
    rewrite Hr in Er. revert Er. vm_compute. discriminate.
  - exists s', bs', (r - UNIT). split; [exact H|exact Hh].
Qed.

Lemma free_correct_witness :
  ∃ s bs b s', held 0x1800 bs s b 3 ∧ free (S (length bs)) (b + UNIT) s = Ret tt s' ∧
    heap_ok 0x1800 (insert_block (b, 3) bs) s'.
Proof.
  destruct one_block as (s & bs & b & H & Hh).
  destruct (free_correct 0x1800 (S (length bs)) b 3 bs s H Hh) as (s' & E & H' & _); [lia|].
  exists s, bs, b, s'. split; [exact Hh|]. split; [exact E|exact H'].
Defined.

Lemma malloc_overflows_witness :
  (∃ r s' bs', malloc 0x1800 4 (2 ^ 64 - 1) bare = Ret r s' ∧ malloc_post 0x1800 0 1 [] bare r bs' s') ∧
  ∃ s', malloc 0x1800 3 (2 ^ 32) bare = Ret 0x3010 s'.
Proof.
  split.
  - apply (proj1 (malloc_overflows 0x1800 4 (2 ^ 64 - 1) [] bare (Room 0x3010 0x10000))).
    + exact bare_ready.
    + lia.
    + vm_compute. reflexivity.
    + simpl. lia.
  - destruct (proj2 (malloc_overflows 0x1800 1 0 [] bare (Room 0x3010 0x10000))) as (s' & E & Hk).
    + reflexivity.
    + lia.
    + vm_compute. split; [discriminate|reflexivity].
    + reflexivity.
    + intros m. reflexivity.
    + exists s'. rewrite E, Hk. reflexivity.
Defined.
End MallocProps.
