(* ===== verification/Shell.v ===== *)
(** * The shell's command line (usr/sh.c, with [strchr] and [strtok] of usr/ulib.c)

    A command is split in place into the words of [argv].  A string literal is
    the list of its characters with the NUL; the command and [argv] are in the
    memory of the process, and [strtok] keeps its place in [save]. *)

From S2P Require Import Prelude Mem KString.
Open Scope Z_scope.
Open Scope prog_scope.

(** The memory of the process and the static variable of [strtok]. *)
Record sh := Sh { sh_mem : mem; save : Z }.

(** Whether [strchr(s, c)] is not NULL. *)
Fixpoint strchr {S} (s : list Z) (c : Z) : prog S bool :=
  match s with
  | [] => fault "strchr"
  | x :: s => if x =? 0 then ret false else if x =? c then ret true else strchr s c
  end.

(** The loop of [strtok], from [s1] on, for the token at [s]. *)
Fixpoint strtok_loop (fuel : nat) (s s1 : Z) (s2 : list Z) : prog sh Z :=
  match fuel with
  | O => λ _, Hang
  | S fuel =>
      c <- gets (λ t, rd8 (sh_mem t) s1) ;;
      if c =? 0 then ret 0 else
      f <- strchr s2 c ;;
      if f : bool then
        modify (λ t, Sh (wr8 (sh_mem t) s1 0) (s1 + 1)) ;;
        ret s
      else strtok_loop fuel s (s1 + 1) s2
  end.

Definition strtok (fuel : nat) (s1 : Z) (s2 : list Z) : prog sh Z :=
  (if s1 =? 0 then ret tt else modify (λ t, Sh (sh_mem t) s1)) ;;
  s <- gets save ;;
  strtok_loop fuel s s s2.

(** [" \n\t"] *)
Definition ws : list Z := [32; 10; 9; 0].

Fixpoint skip_ws (fuel : nat) (cmd : Z) : prog sh Z :=
  match fuel with
  | O => λ _, Hang
  | S fuel =>
      c <- gets (λ t, rd8 (sh_mem t) cmd) ;;
      f <- strchr ws c ;;
      if f : bool then skip_ws fuel (cmd + 1) else ret cmd
  end.

(** [argv[i] = v] *)
Definition set_argv (argv i v : Z) : prog sh unit :=
  modify (λ t, Sh (st64 (sh_mem t) (argv + 8 * i) v) (save t)).

(** [while((tok = strtok(NULL, ws))) argv[argc++] = tok;] *)
Fixpoint parse_loop (fuel : nat) (argv argc : Z) : prog sh Z :=
  match fuel with
  | O => λ _, Hang
  | S fuel' =>
      tok <- strtok fuel 0 ws ;;
      if tok =? 0 then ret argc else
      set_argv argv argc tok ;;
      parse_loop fuel' argv (argc + 1)
  end.

Definition parse (fuel : nat) (cmd argv : Z) : prog sh Z :=
  cmd <- skip_ws fuel cmd ;;
  tok <- strtok fuel cmd ws ;;
  set_argv argv 0 tok ;;
  argc <- parse_loop fuel argv 1 ;;
  set_argv argv argc 0 ;;
  a0 <- gets (λ t, ld64 (sh_mem t) argv) ;;
  if a0 =? 0 then ret (-1) else ret argc.

(** ** Words *)

Definition delim (c : Z) : bool := (c =? 32) || (c =? 10) || (c =? 9).

(** Up to the first delimiter, and after it. *)
Fixpoint cut (l : list Z) : option (list Z * list Z) :=
  match l with
  | [] => None
  | c :: l => if delim c then Some ([], l) else
      match cut l with Some (w, r) => Some (c :: w, r) | None => None end
  end.

Fixpoint drop_ws (l : list Z) : list Z :=
  match l with c :: l' => if delim c then drop_ws l' else l | [] => [] end.

(** The fields of a line: what precedes each delimiter. What follows the last
    one is no field, and two delimiters in a row have an empty field between
    them. *)
Fixpoint fields (n : nat) (l : list Z) : list (list Z) :=
  match n with
  | O => []
  | S n => match cut l with Some (w, r) => w :: fields n r | None => [] end
  end.

Definition words (l : list Z) : list (list Z) := fields (length l) l.

Section words.
Implicit Types (m : mem) (l w r : list Z) (t : sh) (p : Z) (fuel : nat).

Lemma strchr_ws {S} c (s : S) : c ≠ 0 → strchr ws c s = Ret (delim c) s.
Proof.
  intros Hc. unfold delim, ws. cbn [strchr]. rewrite (Z.eqb_sym c 32), (Z.eqb_sym c 10), (Z.eqb_sym c 9).
  change (32 =? 0) with false. change (10 =? 0) with false. change (9 =? 0) with false. change (0 =? 0) with true. cbn iota.
  by destruct (32 =? c), (10 =? c), (9 =? c).
Qed.

Lemma cut_app l w r : cut l = Some (w, r) → ∃ d, l = w ++ d :: r ∧ delim d = true.
Proof.
  revert w. induction l as [|c l IH]; intros w; [done|]. cbn [cut]. case_match eqn:E.
  - intros [= <- <-]. by exists c.
  - case_match; [|done]. case_match. subst. intros [= <- <-]. destruct (IH _ eq_refl) as (d & -> & Hd). by exists d.
Qed.

Lemma fields_fuel n l : (length l <= n)%nat → fields n l = words l.
Proof.
  unfold words. assert (H : ∀ k n l, (length l <= k)%nat → (length l <= n)%nat → fields n l = fields k l).
  { clear n l. intros k. induction k as [|k IH]; intros n l Hk Hn; destruct l as [|c l]; cbn [length] in *; try lia; destruct n; try done; try lia.
    cbn [fields]. destruct (cut (c :: l)) as [[w r]|] eqn:E; [|done]. f_equal.
    apply cut_app in E as (d & E & _). apply (f_equal length) in E. rewrite length_app in E. simpl in E. apply IH; lia. }
  intros. by apply H.
Qed.

Lemma words_cut l : words l = match cut l with Some (w, r) => w :: words r | None => [] end.
Proof.
  unfold words at 1. destruct l as [|c l]; [done|]. cbn [length fields]. destruct (cut (c :: l)) as [[w r]|] eqn:E; [|done]. f_equal.
  apply fields_fuel. apply cut_app in E as (d & E & _). apply (f_equal length) in E. rewrite length_app in E. simpl in E. lia.
Qed.

Lemma cut_cstr m p l w r : cut l = Some (w, r) → cstr m p l →
  cstr (wr8 m (p + length w) 0) p w ∧ cstr (wr8 m (p + length w) 0) (p + length w + 1) r.
Proof.
  revert p w. induction l as [|c l IH]; intros p w; [done|]. cbn [cut]. intros H (H1 & H2 & H3). destruct (delim c).
  - injection H as <- <-. cbn [length cstr]. rewrite Z.add_0_r. split; [by rewrite rd8_wr8_eq|].
    eapply cstr_ext; [|exact H3]. intros i Hi. apply rd8_wr8_ne. lia.
  - destruct (cut l) as [[w' r']|]; [|done]. injection H as <- <-. destruct (IH (p + 1) w' eq_refl H3) as [J1 J2]. cbn [length].
    replace (p + S (length w')) with (p + 1 + length w') by lia. split; [|done]. cbn [cstr]. split_and!; [|done|done].
    rewrite rd8_wr8_ne by lia. done.
Qed.

Lemma strtok_loop_run l : ∀ fuel s p t, cstr (sh_mem t) p l → (length l < fuel)%nat →
  strtok_loop fuel s p ws t = match cut l with
    | Some (w, _) => Ret s (Sh (wr8 (sh_mem t) (p + length w) 0) (p + length w + 1))
    | None => Ret 0 t end.
Proof.
  induction l as [|c l IH]; intros fuel s p t H Hf; (destruct fuel as [|fuel]; [simpl in Hf; lia|]); cbn [strtok_loop cut]; rewrite pbind_gets.
  - simpl in H. by rewrite H.
  - destruct H as (-> & Hc & H). rewrite (proj2 (Z.eqb_neq c 0) Hc), (pbind_ok _ _ _ _ _ (strchr_ws c t Hc)). destruct (delim c).
    + cbn [length]. rewrite Z.add_0_r. done.
    + rewrite IH by (done || simpl in Hf; lia). destruct (cut l) as [[w r]|]; [|done]. cbn [length].
      by replace (p + S (length w)) with (p + 1 + length w) by lia.
Qed.

Lemma skip_ws_run l : ∀ fuel p t, cstr (sh_mem t) p l → (length l < fuel)%nat →
  ∃ k : nat, skip_ws fuel p t = Ret (p + k) t ∧ cstr (sh_mem t) (p + k) (drop_ws l) ∧ (k + length (drop_ws l) = length l)%nat.
Proof.
  induction l as [|c l IH]; intros fuel p t H Hf; (destruct fuel as [|fuel]; [simpl in Hf; lia|]); cbn [skip_ws drop_ws]; rewrite pbind_gets.
  - exists 0%nat. rewrite Z.add_0_r. simpl in H. rewrite H. by split.
  - pose proof H as (E & Hc & H'). rewrite E, (pbind_ok _ _ _ _ _ (strchr_ws c t Hc)). destruct (delim c).
    + destruct (IH fuel (p + 1) t H') as (k & K1 & K2 & K3); [simpl in Hf; lia|]. exists (S k).
      replace (p + S k) with (p + 1 + k) by lia. split_and!; [done|done|simpl; lia].
    + exists 0%nat. rewrite Z.add_0_r. by split.
Qed.

(** The entries of [argv] from [argc] on point at the words [W], inside
    [lo] to [hi]. *)
Fixpoint argv_at (lo hi : Z) m (argv argc : Z) (W : list (list Z)) : Prop :=
  match W with
  | [] => True
  | w :: W => let p := ld64 m (argv + 8 * argc) in
      (lo <= p ∧ p + length w <= hi) ∧ cstr m p w ∧ argv_at lo hi m argv (argc + 1) W
  end.

Lemma argv_at_ext lo hi lo' hi' m m' argv argc W :
  (∀ a, argv + 8 * argc <= a < argv + 8 * (argc + length W) → rd8 m' a = rd8 m a) →
  (∀ a, lo <= a <= hi → rd8 m' a = rd8 m a) → lo' <= lo → hi <= hi' →
  argv_at lo hi m argv argc W → argv_at lo' hi' m' argv argc W.
Proof.
  revert argc. induction W as [|w W IH]; intros argc H1 H2 Hlo Hhi; [done|]. intros (A1 & A2 & A3). cbn [argv_at length] in *.
  assert (E : ld64 m' (argv + 8 * argc) = ld64 m (argv + 8 * argc)) by (apply ld_ext; intros i Hi; apply H1; lia).
  rewrite E. split_and!; [lia|lia| |].
  - eapply cstr_ext; [|exact A2]. intros i Hi. apply H2. lia.
  - apply IH; try done. intros a Ha. apply H1. lia.
Qed.

(** The bytes a call may change: the line at [p] and [n] entries of [argv]. *)
Definition but_line m m' p (len : Z) argv argc (n : Z) : Prop :=
  ∀ a, ¬ (p <= a <= p + len) → ¬ (argv + 8 * argc <= a < argv + 8 * (argc + n)) → rd8 m' a = rd8 m a.

(** One word: cut off and stored. *)
Lemma store_word m p l w r argv argc :
  cut l = Some (w, r) → cstr m p l → 0 < p → p + length l < 2 ^ 64 → 0 <= argv → 0 <= argc →
  argv + 8 * (argc + 1) <= p ∨ p + length l < argv + 8 * argc →
  let m' := st64 (wr8 m (p + length w) 0) (argv + 8 * argc) p in
  ld64 m' (argv + 8 * argc) = p ∧ cstr m' p w ∧ cstr m' (p + length w + 1) r ∧
  (length w + 1 + length r = length l)%nat ∧ but_line m m' p (length l) argv argc 1.
Proof.
  intros Hc Hs Hp Hb Ha Hac Hd m'. destruct (cut_cstr m p l w r Hc Hs) as [J1 J2].
  assert (Hl : (length w + 1 + length r = length l)%nat).
  { apply cut_app in Hc as (d & -> & _). rewrite length_app. simpl. lia. }
  split_and!; [| | |done|].
  - unfold m'. rewrite ld_st_eq. apply Z.mod_small. split; [lia|]. change (256 ^ 8%nat) with (2 ^ 64). lia.
  - eapply cstr_ext; [|exact J1]. intros i Hi. apply rd8_st_other. lia.
  - eapply cstr_ext; [|exact J2]. intros i Hi. apply rd8_st_other. lia.
  - intros a H1 H2. unfold m'. rewrite rd8_st_other by lia. apply rd8_wr8_ne. lia.
Qed.

Lemma strtok_next fuel l t : cstr (sh_mem t) (save t) l → (length l < fuel)%nat →
  strtok fuel 0 ws t = match cut l with
    | Some (w, _) => Ret (save t) (Sh (wr8 (sh_mem t) (save t + length w) 0) (save t + length w + 1))
    | None => Ret 0 t end.
Proof. intros. unfold strtok. cbn [Z.eqb]. rewrite pbind_ret_l, pbind_gets. by apply strtok_loop_run. Qed.

Lemma parse_loop_run : ∀ fuel argv argc l t,
  cstr (sh_mem t) (save t) l → (length l < fuel)%nat → 0 < save t → save t + length l < 2 ^ 64 → 0 <= argv → 0 <= argc →
  argv + 8 * (argc + length (words l)) <= save t ∨ save t + length l < argv + 8 * argc →
  ∃ t', parse_loop fuel argv argc t = Ret (argc + length (words l)) t' ∧
    argv_at (save t) (save t + length l) (sh_mem t') argv argc (words l) ∧
    but_line (sh_mem t) (sh_mem t') (save t) (length l) argv argc (length (words l)).
Proof.
  induction fuel as [|fuel IH]; intros argv argc l t Hs Hf Hp Hb Ha Hac Hd; [lia|]. cbn [parse_loop].
  rewrite words_cut in *. destruct (cut l) as [[w r]|] eqn:E.
  - cbn [length] in Hd. destruct (store_word (sh_mem t) (save t) l w r argv argc E Hs Hp Hb Ha Hac) as (S1 & S2 & S3 & S4 & S5); [lia|].
    set (m2 := st64 _ (argv + 8 * argc) _) in *. pose proof (strtok_next (S fuel) l t Hs Hf) as Et. rewrite E in Et.
    rewrite (pbind_ok _ _ _ _ _ Et), (proj2 (Z.eqb_neq (save t) 0)) by lia. unfold set_argv. rewrite pbind_modify. cbn [sh_mem save].
    set (t2 := Sh m2 (save t + length w + 1)). destruct (IH argv (argc + 1) r t2 S3) as (t' & E' & A' & F'); cbn [t2 save sh_mem] in *; try lia.
    exists t'. split; [cbn [length]; replace (argc + S (length (words r))) with (argc + 1 + length (words r)) by lia; exact E'|].
    assert (Eq : ld64 (sh_mem t') (argv + 8 * argc) = save t) by (rewrite <- S1; apply ld_ext; intros i Hi; apply F'; lia). split.
    + cbn [argv_at]. cbv zeta. rewrite Eq. split_and!; [lia|lia| |].
      * eapply cstr_ext; [|exact S2]. intros i Hi. apply F'; lia.
      * eapply argv_at_ext; [done|done| | |exact A']; lia.
    + intros a H1 H2. cbn [length] in H2. rewrite F' by lia. apply S5; lia.
  - pose proof (strtok_next (S fuel) l t Hs Hf) as Et. rewrite E in Et. rewrite (pbind_ok _ _ _ _ _ Et). cbn [Z.eqb].
    exists t. cbn [length]. rewrite Z.add_0_r. by split_and!.
Qed.
End words.

Module ShellProps.

Section claims.
Implicit Types (l : list Z) (t : sh) (fuel : nat) (cmd argv : Z).

(** A command line. [parse] returns the number of fields of the line, or
    -1 if there is none: the entries of [argv] point at the fields, each ended by
    a NUL, and NULL follows the last. Only the line and the entries up to that
    NULL change. However many fields there are, they are stored: with eight or
    more the NULL is stored after the eight entries the shell has. *)
Theorem parse_correct fuel cmd argv l t :
  let W := words (drop_ws l) in let n := Z.max 2 (length W + 1) in
  cstr (sh_mem t) cmd l → (length l < fuel)%nat → 0 < cmd → cmd + length l < 2 ^ 64 → 0 <= argv →
  argv + 8 * n <= cmd ∨ cmd + length l < argv →
  ∃ t', parse fuel cmd argv t = Ret (if decide (W = []) then -1 else Z.of_nat (length W)) t' ∧
    argv_at cmd (cmd + length l) (sh_mem t') argv 0 W ∧ ld64 (sh_mem t') (argv + 8 * length W) = 0 ∧
    but_line (sh_mem t) (sh_mem t') cmd (length l) argv 0 n.
Proof.
  intros W n Hs Hf Hp Hb Ha Hd. destruct (skip_ws_run l fuel cmd t Hs Hf) as (k & Ek & Hk & Hlen).
  assert (Et : strtok fuel (cmd + k) ws t = match cut (drop_ws l) with
    | Some (w, _) => Ret (cmd + k) (Sh (wr8 (sh_mem t) (cmd + k + length w) 0) (cmd + k + length w + 1))
    | None => Ret 0 (Sh (sh_mem t) (cmd + k)) end).
  { unfold strtok. rewrite (proj2 (Z.eqb_neq (cmd + k) 0)) by lia. rewrite pbind_modify, pbind_gets. cbn [save].
    apply (strtok_loop_run (drop_ws l) fuel (cmd + k) (cmd + k) (Sh (sh_mem t) (cmd + k))); [done|lia]. }
  unfold parse. rewrite (pbind_ok _ _ _ _ _ Ek). subst n W. rewrite words_cut in *. destruct (cut (drop_ws l)) as [[w r]|] eqn:E.
  - cbn [length] in Hd. destruct (store_word (sh_mem t) (cmd + k) _ w r argv 0 E Hk) as (S1 & S2 & S3 & S4 & S5); try lia.
    rewrite (pbind_ok _ _ _ _ _ Et). unfold set_argv. rewrite pbind_modify. cbn [sh_mem save]. set (m2 := st64 _ (argv + 8 * 0) _) in *.
    destruct (parse_loop_run fuel argv 1 r (Sh m2 (cmd + k + length w + 1)) S3) as (t2 & E2 & A2 & F2); cbn [save sh_mem] in *; try lia.
    rewrite (pbind_ok _ _ _ _ _ E2), pbind_modify, pbind_gets. cbn [sh_mem]. set (m3 := st64 (sh_mem t2) _ 0).
    replace (1 + length (words r)) with (Z.of_nat (length (w :: words r))) in * by (simpl; lia).
    assert (Eq : ld64 (sh_mem t2) (argv + 8 * 0) = cmd + k) by (rewrite <- S1; apply ld_ext; intros i Hi; apply F2; lia).
    assert (A3 : argv_at cmd (cmd + length l) (sh_mem t2) argv 0 (w :: words r)).
    { cbn [argv_at]. cbv zeta. rewrite Eq. split_and!; [lia|lia| |].
      - eapply cstr_ext; [|exact S2]. intros i Hi. apply F2; lia.
      - eapply argv_at_ext; [done|done| | |exact A2]; lia. }
    assert (Eq3 : ld64 m3 argv = cmd + k).
    { unfold m3. rewrite ld_st_disj by (cbn [length]; lia). by rewrite <- Eq, Z.mul_0_r, Z.add_0_r. }
    rewrite Eq3, (proj2 (Z.eqb_neq (cmd + k) 0)) by lia. eexists. split; [done|]. cbn [sh_mem]. split_and!.
    + eapply argv_at_ext; [| | | |exact A3]; try lia; intros a Ha'; unfold m3; apply rd8_st_other; cbn [length] in *; lia.
    + unfold m3. replace (argv + 8 * (1 + length (words r))) with (argv + 8 * length (w :: words r)) by (cbn [length]; lia). apply ld_st_eq.
    + intros a H1 H2. unfold m3. cbn [length] in *. rewrite rd8_st_other, F2 by lia. apply S5; lia.
  - rewrite (pbind_ok _ _ _ _ _ Et). unfold set_argv. rewrite pbind_modify. cbn [sh_mem save]. cbn [length] in Hd.
    set (m1 := st64 (sh_mem t) (argv + 8 * 0) 0). set (t1 := Sh m1 (cmd + k)).
    assert (H1 : cstr (sh_mem t1) (save t1) (drop_ws l)).
    { eapply cstr_ext; [|exact Hk]. cbn. intros i Hi. apply rd8_st_other. lia. }
    destruct (parse_loop_run fuel argv 1 (drop_ws l) t1 H1) as (t2 & E2 & _ & F2); cbn [t1 save sh_mem] in *; try lia.
    { rewrite words_cut, E. cbn [length]. lia. }
    rewrite words_cut, E in E2, F2. cbn [length] in E2, F2. rewrite (pbind_ok _ _ _ _ _ E2), pbind_modify, pbind_gets. cbn [sh_mem].
    assert (Eq : ld64 (st64 (sh_mem t2) (argv + 8 * (1 + 0%nat)) 0) argv = 0).
    { rewrite ld_st_disj by lia. transitivity (ld64 m1 argv); [apply ld_ext; intros i Hi; apply F2; lia|]. unfold m1.
      rewrite Z.mul_0_r, Z.add_0_r. apply ld_st_eq. }
    rewrite Eq. cbn [Z.eqb]. eexists. split; [done|]. cbn [sh_mem length]. split_and!; [done|replace (argv + 8 * 0%nat) with argv by lia; exact Eq|].
    intros a H2 H3. rewrite rd8_st_other by lia. rewrite F2 by lia. unfold m1. apply rd8_st_other. lia.
Qed.

(** The line of "ls  -l" and a newline: two blanks make an empty word. *)
Definition ls_line : list Z := [32; 108; 115; 32; 32; 45; 108; 10].
Definition ls_typed : sh := Sh (fst (foldl (λ '(m, a) c, (wr8 m a c, a + 1)) (∅, 0x2000) ls_line)) 0.

Lemma parse_correct_witness :
  ∃ t', parse 20 0x2000 0x3000 ls_typed = Ret 3 t' ∧
    argv_at 0x2000 0x2008 (sh_mem t') 0x3000 0 [[108; 115]; []; [45; 108]] ∧ ld64 (sh_mem t') 0x3018 = 0.
Proof.
  destruct (parse_correct 20 0x2000 0x3000 ls_line ls_typed) as (t' & E & A & N & _).
  - apply (bool_decide_unpack _). vm_compute. exact I.
  - cbn. lia.
  - lia.
  - vm_compute. reflexivity.
  - lia.
  - right. vm_compute. reflexivity.
  - exists t'. split; [exact E|]. split; [exact A|exact N].
Defined.
End claims.
End ShellProps.
