(* ===== verification/Ulib.v ===== *)
(** * The library of user programs (usr/ulib.c) and what they ask of the kernel

    A user program is an interaction tree: its nodes are system calls, which the
    kernel answers, and it may run for ever.  A string argument of a call is the
    list of its characters, without the NUL.  The string routines run over the
    memory of the process; what they share with kernel/string.c has the same
    text. *)

From S2P Require Import Prelude Mem KString Printk.
From ITree Require Import ITree ITreeFacts.
Open Scope Z_scope.

(** ** System calls (usr/usys.h) *)

(** What [fstat] fills in. *)
Record stat := Stat { st_dev : Z; st_ino : Z; st_mode : Z; st_size : Z; st_nlink : Z; st_blksize : Z }.

(** A call that fills a buffer answers with its result and what it stored;
    [exit] does not return. *)
Inductive sysE : Type → Type :=
| SGetpid : sysE Z
| SRead (fd n : Z) : sysE (Z * list Z)
| SWrite (fd : Z) (bs : list Z) : sysE Z
| SExit (r : Z) : sysE Empty_set
| SFork : sysE Z
| SWait : sysE (Z * Z)
| SWaitpid (pid : Z) : sysE (Z * Z)
| SExec (path : list Z) (argv : list (list Z)) : sysE Z
| SOpen (path : list Z) (flags : Z) : sysE Z
| SClose (fd : Z) : sysE Z
| SFstat (fd : Z) : sysE (Z * stat)
| SUname : sysE (Z * list Z)
| SChdir (path : list Z) : sysE Z
| SMkdir (path : list Z) : sysE Z
| SMknod (path : list Z) (mode dev : Z) : sysE Z
| SDup (fd : Z) : sysE Z
| SKill (pid : Z) : sysE Z
(** Not a call: the program leaves the objects it names. *)
| SFault (why : string) : sysE Empty_set.

Abbreviation user := (itree sysE).

Notation "'let!' x ':=' t 'in' k" := (ITree.bind t (λ x, k))
  (at level 10, x name, t at level 200, k at level 200, format "'let!'  x  ':='  t  'in' '//' k").

Definition write (fd : Z) (bs : list Z) : user Z := ITree.trigger (SWrite fd bs).
Definition exit {A} (r : Z) : user A := ITree.bind (ITree.trigger (SExit r)) (λ v : Empty_set, match v with end).
Definition ufault {A} (why : string) : user A := ITree.bind (ITree.trigger (SFault why)) (λ v : Empty_set, match v with end).

(** A routine over memory or a local array, inside a program. *)
Definition lift {S A} (m : prog S A) (s : S) : user (A * S) :=
  match m s with
  | Prelude.Ret a s => Ret (a, s)
  | Panic e | Fault e => ufault e
  | Hang => ITree.spin
  end.

(** ** Strings *)

Definition strlen (fuel : nat) (s : Z) : prog mem Z := KString.strlen fuel s.
Definition memset (dst c n : Z) : prog mem Z := λ m, Prelude.Ret dst (fill (Z.to_nat n) m dst c).
Definition memmove (dst src n : Z) : prog mem Z := λ m,
  if src >? dst
  then Prelude.Ret dst (copy_fwd (Z.to_nat n) m dst src)
  else Prelude.Ret dst (copy_bwd (Z.to_nat n) m (dst + n) (src + n)).
Definition memcpy (dst src n : Z) : prog mem Z := memmove dst src n.
Definition strcpy (fuel : nat) (dst src : Z) : prog mem Z := KString.strcpy fuel dst src.

(** [while( *s1) { if( *s1 != *s2) break; s1++; s2++; }] and the comparison. *)
Fixpoint strcmp (fuel : nat) (s1 s2 : Z) (m : mem) : outcome mem Z :=
  match fuel with
  | O => Hang
  | S fuel =>
      let c1 := rd8 m s1 in
      let c2 := rd8 m s2 in
      if nz c1 && (c1 =? c2) then strcmp fuel (s1 + 1) (s2 + 1) m
      else Prelude.Ret (if c1 >? c2 then 1 else if c1 =? c2 then 0 else -1) m
  end.

(** The same on a string given by its characters, as an argument or a literal:
    what comes before the NUL. *)
Fixpoint upto_nul (s : list Z) : option (list Z) :=
  match s with
  | [] => None
  | c :: s => if c =? 0 then Some [] else match upto_nul s with Some l => Some (c :: l) | None => None end
  end.

(** ** Output *)

(** [write(fd, s, strlen(s))] *)
Definition write_to (fd : Z) (s : list Z) : user Z :=
  match upto_nul s with Some l => write fd l | None => ufault "strlen" end.
Definition write_str : list Z → user Z := write_to 1.

Definition uprint_number (w : nat) (num base : Z) (sign : bool) : user Z :=
  let! r := lift (number w num base sign) (empty_buf w) in
  write_str (drop (Z.to_nat r.2.2) r.2.1).

Definition uprintiu32 (num base : Z) (sign : bool) : user Z := uprint_number 32 num base sign.
Definition uprintiu64 (num base : Z) (sign : bool) : user Z := uprint_number 64 num base sign.

Definition puts (s : list Z) : user Z :=
  let! r := write_str s in
  let! _ := write 1 [10] in
  Ret r.

Definition printx (n : Z) : user Z := uprintiu64 (i64 (u64 n)) 16 true.

(** [va_arg(ap, T)] for an integer type and for [char *]. *)
Definition va_word (ap : list varg) : user (Z * list varg) :=
  match ap with Word v :: ap => Ret (v, ap) | _ => ufault "va_arg" end.
Definition va_str (ap : list varg) : user (option (list Z) * list varg) :=
  match ap with Str s :: ap => Ret (s, ap) | _ => ufault "va_arg" end.

Definition fmt_at (fmt : list Z) (i : nat) : user Z :=
  match fmt !! i with Some c => Ret c | None => ufault "fmt[]" end.

(** The switch on the character after a [%]. *)
Definition directive (c : Z) (ap : list varg) : user (list varg) :=
  if c =? 100 (* d *) then let! a := va_word ap in let! _ := uprintiu32 (i32 a.1) 10 true in Ret a.2
  else if c =? 117 (* u *) then let! a := va_word ap in let! _ := uprintiu32 (i32 (u32 a.1)) 10 false in Ret a.2
  else if c =? 120 (* x *) then let! a := va_word ap in let! _ := uprintiu64 (i64 (u64 a.1)) 16 false in Ret a.2
  else if c =? 112 (* p *) then
    let! _ := write 1 (chars "0x") in let! a := va_word ap in let! _ := uprintiu64 (i64 (u64 a.1)) 16 false in Ret a.2
  else if c =? 99 (* c *) then let! a := va_word ap in let! _ := write 1 [u8 a.1] in Ret a.2
  else if c =? 115 (* s *) then
    let! a := va_str ap in let! _ := write_str (default (literal "(null)") a.1) in Ret a.2
  else if c =? 37 (* % *) then let! _ := write 1 [37] in Ret ap
  else let! _ := write 1 [37] in let! _ := write 1 [c] in Ret ap.

(** The loop over [fmt]. *)
Fixpoint fmt_loop (fuel : nat) (fmt : list Z) (i : nat) (ap : list varg) : user unit :=
  let! c := fmt_at fmt i in
  if c =? 0 then Ret tt else
  match fuel with
  | O => ITree.spin
  | S fuel =>
      if c =? 37 then
        let! c := fmt_at fmt (i + 1) in
        let! ap := directive c ap in
        fmt_loop fuel fmt (i + 2) ap
      else let! _ := write 1 [c] in fmt_loop fuel fmt (i + 1) ap
  end.

Definition printf (fmt : list Z) (ap : list varg) : user Z :=
  let! _ := fmt_loop (length fmt) fmt 0 ap in
  Ret 0.

(** ** What is written *)

(** Calls of [write] on the standard output. *)
Fixpoint emit (bss : list (list Z)) : user unit :=
  match bss with [] => Ret tt | bs :: bss => let! _ := write 1 bs in emit bss end.

(** What [printf] writes for a piece of its format. *)
Definition piece_writes (p : piece) : list (list Z) :=
  match p with
  | Lit c => [[c]]
  | Dec v => [signed_numeral (i32 v)]
  | Udec v => [numeral 10 (u32 v)]
  | Hex v => [numeral 16 (u64 v)]
  | Ptr v => [chars "0x"; numeral 16 (u64 v)]
  | Chr v => [[u8 v]]
  | Txt l | Field l _ => [l]
  | Null => [chars "(null)"]
  | Percent => [[37]]
  | Other c => [[37]; [c]]
  end.
Definition writes (ps : list piece) : list (list Z) := ps ≫= piece_writes.

Section output.
Implicit Types (l : list Z) (bss : list (list Z)) (ps : list piece).

Lemma emit_app bss bss' : emit (bss ++ bss') ≈ ITree.bind (emit bss) (λ _, emit bss').
Proof.
  induction bss as [|bs bss IH]; cbn [emit app]; [by rewrite bind_ret_l|].
  rewrite bind_bind. apply eutt_eq_bind. intros _. exact IH.
Qed.

Lemma upto_nul_str l rest : Forall (λ c, c ≠ 0) l → upto_nul (l ++ 0 :: rest) = Some l.
Proof.
  induction 1 as [|c l Hc _ IH]; [done|]. cbn [upto_nul app]. by rewrite (proj2 (Z.eqb_neq c 0) Hc), IH.
Qed.

Lemma write_str_run l rest : Forall (λ c, c ≠ 0) l → write_str (l ++ 0 :: rest) = write 1 l.
Proof. intros Hl. unfold write_str, write_to. by rewrite upto_nul_str. Qed.

Lemma uprint_number_run (w m : nat) num base sign :
  let neg := sign && (num <? 0) in
  let n := if neg then (- (num + 1)) mod 2 ^ w + 1 else num mod 2 ^ w in
  2 <= base <= 16 → 0 <= n < base ^ Z.of_nat (S m) → (S m + (if neg then 1 else 0) <= w)%nat → (w <= 64)%nat →
  uprint_number w num base sign ≈ write 1 ((if neg then [45] else []) ++ numeral base n).
Proof.
  intros neg n Hb Hn Hm Hw. destruct (number_run w m num base sign Hb Hn Hm Hw) as [k E]. fold neg n in E.
  assert (Hc : Forall (λ c, c ≠ 0) ((if neg then [45] else []) ++ numeral base n)).
  { apply Forall_app. split; [destruct neg; repeat constructor; lia|].
    eapply Forall_impl; [apply numeral_chars; [done|lia]|]. cbn. lia. }
  unfold uprint_number, lift. rewrite E, bind_ret_l. cbn [fst snd].
  rewrite Nat2Z.id, drop_app_length' by (symmetry; apply length_replicate). rewrite app_assoc, write_str_run by done. reflexivity.
Qed.

(** [%d], [%u] and [%x]. *)
Lemma uprintiu32_signed v : - 2 ^ 31 <= v < 2 ^ 31 → uprintiu32 v 10 true ≈ write 1 (signed_numeral v).
Proof.
  intros Hv. unfold signed_numeral. pose proof (uprint_number_run 32 9 v 10 true) as Hp. cbn [andb] in Hp. cbv zeta in Hp.
  change (Z.of_nat 32) with 32 in Hp. change (10 ^ Z.of_nat 10) with 10000000000 in Hp.
  destruct (Z.ltb_spec v 0).
  - rewrite (Z.mod_small (- (v + 1))) in Hp by lia. replace (- (v + 1) + 1) with (- v) in Hp by lia. apply Hp; lia.
  - rewrite (Z.mod_small v) in Hp by lia. apply Hp; lia.
Qed.

Lemma uprintiu32_unsigned v : 0 <= v < 2 ^ 32 → uprintiu32 (i32 v) 10 false ≈ write 1 (numeral 10 v).
Proof.
  intros Hv. pose proof (uprint_number_run 32 9 (i32 v) 10 false) as Hp. cbn [andb] in Hp. cbv zeta in Hp.
  change (Z.of_nat 32) with 32 in Hp. change (10 ^ Z.of_nat 10) with 10000000000 in Hp.
  assert (E : i32 v mod 2 ^ 32 = v) by (unfold i32; zlia). rewrite E in Hp. apply Hp; lia.
Qed.

Lemma uprintiu64_hex v : 0 <= v < 2 ^ 64 → uprintiu64 (i64 v) 16 false ≈ write 1 (numeral 16 v).
Proof.
  intros Hv. pose proof (uprint_number_run 64 15 (i64 v) 16 false) as Hp. cbn [andb] in Hp. cbv zeta in Hp.
  change (Z.of_nat 64) with 64 in Hp. change (16 ^ Z.of_nat 16) with (2 ^ 64) in Hp.
  assert (E : i64 v mod 2 ^ 64 = v) by (unfold i64; zlia). rewrite E in Hp. apply Hp; lia.
Qed.

(** One write, whose result is not used. *)
Lemma emit_one {A} bs (k : user A) : ITree.bind (emit [bs]) (λ _, k) ≈ ITree.bind (write 1 bs) (λ _, k).
Proof.
  cbn [emit]. rewrite bind_bind. apply eutt_eq_bind. intros _. by rewrite bind_ret_l.
Qed.

Lemma user_directive_run p c ap : piece_ok p → piece_source p = [37; c] →
  directive c (piece_arg p ++ ap) ≈ ITree.bind (emit (piece_writes p)) (λ _, Ret ap).
Proof.
  intros Hp. destruct p as [c0|v|v|v|v|v|l|l rest| | |c0]; cbn [piece_source]; intros [= <-]; cbn [piece_arg piece_writes app];
    unfold directive; cbn [Z.eqb Pos.eqb]; unfold va_word, va_str.
  - rewrite emit_one, bind_ret_l, (uprintiu32_signed _ (i32_bound v)). reflexivity.
  - rewrite emit_one, bind_ret_l, (uprintiu32_unsigned _ (u32_bound v)). reflexivity.
  - rewrite emit_one, bind_ret_l, (uprintiu64_hex _ (u64_bound v)). reflexivity.
  - cbn [emit]. rewrite !bind_bind. apply eutt_eq_bind. intros _. rewrite bind_ret_l, (uprintiu64_hex _ (u64_bound v)), bind_bind.
    apply eutt_eq_bind. intros _. by rewrite bind_ret_l.
  - rewrite emit_one, bind_ret_l. reflexivity.
  - rewrite emit_one, bind_ret_l. cbn [fst snd]. change (default _ (Some _)) with (l ++ 0 :: []). rewrite write_str_run by done. reflexivity.
  - rewrite emit_one, bind_ret_l. cbn [fst snd]. change (default _ (Some _)) with (l ++ 0 :: rest). rewrite write_str_run by done. reflexivity.
  - rewrite emit_one, bind_ret_l. cbn [fst snd]. change (default _ None) with (literal "(null)"). unfold literal.
    rewrite write_str_run by (by repeat constructor). reflexivity.
  - rewrite emit_one. reflexivity.
  - cbn [piece_ok] in Hp. unfold directives in Hp. rewrite !not_elem_of_cons in Hp. destruct Hp as (H1 & H2 & H3 & H4 & H5 & H6 & H7 & _).
    rewrite !(proj2 (Z.eqb_neq c0 _)) by done. cbn [emit]. rewrite bind_bind. apply eutt_eq_bind. intros _.
    rewrite bind_bind. apply eutt_eq_bind. intros _. by rewrite bind_ret_l.
Qed.

Lemma user_fmt_loop_run ps : ∀ fuel pre rest, Forall piece_ok ps → (length (source ps) <= fuel)%nat →
  fmt_loop fuel (pre ++ source ps ++ 0 :: rest) (length pre) (vargs ps) ≈ emit (writes ps).
Proof.
  assert (Hat : ∀ (pre : list Z) x l, fmt_at (pre ++ x :: l) (length pre) = Ret x).
  { intros. unfold fmt_at. by rewrite list_lookup_middle. }
  induction ps as [|p ps IH]; intros fuel pre rest Hps Hf.
  { unfold source, vargs, writes. cbn. destruct fuel; cbn [fmt_loop]; rewrite Hat, bind_ret_l; reflexivity. }
  apply Forall_cons in Hps as [Hp Hps]. unfold source, vargs, writes in *. rewrite !bind_cons in *.
  destruct (piece_cases p Hp) as [(c & -> & H0 & H37)|(c & Es)].
  - cbn [piece_source app length piece_arg piece_writes] in *. destruct fuel as [|fuel]; [lia|].
    specialize (IH fuel (pre ++ [c]) rest Hps ltac:(lia)). cbn [fmt_loop]. rewrite Hat, bind_ret_l.
    rewrite (proj2 (Z.eqb_neq c 0) H0), (proj2 (Z.eqb_neq c 37) H37). rewrite <- app_assoc, length_app in IH. cbn [app length] in IH.
    cbn [emit]. apply eutt_eq_bind. intros _. exact IH.
  - rewrite Es in Hf |- *. cbn [app length] in *. destruct fuel as [|fuel]; [lia|].
    specialize (IH fuel (pre ++ [37; c]) rest Hps ltac:(lia)). cbn [fmt_loop]. rewrite Hat, bind_ret_l. cbn [Z.eqb Pos.eqb].
    assert (Hn : fmt_at (pre ++ 37 :: c :: (ps ≫= piece_source) ++ 0 :: rest) (length pre + 1) = Ret c).
    { unfold fmt_at. rewrite lookup_app_r by lia. by replace (length pre + 1 - length pre)%nat with 1%nat by lia. }
    rewrite Hn, bind_ret_l, (user_directive_run p c _ Hp Es), bind_bind, emit_app. apply eutt_eq_bind. intros _. rewrite bind_ret_l.
    rewrite <- app_assoc, length_app in IH. cbn [app length] in IH. exact IH.
Qed.

Lemma printf_run ps rest : Forall piece_ok ps → printf (source ps ++ 0 :: rest) (vargs ps) ≈ ITree.bind (emit (writes ps)) (λ _, Ret 0).
Proof.
  intros Hps. unfold printf. rewrite (user_fmt_loop_run ps _ [] rest Hps) by (rewrite length_app; lia). reflexivity.
Qed.

Lemma puts_run l rest : Forall (λ c, c ≠ 0) l → puts (l ++ 0 :: rest) ≈
  ITree.bind (write 1 l) (λ r, ITree.bind (write 1 [10]) (λ _, Ret r)).
Proof. intros Hl. unfold puts. by rewrite write_str_run. Qed.
End output.

Section strings.
Implicit Types (m : mem) (l : list Z) (fuel : nat).

Lemma user_strcmp_run fuel m a b l1 l2 :
  cstr m a l1 → cstr m b l2 → (length l1 < fuel)%nat → strcmp fuel a b m = Prelude.Ret (Z.sgn (lcmp l1 l2)) m.
Proof.
  revert fuel a b l2. induction l1 as [|c1 l1 IH]; intros [|fuel] a b l2 H1 H2 Hf; cbn [length] in Hf; try lia; cbn [strcmp].
  - cbn [cstr] in H1. rewrite H1. change (nz 0 && _) with false. cbv iota. destruct l2 as [|c2 l2]; cbn [cstr] in H2.
    + by rewrite H2.
    + destruct H2 as (E2 & Hc2 & _). rewrite E2. pose proof (rd8_bound m b). cbn [lcmp].
      destruct (Z.gtb_spec 0 c2); [lia|]. rewrite (proj2 (Z.eqb_neq 0 c2)) by lia. f_equal. lia.
  - destruct H1 as (E1 & Hc & H1). rewrite E1, (proj2 (nz_true _) Hc). cbn [andb]. pose proof (rd8_bound m a). pose proof (rd8_bound m b).
    destruct l2 as [|c2 l2]; [cbn [cstr] in H2; rewrite H2|destruct H2 as (E2 & ? & H2); rewrite E2]; cbn [lcmp].
    + rewrite (proj2 (Z.eqb_neq c1 0) Hc). destruct (Z.gtb_spec c1 0); [|lia]. f_equal. lia.
    + destruct (Z.eqb_spec c1 c2) as [->|Hne]; [apply IH; (done || lia)|].
      destruct (Z.gtb_spec c1 c2); f_equal; lia.
Qed.
End strings.

Module UlibProps.

(** Printf. A format made of pieces, whose arguments are those the pieces
    take, makes exactly the writes of the pieces on the standard output, in
    order, whatever the kernel answers, and returns 0: no array is left, and no
    byte past the strings is read. A number denotes its argument, the least
    integer included. *)
Theorem printf_correct ps rest :
  Forall piece_ok ps →
  printf (source ps ++ 0 :: rest) (vargs ps) ≈ ITree.bind (emit (writes ps)) (λ _, Ret 0) ∧
  Forall (λ p, match p with
    | Dec v => ∃ l, piece_writes p = [if i32 v <? 0 then 45 :: l else l] ∧ value 10 l = Z.abs (i32 v) ∧ (1 <= length l <= 10)%nat
    | Udec v => ∃ l, piece_writes p = [l] ∧ value 10 l = u32 v
    | Hex v => ∃ l, piece_writes p = [l] ∧ value 16 l = u64 v
    | _ => True end) ps.
Proof.
  intros Hps. split; [by apply printf_run|]. eapply Forall_impl; [exact Hps|]. intros [c|v|v|v|v|v|l|l r| | |c] _; try done.
  - exists (numeral 10 (Z.abs (i32 v))). pose proof (i32_bound v). destruct (numeral_ok 9 10 (Z.abs (i32 v))) as [? ?]; [lia..|].
    split; [|done]. cbn [piece_writes]. unfold signed_numeral.
    by destruct (Z.ltb_spec (i32 v) 0); [rewrite Z.abs_neq by lia|rewrite Z.abs_eq by lia].
  - exists (numeral 10 (u32 v)). pose proof (u32_bound v). destruct (numeral_ok 9 10 (u32 v)) as [? ?]; [lia..|]. done.
  - exists (numeral 16 (u64 v)). pose proof (u64_bound v). destruct (numeral_ok 15 16 (u64 v)) as [? ?]; [lia..|]. done.
Qed.

(** ["kill %d..."] *)
Lemma printf_correct_witness :
  printf (literal "kill %d..." ) [Word (- 2 ^ 31)] ≈
    ITree.bind (emit ((λ c, [c]) <$> chars "kill ") ) (λ _, ITree.bind (emit [chars "-2147483648"; [46]; [46]; [46]]) (λ _, Ret 0)).
Proof.
  pose proof (printf_correct ((Lit <$> chars "kill ") ++ Dec (- 2 ^ 31) :: (Lit <$> chars "...")) []) as [H _].
  - by repeat constructor.
  - change (literal "kill %d...") with (source ((Lit <$> chars "kill ") ++ Dec (- 2 ^ 31) :: (Lit <$> chars "...")) ++ [0]).
    change [Word (- 2 ^ 31)] with (vargs ((Lit <$> chars "kill ") ++ Dec (- 2 ^ 31) :: (Lit <$> chars "..."))). rewrite H.
    change (writes _) with (((λ c, [c]) <$> chars "kill ") ++ [chars "-2147483648"; [46]; [46]; [46]]).
    rewrite emit_app, bind_bind. reflexivity.
Defined.

(** The two libraries compare alike: ulib's [strcmp] gives the sign of what
    the kernel's gives. *)
Theorem strcmp_agrees fuel m a b l1 l2 :
  cstr m a l1 → cstr m b l2 → (length l1 < fuel)%nat →
  strcmp fuel a b m = Prelude.Ret (Z.sgn (lcmp l1 l2)) m ∧ KString.strcmp fuel a b m = Prelude.Ret (lcmp l1 l2) m.
Proof. intros. split; [by apply user_strcmp_run|by apply KString.strcmp_run]. Qed.

Lemma strcmp_agrees_witness :
  strcmp 3 16 32 StringProps.two_strings = Prelude.Ret (-1) StringProps.two_strings.
Proof.
  refine (proj1 (strcmp_agrees 3 StringProps.two_strings 16 32 [115; 104] [115; 108; 101; 101; 112] _ _ _)).
  - apply (bool_decide_unpack _). vm_compute. exact I.
  - apply (bool_decide_unpack _). vm_compute. exact I.
  - simpl. lia.
Defined.
End UlibProps.
