(* ===== verification/Programs.v ===== *)
(** * User programs (usr/cat.c, echo.c, kill.c, mkdir.c, uname.c, init.c, writetest.c, loop.c, ls.c)

    Every [main] is a tree of system calls.  An argument string is the list of
    its characters, without the NUL; an array of the program is the list of its
    bytes.  [on_files] answers the calls on files with the routines of kernel/file.c,
    so that a program can be run on a file system. *)

From S2P Require Import Prelude Mem Bytes KString Printk Spinlock Buf Fs Ext2 Ext2File File Ulib.
From ITree Require Import ITree ITreeFacts Events.State Events.StateFacts.
Open Scope Z_scope.

(** ** Calls and loops *)

Definition getpid : user Z := ITree.trigger SGetpid.
Definition open (path : list Z) (flags : Z) : user Z := ITree.trigger (SOpen path flags).
Definition close (fd : Z) : user Z := ITree.trigger (SClose fd).
Definition fork : user Z := ITree.trigger SFork.
Definition wait : user (Z * Z) := ITree.trigger SWait.
Definition exec (path : list Z) (argv : list (list Z)) : user Z := ITree.trigger (SExec path argv).
Definition mkdir (path : list Z) : user Z := ITree.trigger (SMkdir path).
Definition mknod (path : list Z) (mode dev : Z) : user Z := ITree.trigger (SMknod path mode dev).
Definition chdir (path : list Z) : user Z := ITree.trigger (SChdir path).
Definition dup (fd : Z) : user Z := ITree.trigger (SDup fd).
Definition kill (pid : Z) : user Z := ITree.trigger (SKill pid).
Definition fstat (fd : Z) : user (Z * stat) := ITree.trigger (SFstat fd).
Definition uname : user (Z * list Z) := ITree.trigger SUname.

(** [read(fd, buf, n)] into an array that held [buf]. *)
Definition read (fd n : Z) (buf : list Z) : user (Z * list Z) :=
  let! r := ITree.trigger (SRead fd n) in
  let bs := take (Z.to_nat n) r.2 in
  Ret (r.1, bs ++ drop (length bs) buf).

(** [argv[i]] *)
Definition arg (argv : list (list Z)) (i : nat) : user (list Z) :=
  match argv !! i with Some a => Ret a | None => ufault "argv[]" end.

Definition str (l : list Z) : varg := Str (Some (l ++ [0])).

(** [for(int i = lo; i < lo + n; i++) body] *)
Fixpoint for_ (n lo : nat) (body : nat → user unit) : user unit :=
  match n with
  | O => Ret tt
  | S n => let! _ := body lo in for_ n (S lo) body
  end.

(** ** cat.c *)

Definition BUFSZ : Z := 512.

(** The loop of [cat]; the result is the array. *)
Definition cat (fd : Z) : list Z → user (list Z) :=
  ITree.iter (λ buf,
    let! r := read fd BUFSZ buf in
    let buf := r.2 in
    if r.1 >? 0 then
      if r.1 >? BUFSZ then ufault "buf[]" else
      let! n := write 1 (take (Z.to_nat r.1) buf) in
      if n =? r.1 then Ret (inl buf) else exit 1
    else Ret (inr buf)).

(** The body of [main]'s loop; [buf] is static. *)
Definition cat_file (p buf : list Z) : user (list Z) :=
  let! fd := open p O_RDONLY in
  if fd <? 0 then
    let! _ := printf (chars "%s: not found" ++ [10; 0]) [str p] in
    exit 1
  else
    let! buf := cat fd buf in
    let! _ := close fd in
    Ret buf.

Fixpoint cat_files (n i : nat) (argv : list (list Z)) (buf : list Z) : user (list Z) :=
  match n with
  | O => Ret buf
  | S n =>
      let! p := arg argv i in
      let! buf := cat_file p buf in
      cat_files n (S i) argv buf
  end.

Definition cat_main (argv : list (list Z)) : user Z :=
  let buf := replicate 512 0 in
  let! _ := if decide (length argv = 1%nat) then cat 0 buf else cat_files (length argv - 1) 1 argv buf in
  exit 0.

(** ** ls.c *)

(** The walk over the entries of [buf]; the result is the array. *)
Fixpoint ls_entries (fuel : nat) (blksize : Z) (buf : bytes) (bpos : Z) : user unit :=
  if bpos <? blksize then
    match fuel with
    | O => ITree.spin
    | S fuel =>
        if bpos + 8 >? length buf then ufault "buf[]" else
        let d := Z.to_nat bpos in
        if d_rec_len buf d =? 0 then Ret tt else
        let n := d_name_len buf d in
        if bpos + 8 + n >? length buf then ufault "buf[]" else
        let namebuf := splice (replicate 255 0) 0 (slice buf (d + 8) (Z.to_nat n)) in
        let! _ := printf (chars "%s" ++ [9] ++ chars "%d" ++ [10; 0]) [Str (Some namebuf); Word (d_inode buf d)] in
        ls_entries fuel blksize buf (bpos +u64 d_rec_len buf d)
    end
  else Ret tt.

(** [while(read(fd, buf, sizeof(buf)) == sizeof(buf))]; an entry has a length of 1
    at least, so that [blksize] turns are enough. *)
Definition ls_dir (fd blksize : Z) : bytes → user bytes :=
  ITree.iter (λ buf,
    let! r := read fd 1024 buf in
    if r.1 =? 1024 then
      let! _ := ls_entries (Z.to_nat blksize) blksize r.2 0 in
      Ret (inl r.2)
    else Ret (inr r.2)).

Definition ls (path : list Z) (buf : bytes) : user (Z * bytes) :=
  let! fd := open path O_RDONLY in
  if fd <? 0 then
    let! _ := puts (literal "No such file or directory") in
    Ret (-1, buf)
  else
    let! st := fstat fd in
    let mode := st_mode st.2 in
    let! buf :=
      (if S_ISREG mode || S_ISCHR mode then let! _ := puts (path ++ [0]) in Ret buf
       else if S_ISDIR mode then ls_dir fd (st_blksize st.2) buf
       else Ret buf) in
    let! _ := close fd in
    Ret (0, buf).

Fixpoint ls_files (n i : nat) (argv : list (list Z)) (err : Z) (buf : bytes) : user Z :=
  match n with
  | O => Ret err
  | S n =>
      let! p := arg argv i in
      let! r := ls p buf in
      ls_files n (S i) argv (if r.1 <? 0 then 1 else err) r.2
  end.

Definition ls_main (argv : list (list Z)) : user Z :=
  let buf := replicate 1024 0 in
  if decide (length argv = 1%nat) then let! _ := ls (chars ".") buf in exit 0
  else let! err := ls_files (length argv - 1) 1 argv 0 buf in exit err.

(** ** echo.c *)

Definition echo_main (argv : list (list Z)) : user Z :=
  let! _ := for_ (length argv - 1) 1 (λ i,
    let! a := arg argv i in
    let! _ := printf (literal "%s%c") [str a; Word (if bool_decide (i < length argv - 1)%nat then 32 else 10)] in
    Ret tt) in
  exit 0.

(** ** kill.c *)

(** The loop of [atou] on what is left of the string; the arithmetic of [int]
    wraps, as the generated code does. *)
Fixpoint atou_loop (s : list Z) (a : Z) : user Z :=
  match s with
  | [] => ufault "atou"
  | c :: s =>
      if c =? 0 then Ret a else
      if (48 <=? c) && (c <=? 57) then atou_loop s (i32 (a * 10 + (c - 48))) else Ret (-1)
  end.
Definition atou (s : list Z) : user Z := atou_loop s 0.

Definition kill_main (argv : list (list Z)) : user Z :=
  if decide (length argv < 2)%nat then
    let! _ := printf (chars "kill [pid]" ++ [10; 0]) [] in
    exit 1
  else
    let! a := arg argv 1 in
    let! pid := atou (a ++ [0]) in
    if pid <? 0 then exit 1 else
    let! _ := printf (chars "kill %d..." ++ [10; 0]) [Word pid] in
    let! r := kill pid in
    if r <? 0 then exit 1 else exit 0.

(** ** mkdir.c, uname.c, writetest.c *)

Definition mkdir_main (argv : list (list Z)) : user Z :=
  if negb (bool_decide (length argv = 2%nat)) then
    let! _ := puts (literal "mkdir [dirname]") in
    exit 1
  else
    let! a := arg argv 1 in
    let! r := mkdir a in
    if r <? 0 then
      let! _ := puts (literal "mkdir: failed") in
      exit 1
    else exit 0.

(** The answer holds the bytes of [u], of which [sysname] is the first array. *)
Definition uname_main : user Z :=
  let! u := uname in
  let! _ := puts u.2 in
  exit 0.

Definition writetest_main : user Z :=
  let! fd := open (chars "README.md") O_RDWR in
  if fd <? 0 then exit 1 else
  let! n := write fd (replicate 600 97) in
  let! _ := printf (chars "wtest %d" ++ [10; 0]) [Word n] in
  exit 0.

(** ** loop.c *)

Definition put64 (fd num : Z) : user Z :=
  let! r := lift (number 64 num 16 false) (empty_buf 64) in
  write_to fd (drop (Z.to_nat r.2.2) r.2.1).

Definition loop_main : user Z :=
  ITree.iter (λ i, let! _ := put64 1 i in Ret (inl (u64 (i + 1)))) 0.

(** ** init.c *)

Definition CDEV_CONSOLE : Z := 0.

Definition init_wait (pid : Z) : user unit :=
  ITree.iter (λ _, let! w := wait in Ret (if w.1 =? pid then inr tt else inl tt)) tt.

(** A turn of [for(;;)]: [exec] answers only when it failed. *)
Definition init_turn : user unit :=
  let! pid := fork in
  if pid =? 0 then let! _ := exec (chars "sh") [chars "sh"] in Ret tt
  else init_wait pid.

Definition init_open : user Z :=
  let! fd := open (chars "tty0") O_RDWR in
  if fd <? 0 then
    let! r := mknod (chars "tty0") S_IFCHR CDEV_CONSOLE in
    if r <? 0 then exit 1 else open (chars "tty0") O_RDWR
  else Ret fd.

Definition init_main : user Z :=
  let! fd := init_open in
  let! _ := dup fd in
  let! _ := dup fd in
  let! _ := puts (literal "init") in
  let! _ := puts (literal "starting sh") in
  ITree.iter (λ _ : unit, let! _ := init_turn in Ret (inl tt)) tt.

(** ** What they do *)

Section programs.
Implicit Types (l a : list Z) (argv : list (list Z)).

Lemma exit_bind {A B} r (k : A → user B) : ITree.bind (exit r) k ≈ exit r.
Proof. unfold exit. rewrite bind_bind. apply eutt_eq_bind. intros []. Qed.

(** [printf] of a format that is made of pieces, in a program. *)
Lemma printf_bind {A} ps fmt ap (k : user A) : Forall piece_ok ps → fmt = source ps ++ [0] → ap = vargs ps →
  ITree.bind (printf fmt ap) (λ _, k) ≈ ITree.bind (emit (writes ps)) (λ _, k).
Proof.
  intros Hp -> ->. rewrite (printf_run ps []), bind_bind by done. apply eutt_eq_bind. intros _. by rewrite bind_ret_l.
Qed.

(** What [echo] writes: the arguments, each with the blank or the newline after it. *)
Fixpoint echoed (args : list (list Z)) : list (list Z) :=
  match args with
  | [] => []
  | [a] => [a; [10]]
  | a :: args => a :: [32] :: echoed args
  end.

Lemma echo_loop a0 args : ∀ pre, Forall (Forall (λ c, c ≠ 0)) args →
  for_ (length args) (S (length pre)) (λ i,
    let! a := arg (a0 :: pre ++ args) i in
    let! _ := printf (literal "%s%c") [str a; Word (if bool_decide (i < length (a0 :: pre ++ args) - 1)%nat then 32 else 10)] in
    Ret tt) ≈ emit (echoed args).
Proof.
  induction args as [|a args IH]; intros pre Ha; [reflexivity|]. apply Forall_cons in Ha as [Ha Hs]. cbn [length for_].
  assert (Ea : arg (a0 :: pre ++ a :: args) (S (length pre)) = Ret a).
  { change (arg (pre ++ a :: args) (length pre) = Ret a). unfold arg. by rewrite list_lookup_middle. }
  rewrite Ea, bind_ret_l, !bind_bind.
  set (c := if bool_decide _ then 32 else 10).
  assert (Hw : echoed (a :: args) = writes [Txt a; Chr c] ++ echoed args).
  { unfold c. rewrite length_app. destruct args as [|b args]; cbn [length].
    - by rewrite bool_decide_false by lia.
    - by rewrite bool_decide_true by lia. }
  rewrite Hw, emit_app, (printf_bind [Txt a; Chr c]) by (done || by repeat constructor). apply eutt_eq_bind. intros _. rewrite bind_ret_l.
  specialize (IH (pre ++ [a]) Hs). rewrite length_app, <- app_assoc in IH. cbn [length app] in IH. by rewrite Nat.add_1_r in IH.
Qed.

Definition is_digit (c : Z) : Prop := 48 <= c <= 57.

Lemma numeral_decimal n : 0 <= n → Forall is_digit (numeral 10 n).
Proof.
  unfold numeral. intros Hn. assert (H : ∀ m n t, 0 <= n → Forall is_digit t → Forall is_digit (digits m 10 n t)).
  { clear n Hn. induction m as [|m IH]; intros n t Hn Ht; [done|]. rewrite digits_S.
    assert (Hd : is_digit (digit_char (n mod 10))).
    { pose proof (Z.mod_pos_bound n 10). unfold is_digit, digit_char. destruct (Z.ltb_spec (n mod 10) 10); lia. }
    destruct (n / 10 =? 0); [by constructor|]. apply IH; [apply Z.div_pos; lia|by constructor]. }
  by apply H.
Qed.

Lemma i32_step v d : i32 (i32 v * 10 + d) = i32 (v * 10 + d).
Proof. unfold i32. zlia. Qed.

(** [atou]: the value of the digits, cut to an [int]. *)
Lemma atou_loop_digits l rest : Forall is_digit l → ∀ v,
  atou_loop (l ++ 0 :: rest) (i32 v) = Ret (i32 (foldl (λ v c, v * 10 + digit_val c) v l)).
Proof.
  induction 1 as [|c l Hc _ IH]; intros v; [done|]. unfold is_digit in Hc. cbn [app atou_loop foldl].
  destruct (Z.eqb_spec c 0); [lia|]. destruct (Z.leb_spec 48 c); [|lia]. destruct (Z.leb_spec c 57); [|lia]. cbn [andb].
  rewrite i32_step. replace (c - 48) with (digit_val c) by (unfold digit_val; destruct (Z.ltb_spec c 58); lia). apply IH.
Qed.

Lemma atou_other l c rest : Forall is_digit l → c ≠ 0 → ¬ is_digit c → ∀ v, atou_loop (l ++ c :: rest) v = Ret (-1).
Proof.
  intros Hl H0 Hc. induction Hl as [|d l Hd _ IH]; intros v; cbn [app atou_loop].
  - unfold is_digit in Hc. destruct (Z.eqb_spec c 0); [lia|]. destruct (Z.leb_spec 48 c), (Z.leb_spec c 57); cbn [andb]; [lia|done..].
  - unfold is_digit in Hd. destruct (Z.eqb_spec d 0); [lia|]. destruct (Z.leb_spec 48 d); [|lia]. destruct (Z.leb_spec d 57); [|lia]. apply IH.
Qed.
End programs.

Section more.
(** The shell that ended is waited for: other children are reaped on the way. *)
Definition reap : ∀ T, sysE T → list (Z * Z) → user (list (Z * Z) * T) := λ T e,
  match e in sysE T return list (Z * Z) → user (list (Z * Z) * T) with
  | SWait => λ ws, match ws with
      | w :: ws => Ret (ws, w)
      | [] => let! w := ITree.trigger SWait in Ret ([], w) end
  | e => λ ws, let! r := ITree.trigger e in Ret (ws, r)
  end.

Lemma init_wait_turn pid : init_wait pid ≈ ITree.bind wait (λ w, if w.1 =? pid then Ret tt else init_wait pid).
Proof.
  unfold init_wait at 1. rewrite unfold_iter, bind_bind. apply eutt_eq_bind. intros w. rewrite bind_ret_l.
  destruct (w.1 =? pid); [reflexivity|apply tau_eutt].
Qed.

Lemma init_reaps pid st ws ws' : Forall (λ w, w.1 ≠ pid) ws →
  interp_state reap (init_wait pid) (ws ++ (pid, st) :: ws') ≈ Ret (ws', tt).
Proof.
  induction 1 as [|w ws Hw _ IH]; rewrite init_wait_turn, interp_state_bind; unfold wait; rewrite interp_state_trigger; cbn [reap app].
  - rewrite bind_ret_l. cbn [fst snd]. rewrite Z.eqb_refl, interp_state_ret. reflexivity.
  - rewrite bind_ret_l. cbn [fst snd]. by rewrite (proj2 (Z.eqb_neq _ _) Hw).
Qed.
End more.

Module ProgramProps.

(** echo writes its arguments in order, with a blank between two and a newline
    after the last, and exits with 0; without an argument it writes nothing. *)
Theorem echo_correct a0 args : Forall (Forall (λ c, c ≠ 0)) args →
  echo_main (a0 :: args) ≈ ITree.bind (emit (echoed args)) (λ _, exit 0).
Proof.
  intros Ha. unfold echo_main. cbn [length]. rewrite Nat.sub_succ, Nat.sub_0_r.
  pose proof (echo_loop a0 args [] Ha) as E. cbn [app length] in E. rewrite Nat.sub_succ, Nat.sub_0_r in E. by rewrite E.
Qed.

Lemma echo_correct_witness :
  echo_main [chars "echo"; chars "hi"; chars "there"] ≈
    ITree.bind (emit [chars "hi"; [32]; chars "there"; [10]]) (λ _, exit 0).
Proof. refine (echo_correct (chars "echo") [chars "hi"; chars "there"] _). by repeat constructor. Defined.

(** Kill. An argument that is a numeral is read as the number it denotes, cut
    to an [int]: the numeral of any number below 2^31 as that number.  [kill] is
    called once, with it, after the message, and decides the exit status.
    An argument with any other character, or one whose number is cut to a negative one,
    ends the program with 1 before any call. *)
Theorem kill_main_correct a0 a :
  (Forall is_digit a →
    let n := i32 (value 10 a) in
    (0 <= n → kill_main [a0; a] ≈
      ITree.bind (emit (writes ((Lit <$> chars "kill ") ++ Dec n :: (Lit <$> chars "..." ++ [10])))) (λ _,
        ITree.bind (kill n) (λ r, if r <? 0 then exit 1 else exit 0))) ∧
    (n < 0 → kill_main [a0; a] ≈ exit 1)) ∧
  (∀ n, 0 <= n < 2 ^ 31 → Forall is_digit (numeral 10 n) ∧ i32 (value 10 (numeral 10 n)) = n) ∧
  (∀ l c rest, a = l ++ c :: rest → Forall is_digit l → c ≠ 0 → ¬ is_digit c → kill_main [a0; a] ≈ exit 1).
Proof.
  assert (E : ∀ n, atou (a ++ [0]) = Ret n → kill_main [a0; a] ≈
    if n <? 0 then exit 1 else
      ITree.bind (printf (chars "kill %d..." ++ [10; 0]) [Word n]) (λ _, ITree.bind (kill n) (λ r, if r <? 0 then exit 1 else exit 0))).
  { intros n Ea. unfold kill_main. cbn [length]. rewrite decide_False by lia. unfold arg. cbn [lookup list_lookup].
    rewrite bind_ret_l, Ea, bind_ret_l. reflexivity. }
  split_and!.
  - intros Hd n. pose proof (atou_loop_digits a [] Hd 0) as Ea. change (i32 0) with 0 in Ea. specialize (E _ Ea). fold (value 10 a) in E.
    change (i32 (value 10 a)) with n in E. clearbody n. split; intros Hn; rewrite E.
    + rewrite (proj2 (Z.ltb_ge n 0)) by lia.
      rewrite (printf_bind ((Lit <$> chars "kill ") ++ Dec n :: (Lit <$> chars "..." ++ [10]))) by (done || by repeat constructor). reflexivity.
    + by rewrite (proj2 (Z.ltb_lt n 0)) by lia.
  - intros n Hn. destruct (numeral_ok 9 10 n) as [V _]; [lia..|]. split; [|rewrite V; by apply i32_small; lia].
    apply numeral_decimal. lia.
  - intros l c rest -> Hl H0 Hc. rewrite E with (n := -1); [reflexivity|]. unfold atou. rewrite <- app_assoc. by apply atou_other.
Qed.

(** The number 4294967297 is cut to that of the first process. *)
Lemma kill_main_correct_witness :
  kill_main [chars "kill"; chars "4294967297"] ≈
    ITree.bind (emit [[107]; [105]; [108]; [108]; [32]; [49]; [46]; [46]; [46]; [10]]) (λ _,
      ITree.bind (kill 1) (λ r, if r <? 0 then exit 1 else exit 0)).
Proof.
  refine (proj1 (proj1 (kill_main_correct (chars "kill") (chars "4294967297")) _) _).
  - repeat constructor; vm_compute; discriminate.
  - vm_compute. discriminate.
Defined.
End ProgramProps.
