(* ===== verification/Commands.v ===== *)
(** * Programs on the file system

    [cat] and [ls] (usr/cat.c, usr/ls.c) run with their calls on files answered by
    kernel/file.c: what they write is what the files and the directories hold.
    The kernel stores what a call returns at [ubuf], an array of the program;
    calls that are not on files stay in the tree. *)

From S2P Require Import Prelude Mem Bytes KString Printk Spinlock Buf Fs Ext2 Ext2Alloc Ext2File Ext2Dir Uaccess File Ulib Programs.
From ITree Require Import ITree ITreeFacts Events.State Events.StateFacts.
Import ITree.Basics.Basics.Monads Programs.
Open Scope Z_scope.

(** The 24 bytes of [struct stat]. *)
Definition stat_of (l : bytes) : stat :=
  Stat (fld 4 l 0) (fld 4 l 4) (fld 2 l 8) (fld 4 l 12) (fld 4 l 16) (fld 4 l 20).

Section handler.
Context {C : Type} `{BlockCache C}.
Context (devs : list (cdev C)) (ubuf st1 pad : Z).

(** A routine of the kernel on its own state. *)
Definition kcall {A} (m : prog (filest C) A) : stateT (filest C) (itree sysE) A := λ s,
  match m s with
  | Prelude.Ret a s' => Ret (s', a)
  | Panic e | Fault e => ufault e
  | Hang => ITree.spin
  end.

(** The bytes stored at [ubuf]. *)
Definition stored (n : Z) : prog (filest C) bytes := gets (λ s, mread (fs_mem (fl_fs s)) ubuf (Z.to_nat n)).

Definition on_files : ∀ T, sysE T → stateT (filest C) (itree sysE) T := λ T e,
  match e in sysE T return filest C → itree sysE (filest C * T) with
  | SRead fd n => kcall (pbind (File.read devs fd ubuf n) (λ r, pbind (stored r) (λ bs, Prelude.ret (r, bs))))
  | SOpen path flags => kcall (File.open path flags)
  | SClose fd => kcall (File.close fd)
  | SFstat fd => kcall (pbind (File.fstat st1 pad fd ubuf) (λ r, pbind (stored 24) (λ bs, Prelude.ret (r, stat_of bs))))
  | e => λ s, ITree.bind (ITree.trigger e) (λ r, Ret (s, r))
  end.

(** A program on the files of [s]. *)
Definition on {A} (t : user A) (s : filest C) : user (filest C * A) := interp_state on_files t s.

#[local] Instance on_proper A : Proper (eutt eq ==> eq ==> eutt eq) (@on A).
Proof. intros t t' E s s' ->. unfold on. by rewrite E. Qed.

Lemma on_bind {A B} (t : user A) (k : A → user B) s : on (ITree.bind t k) s ≈ ITree.bind (on t s) (λ r, on (k r.2) r.1).
Proof. unfold on. rewrite interp_state_bind. reflexivity. Qed.
Lemma on_ret {A} (a : A) s : on (Ret a) s ≈ Ret (s, a).
Proof. unfold on. rewrite interp_state_ret. reflexivity. Qed.
Lemma on_call {T} (e : sysE T) s : on (ITree.trigger e) s ≈ on_files T e s.
Proof. unfold on. apply interp_state_trigger. Qed.

Lemma kcall_run {A} (m : prog (filest C) A) a s s' : m s = Prelude.Ret a s' → kcall m s = Ret (s', a).
Proof. unfold kcall. by intros ->. Qed.

(** What is written stays. *)
Lemma on_write fd bs s : on (write fd bs) s ≈ ITree.bind (write fd bs) (λ r, Ret (s, r)).
Proof. unfold write. rewrite on_call. reflexivity. Qed.

Lemma on_exit {A} r s : on (exit (A := A) r) s ≈ exit r.
Proof. unfold exit. rewrite on_bind, on_call. cbn [on_files]. rewrite bind_bind. apply eutt_eq_bind. intros []. Qed.

Lemma on_emit bss s : on (emit bss) s ≈ ITree.bind (emit bss) (λ r, Ret (s, r)).
Proof.
  induction bss as [|bs bss IH]; cbn [emit]; [by rewrite on_ret, bind_ret_l|].
  rewrite on_bind, on_write, !bind_bind. apply eutt_eq_bind. intros r. by rewrite bind_ret_l.
Qed.
End handler.

(** ** Copying *)

(** What [cat] does with the pieces it reads. *)
Fixpoint copy (bss : list (list Z)) : user unit :=
  match bss with
  | [] => Ret tt
  | bs :: bss =>
      let! n := write 1 bs in
      if n =? length bs then copy bss else exit 1
  end.

(** [l] in pieces of [k] bytes, the last of which may be shorter. *)
Fixpoint chunks (fuel k : nat) (l : list Z) : list (list Z) :=
  match fuel, l with
  | S fuel, _ :: _ => take k l :: chunks fuel k (drop k l)
  | _, _ => []
  end.

(** The [n] bytes of a file from [off] on. *)
Definition fbytes (dk : Z → bytes) (x : inode) (off : Z) (n : nat) : bytes := (λ j, fbyte dk x (off + Z.of_nat j)) <$> seq 0 n.

(** All of them. *)
Definition content (dk : Z → bytes) (x : inode) : bytes := fbytes dk x 0 (Z.to_nat (i_size x)).

Lemma concat_chunks k l : (0 < k)%nat → ∀ fuel, (length l <= fuel)%nat → concat (chunks fuel k l) = l.
Proof.
  intros Hk fuel. revert l. induction fuel as [|fuel IH]; intros [|c l] Hl; cbn [length] in Hl; try done; [lia|].
  cbn [chunks concat]. rewrite IH by (rewrite length_drop; cbn [length]; lia). apply take_drop.
Qed.

Lemma chunks_sizes k l fuel : (0 < k)%nat → Forall (λ bs, (0 < length bs <= k)%nat) (chunks fuel k l).
Proof.
  intros Hk. revert l. induction fuel as [|fuel IH]; intros [|c l]; try done. cbn [chunks]. constructor; [|apply IH].
  rewrite length_take. cbn [length]. lia.
Qed.

Section copying.
Context {C : Type} {Hc : BlockCache C} {Hok : BlockCacheOk C}.
Context (devs : list (cdev C)) (ubuf st1 pad : Z).
Implicit Types (s : filest C) (dk : Z → bytes).

Lemma length_fbytes dk x off n : length (fbytes dk x off n) = n.
Proof. unfold fbytes. by rewrite length_fmap, length_seq. Qed.

Lemma fbytes_app dk x off n m : fbytes dk x off (n + m) = fbytes dk x off n ++ fbytes dk x (off + n) m.
Proof.
  unfold fbytes. rewrite seq_app, fmap_app. f_equal. apply list_eq. intros i. rewrite !list_lookup_fmap.
  destruct (decide (i < m)%nat).
  - rewrite !lookup_seq_lt by lia. cbn. do 2 f_equal. lia.
  - by rewrite !lookup_seq_ge by lia.
Qed.

Lemma mread_fbytes dk x m off n : (∀ a, ubuf <= a < ubuf + Z.of_nat n → rd8 m a = fbyte dk x (off + (a - ubuf))) →
  mread m ubuf n = fbytes dk x off n.
Proof.
  intros Hm. apply list_eq. intros i. unfold fbytes. rewrite list_lookup_fmap. destruct (decide (i < n)%nat).
  - rewrite lookup_mread, lookup_seq_lt by lia. cbn. rewrite Hm by lia. do 2 f_equal. lia.
  - rewrite lookup_seq_ge by lia. apply lookup_ge_None_2. rewrite length_mread. lia.
Qed.

(** A call of [read] gives the next bytes of the file. *)
Lemma read_on dk held s fd f i ino off n buf :
  fl_ok dk held s → (length held < 31)%nat → reading dk s fd f i ino off → 0 <= n < 2 ^ 63 →
  let r := Z.min n (i_size ino - off) in
  ∃ s', on devs ubuf st1 pad (read (Z.of_nat fd) n buf) s ≈
      Ret (s', (r, fbytes dk ino off (Z.to_nat r) ++ drop (Z.to_nat r) buf)) ∧
    fl_ok dk held s' ∧ reading dk s' fd f i ino (off + r) ∧ ofile s' = ofile s.
Proof.
  intros I Hl R Hn r. pose proof (rg_off _ _ _ _ _ _ _ R).
  destruct (read_ok devs dk held s fd f i ino off ubuf n I Hl R Hn) as (s' & E & I' & R' & O & M). fold r in E, R', M.
  exists s'. split; [|done]. unfold read. rewrite on_bind, on_call. cbn [on_files].
  rewrite (kcall_run _ (r, fbytes dk ino off (Z.to_nat r)) s s').
  - rewrite bind_ret_l. cbn [fst snd]. rewrite on_ret. rewrite take_ge, length_fbytes by (rewrite length_fbytes; lia). reflexivity.
  - rewrite (pbind_ok _ _ _ _ _ E). unfold stored. prog_step. unfold Prelude.ret. do 2 f_equal. apply mread_fbytes.
    intros a Ha. rewrite M, decide_True by lia. done.
Qed.

(** One turn of the loop, and the turn that ends it. *)
Lemma cat_turn fd buf : cat fd buf ≈
  ITree.bind (read fd BUFSZ buf) (λ r,
    if r.1 >? 0 then
      if r.1 >? BUFSZ then ufault "buf[]" else
      let! n := write 1 (take (Z.to_nat r.1) r.2) in
      if n =? r.1 then cat fd r.2 else exit 1
    else Ret r.2).
Proof.
  unfold cat at 1. rewrite unfold_iter, bind_bind. apply eutt_eq_bind. intros r. destruct (r.1 >? 0).
  - destruct (r.1 >? BUFSZ).
    + unfold ufault. rewrite bind_bind. apply eutt_eq_bind. intros [].
    + rewrite bind_bind. apply eutt_eq_bind. intros n. destruct (n =? r.1).
      * rewrite bind_ret_l. apply tau_eutt.
      * unfold exit. rewrite bind_bind. apply eutt_eq_bind. intros [].
  - rewrite bind_ret_l. reflexivity.
Qed.

Lemma chunks_nil m k : chunks m k [] = [].
Proof. by destruct m. Qed.

Lemma chunks_fbytes m dk x off n (r : nat) : (0 < r)%nat → r = Nat.min 512 n →
  chunks (S m) 512 (fbytes dk x off n) = fbytes dk x off r :: chunks m 512 (fbytes dk x (off + r) (n - r)).
Proof.
  intros Hr ->. set (r := Nat.min 512 n) in *. assert (E : fbytes dk x off n = fbytes dk x off r ++ fbytes dk x (off + r) (n - r)).
  { rewrite <- fbytes_app. f_equal. lia. }
  assert (T : take 512 (fbytes dk x off n) = fbytes dk x off r ∧ drop 512 (fbytes dk x off n) = fbytes dk x (off + r) (n - r)).
  { destruct (decide (n <= 512)%nat).
    - replace r with n by lia. rewrite Nat.sub_diag. by rewrite take_ge, drop_ge by (rewrite length_fbytes; lia).
    - rewrite E. split; [apply take_app_length'|apply drop_app_length']; rewrite length_fbytes; lia. }
  destruct T as [T1 T2]. destruct (fbytes dk x off n) as [|c l] eqn:El.
  - apply (f_equal length) in El. rewrite length_fbytes in El. cbn [length] in El. lia.
  - cbn [chunks]. by rewrite T1, T2.
Qed.

Lemma cat_on dk held fd f i ino : (length held < 31)%nat → ∀ (m : nat) s off buf,
  i_size ino - off <= m → fl_ok dk held s → reading dk s fd f i ino off →
  ∃ s' buf', on devs ubuf st1 pad (cat (Z.of_nat fd) buf) s ≈
      ITree.bind (copy (chunks m 512 (fbytes dk ino off (Z.to_nat (i_size ino - off))))) (λ _, Ret (s', buf')) ∧
    fl_ok dk held s' ∧ reading dk s' fd f i ino (i_size ino) ∧ ofile s' = ofile s.
Proof.
  intros Hl m. induction m as [|m IH]; intros s off buf Hm I R; pose proof (rg_off _ _ _ _ _ _ _ R) as Hb;
    destruct (read_on dk held s fd f i ino off BUFSZ buf I Hl R ltac:(unfold BUFSZ; lia)) as (s1 & E & I1 & R1 & O1);
    set (r := Z.min BUFSZ (i_size ino - off)) in *; pose proof (rg_size _ _ _ _ _ _ _ R) as Hs; unfold BUFSZ in r;
    set (buf1 := fbytes dk ino off (Z.to_nat r) ++ drop (Z.to_nat r) buf) in *;
    (destruct (decide (off = i_size ino)) as [->|Hne]; [|try lia]).
  1, 2: exists s1, buf1; assert (Hr : r = 0) by lia; rewrite Hr, Z.add_0_r in R1; split_and!; [|done|done|done];
    rewrite cat_turn, on_bind, E, bind_ret_l, Z.sub_diag, chunks_nil; cbn [fst snd]; (destruct (Z.gtb_spec r 0); [lia|]);
    rewrite on_ret; cbn [copy]; by rewrite bind_ret_l.
  destruct (IH s1 (off + r) buf1 ltac:(lia) I1 R1) as (s' & buf' & E' & I' & R' & O').
  exists s', buf'. split_and!; [|done|done|by rewrite O']. rewrite cat_turn, on_bind, E, bind_ret_l. cbn [fst snd].
  destruct (Z.gtb_spec r 0); [|lia]. destruct (Z.gtb_spec r BUFSZ); [unfold BUFSZ in *; lia|].
  rewrite (chunks_fbytes _ _ _ _ _ (Z.to_nat r)) by lia. rewrite on_bind, on_write, bind_bind. cbn [copy].
  unfold buf1. rewrite bind_bind, take_app_length' by (rewrite length_fbytes; lia). apply eutt_eq_bind. intros k.
  rewrite bind_ret_l. cbn [fst snd]. rewrite length_fbytes, Z2Nat.id by lia.
  replace (Z.to_nat (i_size ino - off) - Z.to_nat r)%nat with (Z.to_nat (i_size ino - (off + r))) by lia.
  destruct (k =? r); [exact E'|]. rewrite exit_bind. apply on_exit.
Qed.
End copying.

(** A file just opened for reading. *)
Lemma opened_reading {C} `{BlockCacheOk C} (s : filest C) dk held path fs1 (i k d : nat) ino :
  fl_ok dk held s → fs_ok dk held fs1 →
  ext2_path2inode (cwd s) path (fl_fs s) = Prelude.Ret (Some i) fs1 → itable fs1 !! i = Some ino →
  S_ISREG (i_mode ino) || S_ISDIR (i_mode ino) = true → file_ok dk ino → i_size ino < 2 ^ 31 →
  fst <$> list_find (λ x, f_ref x = 0) (ftable s) = Some k →
  fst <$> list_find (λ o, o = None) (ofile s) = Some d →
  ∃ s1, File.open path O_RDONLY s = Prelude.Ret (Z.of_nat d) s1 ∧ fl_ok dk held s1 ∧
    reading dk s1 d k i ino 0 ∧ sb (fl_fs s1) = sb fs1 ∧ fl_mapped s1 = fl_mapped s.
Proof.
  intros I I1 Ep Hi Hm Hf Hs Ek Ed.
  destruct (open_ok s dk held path O_RDONLY fs1 i k d ino I I1 Ep Hi ltac:(discriminate) Ek Ed)
    as (s1 & E & I2 & O1 & T1 & A1 & B1 & M1 & Hd & Hk & Od & Ok).
  exists s1. split_and!; [done|done| |done|done]. split; try done.
  - rewrite O1. apply list_lookup_insert_eq. by eapply lookup_lt_Some.
  - eexists. split; [rewrite T1; by apply list_lookup_insert_eq|done].
  - by rewrite A1.
  - destruct Hf. lia.
Qed.

(** The descriptor a process reads from can be closed. *)
Lemma reading_close {C} `{BlockCacheOk C} dk held (s : filest C) (d k i : nat) ino off :
  fl_ok dk held s → reading dk s d k i ino off → ∃ s', File.close (Z.of_nat d) s = Prelude.Ret 0 s'.
Proof.
  intros I [Rf Ro (x & Rx & _ & _ & _ & Rr) _ _ _ _ _]. eexists.
  apply (close_run s d k x (fl_hart _ _ _ I) (fl_lock _ _ _ I) Rf Ro Rx). pose proof (ft_ref _ (fl_table _ _ _ I) _ _ Rx). lia.
Qed.

(** A found file: the kernel's side of [open] for reading. *)
Record found {C} `{BlockCacheOk C} dk held (s : filest C) (path : bytes) (ino : inode) : Prop := {
  fd_ok : fl_ok dk held s;
  fd_path : ∃ fs1 i, fs_ok dk held fs1 ∧ ext2_path2inode (cwd s) path (fl_fs s) = Prelude.Ret (Some i) fs1 ∧ itable fs1 !! i = Some ino;
  fd_mode : S_ISREG (i_mode ino) || S_ISDIR (i_mode ino) = true;
  fd_file : file_ok dk ino;
  fd_size : i_size ino < 2 ^ 31;
  fd_slot : ∃ k, fst <$> list_find (λ x, f_ref x = 0) (ftable s) = Some k;
  fd_desc : ∃ d, fst <$> list_find (λ o, o = None) (ofile s) = Some d;
  fd_held : (length held < 31)%nat
}.

Lemma found_open {C} `{BlockCacheOk C} dk held (s : filest C) path ino :
  found dk held s path ino → ∃ s1 (d k i : nat), File.open path O_RDONLY s = Prelude.Ret (Z.of_nat d) s1 ∧
    fl_ok dk held s1 ∧ reading dk s1 d k i ino 0 ∧ fl_mapped s1 = fl_mapped s.
Proof.
  intros [I (fs1 & i & I1 & Ep & Hi) Hm Hf Hs (k & Ek) (d & Ed) _].
  destruct (opened_reading s dk held path fs1 i k d ino I I1 Ep Hi Hm Hf Hs Ek Ed) as (s1 & E & I2 & R & _ & M).
  exists s1, d, k, i. by split_and!.
Qed.

Section cat.
Context {C : Type} {Hc : BlockCache C} {Hok : BlockCacheOk C}.
Context (devs : list (cdev C)) (ubuf st1 pad : Z).
Implicit Types (s : filest C) (dk : Z → bytes).

Lemma cat_main_one a0 p : cat_main [a0; p] ≈ ITree.bind (cat_file p (replicate 512 0)) (λ _, exit 0).
Proof.
  unfold cat_main. cbn [length Nat.sub]. rewrite decide_False by lia. cbn [cat_files]. unfold arg. cbn [lookup list_lookup].
  rewrite bind_ret_l, bind_bind. apply eutt_eq_bind. intros b. by rewrite bind_ret_l.
Qed.

Lemma cat_found dk held s p ino buf :
  found dk held s p ino →
  ∃ s' buf', on devs ubuf st1 pad (cat_file p buf) s ≈
    ITree.bind (copy (chunks (Z.to_nat (i_size ino)) 512 (content dk ino))) (λ _, Ret (s', buf')).
Proof.
  intros F. destruct (found_open dk held s p ino F) as (s1 & d & k & i & Eo & I1 & R1 & _).
  destruct (cat_on devs ubuf st1 pad dk held d k i ino (fd_held _ _ _ _ _ F) (Z.to_nat (i_size ino)) s1 0 buf ltac:(lia) I1 R1)
    as (s2 & buf2 & E2 & I2 & R2 & _).
  destruct (reading_close dk held s2 d k i ino (i_size ino) I2 R2) as (s3 & E3).
  exists s3, buf2. unfold cat_file, open. rewrite on_bind, on_call. cbn [on_files]. rewrite (kcall_run _ _ _ _ Eo), bind_ret_l. cbn [fst snd].
  rewrite (proj2 (Z.ltb_ge (Z.of_nat d) 0)) by lia. rewrite on_bind, E2, Z.sub_0_r. unfold content. rewrite bind_bind.
  apply eutt_eq_bind. intros _. rewrite bind_ret_l. cbn [fst snd]. unfold close. rewrite on_bind, on_call. cbn [on_files].
  rewrite (kcall_run _ _ _ _ E3), bind_ret_l. apply on_ret.
Qed.

Lemma open_fails p s fs1 :
  ext2_path2inode (cwd s) p (fl_fs s) = Prelude.Ret None fs1 → File.open p O_RDONLY s = Prelude.Ret (-1) (lset of_fs fs1 s).
Proof. intros E. unfold File.open. prog_step. by rewrite (pbind_ok _ _ _ _ _ (zoom_ok of_fs _ s _ _ E)). Qed.

Definition not_found (p : list Z) : list piece := Txt p :: (Lit <$> chars ": not found" ++ [10]).

Lemma cat_missing s p fs1 buf :
  ext2_path2inode (cwd s) p (fl_fs s) = Prelude.Ret None fs1 → Forall (λ c, c ≠ 0) p →
  on devs ubuf st1 pad (cat_file p buf) s ≈ ITree.bind (emit (writes (not_found p))) (λ _, exit 1).
Proof.
  intros E Hp. unfold cat_file, open. rewrite on_bind, on_call. cbn [on_files]. rewrite (kcall_run _ _ _ _ (open_fails _ _ _ E)), bind_ret_l.
  cbn [fst snd Z.ltb Z.compare]. rewrite on_bind. change (chars "%s: not found" ++ [10; 0]) with (source (not_found p) ++ 0 :: []).
  change [str p] with (vargs (not_found p)). rewrite printf_run by (unfold not_found; constructor; [done|by repeat constructor]).
  rewrite on_bind, on_emit, !bind_bind. apply eutt_eq_bind. intros u. rewrite bind_ret_l, on_ret, bind_ret_l. apply on_exit.
Qed.
End cat.

(** ** Listing *)

(** A line of the list. *)
Definition entry_line (e : entry) : list (list Z) := writes [Txt e.1; Lit 9; Dec e.2; Lit 10].

Lemma fmt_loop_first fuel c fmt ap :
  fmt_loop (S fuel) (37 :: c :: fmt) 0 ap ≈ ITree.bind (directive c ap) (λ ap, fmt_loop fuel (37 :: c :: fmt) 2 ap).
Proof.
  cbn [fmt_loop]. change (fmt_at _ 0) with (Ret 37 : user Z). rewrite bind_ret_l. cbn [Z.eqb Pos.eqb].
  change (fmt_at _ (0 + 1)) with (Ret c : user Z). by rewrite bind_ret_l.
Qed.

(** [%s] does not look past the NUL. *)
Lemma printf_long_str fmt l r ap : Forall (λ c, c ≠ 0) l →
  printf (37 :: 115 :: fmt) (Str (Some (l ++ 0 :: r)) :: ap) ≈ printf (37 :: 115 :: fmt) (Str (Some (l ++ [0])) :: ap).
Proof.
  intros Hl. assert (D : directive 115 (Str (Some (l ++ 0 :: r)) :: ap) ≈ directive 115 (Str (Some (l ++ [0])) :: ap)).
  { unfold directive. cbn [Z.eqb Pos.eqb]. unfold va_str. rewrite !bind_ret_l. cbn [fst snd].
    repeat change (default _ (Some ?x)) with x. rewrite !write_str_run by done. reflexivity. }
  unfold printf. cbn [length]. by rewrite !fmt_loop_first, D.
Qed.

Section ls.
Context {C : Type} {Hc : BlockCache C} {Hok : BlockCacheOk C}.
Context (devs : list (cdev C)) (ubuf st1 pad : Z).
Implicit Types (s : filest C) (dk : Z → bytes) (l : bytes).

(** The walk over a block prints its entries. *)
Lemma ls_entries_run (fuel : nat) l pos es :
  length l = 1024%nat → dents l 1024 pos es → 1024 - pos <= fuel → ls_entries fuel 1024 l pos ≈ emit (es ≫= entry_line).
Proof.
  intros Hl D. revert fuel. induction D as [|pos nm ino es D Hr Ds IH]; intros fuel Hf; [by destruct fuel|].
  pose proof (dents_bound _ 1024 _ _ ltac:(lia) Ds) as Hb. destruct D as [[P1 P2] Di Dl Dn [[[Nl1 Nl2] [Nb N0]] Io]].
  destruct fuel as [|fuel]; [lia|]. cbn [ls_entries]. cbv zeta.
  rewrite (proj2 (Z.ltb_lt pos 1024)) by lia. rewrite Dl, Hl. destruct (Z.gtb_spec (pos + 8) 1024%nat); [lia|].
  destruct (Z.eqb_spec (d_rec_len l (Z.to_nat pos)) 0); [lia|]. destruct (Z.gtb_spec (pos + 8 + length nm) 1024%nat); [lia|].
  rewrite Nat2Z.id, Dn, Di.
  assert (Hn : Forall (λ c, c ≠ 0) nm) by (apply Forall_forall; by intros c Hin ->).
  assert (En : splice (replicate 255 0) 0 nm = nm ++ 0 :: replicate (254 - length nm) 0).
  { with_strategy transparent [splice] (unfold splice). cbn [take app]. rewrite drop_replicate. by replace (255 - (0 + length nm))%nat with (S (254 - length nm)) by lia. }
  rewrite En. cbn [mbind list_bind]. rewrite emit_app.
  change (chars "%s" ++ [9] ++ chars "%d" ++ [10; 0]) with (37 :: 115 :: 9 :: chars "%d" ++ [10; 0]). rewrite printf_long_str by done.
  rewrite (printf_run [Txt nm; Lit 9; Dec ino; Lit 10] []) by (repeat constructor; done). rewrite bind_bind.
  apply eutt_eq_bind. intros _. rewrite bind_ret_l, u64_small by lia. apply IH. lia.
Qed.

(** A block of a directory read whole is the disk's. *)
Lemma fbytes_block dk held s x (k : Z) :
  fs_ok dk held (fl_fs s) → 0 <= k → fbytes dk x (1024 * k) 1024 = dk (file_block dk x k).
Proof.
  intros I Hk. destruct (cached_block _ _ _ (file_block dk x k) (fo_cache _ _ _ I)) as [Hl _]. unfold BSIZE in Hl.
  apply list_eq. intros i. unfold fbytes. rewrite list_lookup_fmap. destruct (decide (i < 1024)%nat).
  - rewrite lookup_seq_lt by lia. cbn [fmap option_fmap option_map]. unfold fbyte.
    replace ((1024 * k + (0 + i)%nat) / 1024) with k by zlia. replace ((1024 * k + (0 + i)%nat) mod 1024) with (i : Z) by zlia.
    rewrite Nat2Z.id. unfold byte_at. destruct (lookup_lt_is_Some_2 (dk (file_block dk x k)) i) as [c ->]; [lia|done].
  - rewrite lookup_seq_ge, lookup_ge_None_2 by lia. done.
Qed.

Lemma ls_dir_turn fd blksize buf : ls_dir fd blksize buf ≈
  ITree.bind (read fd 1024 buf) (λ r,
    if r.1 =? 1024 then let! _ := ls_entries (Z.to_nat blksize) blksize r.2 0 in ls_dir fd blksize r.2 else Ret r.2).
Proof.
  unfold ls_dir at 1. rewrite unfold_iter, bind_bind. apply eutt_eq_bind. intros r. destruct (r.1 =? 1024).
  - rewrite bind_bind. apply eutt_eq_bind. intros u. rewrite bind_ret_l. apply tau_eutt.
  - rewrite bind_ret_l. reflexivity.
Qed.

(** The turns over the blocks from the [k]-th on. *)
Lemma ls_dir_on dk held (d f i : nat) ino E : dir_ok dk ino E → i_size ino = 1024 * ext2_inode_nblock ino → (length held < 31)%nat →
  ∀ (m : nat) (k : Z) s buf, 0 <= k → k + m = ext2_inode_nblock ino → length buf = 1024%nat →
  fl_ok dk held s → reading dk s d f i ino (1024 * k) →
  ∃ s' buf', on devs ubuf st1 pad (ls_dir (Z.of_nat d) 1024 buf) s ≈
      ITree.bind (emit (entries E m k ≫= entry_line)) (λ _, Ret (s', buf')) ∧
    fl_ok dk held s' ∧ ∃ off, reading dk s' d f i ino off.
Proof.
  intros [Df Db] Hsz Hl m. induction m as [|m IH]; intros k s buf Hk Hm Hb I R;
    destruct (read_on devs ubuf st1 pad dk held s d f i ino (1024 * k) 1024 buf I Hl R ltac:(lia)) as (s1 & E1 & I1 & R1 & _);
    set (r := Z.min 1024 (i_size ino - 1024 * k)) in *.
  - assert (Hr : r = 0) by lia. exists s1. eexists. split_and!; [|done|eauto]. rewrite ls_dir_turn, on_bind, E1, bind_ret_l, Hr.
    cbn [fst snd Z.eqb entries]. rewrite on_ret. cbn [mbind list_bind emit]. rewrite bind_ret_l. reflexivity.
  - assert (Hr : r = 1024) by lia. rewrite Hr in *. change (Z.to_nat 1024) with 1024%nat in E1.
    rewrite (fbytes_block dk held s) in E1 by (apply I || lia). set (b := dk (file_block dk ino k)) in *.
    assert (Hbl : length b = 1024%nat) by apply (cached_block _ _ _ _ (fo_cache _ _ _ (fl_fsok _ _ _ I))).
    rewrite drop_ge, app_nil_r in E1 by lia.
    replace (1024 * k + 1024) with (1024 * (k + 1)) in R1 by lia.
    destruct (IH (k + 1) s1 b ltac:(lia) ltac:(lia) Hbl I1 R1) as (s' & buf' & E' & I' & R').
    exists s', buf'. split_and!; [|done|done]. rewrite ls_dir_turn, on_bind, E1, bind_ret_l. cbn [fst snd Z.eqb Pos.eqb].
    rewrite (ls_entries_run _ b 0 (E k)); [|done|apply Db; lia|change (Z.of_nat (Z.to_nat 1024)) with 1024; lia].
    cbn [entries]. rewrite bind_app, on_bind, on_emit, emit_app, !bind_bind. apply eutt_eq_bind. intros u. rewrite bind_ret_l. exact E'.
Qed.

(** ** [fstat] *)

Lemma stat_of_bytes x b : 0 <= i_mode x < 2 ^ 16 → sb_bsize b = 1024 →
  st_mode (stat_of (stat_bytes pad x b)) = i_mode x ∧ st_blksize (stat_of (stat_bytes pad x b)) = 1024.
Proof.
  intros Hm Hb.
  assert (F : ∀ n v (l1 l2 : bytes), fld n (l1 ++ le_bytes n v ++ l2) (length l1) = v mod 256 ^ n).
  { intros n v l1 l2. rewrite fld_eq. rewrite <- le_val_bytes. f_equal.
    with_strategy transparent [slice] (unfold slice). by rewrite drop_app_length, take_app_length' by (by rewrite length_le_bytes). }
  unfold stat_bytes, stat_of, st_mode, st_blksize. split.
  - pose proof (F 2%nat (i_mode x) (le_bytes 4 0 ++ le_bytes 4 (i_inum x)) (le_bytes 2 pad ++
      le_bytes 4 (i_size x) ++ le_bytes 4 (i_links_count x) ++ le_bytes 4 (sb_bsize b))) as E.
    rewrite <- app_assoc in E. rewrite length_app, !length_le_bytes in E. refine (eq_trans E _). apply Z.mod_small. done.
  - pose proof (F 4%nat (sb_bsize b) (le_bytes 4 0 ++ le_bytes 4 (i_inum x) ++ le_bytes 2 (i_mode x) ++ le_bytes 2 pad ++
      le_bytes 4 (i_size x) ++ le_bytes 4 (i_links_count x)) []) as E.
    rewrite <- !app_assoc in E. rewrite !length_app, !length_le_bytes in E. rewrite app_nil_r in E.
    refine (eq_trans E _). by rewrite Hb.
Qed.

Lemma fstat_ok dk held s (d f i : nat) ino off :
  fl_ok dk held s → reading dk s d f i ino off → all_mapped (fl_mapped s) ubuf st1 24 →
  ∃ s', File.fstat st1 pad (Z.of_nat d) ubuf s = Prelude.Ret 0 s' ∧ fl_ok dk held s' ∧ reading dk s' d f i ino off ∧
    mread (fs_mem (fl_fs s')) ubuf 24 = stat_bytes pad ino (sb (fl_fs s)).
Proof.
  intros I R HM. destruct R as [Rf Ro (x & Rx & Rr & Ri & Roff & Rref) Rino Rreg Rok Rsz Rb].
  set (m1 := mwrite (fs_mem (fl_fs s)) st1 (stat_bytes pad ino (sb (fl_fs s)))).
  destruct (copyout_ok ubuf st1 24 (fl_mapped s) m1 (fl_handler s) HM) as (m2 & E & Hm).
  set (s1 := lset of_fs (FsSt (fs_cache (fl_fs s)) (itable_lk (fl_fs s)) (itable (fl_fs s)) (sb (fl_fs s)) m1) s).
  exists (lset of_user (Ust m2 (fl_mapped s) false) s1). split_and!.
  - unfold File.fstat. rewrite (pbind_ok _ _ _ _ _ (fget_run d s Rf)), Ro. cbn [default]. unfold id.
    rewrite (pbind_ok _ _ _ _ _ (file_at_run f x s Rx)), Ri.
    rewrite (pbind_ok _ _ _ _ _ (zoom_ok of_fs _ s _ _ (ino_at_run _ _ (fl_fs s) Rino))).
    replace (lset of_fs (fl_fs s) s) with s by (by destruct s).
    assert (Eb : zoom of_fs get_sb s = Prelude.Ret (sb (fl_fs s)) s).
    { rewrite (zoom_ok of_fs get_sb s (sb (fl_fs s)) (fl_fs s)) by done. f_equal. by destruct s. }
    rewrite (pbind_ok _ _ _ _ _ Eb).
    assert (Ew : zoom of_fs (zoom of_mem (modify (λ m, mwrite m st1 (stat_bytes pad ino (sb (fl_fs s)))))) s = Prelude.Ret tt s1) by done.
    rewrite (pbind_ok _ _ _ _ _ Ew). exact (zoom_ok of_user _ s1 _ _ E).
  - destruct I as [[If1 If2 If3] L T O]. by split.
  - split; try done. by exists x.
  - assert (Hlen : length (stat_bytes pad ino (sb (fl_fs s))) = 24%nat) by done.
    assert (Hby : Forall is_byte (stat_bytes pad ino (sb (fl_fs s)))).
    { unfold stat_bytes. rewrite !Forall_app. split_and!; apply le_bytes_ok. }
    rewrite <- (mread_mwrite (fs_mem (fl_fs s)) st1 _ Hby), Hlen. fold m1.
    apply list_eq. intros j. destruct (decide (j < 24)%nat).
    + rewrite !lookup_mread by done. change (fs_mem (fl_fs _)) with m2. rewrite Hm, decide_True by lia. do 2 f_equal. lia.
    + by rewrite !lookup_ge_None_2 by (rewrite length_mread; lia).
Qed.
End ls.

Section ls_main.
Context {C : Type} {Hc : BlockCache C} {Hok : BlockCacheOk C}.
Context (devs : list (cdev C)) (ubuf st1 pad : Z).
Implicit Types (s : filest C) (dk : Z → bytes).

(** What [ls] prints for a name that leads to [ino]. *)
Definition listing (ino : inode) (E : Z → list entry) (p : list Z) : list (list Z) :=
  if S_ISDIR (i_mode ino) then all_entries ino E ≫= entry_line else [p; [10]].

Lemma puts_bind {A} l rest (k : user A) : Forall (λ c, c ≠ 0) l →
  ITree.bind (puts (l ++ 0 :: rest)) (λ _, k) ≈ ITree.bind (emit [l; [10]]) (λ _, k).
Proof.
  intros Hl. rewrite puts_run by done. cbn [emit]. rewrite !bind_bind. apply eutt_eq_bind. intros u.
  rewrite !bind_bind. apply eutt_eq_bind. intros v. by rewrite !bind_ret_l.
Qed.

Lemma ls_found dk held s p ino E buf :
  found dk held s p ino → 0 <= i_mode ino < 2 ^ 16 → all_mapped (fl_mapped s) ubuf st1 24 → Forall (λ c, c ≠ 0) p →
  length buf = 1024%nat →
  (S_ISDIR (i_mode ino) = true → dir_ok dk ino E ∧ i_size ino = 1024 * ext2_inode_nblock ino) →
  ∃ s' buf', on devs ubuf st1 pad (ls p buf) s ≈ ITree.bind (emit (listing ino E p)) (λ _, Ret (s', (0, buf'))).
Proof.
  intros F Hm HM Hp Hb Hd. destruct (found_open dk held s p ino F) as (s1 & d & k & i & Eo & I1 & R1 & M1).
  rewrite <- M1 in HM. destruct (fstat_ok ubuf st1 pad dk held s1 d k i ino 0 I1 R1 HM) as (s2 & Es & I2 & R2 & Hst).
  destruct (stat_of_bytes pad ino (sb (fl_fs s1)) Hm (fo_bsize _ _ _ (fl_fsok _ _ _ I1))) as [Sm Sb].
  assert (Ec : ∀ s3, fl_ok dk held s3 → (∃ off, reading dk s3 d k i ino off) → ∃ s4, ∀ b : bytes,
      on devs ubuf st1 pad (let! _ := close (Z.of_nat d) in Ret (0, b)) s3 ≈ Ret (s4, (0, b))).
  { intros s3 I3 [off R3]. destruct (reading_close dk held s3 d k i ino off I3 R3) as (s4 & E4). exists s4. intros b.
    unfold close. rewrite on_bind, on_call. cbn [on_files]. rewrite (kcall_run _ _ _ _ E4), bind_ret_l. apply on_ret. }
  assert (Hls : ∀ t s3 b, on devs ubuf st1 pad
      (if S_ISREG (i_mode ino) || S_ISCHR (i_mode ino) then let! _ := puts (p ++ [0]) in Ret buf
       else if S_ISDIR (i_mode ino) then ls_dir (Z.of_nat d) 1024 buf else Ret buf) s2 ≈ ITree.bind (emit t) (λ _, Ret (s3, b)) →
      fl_ok dk held s3 → (∃ off, reading dk s3 d k i ino off) →
      ∃ s', on devs ubuf st1 pad (ls p buf) s ≈ ITree.bind (emit t) (λ _, Ret (s', (0, b)))).
  { intros t s3 b Et I3 R3. destruct (Ec s3 I3 R3) as (s4 & E4). exists s4. unfold ls, open, fstat. rewrite on_bind, on_call. cbn [on_files].
    rewrite (kcall_run _ _ _ _ Eo), bind_ret_l. cbn [fst snd]. rewrite (proj2 (Z.ltb_ge (Z.of_nat d) 0)) by lia.
    rewrite on_bind, on_call. cbn [on_files].
    rewrite (kcall_run _ (0, stat_of (stat_bytes pad ino (sb (fl_fs s1)))) s1 s2).
    2: { rewrite (pbind_ok _ _ _ _ _ Es). unfold stored. prog_step. change (Z.to_nat 24) with 24%nat. by rewrite Hst. }
    rewrite bind_ret_l. cbn [fst snd]. rewrite Sm, Sb, on_bind, Et, bind_bind. apply eutt_eq_bind. intros u.
    rewrite bind_ret_l. cbn [fst snd]. apply E4. }
  unfold listing. pose proof (fd_mode _ _ _ _ _ F) as Hmode. destruct (S_ISDIR (i_mode ino)) eqn:Ed.
  - destruct (Hd eq_refl) as [D Hsz].
    assert (En : S_ISREG (i_mode ino) || S_ISCHR (i_mode ino) = false).
    { unfold S_ISREG, S_ISCHR, S_ISDIR in *. apply Z.eqb_eq in Ed. by rewrite Ed. }
    rewrite En in Hls. pose proof (fi_few _ _ (do_file _ _ _ D)).
    destruct (ls_dir_on devs ubuf st1 pad dk held d k i ino E D Hsz (fd_held _ _ _ _ _ F) (Z.to_nat (ext2_inode_nblock ino)) 0 s2 buf
      ltac:(lia) ltac:(lia) Hb I2 R2) as (s3 & b & E3 & I3 & R3).
    destruct (Hls _ s3 b E3 I3 R3) as (s' & E'). by exists s', b.
  - rewrite orb_false_r in Hmode. rewrite Hmode in Hls. cbn [orb] in Hls. destruct (Hls [p; [10]] s2 buf) as (s' & E'); [|done|eauto|by exists s', buf].
    rewrite (puts_bind p []) by done. rewrite on_bind, on_emit, bind_bind. apply eutt_eq_bind. intros u. by rewrite bind_ret_l, on_ret.
Qed.

Lemma ls_missing s p fs1 buf :
  ext2_path2inode (cwd s) p (fl_fs s) = Prelude.Ret None fs1 →
  on devs ubuf st1 pad (ls p buf) s ≈
    ITree.bind (emit [chars "No such file or directory"; [10]]) (λ _, Ret (lset of_fs fs1 s, (-1, buf))).
Proof.
  intros E. unfold ls, open. rewrite on_bind, on_call. cbn [on_files]. rewrite (kcall_run _ _ _ _ (open_fails _ _ _ E)), bind_ret_l.
  cbn [fst snd Z.ltb Z.compare]. unfold literal. rewrite (puts_bind _ []) by (by repeat constructor).
  rewrite on_bind, on_emit, bind_bind. apply eutt_eq_bind. intros u. by rewrite bind_ret_l, on_ret.
Qed.

Lemma ls_main_one a0 p : ls_main [a0; p] ≈ ITree.bind (ls p (replicate 1024 0)) (λ r, exit (if r.1 <? 0 then 1 else 0)).
Proof.
  unfold ls_main. cbn [length Nat.sub]. rewrite decide_False by lia. cbn [ls_files]. unfold arg. cbn [lookup list_lookup].
  rewrite bind_ret_l, bind_bind. apply eutt_eq_bind. intros r. by rewrite bind_ret_l.
Qed.
End ls_main.

Module CommandProps.

Section claims.
Context {C : Type} {Hc : BlockCache C} {Hok : BlockCacheOk C}.
Implicit Types (s : filest C) (dk : Z → bytes) (p : list Z).


End claims.


(** A process in the root directory of the small disk. *)
Definition in_root : filest (bcache memdisk) :=
  FileSt DirProps.small_fs Spin.lock_init (replicate NFILE file_zero) (replicate NOFILE None) (Some 0%nat) (λ _, true) false.

End CommandProps.
