(* ===== verification/ShellMain.v ===== *)
(** * The shell (usr/sh.c)

    [main] over the memory of the process: the line at [buf] (128 bytes), the
    pointers to its words at [argv] (8 entries), and the two literals that
    [strcmp] compares with.  The abstract shell is a function of the words of a
    line; the turn of the program refines it. *)

From S2P Require Import Prelude Mem Bytes KString Printk Shell Ulib Programs.
From ITree Require Import ITree ITreeFacts Events.State Events.StateFacts.
Import Ulib Programs.
Open Scope Z_scope.

(** Fuel for the routines on the line: more than its characters. *)
Definition FUEL : nat := 129.

(** The string at [p]. *)
Fixpoint string_at (fuel : nat) (m : mem) (p : Z) : option (list Z) :=
  match fuel with
  | O => None
  | S fuel => if rd8 m p =? 0 then Some [] else
      match string_at fuel m (p + 1) with Some l => Some (rd8 m p :: l) | None => None end
  end.

(** The strings that the pointers from [p] on lead to, up to NULL. *)
Fixpoint strings_at (fuel : nat) (m : mem) (p : Z) : option (list (list Z)) :=
  match fuel with
  | O => None
  | S fuel => if ld64 m p =? 0 then Some [] else
      match string_at FUEL m (ld64 m p), strings_at fuel m (p + 8) with Some l, Some ls => Some (l :: ls) | _, _ => None end
  end.

(** An argument of a call that is in memory. *)
Definition the {A} (o : option A) : user A := match o with Some a => Ret a | None => ufault "string" end.

Section sh.
(** The arrays of [main] and the literals ["cd"] and ["exit"]. *)
Context (buf argv lit_cd lit_exit : Z).

Definition read_cmd (t : sh) : user sh :=
  let m := fill 128 (sh_mem t) buf 0 in
  let! _ := printf (literal "$ ") [] in
  let! r := ITree.trigger (SRead 0 128) in
  Ret (Sh (mwrite m buf (take 128 r.2)) (save t)).

(** [argv[i]] *)
Definition argv_ptr (t : sh) (i : Z) : Z := ld64 (sh_mem t) (argv + 8 * i).

Definition builtincmd (argc : Z) (t : sh) : user Z :=
  let! c := lift (strcmp FUEL (argv_ptr t 0) lit_cd) (sh_mem t) in
  if c.1 =? 0 then
    if argc <? 2 then
      let! r := chdir (chars "/") in
      Ret (if r <? 0 then -1 else 1)
    else if argc =? 2 then
      let! a := the (string_at FUEL (sh_mem t) (argv_ptr t 1)) in
      let! r := chdir a in
      if r <? 0 then let! _ := puts (literal "cd: failed") in Ret (-1) else Ret 1
    else let! _ := puts (literal "too many args") in Ret (-1)
  else
    let! c := lift (strcmp FUEL (argv_ptr t 0) lit_exit) (sh_mem t) in
    if c.1 =? 0 then exit 0 else Ret 0.

(** What [main] does with a line of [argc] words: [exec] answers only when it
    failed. *)
Definition sh_command (argc : Z) (t : sh) : user sh :=
  if argc <? 0 then Ret t else
  let! b := builtincmd argc t in
  if negb (b =? 0) then Ret t else
  let! pid := fork in
  if pid =? 0 then
    let! a := the (string_at FUEL (sh_mem t) (argv_ptr t 0)) in
    let! av := the (strings_at 8 (sh_mem t) argv) in
    let! _ := exec a av in
    let! _ := printf (chars "%s failed" ++ [10; 0]) [str a] in
    exit 1
  else let! _ := wait in Ret t.

(** A turn of [for(;;)]. *)
Definition sh_turn (t : sh) : user sh :=
  let! t := read_cmd t in
  let! r := lift (parse FUEL buf argv) t in
  sh_command r.1 r.2.

Definition sh_main : sh → user Z := ITree.iter (λ t, let! t := sh_turn t in Ret (inl t)).
End sh.

(** ** The abstract shell *)

Definition say (l : list Z) : user unit := emit [l; [10]].

Definition cd (args : list (list Z)) : user unit :=
  match args with
  | [] => let! _ := chdir (chars "/") in Ret tt
  | [d] => let! r := chdir d in if r <? 0 then say (chars "cd: failed") else Ret tt
  | _ => say (chars "too many args")
  end.

Definition spawn (w : list Z) (args : list (list Z)) : user unit :=
  let! pid := fork in
  if pid =? 0 then
    let! _ := exec w (w :: args) in
    let! _ := emit [w; [32]; [102]; [97]; [105]; [108]; [101]; [100]; [10]] in
    exit 1
  else let! _ := wait in Ret tt.

Definition command (W : list (list Z)) : user unit :=
  match W with
  | [] => Ret tt
  | w :: args => if decide (w = chars "cd") then cd args else if decide (w = chars "exit") then exit 0 else spawn w args
  end.

(** The words of a line. *)
Definition line_words (l : list Z) : list (list Z) := words (drop_ws l).

(** A line that [main] has room for: 127 characters and seven words at most. *)
Record good (l : list Z) : Prop := {
  gd_chars : Forall (λ c, 0 < c < 256) l;
  gd_len : (length l <= 127)%nat;
  gd_words : (length (line_words l) <= 7)%nat
}.

(** [n] bytes at [a] and [k] at [b] do not overlap. *)
Definition apart (a n b k : Z) : Prop := a + n <= b ∨ b + k <= a.

Section turn.
Context (buf argv lit_cd lit_exit : Z).
Implicit Types (l w : list Z) (W : list (list Z)) (m : mem) (t : sh) (fuel : nat).

(** The four arrays are apart, and the literals hold their characters. *)
Record layout : Prop := {
  ly_buf : 0 < buf ∧ buf + 128 < 2 ^ 64;
  ly_argv : 0 <= argv ∧ apart argv 64 buf 128;
  ly_cd : apart lit_cd 3 buf 128 ∧ apart lit_cd 3 argv 64;
  ly_exit : apart lit_exit 5 buf 128 ∧ apart lit_exit 5 argv 64
}.

Record literals t : Prop := {
  li_cd : cstr (sh_mem t) lit_cd (chars "cd");
  li_exit : cstr (sh_mem t) lit_exit (chars "exit")
}.

Lemma string_at_run l : ∀ fuel m p, cstr m p l → (length l < fuel)%nat → string_at fuel m p = Some l.
Proof.
  induction l as [|c l IH]; intros [|fuel] m p Hs Hf; cbn [length] in Hf; try lia; cbn [string_at].
  - cbn in Hs. by rewrite Hs.
  - destruct Hs as (E & Hc & Hs). by rewrite E, (proj2 (Z.eqb_neq c 0) Hc), (IH fuel m _ Hs) by lia.
Qed.

Lemma strings_at_run m lo hi W : ∀ i fuel, 0 < lo → hi - lo < 128 → argv_at lo hi m argv i W → ld64 m (argv + 8 * (i + length W)) = 0 →
  (length W < fuel)%nat → strings_at fuel m (argv + 8 * i) = Some W.
Proof.
  induction W as [|w W IH]; intros i [|fuel] Hlo Hhi A N Hf; cbn [length] in *; try lia; cbn [strings_at].
  - rewrite Z.add_0_r in N. by rewrite N.
  - destruct A as ([A1 A2] & A3 & A4). rewrite (proj2 (Z.eqb_neq (ld64 m (argv + 8 * i)) 0)) by lia.
    rewrite (string_at_run w _ _ _ A3) by (unfold FUEL; lia). replace (argv + 8 * i + 8) with (argv + 8 * (i + 1)) by lia.
    rewrite (IH (i + 1)); [done|done|done|done| |lia]. by replace (i + 1 + length W) with (i + S (length W)) by lia.
Qed.

Lemma cstr_intro m l : ∀ a, Forall (λ c, c ≠ 0) l → (∀ (i : nat) c, l !! i = Some c → rd8 m (a + i) = c) → rd8 m (a + length l) = 0 → cstr m a l.
Proof.
  induction l as [|c l IH]; intros a Hn Hl H0; cbn [cstr length] in *; [by rewrite Z.add_0_r in H0|].
  apply Forall_cons in Hn as [Hc Hn]. split_and!; [|done|apply IH; [done| |]].
  - rewrite <- (Z.add_0_r a). by apply (Hl 0%nat).
  - intros i d Hi. replace (a + 1 + i) with (a + S i) by lia. by apply Hl.
  - by replace (a + 1 + length l) with (a + S (length l)) by lia.
Qed.

(** The line in the cleared array. *)
Lemma typed_line m l : good l → let m' := mwrite (fill 128 m buf 0) buf (take 128 l) in
  cstr m' buf l ∧ ∀ a, ¬ (buf <= a < buf + 128) → rd8 m' a = rd8 m a.
Proof.
  intros [Hc Hl _] m'. unfold m'. rewrite take_ge by lia. split.
  - apply cstr_intro.
    + eapply Forall_impl; [exact Hc|]. cbn. lia.
    + intros i c Hi. pose proof (lookup_lt_Some _ _ _ Hi). rewrite rd8_mwrite.
      replace (buf + i - buf) with (i : Z) by lia. rewrite Nat2Z.id. rewrite decide_True by lia. unfold byte_at. rewrite Hi. cbn.
      apply u8_small. pose proof (Forall_lookup_1 _ _ _ _ Hc Hi). cbn in *. lia.
    + rewrite rd8_mwrite_other by lia. rewrite rd8_fill, decide_True by lia. done.
  - intros a Ha. rewrite rd8_mwrite_other by lia. by rewrite rd8_fill, decide_False by lia.
Qed.

Lemma lift_ret {S A} (p : prog S A) a s s' : p s = Prelude.Ret a s' → lift p s = Ret (a, s').
Proof. unfold lift. by intros ->. Qed.

(** A word against a literal. *)
Lemma strcmp_lit m p w q lit : cstr m p w → cstr m q lit → (length w <= 127)%nat →
  ∃ c, strcmp FUEL p q m = Prelude.Ret c m ∧ (c = 0 ↔ w = lit).
Proof.
  intros Hw Hq Hl. eexists. split; [apply (user_strcmp_run FUEL m p q w lit Hw Hq); unfold FUEL; lia|].
  pose proof (lcmp_0 w lit (cstr_nonzero _ _ _ Hw) (cstr_nonzero _ _ _ Hq)). rewrite <- H. split; [|by intros ->].
  lia.
Qed.

(** What [parse] leaves: the words of the line behind the pointers. *)
Record parsed W t : Prop := {
  pa_words : argv_at buf (buf + 127) (sh_mem t) argv 0 W;
  pa_null : argv_ptr argv t (length W) = 0;
  pa_lit : literals t
}.

Lemma parse_line l t : layout → literals t → good l →
  let t1 := Sh (mwrite (fill 128 (sh_mem t) buf 0) buf (take 128 l)) (save t) in
  ∃ t', parse FUEL buf argv t1 = Prelude.Ret (if decide (line_words l = []) then -1 else Z.of_nat (length (line_words l))) t' ∧
    parsed (line_words l) t'.
Proof.
  intros [Hb [Ha1 Ha] [Hc1 Hc2] [He1 He2]] [Lc Le] G t1. destruct (typed_line (sh_mem t) l G) as [Hs Ho]. pose proof (gd_len _ G). pose proof (gd_words _ G) as Hw.
  unfold apart in *. destruct (ShellProps.parse_correct FUEL buf argv l t1 Hs) as (t' & E & A & N & F);
    [unfold FUEL; lia|lia|lia|lia|change (words (drop_ws l)) with (line_words l); lia|].
  change (words (drop_ws l)) with (line_words l) in *. exists t'. split; [exact E|]. split.
  - eapply argv_at_ext; [| | | |exact A]; [done|done|lia|lia].
  - exact N.
  - split; (eapply cstr_ext; [|first [exact Lc|exact Le]]); intros i Hi; cbn [chars length] in Hi;
      change (length (chars _)) with 2%nat in Hi || change (length (chars _)) with 4%nat in Hi;
      (rewrite F by lia); apply Ho; lia.
Qed.

Lemma parsed_word W t (i : nat) w : layout → parsed W t → W !! i = Some w → cstr (sh_mem t) (argv_ptr argv t i) w ∧ (length w <= 127)%nat.
Proof.
  intros [Hb _ _ _] [Pw _ _] Hi. unfold argv_ptr.
  assert (H : ∀ W k i w, argv_at buf (buf + 127) (sh_mem t) argv k W → W !! i = Some w →
    cstr (sh_mem t) (ld64 (sh_mem t) (argv + 8 * (k + Z.of_nat i))) w ∧ (length w <= 127)%nat).
  { clear. intros W. induction W as [|v W IH]; intros k [|i] w A Hi; try done; destruct A as ([A1 A2] & A3 & A4).
    - injection Hi as <-. rewrite Z.add_0_r. split; [done|lia].
    - cbn in Hi. replace (k + S i) with (k + 1 + i) by lia. by apply IH. }
  by apply (H W 0 i w Pw Hi).
Qed.

(** What a builtin does, and whether the line was one. *)
Definition builtin_of W : user bool :=
  match W with
  | [] => Ret false
  | w :: args => if decide (w = chars "cd") then let! _ := cd args in Ret true
      else if decide (w = chars "exit") then exit 0 else Ret false
  end.

(** A message and the result -1. *)
Lemma say_puts {A} l (k : Z → user A) : Forall (λ c, c ≠ 0) l →
  ITree.bind (ITree.bind (puts (l ++ [0])) (λ _, Ret (-1))) k ≈ ITree.bind (say l) (λ _, k (-1)).
Proof.
  intros Hl. rewrite puts_run by done. unfold say. cbn [emit]. rewrite !bind_bind. apply eutt_eq_bind. intros r.
  rewrite !bind_bind. apply eutt_eq_bind. intros r'. by rewrite !bind_ret_l.
Qed.

Lemma builtincmd_run {A} W t (k : Z → user A) (yes no : user A) : layout → W ≠ [] → parsed W t →
  (∀ b, b ≠ 0 → k b = yes) → k 0 = no →
  ITree.bind (builtincmd argv lit_cd lit_exit (length W) t) k ≈ ITree.bind (builtin_of W) (λ b, if b : bool then yes else no).
Proof.
  intros L HW P Hyes Hno. destruct W as [|w args]; [done|]. clear HW.
  destruct (parsed_word _ t 0 w L P eq_refl) as [Hw Hl]. destruct (pa_lit _ _ P) as [Lc Le].
  destruct (strcmp_lit _ _ w _ _ Hw Lc Hl) as (c & Ec & Hc). destruct (strcmp_lit _ _ w _ _ Hw Le Hl) as (e & Ee & He).
  unfold builtincmd, builtin_of. change (Z.of_nat 0) with 0 in *. rewrite (lift_ret _ _ _ _ Ec), bind_ret_l. cbn [fst].
  destruct (Z.eqb_spec c 0) as [E0|E0]; (destruct (decide (w = chars "cd")) as [E1|E1]; [|try tauto]); [| tauto|].
  - unfold cd. destruct args as [|d args]; [|destruct args as [|d' args]].
    + change (Z.of_nat (length [w]) <? 2) with true. cbv iota. rewrite !bind_bind. apply eutt_eq_bind. intros r.
      rewrite !bind_ret_l. rewrite Hyes by (destruct (r <? 0); lia). reflexivity.
    + change (Z.of_nat (length [w; d]) <? 2) with false. change (Z.of_nat (length [w; d]) =? 2) with true. cbv iota.
      destruct (parsed_word _ t 1 d L P eq_refl) as [Hd Hld]. change (Z.of_nat 1) with 1 in Hd.
      rewrite (string_at_run d FUEL _ _ Hd) by (unfold FUEL; lia). cbn [the]. rewrite bind_ret_l, !bind_bind. apply eutt_eq_bind. intros r.
      destruct (r <? 0).
      * unfold literal. rewrite say_puts by (by repeat constructor). apply eutt_eq_bind. intros u. by rewrite bind_ret_l, Hyes by lia.
      * rewrite !bind_ret_l. by rewrite Hyes by lia.
    + destruct (Z.ltb_spec (length (w :: d :: d' :: args)) 2) as [Hn|_]; [cbn [length] in Hn; lia|].
      destruct (Z.eqb_spec (length (w :: d :: d' :: args)) 2) as [Hn|_]; [cbn [length] in Hn; lia|].
      unfold literal. rewrite say_puts, bind_bind by (by repeat constructor). apply eutt_eq_bind. intros u. by rewrite bind_ret_l, Hyes by lia.
  - rewrite (lift_ret _ _ _ _ Ee), bind_ret_l. cbn [fst]. destruct (Z.eqb_spec e 0) as [E2|E2], (decide (w = chars "exit")) as [E3|E3]; try tauto.
    + by rewrite !exit_bind.
    + rewrite !bind_ret_l. by rewrite Hno.
Qed.

Lemma command_builtin W : W ≠ [] →
  command W ≈ ITree.bind (builtin_of W) (λ b, if b : bool then Ret tt else match W with w :: args => spawn w args | [] => Ret tt end).
Proof.
  destruct W as [|w args]; [done|]. intros _. unfold command, builtin_of. destruct (decide (w = chars "cd")).
  - rewrite bind_bind. rewrite <- (bind_ret_r (cd args)) at 1. apply eutt_eq_bind. intros []. by rewrite bind_ret_l.
  - destruct (decide (w = chars "exit")); [by rewrite exit_bind|by rewrite bind_ret_l].
Qed.

(** With the words of the line the program does what the abstract shell does. *)
Lemma sh_command_run W t : layout → (length W <= 7)%nat → parsed W t →
  sh_command argv lit_cd lit_exit (if decide (W = []) then -1 else Z.of_nat (length W)) t ≈ ITree.bind (command W) (λ _, Ret t).
Proof.
  intros L H7 P. unfold sh_command. destruct (decide (W = [])) as [->|HW]; [cbn [command]; by rewrite bind_ret_l|].
  rewrite (proj2 (Z.ltb_ge (Z.of_nat (length W)) 0)) by lia.
  etransitivity.
  { eapply (builtincmd_run W t _ (Ret t)); [exact L|exact HW|exact P| |reflexivity]. intros b Hb. by rewrite (proj2 (Z.eqb_neq b 0) Hb). }
  rewrite (command_builtin W HW), bind_bind. apply eutt_eq_bind. intros [|]; [by rewrite bind_ret_l|].
  destruct W as [|w args]; [done|]. destruct (parsed_word _ t 0 w L P eq_refl) as [Hw Hl]. change (Z.of_nat 0) with 0 in Hw.
  cbn [negb Z.eqb]. unfold spawn. rewrite bind_bind. apply eutt_eq_bind. intros pid. destruct (pid =? 0).
  - rewrite (string_at_run w FUEL _ _ Hw) by (unfold FUEL; lia). cbn [the]. rewrite bind_ret_l.
    pose proof (ly_buf L). pose proof (strings_at_run (sh_mem t) buf (buf + 127) (w :: args) 0 8 ltac:(lia) ltac:(lia) (pa_words _ _ P)
      (pa_null _ _ P) ltac:(lia)) as Es. rewrite Z.mul_0_r, Z.add_0_r in Es. rewrite Es. cbn [the]. rewrite bind_ret_l, bind_bind.
    apply eutt_eq_bind. intros r. rewrite (printf_bind (Txt w :: (Lit <$> chars " failed" ++ [10]))); [|
      constructor; [exact (cstr_nonzero _ _ _ Hw)|by repeat constructor]|done|done].
    rewrite bind_bind. apply eutt_eq_bind. intros u. by rewrite exit_bind.
  - rewrite bind_bind. apply eutt_eq_bind. intros r. by rewrite bind_ret_l.
Qed.
End turn.

(** ** Sessions *)

(** Lines typed on the standard input; when there is none left the call stays. *)
Definition typing : ∀ T, sysE T → list (list Z) → user (list (list Z) * T) := λ T e,
  match e in sysE T return list (list Z) → user (list (list Z) * T) with
  | SRead fd n => λ ls, match ls with
      | l :: ls => Ret (ls, (Z.of_nat (length l), l))
      | [] => let! r := ITree.trigger (SRead fd n) in Ret ([], r) end
  | e => λ ls, let! r := ITree.trigger e in Ret (ls, r)
  end.

Definition typed {A} (t : user A) (ls : list (list Z)) : user (list (list Z) * A) := interp_state typing t ls.

(** What the lines make the shell do. *)
Fixpoint session (ls : list (list Z)) : user unit :=
  match ls with
  | [] => Ret tt
  | l :: ls => let! _ := emit [[36]; [32]] in let! _ := command (line_words l) in session ls
  end.

Section sessions.
Implicit Types (ls : list (list Z)) (t : sh).

#[local] Instance typed_proper A : Proper (eutt eq ==> eq ==> eutt eq) (@typed A).
Proof. intros t t' E s s' ->. unfold typed. by rewrite E. Qed.

Lemma input_bind {A B} (t : user A) (k : A → user B) ls : typed (ITree.bind t k) ls ≈ ITree.bind (typed t ls) (λ r, typed (k r.2) r.1).
Proof. unfold typed. rewrite interp_state_bind. reflexivity. Qed.
Lemma input_ret {A} (a : A) ls : typed (Ret a) ls ≈ Ret (ls, a).
Proof. unfold typed. rewrite interp_state_ret. reflexivity. Qed.
Lemma typed_call {T} (e : sysE T) ls : typed (ITree.trigger e) ls ≈ typing T e ls.
Proof. unfold typed. apply interp_state_trigger. Qed.

(** A part of a program that does not read. *)
Definition no_read {A} (t : user A) : Prop := ∀ ls, typed t ls ≈ ITree.bind t (λ r, Ret (ls, r)).

Lemma no_read_ret {A} (a : A) : no_read (Ret a).
Proof. intros ls. by rewrite input_ret, bind_ret_l. Qed.
Lemma no_read_bind {A B} (t : user A) (k : A → user B) : no_read t → (∀ a, no_read (k a)) → no_read (ITree.bind t k).
Proof.
  intros Ht Hk ls. rewrite input_bind, (Ht ls), !bind_bind. apply eutt_eq_bind. intros a. rewrite bind_ret_l. apply Hk.
Qed.
Lemma no_read_call {T} (e : sysE T) : (∀ ls, typing T e ls = ITree.bind (ITree.trigger e) (λ r, Ret (ls, r))) → no_read (ITree.trigger e).
Proof. intros He ls. by rewrite typed_call, He. Qed.
Lemma no_read_exit {A} r : no_read (exit (A := A) r).
Proof. apply no_read_bind; [by apply no_read_call|intros []]. Qed.
Lemma no_read_emit bss : no_read (emit bss).
Proof. induction bss; [apply no_read_ret|]. apply no_read_bind; [by apply no_read_call|by intros]. Qed.
End sessions.

Create HintDb noread.
#[export] Hint Resolve no_read_ret no_read_bind no_read_exit no_read_emit : noread.
#[export] Hint Extern 2 (no_read (ITree.trigger _)) => (apply no_read_call; reflexivity) : noread.

Lemma command_no_read W : no_read (command W).
Proof.
  destruct W as [|w args]; cbn [command]; [auto with noread|]. case_decide.
  - destruct args as [|d [|]]; unfold cd, chdir, say; auto with noread. apply no_read_bind; [auto with noread|]. intros r.
    destruct (r <? 0); auto with noread.
  - case_decide; [auto with noread|]. unfold spawn, fork, exec, wait. apply no_read_bind; [auto with noread|]. intros pid.
    destruct (pid =? 0); auto with noread.
Qed.

Section runs.
Context (buf argv lit_cd lit_exit : Z) (L : layout buf argv lit_cd lit_exit).
Implicit Types (ls : list (list Z)) (l : list Z) (t : sh).

Lemma turn_typed t l ls : literals lit_cd lit_exit t → good l →
  ∃ t', literals lit_cd lit_exit t' ∧
    typed (sh_turn buf argv lit_cd lit_exit t) (l :: ls) ≈
      ITree.bind (emit [[36]; [32]]) (λ _, ITree.bind (command (line_words l)) (λ _, Ret (ls, t'))).
Proof.
  intros Li G. destruct (parse_line buf argv lit_cd lit_exit l t L Li G) as (t' & E & P). exists t'. split; [apply P|].
  assert (Et : sh_turn buf argv lit_cd lit_exit t ≈ ITree.bind (emit [[36]; [32]]) (λ _, ITree.bind (ITree.trigger (SRead 0 128)) (λ r,
    ITree.bind (lift (parse FUEL buf argv) (Sh (mwrite (fill 128 (sh_mem t) buf 0) buf (take 128 r.2)) (save t)))
      (λ r, sh_command argv lit_cd lit_exit r.1 r.2)))).
  { unfold sh_turn, read_cmd. rewrite bind_bind, (printf_bind [Lit 36; Lit 32]) by (done || by repeat constructor).
    apply eutt_eq_bind. intros u. rewrite bind_bind. apply eutt_eq_bind. intros r. by rewrite bind_ret_l. }
  rewrite Et, input_bind, (no_read_emit _ _), bind_bind. apply eutt_eq_bind. intros u. rewrite bind_ret_l, input_bind, typed_call.
  cbn [typing fst snd]. rewrite bind_ret_l. cbn [fst snd]. rewrite (lift_ret _ _ _ _ E), bind_ret_l. cbn [fst snd].
  rewrite (sh_command_run _ _ _ _ _ _ L (gd_words _ G) P), input_bind, (command_no_read _ _), bind_bind. apply eutt_eq_bind. intros v.
  by rewrite bind_ret_l, input_ret.
Qed.

Lemma reassoc {A B C} (t : user A) (k : A → user B) (h : B → user C) :
  ITree.bind (ITree.bind t k) h ≈ ITree.bind t (λ x, ITree.bind (k x) h).
Proof. by rewrite bind_bind. Qed.

Lemma main_turn t : sh_main buf argv lit_cd lit_exit t ≈
  ITree.bind (sh_turn buf argv lit_cd lit_exit t) (λ t, sh_main buf argv lit_cd lit_exit t).
Proof.
  unfold sh_main at 1. rewrite unfold_iter, bind_bind. apply eutt_eq_bind. intros t'. rewrite bind_ret_l. apply tau_eutt.
Qed.
End runs.

Module ShellMainProps.

(** C16: the shell. Whatever lines are typed, as long as each has at most 127
    characters and seven words, [main] does what the abstract shell does with their
    words: for each line the prompt, then [chdir] for cd, [exit] for exit,
    and else a [fork] whose child calls [exec] with the words of the line, and
    which the parent waits for; a line without a word does nothing. Its
    memory is then as good as at the start, so that it can go on. *)
Theorem shell_session buf argv lit_cd lit_exit t ls :
  layout buf argv lit_cd lit_exit → literals lit_cd lit_exit t → Forall good ls →
  ∃ t', literals lit_cd lit_exit t' ∧
    typed (sh_main buf argv lit_cd lit_exit t) ls ≈
      ITree.bind (session ls) (λ _, typed (sh_main buf argv lit_cd lit_exit t') []).
Proof.
  intros L Li Hg. revert t Li. induction Hg as [|l ls Hl _ IH]; intros t Li.
  - exists t. split; [done|]. cbn [session]. by rewrite bind_ret_l.
  - destruct (turn_typed _ _ _ _ L t l ls Li Hl) as (t1 & L1 & E1). destruct (IH t1 L1) as (t2 & L2 & E2).
    exists t2. split; [done|]. rewrite main_turn, input_bind, E1, bind_bind. cbn [session].
    etransitivity; [|symmetry; apply reassoc]. apply eutt_eq_bind. intros u.
    rewrite bind_bind. etransitivity; [|symmetry; apply reassoc]. apply eutt_eq_bind. intros v. rewrite bind_ret_l. exact E2.
Qed.

(** The memory of a shell, and the lines "ls /bin" and "cd". *)
Definition fresh : sh := Sh (mwrite (mwrite ∅ 0x1000 (literal "cd")) 0x1008 (literal "exit")) 0.

Lemma shell_session_witness :
  ∃ t', typed (sh_main 0x2000 0x3000 0x1000 0x1008 fresh) [chars "ls /bin" ++ [10]; chars "cd" ++ [10]] ≈
    ITree.bind
      (let! _ := emit [[36]; [32]] in let! _ := spawn (chars "ls") [chars "/bin"] in
       let! _ := emit [[36]; [32]] in let! _ := cd [] in Ret tt)
      (λ _, typed (sh_main 0x2000 0x3000 0x1000 0x1008 t') []).
Proof.
  destruct (shell_session 0x2000 0x3000 0x1000 0x1008 fresh [chars "ls /bin" ++ [10]; chars "cd" ++ [10]]) as (t' & _ & E).
  - split; unfold apart; lia.
  - split; apply (bool_decide_unpack _); vm_compute; exact I.
  - constructor; [|constructor; [|constructor]]; split; (by repeat constructor) || (apply (bool_decide_unpack _); vm_compute; exact I).
  - exists t'. exact E.
Defined.
End ShellMainProps.
